(* ===== verification/_CoqProject ===== *)
-Q . S2P
Prelude.v
RtDef.v
RvcState.v
Robot.v
KService.v
Ffs.v
KState.v
RtList.v
Sched.v
SchedInv.v
SchedThm.v
Object.v
Clock.v
TimerThm.v
Thread.v
KInv.v
Calm.v
MemPool.v
Signal.v
ThreadExit.v
Idle.v
CpuUsage.v
Ipc.v
MemHeap.v
MemHeapLists.v
MemHeapInv.v
IpcWait.v
HeapSpec.v
Dynamic.v
SemThm.v
MemHeapOps.v
MemHeapInit.v
MemHeapThm.v
HeapImpl.v
HeapRoom.v
Timeouts.v
Mutex.v
MutexThm.v
Event.v
EventThm.v
Mailbox.v
MailboxThm.v
DynIpc.v
ThreadLife.v
ThreadEnd.v
MQueue.v
MQueueThm.v
MemPoolThm.v
SignalThm.v
RoundRobin.v
System.v
RingBuffer.v
RingBufferThm.v
Device.v
App.v
Startup.v
StartThm.v
AppThm.v
