(* ===== verification/Prelude.v ===== *)
(** A model of the robot vacuum cleaner of src/RVC_Oses and of the RT-Thread
    kernel that it runs on, with theorems about both.

    * The program

    The application (src/RVC_Oses/applications) is six periodic threads and a
    system thread: one reads a proximity sensor and signals obstacles, one moves
    the robot over a map and takes it home, one watches the battery and the
    garbage bag, one sounds alarms, one controls the brushes, and one stops the
    engine. They synchronise by events that timers send, by signals, mailboxes
    and a mutex. The kernel (src/RVC_Oses/rt-thread: RT-Thread 4.1.0 with
    changes of the project) schedules them by priority on one core. The model
    follows the configuration of rtconfig.h: no SMP, 32 priorities, 100 ticks
    per second, one list of hard timers, signals on, hooks unset. A failed
    [RT_ASSERT] never returns.

    * How the code is modelled

    The state of the kernel is the record [kstate] of KState.v: finite maps from
    identifiers to the records of rtdef.h, and the global variables. A pointer
    to an object is the object's identifier. An intrusive list is the list of
    its members; RtList.v also models the list operations on the pointers
    themselves and proves that the two agree ([list_ops_refine]). Integers are
    [Z], wrapped by [u8], [u16], [u32], [s32] of this file where the code
    stores them.

    A call is a program [prog kstate A] (this file): it ends with a value
    ([Done]), stops ([Fault]: a failed assertion, an access out of bounds, a
    null pointer), or gives up the processor ([Switch s k]): other threads and
    interrupts run from [s], and the call goes on as [k] from whatever state the
    thread is resumed in. Theorems about a call that blocks describe [s]
    completely and [k] for every later state. Loops that wait take [fuel], the
    number of wake-ups in vain or of rounds; what a theorem needs of it is in
    its statement, and at 0 the model faults, so that no theorem holds by
    running out of fuel.

    Code outside of the modelled files is a class of parameters: [SignalOps]
    (the calls of the scheduler into signal.c, given by [signal_ops] of
    Signal.v), [Callbacks] and [Handlers] (functions that the program passes by
    address, given by App.v), [IdleHooks] (the hooks of the idle thread),
    [HeapOps] (rt_malloc and rt_free, given by [memheap_ops] of MemHeap.v),
    [SystemHeap] (the address of _heap), [Layout] (addresses of fields and
    strings that reach the program's behaviour), [Board] (the hardware that
    start-up sets up) and [Environment] (the random generator and the pins).
    What the kernel needs of the heap is the class [HeapSpec] of HeapSpec.v:
    theorems about objects on the heap are proved from its laws, and HeapImpl.v
    proves the laws of the heap of memheap.c ([memheap_spec]).

    * Files

    - RtDef.v: constants. KState.v, RvcState.v: the state.
    - RtList.v: rtservice.h, doubly-linked lists.
    - Sched.v: scheduler.c. SchedInv.v: the invariant of its data ([kinv]).
      SchedThm.v: what [rt_schedule] decides. RoundRobin.v: [rt_thread_yield].
    - Object.v: object.c. Clock.v: clock.c, timer.c, irq.c. TimerThm.v: the
      order of the timers. Timeouts.v: what a tick does to waiting threads, and
      sleeping.
    - Thread.v, ThreadExit.v: thread.c and the dead threads of idle.c. Idle.v:
      the rest of idle.c. CpuUsage.v: cpu_usage.c.
      KInv.v: the invariant of all that threads share ([kok]), and suspending,
      resuming and timing threads.
    - MemPool.v, MemPoolThm.v: mempool.c. Signal.v, SignalThm.v: signal.c.
    - MemHeap.v: memheap.c, the heap on its memory of bytes. MemHeapLists.v: the
      headers in the memory and their two lists. MemHeapInv.v: how the blocks lie
      in the memory. MemHeapOps.v: the steps of the operations. MemHeapInit.v,
      MemHeapThm.v: what the operations promise.
    - HeapSpec.v: the interface of the heap, and objects on it. Dynamic.v: what
      creating and deleting an object leaves as it was. HeapImpl.v: memheap.c
      keeps the interface. HeapRoom.v: when [rt_malloc] succeeds. Calm.v: states
      in which [rt_schedule] changes nothing.
      DynIpc.v: mailboxes on the heap. ThreadLife.v, ThreadEnd.v: threads on the
      heap, from [rt_thread_create] to what the idle thread reclaims.
    - Ipc.v, Mutex.v, Event.v, Mailbox.v, MQueue.v: ipc.c. IpcWait.v: blocking
      and waking, for all of them. SemThm.v, MutexThm.v, EventThm.v,
      MailboxThm.v, MQueueThm.v: what each promises.
    - RingBuffer.v, RingBufferThm.v: components/drivers/src/ringbuffer.c.
    - KService.v, Ffs.v: memory and string routines of kservice.c.
    - System.v: several threads and the tick interrupt of drv_common.c on one
      processor.
    - Device.v: device.c and mock_devices.c. Robot.v: the moves of the robot.
      App.v: the threads, handlers and start-up of the application. AppThm.v:
      what they do with the kernel. Startup.v: components.c, from reset to the
      first thread. StartThm.v: what start-up leaves.

    * What is proved

    The invariants: [kinv] (the ready bitmap, the lists, the states of the
    threads and the current thread agree, no thread is in two lists) and [kok]
    (also, active timers belong to suspended threads). Every theorem about a
    call shows that it keeps them.

    - The whole: threads that take and release semaphores, yield and sleep in any
      order, with ticks between their calls, keep the invariant, and every step
      from a state they reach is defined ([system_safe] of System.v, over the
      relation [step] of machines that save where each thread goes on).
    - Start-up: from reset, whatever the memory holds, [rtthread_startup] reaches
      the main thread with the invariants of the kernel and of the heap in force
      ([rtthread_startup_boots]), on any board whose clock set-up leaves the
      kernel alone and whose drivers return, start no thread, add no second heap
      and leave enough of the heap ([driver_ok], [start_cost]).
    - Scheduling: [rt_schedule] picks the first thread of the highest priority
      and switches to it ([rt_schedule_correct], [rt_schedule_highest]); threads
      of one priority take turns ([yield_round_robin]).
    - Time: timers stay in the order of their deadlines across the wrap-around
      of the tick ([rt_timer_start_correct]); a tick times out exactly the
      threads whose deadline has come ([rt_timer_check_correct]).
    - Refinement: semaphores refine counters ([rt_sem_take_refines],
      [rt_sem_release_refines]), mutexes locks with an owner
      ([rt_mutex_take_refines], [rt_mutex_release_refines]), mailboxes bounded
      queues of words ([rt_mb_send_wait_refines], [rt_mb_recv_refines]), message queues queues of messages, other threads
      running while a message is copied ([rt_mq_send_wait_refines],
      [rt_mq_recv_refines]); events wake exactly the satisfied threads
      ([rt_event_send_correct], [rt_event_recv_correct]). The list of waiting
      threads, the timer and the error are part of each statement.
    - The heap refines an allocator of blocks: first fit with splitting
      ([rt_memheap_alloc_refines]), coalescing ([rt_memheap_free_refines]),
      resizing with the contents kept ([rt_memheap_realloc_correct]), from an
      initial heap ([rt_memheap_init_ok]). The statements are about the bytes of
      the memory: the headers in both lists say what the blocks are, and no byte
      of a used block changes.
    - [rt_malloc] and [rt_free] on the heap of the system implement an allocator
      of blocks, and with it the interface of HeapSpec.v
      ([system_heap_refines]).
    - On the heap, from that interface: [rt_thread_create] makes a thread or
      leaves nothing behind ([rt_thread_create_correct]), the idle thread gives
      back all that the dead threads own ([rt_defunct_execute_correct]), so that
      after the whole life of a thread the kernel is as before
      ([thread_lifecycle]); [rt_mb_delete] wakes everybody and frees both blocks
      ([rt_mb_delete_correct]).
    - A ring buffer is a bounded queue of bytes under any sequence of operations
      ([rt_ringbuffer_refines]), and gives its memory back
      ([rt_ringbuffer_create_destroy]).
    - Round trips: what a message queue takes it gives back
      ([rt_mq_roundtrip]); a pool is the same after a block is taken and freed
      ([rt_mp_roundtrip]).
    - Pools and signals: [rt_mp_alloc_correct]; queued signals are handled in order,
      by handlers that leave the queue alone ([handle_sig_loop_correct]), as those
      of the application do ([app_handlers_sound] of AppThm.v).
    - Routines: [rt_ffs_versions].
    - The robot stays on the map and gets home ([move_correct],
      [return_reaches_home]).
    - What the code does and hardly means to do: [mutex_inherit_address] (a
      priority inherited from the low byte of an address), [rt_memheap_size_wraps],
      [obstacle_before_first_move], [battery_drains], [both_alarms_lost].

    * Not modelled

    The assembly of the context switch (a [Switch] stands for it); interrupts
    in the middle of a call ([step] has them between calls); HAL_IncTick; formatted
    printing (rt_kprintf records its arguments); the small-memory and slab
    allocators, which are not compiled, and the dumps of the heap; the multi-core
    code, the soft timers and the hooks of the kernel, which are not configured;
    the other files of components/drivers/src, which nothing in use calls;
    a second heap (drv_sdram.c adds one when the board has SDRAM: the theorems
    about [rt_malloc] are for the one heap [_heap]);
    the set-up of the hardware, drivers, third-party libraries and the
    other components of RT-Thread. *)
From stdpp Require Export base tactics option list gmap.
From Stdlib Require Export ZArith Lia ZifyBool.

Declare Scope rvc_scope.
Delimit Scope rvc_scope with rvc.
Open Scope rvc_scope.

(** ** Record fields

    [Field p] is the update function of the record field [p]; an instance is
    computed from the eta-expansion of the record by [field_of]. *)
Class Field {R T : Type} (proj : R -> T) := upd : (T -> T) -> R -> R.

Ltac field_of build proj :=
  let e := eval cbv delta [build] in build in
  let p := eval pattern proj in e in
  lazymatch p with
  | ?c _ =>
      let u := constr:(fun (f : _ -> _) r => c (fun x => f (proj x)) r) in
      let u := eval cbv beta in u in
      exact u
  end.

Notation "r <| p := v |>" := (upd (proj := p) (fun _ => v) r)
  (at level 14, left associativity) : rvc_scope.
Notation "r <| p ::= f |>" := (upd (proj := p) f r)
  (at level 14, left associativity) : rvc_scope.

(** ** Programs that can be switched out

    A kernel call runs on the state [S]. It ends with a value ([Done]), stops
    because an assertion of the code fails or its behaviour is undefined
    ([Fault]), or reaches a context switch ([Switch s k]): [s] is the state
    that the next thread sees and [k] is the rest of the call, run on the
    state in which the calling thread is switched in again. *)
Inductive outcome (S A : Type) : Type :=
| Done (a : A) (s : S)
| Switch (s : S) (k : S -> outcome S A)
| Fault.

Arguments Done {S A} a s.
Arguments Switch {S A} s k.
Arguments Fault {S A}.

Definition prog (S A : Type) : Type := S -> outcome S A.

Fixpoint outcome_bind {S A B : Type} (f : A -> prog S B) (o : outcome S A) : outcome S B :=
  match o with
  | Done a s => f a s
  | Switch s k => Switch s (fun s' => outcome_bind f (k s'))
  | Fault => Fault
  end.

#[export] Instance prog_ret S : MRet (prog S) := fun A a s => Done a s.
#[export] Instance prog_bind S : MBind (prog S) := fun A B f m s => outcome_bind f (m s).

Section Primitives.
Context {S : Type}.

Definition get : prog S S := fun s => Done s s.
Definition gets {A} (f : S -> A) : prog S A := fun s => Done (f s) s.
Definition modify (f : S -> S) : prog S unit := fun s => Done tt (f s).
Definition fault {A} : prog S A := fun _ => Fault.
(** [RT_ASSERT]: the handler of a failed assertion never returns. *)
Definition rt_assert (b : bool) : prog S unit := fun s => if b then Done tt s else Fault.
Definition deref {A} (o : option A) : prog S A :=
  fun s => match o with Some a => Done a s | None => Fault end.
Definition when (b : bool) (m : prog S unit) : prog S unit := if b then m else mret tt.
(** The point of a context switch. *)
Definition switch_out : prog S unit := fun s => Switch s (fun s' => Done tt s').
End Primitives.

(** The calls that return without being switched out compute a plain result. *)
Definition returns {S A : Type} (o : outcome S A) (a : A) (s : S) : Prop := o = Done a s.

(** ** Postconditions with a guarantee and a rely

    [wp G R o Q]: the outcome does not fault, every state it switches out in
    satisfies the guarantee [G], and whatever state related by [R] it is
    resumed in, it goes on to a value that satisfies [Q]. *)
Fixpoint wp {S A : Type} (G : S -> Prop) (R : S -> S -> Prop)
    (o : outcome S A) (Q : A -> S -> Prop) : Prop :=
  match o with
  | Done a s => Q a s
  | Switch s k => G s /\ forall s', R s s' -> wp G R (k s') Q
  | Fault => False
  end.

Section WpRules.
Context {S : Type} (G : S -> Prop) (R : S -> S -> Prop).

Lemma wp_mono {A} (o : outcome S A) (Q Q' : A -> S -> Prop) :
  (forall a s, Q a s -> Q' a s) -> wp G R o Q -> wp G R o Q'.
Proof.
  intros HQ. induction o as [a s|s k IH|]; simpl; [auto| |done].
  intros [HG Hk]; split; [done|]. intros s' Hs'. by apply IH, Hk.
Qed.

Lemma wp_outcome_bind {A B} (o : outcome S A) (f : A -> prog S B) Q :
  wp G R o (fun a s => wp G R (f a s) Q) -> wp G R (outcome_bind f o) Q.
Proof.
  induction o as [a s|s k IH|]; simpl; [done| |done].
  intros [HG Hk]; split; [done|]. intros s' Hs'. by apply IH, Hk.
Qed.

Lemma wp_bind {A B} (m : prog S A) (f : A -> prog S B) s Q :
  wp G R (m s) (fun a s' => wp G R (f a s') Q) -> wp G R ((m ≫= f) s) Q.
Proof. apply wp_outcome_bind. Qed.

Lemma wp_ret {A} (a : A) s (Q : A -> S -> Prop) : Q a s -> wp G R (mret (M := prog S) a s) Q.
Proof. done. Qed.

Lemma wp_done {A} (o : outcome S A) a s (Q : A -> S -> Prop) :
  o = Done a s -> Q a s -> wp G R o Q.
Proof. by intros ->. Qed.

Lemma wp_assert b s (Q : unit -> S -> Prop) : b = true -> Q tt s -> wp G R (rt_assert b s) Q.
Proof. by intros ->. Qed.

Lemma wp_deref {A} (o : option A) a s (Q : A -> S -> Prop) :
  o = Some a -> Q a s -> wp G R (deref o s) Q.
Proof. by intros ->. Qed.

Lemma wp_when b m s (Q : unit -> S -> Prop) :
  (b = true -> wp G R (m s) Q) -> (b = false -> Q tt s) -> wp G R (when b m s) Q.
Proof. destruct b; simpl; auto. Qed.

Lemma wp_if {A} (b : bool) (m1 m2 : prog S A) s Q :
  (b = true -> wp G R (m1 s) Q) -> (b = false -> wp G R (m2 s) Q) ->
  wp G R ((if b then m1 else m2) s) Q.
Proof. destruct b; auto. Qed.
End WpRules.

(** An outcome that neither faults nor switches, for any guarantee and rely. *)
Lemma wp_pure_inv {S A} (o : outcome S A) (Q : A -> S -> Prop) :
  wp (fun _ => False) (fun _ _ => True) o Q -> exists a s, o = Done a s /\ Q a s.
Proof. destruct o as [a s|s k|]; simpl; [eauto|by intros [[] _]|done]. Qed.

(** Sequencing a call that returns. *)
Lemma bind_done {S A B} (m : prog S A) (f : A -> prog S B) s a s' :
  m s = Done a s' -> (m ≫= f) s = f a s'.
Proof. intros H. unfold mbind, prog_bind. by rewrite H. Qed.

Lemma bind_gets {S A B} (g : S -> A) (f : A -> prog S B) s : (gets g ≫= f) s = f (g s) s.
Proof. done. Qed.

(** [steps] holds what the primitive calls return where they succeed; [kstep]
    runs the first call of a program with them. *)
Create HintDb steps.
Ltac kstep := erewrite bind_done by (solve [eauto 3 with steps | reflexivity]); cbv beta iota.
Ltac ksteps := repeat kstep.

(** ** Machine integers *)
Local Open Scope Z_scope.

Definition wrap (w x : Z) : Z := x mod 2 ^ w.
Definition u8 : Z -> Z := wrap 8.
Definition u16 : Z -> Z := wrap 16.
Definition u32 : Z -> Z := wrap 32.
(** Two's complement reading of the low [w] bits. *)
Definition swrap (w x : Z) : Z :=
  let y := x mod 2 ^ w in if Z.ltb y (2 ^ (w - 1)) then y else (y - 2 ^ w)%Z.
Definition s16 : Z -> Z := swrap 16.
Definition s32 : Z -> Z := swrap 32.
(** C truth value of an integer. *)
Definition nz (x : Z) : bool := negb (x =? 0)%Z.

Lemma u32_small x : 0 <= x < 2 ^ 32 -> u32 x = x.
Proof. intros Hx. unfold u32, wrap. by apply Z.mod_small. Qed.
Lemma u16_small x : 0 <= x < 65536 -> u16 x = x.
Proof. intros Hx. unfold u16, wrap. by apply Z.mod_small. Qed.

(** ** Lists *)
Lemma filter_all {A} (P : A -> Prop) `{forall x, Decision (P x)} (l : list A) :
  (forall x, x ∈ l -> P x) -> filter P l = l.
Proof.
  induction l as [|x l IH]; intros HP; [done|]. rewrite filter_cons, decide_True by (apply HP; by left).
  f_equal. apply IH. intros y Hy. apply HP. by right.
Qed.

Lemma filter_ext_in {A} (P Q : A -> Prop) `{forall x, Decision (P x)} `{forall x, Decision (Q x)} (l : list A) :
  (forall x, x ∈ l -> P x <-> Q x) -> filter P l = filter Q l.
Proof.
  induction l as [|x l IH]; intros HPQ; [done|]. rewrite !filter_cons.
  pose proof (HPQ x ltac:(set_solver)) as Hx. rewrite IH by set_solver.
  destruct (decide (P x)), (decide (Q x)); (done || tauto).
Qed.
