(* ===== verification/RtDef.v ===== *)
(** Constants of rt-thread/include/rtdef.h and rtconfig.h, at their values in
    the configuration of the repository (rtconfig.h: no SMP, 32 priorities,
    100 ticks per second, hooks and signals enabled). *)
From S2P Require Export Prelude.
Local Open Scope Z_scope.

(** *** Error codes; the functions return [RT_EOK] or a negated code. *)
Definition RT_EOK : Z := 0.
Definition RT_ERROR : Z := 1.
Definition RT_ETIMEOUT : Z := 2.
Definition RT_EFULL : Z := 3.
Definition RT_ENOSYS : Z := 6.
Definition RT_EINTR : Z := 9.
Definition RT_EINVAL : Z := 10.

(** *** Limits *)
Definition RT_NAME_MAX : nat := 8.
Definition RT_THREAD_PRIORITY_MAX : Z := 32.
Definition RT_TICK_PER_SECOND : Z := 100.
Definition RT_TICK_MAX : Z := 0xffffffff.
Definition RT_SEM_VALUE_MAX : Z := 0xffff.
Definition RT_MUTEX_VALUE_MAX : Z := 0xffff.
Definition RT_MUTEX_HOLD_MAX : Z := 0xff.
Definition RT_MB_ENTRY_MAX : Z := 0xffff.
Definition RT_MQ_ENTRY_MAX : Z := 0xffff.
Definition RT_ALIGN_SIZE : Z := 4.
Definition RT_ALIGN (size align : Z) : Z := Z.land (u32 (size + align - 1)) (Z.lnot (align - 1)).
Definition RT_ALIGN_DOWN (size align : Z) : Z := Z.land size (Z.lnot (align - 1)).
Lemma align_down_eq x k : 0 <= k -> RT_ALIGN_DOWN x (2 ^ k) = x - x mod 2 ^ k.
Proof.
  intros Hk. unfold RT_ALIGN_DOWN.
  replace (2 ^ k - 1) with (Z.ones k) by (rewrite Z.ones_equiv; lia).
  rewrite <- Z.ldiff_land, Z.ldiff_ones_r, Z.shiftr_div_pow2, Z.shiftl_mul_pow2 by done.
  pose proof (Z.div_mod x (2 ^ k)). lia.
Qed.

(** *** Object classes *)
Definition RT_Object_Class_Null : Z := 0x00.
Definition RT_Object_Class_Thread : Z := 0x01.
Definition RT_Object_Class_Semaphore : Z := 0x02.
Definition RT_Object_Class_Mutex : Z := 0x03.
Definition RT_Object_Class_Event : Z := 0x04.
Definition RT_Object_Class_MailBox : Z := 0x05.
Definition RT_Object_Class_MessageQueue : Z := 0x06.
Definition RT_Object_Class_MemHeap : Z := 0x07.
Definition RT_Object_Class_MemPool : Z := 0x08.
Definition RT_Object_Class_Device : Z := 0x09.
Definition RT_Object_Class_Timer : Z := 0x0a.
Definition RT_Object_Class_Static : Z := 0x80.

(** *** Timers *)
Definition RT_TIMER_FLAG_DEACTIVATED : Z := 0x0.
Definition RT_TIMER_FLAG_ACTIVATED : Z := 0x1.
Definition RT_TIMER_FLAG_ONE_SHOT : Z := 0x0.
Definition RT_TIMER_FLAG_PERIODIC : Z := 0x2.
Definition RT_TIMER_CTRL_SET_TIME : Z := 0x0.
Definition RT_TIMER_CTRL_GET_TIME : Z := 0x1.
Definition RT_TIMER_CTRL_SET_ONESHOT : Z := 0x2.
Definition RT_TIMER_CTRL_SET_PERIODIC : Z := 0x3.
Definition RT_TIMER_CTRL_GET_STATE : Z := 0x4.

(** *** Threads *)
Definition RT_THREAD_INIT : Z := 0x00.
Definition RT_THREAD_READY : Z := 0x01.
Definition RT_THREAD_SUSPEND : Z := 0x02.
Definition RT_THREAD_RUNNING : Z := 0x03.
Definition RT_THREAD_CLOSE : Z := 0x04.
Definition RT_THREAD_STAT_MASK : Z := 0x07.
Definition RT_THREAD_STAT_YIELD : Z := 0x08.
Definition RT_THREAD_STAT_YIELD_MASK : Z := RT_THREAD_STAT_YIELD.
Definition RT_THREAD_STAT_SIGNAL : Z := 0x10.
Definition RT_THREAD_STAT_SIGNAL_WAIT : Z := 0x20.
Definition RT_THREAD_STAT_SIGNAL_PENDING : Z := 0x40.
Definition RT_THREAD_STAT_SIGNAL_MASK : Z := 0xf0.
Definition RT_THREAD_CTRL_STARTUP : Z := 0x00.
Definition RT_THREAD_CTRL_CLOSE : Z := 0x01.
Definition RT_THREAD_CTRL_CHANGE_PRIORITY : Z := 0x02.

(** *** Inter-thread communication *)
Definition RT_IPC_FLAG_FIFO : Z := 0x00.
Definition RT_IPC_FLAG_PRIO : Z := 0x01.
Definition RT_IPC_CMD_RESET : Z := 0x01.
Definition RT_WAITING_FOREVER : Z := -1.
Definition RT_WAITING_NO : Z := 0.
Definition RT_EVENT_FLAG_AND : Z := 0x01.
Definition RT_EVENT_FLAG_OR : Z := 0x02.
Definition RT_EVENT_FLAG_CLEAR : Z := 0x04.

(** *** Signals *)
Definition RT_SIG_MAX : Z := 32.

(** *** Devices *)
Definition RT_Device_Class_Mock : Z := 25.
Definition RT_DEVICE_FLAG_RDWR : Z := 0x003.
Definition RT_DEVICE_FLAG_ACTIVATED : Z := 0x010.
Definition RT_DEVICE_FLAG_STANDALONE : Z := 0x008.
Definition RT_DEVICE_OFLAG_CLOSE : Z := 0x000.
Definition RT_DEVICE_OFLAG_OPEN : Z := 0x008.
Definition RT_DEVICE_OFLAG_MASK : Z := 0xf0f.

(** [x & ~m] on an unsigned integer. *)
Definition clear_bits (x m : Z) : Z := Z.land x (Z.lnot m).
(** [x & m] used as a truth value. *)
Definition has_bits (x m : Z) : bool := nz (Z.land x m).
