(* ===== verification/RvcState.v ===== *)
(** The global variables of the application (applications/tasks.c, tasks.h,
    system.h, main.c, structures.h, cpu_usage.c), the state of the simulated devices
    (components/drivers/mock_devices/mock_devices.c) and what the program
    sends to its environment. *)
From stdpp Require Export strings.
From S2P Require Export RtDef.
Local Open Scope Z_scope.

(** [enum directions] of tasks.h *)
Inductive directions := UP | DOWN | LEFT | RIGHT | RETURN.
#[export] Instance directions_eq_dec : EqDecision directions.
Proof. solve_decision. Defined.

(** The strings of tasks.c whose addresses travel through the mailboxes. *)
Inductive mstr := mb_str1 | mb_str2 | mb_str3 | mb_str4 | mb_str5.
#[export] Instance mstr_eq_dec : EqDecision mstr.
Proof. solve_decision. Defined.

Definition mstr_text (m : mstr) : string :=
  match m with
  | mb_str1 => "Garbage bag full" | mb_str2 => "Battery Low"
  | mb_str3 => "Battery status is critical" | mb_str4 => "Come back home"
  | mb_str5 => "Turn on brushes"
  end.

(** What reaches the outside: the console (format and arguments, without the
    white space around the text), the pins, the engine and the speaker. *)
Inductive output :=
| OPrint (format : string) (args : list Z)
| OPinMode (pin mode : Z)
| OPinWrite (pin value : Z)
| OSpeaker (text : string).

(** The devices of mock_devices.c, by the [rt_device_ops] that they get. *)
Inductive mock := Mproximity_sensor | Mengine | Mgarbage_bag | Mspeaker.
#[export] Instance mock_eq_dec : EqDecision mock.
Proof. solve_decision. Defined.

(** [struct rt_device], less the object header *)
Record rt_device := RtDevice {
  dv_ops : option mock;                      (* RT_NULL: none *)
  dv_type : Z; dv_flag : Z; dv_open_flag : Z; ref_count : Z }.

Record rvc_state := RvcState {
  rv_map : gmap (Z * Z) Z;                   (* map[MAP_SIDE][MAP_SIDE] *)
  position0 : Z; position1 : Z;              (* position[2] *)
  direction : directions;
  batteryStatus : Z; garbageBagStatus : Z;
  startingTime : Z; turnOffFlag : Z;
  proximity_sensor : option positive; engine : option positive;
  garbage_bag : option positive; speaker : option positive;
  stopped : Z;                               (* of engine_write *)
  garbage_bag_value : Z;
  cpu_usage_major : Z; cpu_usage_minor : Z;  (* of cpu_usage.c *)
  total_count : Z }.

Definition eta_device (r : rt_device) :=
  RtDevice (dv_ops r) (dv_type r) (dv_flag r) (dv_open_flag r) (ref_count r).
#[export] Instance F_dv_ops : Field dv_ops := ltac:(field_of eta_device dv_ops).
#[export] Instance F_dv_flag : Field dv_flag := ltac:(field_of eta_device dv_flag).
#[export] Instance F_dv_open_flag : Field dv_open_flag := ltac:(field_of eta_device dv_open_flag).
#[export] Instance F_ref_count : Field ref_count := ltac:(field_of eta_device ref_count).

Definition eta_rvc (r : rvc_state) := RvcState (rv_map r) (position0 r) (position1 r)
  (direction r) (batteryStatus r) (garbageBagStatus r) (startingTime r) (turnOffFlag r)
  (proximity_sensor r) (engine r) (garbage_bag r) (speaker r) (stopped r) (garbage_bag_value r)
  (cpu_usage_major r) (cpu_usage_minor r) (total_count r).
#[export] Instance F_rv_map : Field rv_map := ltac:(field_of eta_rvc rv_map).
#[export] Instance F_position0 : Field position0 := ltac:(field_of eta_rvc position0).
#[export] Instance F_position1 : Field position1 := ltac:(field_of eta_rvc position1).
#[export] Instance F_direction : Field direction := ltac:(field_of eta_rvc direction).
#[export] Instance F_batteryStatus : Field batteryStatus := ltac:(field_of eta_rvc batteryStatus).
#[export] Instance F_garbageBagStatus : Field garbageBagStatus :=
  ltac:(field_of eta_rvc garbageBagStatus).
#[export] Instance F_startingTime : Field startingTime := ltac:(field_of eta_rvc startingTime).
#[export] Instance F_turnOffFlag : Field turnOffFlag := ltac:(field_of eta_rvc turnOffFlag).
#[export] Instance F_proximity_sensor : Field proximity_sensor :=
  ltac:(field_of eta_rvc proximity_sensor).
#[export] Instance F_engine : Field engine := ltac:(field_of eta_rvc engine).
#[export] Instance F_garbage_bag : Field garbage_bag := ltac:(field_of eta_rvc garbage_bag).
#[export] Instance F_speaker : Field speaker := ltac:(field_of eta_rvc speaker).
#[export] Instance F_stopped : Field stopped := ltac:(field_of eta_rvc stopped).
#[export] Instance F_garbage_bag_value : Field garbage_bag_value :=
  ltac:(field_of eta_rvc garbage_bag_value).
#[export] Instance F_cpu_usage_major : Field cpu_usage_major :=
  ltac:(field_of eta_rvc cpu_usage_major).
#[export] Instance F_cpu_usage_minor : Field cpu_usage_minor :=
  ltac:(field_of eta_rvc cpu_usage_minor).
#[export] Instance F_total_count : Field total_count := ltac:(field_of eta_rvc total_count).
