(* ===== verification/Robot.v ===== *)
(** The movement of the robot: the map, the position and the direction of
    applications/tasks.c.

    The functions work on the global variables and fail ([None]) on an access
    outside of the array [map]. *)
From S2P Require Export RvcState.
Local Open Scope Z_scope.

Definition MAP_SIDE : Z := 10.
Definition map_read (r : rvc_state) (i j : Z) : option Z := rv_map r !! (i, j).
(** [map[i][j] = v] *)
Definition map_write (i j v : Z) (r : rvc_state) : option rvc_state :=
  _ ← rv_map r !! (i, j); Some (r <| rv_map ::= <[(i, j) := v]> |>).

(** [guard && map[i][j] != 1], the map being read only if the guard holds *)
Definition free_if (guard : bool) (r : rvc_state) (i j : Z) : option bool :=
  if guard then v ← map_read r i j; Some (negb (v =? 1)) else Some false.

Definition is_dir (d : directions) (r : rvc_state) : bool := bool_decide (direction r = d).

Definition can_up (r : rvc_state) (g : bool) : option bool :=
  free_if (g && (0 <? position0 r)) r (position0 r - 1) (position1 r).
Definition can_down (r : rvc_state) (g : bool) : option bool :=
  free_if (g && (position0 r <? MAP_SIDE - 1)) r (position0 r + 1) (position1 r).
Definition can_left (r : rvc_state) (g : bool) : option bool :=
  free_if (g && (0 <? position1 r)) r (position0 r) (position1 r - 1).
Definition can_right (r : rvc_state) (g : bool) : option bool :=
  free_if (g && (position1 r <? MAP_SIDE - 1)) r (position0 r) (position1 r + 1).

Definition step_up (r : rvc_state) : rvc_state := r <| position0 ::= (fun x => x - 1) |>.
Definition step_down (r : rvc_state) : rvc_state := r <| position0 ::= (fun x => x + 1) |>.
Definition step_left (r : rvc_state) : rvc_state := r <| position1 ::= (fun x => x - 1) |>.
Definition step_right (r : rvc_state) : rvc_state := r <| position1 ::= (fun x => x + 1) |>.

Definition find_new_position (r : rvc_state) : option (Z * rvc_state) :=
  up ← can_up r (negb (is_dir DOWN r));
  if (up : bool) then Some (0, step_up r <| direction := UP |>) else
  down ← can_down r (negb (is_dir UP r));
  if (down : bool) then Some (0, step_down r <| direction := DOWN |>) else
  left_ ← can_left r (negb (is_dir RIGHT r));
  if (left_ : bool) then Some (0, step_left r <| direction := LEFT |>) else
  right_ ← can_right r (negb (is_dir LEFT r));
  if (right_ : bool) then Some (0, step_right r <| direction := RIGHT |>) else
  Some (1, r).

(** The reaction to an obstacle: the tile is marked and the robot is back on
    the tile it came from. *)
Definition obstacle_reaction (r : rvc_state) : option rvc_state :=
  r ← map_write (position0 r) (position1 r) 1 r;
  Some match direction r with
       | UP => step_down r
       | DOWN => step_up r
       | LEFT => step_right r
       | RIGHT => step_left r
       | RETURN => r
       end.

(** The [switch] of [movement_control_entry]; [stuck] keeps its value where the
    code does not assign it. *)
Definition move (stuck : Z) (r : rvc_state) : option (Z * rvc_state) :=
  let go can step :=
    ok ← can r true;
    if (ok : bool) then Some (stuck, step r) else find_new_position r in
  match direction r with
  | UP => go can_up step_up
  | DOWN => go can_down step_down
  | LEFT => go can_left step_left
  | RIGHT => go can_right step_right
  | RETURN =>
      Some (stuck, if 0 <? position0 r then step_up r
                   else if 0 <? position1 r then step_left r else r)
  end.

(** The start of [movement_control_entry]. *)
Definition all_tiles : list (Z * Z) :=
  i ← seqZ 0 MAP_SIDE; j ← seqZ 0 MAP_SIDE; [(i, j)].
Definition empty_map : gmap (Z * Z) Z := list_to_map ((fun ij => (ij, 0)) <$> all_tiles).
Definition movement_init (r : rvc_state) : rvc_state :=
  r <| position0 := 0 |> <| position1 := 0 |> <| direction := DOWN |> <| rv_map := empty_map |>.

Definition at_home (r : rvc_state) : bool :=
  is_dir RETURN r && (position0 r =? 0) && (position1 r =? 0).

(** ** The robot stays on the map *)
Definition on_map (i j : Z) : Prop := 0 <= i < MAP_SIDE /\ 0 <= j < MAP_SIDE.
Definition map_wf (m : gmap (Z * Z) Z) : Prop :=
  forall i j, is_Some (m !! (i, j)) <-> on_map i j.
Definition robot_wf (r : rvc_state) : Prop :=
  on_map (position0 r) (position1 r) /\ map_wf (rv_map r).

(** The tile at [(i, j)] can be entered. *)
Definition open_tile (r : rvc_state) (i j : Z) : Prop :=
  on_map i j /\ map_read r i j <> Some 1.
Definition ahead (d : directions) (i j : Z) : Z * Z :=
  match d with
  | UP => (i - 1, j) | DOWN => (i + 1, j) | LEFT => (i, j - 1) | RIGHT => (i, j + 1)
  | RETURN => (i, j)
  end.
Definition opposite (d : directions) : directions :=
  match d with UP => DOWN | DOWN => UP | LEFT => RIGHT | RIGHT => LEFT | RETURN => RETURN end.
Definition can_go (d : directions) (r : rvc_state) : Prop :=
  open_tile r (fst (ahead d (position0 r) (position1 r))) (snd (ahead d (position0 r) (position1 r))).
(** [r'] is [r] after one step in the direction [d]. *)
Definition stepped (d : directions) (r r' : rvc_state) : Prop :=
  (position0 r', position1 r') = ahead d (position0 r) (position1 r) /\ direction r' = d /\
  r' = r <| position0 := position0 r' |> <| position1 := position1 r' |> <| direction := d |>.

#[export] Instance open_tile_dec r i j : Decision (open_tile r i j).
Proof. unfold open_tile, on_map. apply _. Defined.
#[export] Instance can_go_dec d r : Decision (can_go d r).
Proof. unfold can_go. apply _. Defined.

Lemma free_if_eq r g i j :
  map_wf (rv_map r) -> (g = true -> on_map i j) ->
  free_if g r i j = Some (g && bool_decide (open_tile r i j)).
Proof.
  intros Hm Hg. unfold free_if. destruct g; [|done]. specialize (Hg eq_refl).
  destruct (proj2 (Hm i j) Hg) as [v Hv]. unfold map_read at 1. rewrite Hv. simpl. f_equal.
  destruct (Z.eqb_spec v 1) as [->|Hne]; symmetry; simpl.
  - apply bool_decide_eq_false. intros [_ H]. by apply H.
  - apply bool_decide_eq_true. split; [done|]. unfold map_read. congruence.
Qed.

Ltac on_map_lia := unfold robot_wf, open_tile, on_map, MAP_SIDE in *; simpl in *; lia.

Lemma can_up_eq r g : robot_wf r -> can_up r g = Some (g && bool_decide (can_go UP r)).
Proof.
  intros [Hp Hm]. unfold can_up. rewrite free_if_eq; [|done|on_map_lia].
  unfold can_go. simpl. f_equal. destruct (0 <? position0 r) eqn:E; [by rewrite andb_true_r|].
  rewrite andb_false_r. symmetry. apply andb_false_iff. right. apply bool_decide_eq_false. on_map_lia.
Qed.
Lemma can_down_eq r g : robot_wf r -> can_down r g = Some (g && bool_decide (can_go DOWN r)).
Proof.
  intros [Hp Hm]. unfold can_down. rewrite free_if_eq; [|done|on_map_lia].
  unfold can_go. simpl. f_equal.
  destruct (position0 r <? MAP_SIDE - 1) eqn:E; [by rewrite andb_true_r|].
  rewrite andb_false_r. symmetry. apply andb_false_iff. right. apply bool_decide_eq_false. on_map_lia.
Qed.
Lemma can_left_eq r g : robot_wf r -> can_left r g = Some (g && bool_decide (can_go LEFT r)).
Proof.
  intros [Hp Hm]. unfold can_left. rewrite free_if_eq; [|done|on_map_lia].
  unfold can_go. simpl. f_equal. destruct (0 <? position1 r) eqn:E; [by rewrite andb_true_r|].
  rewrite andb_false_r. symmetry. apply andb_false_iff. right. apply bool_decide_eq_false. on_map_lia.
Qed.
Lemma can_right_eq r g : robot_wf r -> can_right r g = Some (g && bool_decide (can_go RIGHT r)).
Proof.
  intros [Hp Hm]. unfold can_right. rewrite free_if_eq; [|done|on_map_lia].
  unfold can_go. simpl. f_equal.
  destruct (position1 r <? MAP_SIDE - 1) eqn:E; [by rewrite andb_true_r|].
  rewrite andb_false_r. symmetry. apply andb_false_iff. right. apply bool_decide_eq_false. on_map_lia.
Qed.

(** The direction that [find_new_position] chooses: the first open one of UP,
    DOWN, LEFT and RIGHT that does not go back. *)
Definition turn_order : list directions := [UP; DOWN; LEFT; RIGHT].
Definition turns_to (r : rvc_state) (d : directions) : Prop :=
  direction r <> opposite d /\ can_go d r.
#[export] Instance turns_to_dec r d : Decision (turns_to r d).
Proof. unfold turns_to. apply _. Defined.

Lemma is_dir_guard d r : negb (is_dir d r) = bool_decide (direction r <> d).
Proof. unfold is_dir. by rewrite bool_decide_not. Qed.

Lemma find_new_position_eq r :
  robot_wf r ->
  find_new_position r =
    match find (fun d => bool_decide (turns_to r d)) turn_order with
    | Some UP => Some (0, step_up r <| direction := UP |>)
    | Some DOWN => Some (0, step_down r <| direction := DOWN |>)
    | Some LEFT => Some (0, step_left r <| direction := LEFT |>)
    | Some RIGHT => Some (0, step_right r <| direction := RIGHT |>)
    | _ => Some (1, r)
    end.
Proof.
  intros Hw. unfold find_new_position.
  rewrite can_up_eq, can_down_eq, can_left_eq, can_right_eq by done. rewrite !is_dir_guard.
  rewrite <- !bool_decide_and. unfold turn_order, turns_to. simpl.
  repeat case_bool_decide; done.
Qed.

(** [d] is a step of the robot: [find] found it or it is straight on. *)
Lemma step_wf d r r' : robot_wf r -> can_go d r -> stepped d r r' -> robot_wf r'.
Proof.
  intros [_ Hm] Hg (Hp & _ & E). unfold can_go, open_tile in Hg. rewrite <- Hp in Hg. simpl in Hg.
  split; [apply Hg|]. rewrite E. done.
Qed.

Lemma stepped_up r : stepped UP r (step_up r <| direction := UP |>).
Proof. by destruct r. Qed.
Lemma stepped_down r : stepped DOWN r (step_down r <| direction := DOWN |>).
Proof. by destruct r. Qed.
Lemma stepped_left r : stepped LEFT r (step_left r <| direction := LEFT |>).
Proof. by destruct r. Qed.
Lemma stepped_right r : stepped RIGHT r (step_right r <| direction := RIGHT |>).
Proof. by destruct r. Qed.

Lemma find_new_position_spec r :
  robot_wf r ->
  (exists d r', find_new_position r = Some (0, r') /\ d <> RETURN /\ turns_to r d /\ stepped d r r') \/
  (find_new_position r = Some (1, r) /\ forall d, d <> RETURN -> ~ turns_to r d).
Proof.
  intros Hw. rewrite find_new_position_eq by done.
  destruct (find _ turn_order) as [d|] eqn:E.
  - apply find_some in E as [Hin Ht%bool_decide_eq_true]. left.
    destruct d; [exists UP|exists DOWN|exists LEFT|exists RIGHT|exfalso; naive_solver];
      eexists; (split; [done|]); (split; [done|]); (split; [done|]); by destruct r.
  - right. split; [done|]. intros d Hd Ht.
    pose proof (find_none _ _ E d) as Hn. rewrite bool_decide_eq_false in Hn. apply Hn; [|done].
    destruct d; simpl; tauto.
Qed.

(** *** Properties *)
Lemma straight_step r :
  direction r <> RETURN ->
  exists r', stepped (direction r) r r' /\
    r' = match direction r with
         | UP => step_up r | DOWN => step_down r | LEFT => step_left r | _ => step_right r
         end.
Proof. intros Hd. eexists. split; [|done]. unfold stepped. destruct r as [? ? ? []]; done. Qed.

Lemma move_go_ahead stuck r :
  robot_wf r -> direction r <> RETURN -> can_go (direction r) r ->
  exists r', move stuck r = Some (stuck, r') /\ stepped (direction r) r r'.
Proof.
  intros Hw Hd Hg. destruct (straight_step r Hd) as (r' & Hs & E). exists r'. split; [|done].
  unfold move. rewrite can_up_eq, can_down_eq, can_left_eq, can_right_eq by done.
  destruct (direction r); simpl; rewrite ?bool_decide_true by done; congruence.
Qed.

Lemma move_turn stuck r :
  robot_wf r -> direction r <> RETURN -> ~ can_go (direction r) r ->
  move stuck r = find_new_position r.
Proof.
  intros Hw Hd Hg. unfold move. rewrite can_up_eq, can_down_eq, can_left_eq, can_right_eq by done.
  destruct (direction r); simpl; by rewrite ?bool_decide_false by done.
Qed.

(** The way home leads up and then to the left, over whatever tiles there are. *)
Lemma move_home stuck r :
  robot_wf r -> direction r = RETURN ->
  exists r', move stuck r = Some (stuck, r') /\ robot_wf r' /\
    r' = (if 0 <? position0 r then step_up r else if 0 <? position1 r then step_left r else r) /\
    (position0 r', position1 r') = (if 0 <? position0 r then (position0 r - 1, position1 r)
                                    else (position0 r, if 0 <? position1 r then position1 r - 1 else position1 r)).
Proof.
  intros [[H0 H1] Hm] Hd. unfold move. rewrite Hd. eexists. split; [done|].
  destruct (Z.ltb_spec 0 (position0 r)); [|destruct (Z.ltb_spec 0 (position1 r))];
    (split; [split; [split; unfold MAP_SIDE in *; simpl; lia|exact Hm]|by split]).
Qed.

(** C35. A move of the robot (the [switch] of [movement_control_entry]) never
    reads outside of the map, and the robot stays on the map. In a direction
    other than RETURN it goes straight on to the next tile when that tile is on
    the map and is no obstacle, keeping [stuck]; otherwise it turns to an open
    tile that is not the one it came from, and clears [stuck]; when there is none
    it stays where it is, even if it could go back, and sets [stuck]. In the
    direction RETURN it goes one tile up, or to the left from the first row, or
    stays on the tile (0, 0), whatever the tiles hold, keeping [stuck]. *)
Theorem move_correct stuck r :
  robot_wf r ->
  exists s' r', move stuck r = Some (s', r') /\ robot_wf r' /\
    if is_dir RETURN r
    then s' = stuck /\
      r' = (if 0 <? position0 r then step_up r else if 0 <? position1 r then step_left r else r) /\
      (position0 r', position1 r') = (if 0 <? position0 r then (position0 r - 1, position1 r)
                                      else (position0 r, if 0 <? position1 r then position1 r - 1 else position1 r))
    else
      (can_go (direction r) r /\ s' = stuck /\ stepped (direction r) r r') \/
      (~ can_go (direction r) r /\ s' = 0 /\
         exists d, d <> RETURN /\ direction r <> opposite d /\ can_go d r /\ stepped d r r') \/
      (s' = 1 /\ r' = r /\ forall d, d <> RETURN -> direction r = opposite d \/ ~ can_go d r).
Proof.
  intros Hw. unfold is_dir. case_bool_decide as Hd.
  { destruct (move_home stuck r Hw Hd) as (r' & E & Hw' & Hr). by exists stuck, r'. }
  destruct (decide (can_go (direction r) r)) as [Hg|Hg].
  - destruct (move_go_ahead stuck r Hw Hd Hg) as (r' & E & Hs). exists stuck, r'.
    split; [done|]. split; [by eapply step_wf|]. by left.
  - rewrite (move_turn stuck r Hw Hd Hg).
    destruct (find_new_position_spec r Hw) as [(d & r' & E & Hdr & [Ho Hc] & Hs)|[E Hn]].
    + exists 0, r'. split; [done|]. split; [by eapply step_wf|]. right. left. eauto 10.
    + exists 1, r. split; [done|]. split; [done|]. right. right. split; [done|]. split; [done|].
      intros d Hdr. destruct (decide (direction r = opposite d)); [by left|right].
      intros Hc. by apply (Hn d).
Qed.

Lemma empty_map_wf : map_wf empty_map.
Proof.
  assert (H : forallb (fun i => forallb (fun j =>
     bool_decide (is_Some (empty_map !! (i, j)))) (seqZ 0 10)) (seqZ 0 10) = true).
  { vm_compute. reflexivity. }
  assert (HD : forallb (fun ij => let '(i, j) := ij in
     (0 <=? i) && (i <? 10) && (0 <=? j) && (j <? 10)) ((map_to_list empty_map).*1) = true).
  { vm_compute. reflexivity. }
  intros i j. unfold on_map, MAP_SIDE. split.
  - intros [v Hv]. rewrite forallb_forall in HD. specialize (HD (i, j)). rewrite <- list_elem_of_In in HD.
    ospecialize (HD _); [|lia]. apply list_elem_of_fmap. exists (i, j, v).
    split; [done|]. by apply elem_of_map_to_list.
  - intros Hij. rewrite forallb_forall in H. specialize (H i). rewrite <- list_elem_of_In, elem_of_seqZ in H.
    specialize (H ltac:(lia)). rewrite forallb_forall in H. specialize (H j).
    rewrite <- list_elem_of_In, elem_of_seqZ in H. specialize (H ltac:(lia)).
    by apply bool_decide_eq_true in H.
Qed.

Lemma movement_init_wf r : robot_wf (movement_init r).
Proof. split; [done|]. apply empty_map_wf. Qed.

(** A state of the globals for examples. *)
Definition rvc0 : rvc_state :=
  movement_init (RvcState ∅ 0 0 DOWN 100 0 0 0 None None None None 1 0 0 0 0).

Lemma move_rvc0 : move 0 rvc0 = Some (0, step_down rvc0).
Proof. vm_compute. reflexivity. Qed.

Lemma move_correct_witness :
  robot_wf rvc0 /\ exists s' r', move 0 rvc0 = Some (s', r') /\ robot_wf r'.
Proof.
  split; [apply movement_init_wf|].
  destruct (move_correct 0 rvc0) as (s' & r' & E & Hw & _); [apply movement_init_wf|].
  exists s', r'. split; [exact E|exact Hw].
Defined.

(** An obstacle reported after a move undoes it: the handler marks the tile
    that the robot had entered as an obstacle and takes the robot back to the
    tile it came from, without leaving the map. *)
Theorem obstacle_undoes_move stuck r s' r' :
  robot_wf r -> direction r <> RETURN ->
  move stuck r = Some (s', r') -> (position0 r', position1 r') <> (position0 r, position1 r) ->
  exists r'', obstacle_reaction r' = Some r'' /\ robot_wf r'' /\
    position0 r'' = position0 r /\ position1 r'' = position1 r /\
    rv_map r'' = <[(position0 r', position1 r') := 1]> (rv_map r) /\
    ~ can_go (direction r'') r''.
Proof.
  intros Hw Hd Hm Hne.
  assert (H : exists d, d <> RETURN /\ can_go d r /\ stepped d r r').
  { destruct (decide (can_go (direction r) r)) as [Hg|Hg].
    - destruct (move_go_ahead stuck r Hw Hd Hg) as (? & E & Hs). simplify_eq. eauto.
    - rewrite (move_turn stuck r Hw Hd Hg) in Hm.
      destruct (find_new_position_spec r Hw) as [(d & ? & E & Hdr & [_ Hc] & Hs)|[E _]];
        simplify_eq; eauto. }
  destruct H as (d & Hdr & Hg & Hs). pose proof (step_wf d r r' Hw Hg Hs) as [Hp' Hm'].
  destruct Hs as (Hp & Hdir & E). destruct (proj2 (Hm' _ _) Hp') as [v Hv].
  set (m := <[(position0 r', position1 r') := 1]> (rv_map r)).
  exists (r' <| rv_map := m |> <| position0 := position0 r |> <| position1 := position1 r |>).
  assert (Er : rv_map r' = rv_map r) by (by rewrite E).
  assert (Hwf : map_wf m).
  { intros i j. unfold m. rewrite lookup_insert_is_Some'. rewrite Er in Hm'. rewrite (Hm' i j).
    split; [|by right]. intros [[= <- <-]|]; done. }
  split; [|split; [exact (conj (proj1 Hw) Hwf)|split; [done|split; [done|split; [done|]]]]].
  - unfold obstacle_reaction, map_write. rewrite Hv. subst m. clear -Hp E Hdr Hdir.
    destruct r, r'; simpl in *. subst. injection E as -> -> -> -> -> -> -> -> -> -> ->.
    f_equal. destruct d; simpl in *; try done; injection Hp as -> ->;
      unfold step_up, step_down, step_left, step_right, upd, F_position0, F_position1, F_rv_map; cbn; f_equal; lia.
  - unfold can_go. simpl. rewrite Hdir, <- Hp. intros [_ Hx]. apply Hx. unfold map_read. simpl.
    apply lookup_insert_eq.
Qed.

Lemma obstacle_undoes_move_witness :
  exists r'', move 0 rvc0 = Some (0, step_down rvc0) /\
    obstacle_reaction (step_down rvc0) = Some r'' /\ position0 r'' = 0 /\ position1 r'' = 0.
Proof.
  destruct (obstacle_undoes_move 0 rvc0 0 (step_down rvc0)) as (r'' & E & _ & Hp0 & Hp1 & _).
  - apply movement_init_wf.
  - done.
  - apply move_rvc0.
  - intros [=].
  - exists r''. split; [apply move_rvc0|]. split; [exact E|]. split; [exact Hp0|exact Hp1].
Defined.

(** An obstacle before the first move takes the robot off the map: after the
    initialisation of [movement_control_entry] the robot is at the tile (0, 0)
    with direction DOWN, and the handler moves it to row -1, where the next
    access to the map is outside of the array. *)
Theorem obstacle_before_first_move r :
  exists r', obstacle_reaction (movement_init r) = Some r' /\
    position0 r' = -1 /\ position1 r' = 0 /\ map_read r' (position0 r') (position1 r') = None.
Proof.
  assert (E0 : empty_map !! (0, 0) = Some 0) by (vm_compute; reflexivity).
  assert (E1 : empty_map !! (-1, 0) = None) by (vm_compute; reflexivity).
  unfold obstacle_reaction, map_write, map_read, movement_init.
  generalize dependent empty_map. intros m E0 E1. simpl. rewrite E0. simpl.
  eexists. split; [reflexivity|]. split; [done|]. split; [done|].
  simpl. by rewrite lookup_insert_ne.
Qed.

(** [n] moves in a row. *)
Fixpoint moves (n : nat) (stuck : Z) (r : rvc_state) : option (Z * rvc_state) :=
  match n with
  | O => Some (stuck, r)
  | S n => '(stuck, r) ← move stuck r; moves n stuck r
  end.

Definition distance_home (r : rvc_state) : nat := Z.to_nat (position0 r + position1 r).

(** One step of the way home. *)
Definition home_step (r : rvc_state) : rvc_state :=
  if 0 <? position0 r then step_up r else if 0 <? position1 r then step_left r else r.
Lemma move_return stuck r : direction r = RETURN -> move stuck r = Some (stuck, home_step r).
Proof. intros H. unfold move. by rewrite H. Qed.

Lemma home_step_distance r :
  robot_wf r -> direction r = RETURN -> at_home r = false ->
  robot_wf (home_step r) /\ direction (home_step r) = RETURN /\
  distance_home r = S (distance_home (home_step r)).
Proof.
  intros [Hp Hm] Hd Hh. unfold at_home, is_dir, home_step, distance_home in *.
  rewrite Hd, bool_decide_true in Hh by done. simpl in Hh.
  destruct (0 <? position0 r) eqn:E0; [|destruct (0 <? position1 r) eqn:E1]; simpl.
  - split; [split; [on_map_lia|done]|]. split; [done|]. on_map_lia.
  - split; [split; [on_map_lia|done]|]. split; [done|]. on_map_lia.
  - on_map_lia.
Qed.

(** C36. With direction RETURN the robot is back at the charging station, tile
    (0, 0), after exactly as many moves as its distance from it, at most 18,
    whatever obstacles the map holds; before that it is not at home and stays
    on the map. *)
Theorem return_reaches_home stuck r :
  robot_wf r -> direction r = RETURN ->
  (distance_home r <= 18)%nat /\
  (exists r', moves (distance_home r) stuck r = Some (stuck, r') /\ at_home r' = true /\
     rv_map r' = rv_map r) /\
  (forall n, (n < distance_home r)%nat -> exists r', moves n stuck r = Some (stuck, r') /\
     robot_wf r' /\ at_home r' = false).
Proof.
  intros Hw Hd. split; [destruct Hw; unfold distance_home; on_map_lia|].
  remember (distance_home r) as n eqn:En. revert r Hw Hd En.
  induction n as [|n IH]; intros r Hw Hd En.
  - split; [|intros; lia]. exists r. split; [done|]. split; [|done].
    unfold at_home, is_dir. rewrite Hd, bool_decide_true by done. destruct Hw.
    unfold distance_home in En. simpl. on_map_lia.
  - destruct (at_home r) eqn:Hh.
    { unfold at_home, is_dir in Hh. unfold distance_home in En. on_map_lia. }
    destruct (home_step_distance r Hw Hd Hh) as (Hw' & Hd' & E').
    destruct (IH (home_step r) Hw' Hd' ltac:(lia)) as [(r' & Em & Hm & Emap) Hn]. split.
    + exists r'. simpl. rewrite (move_return stuck r Hd). simpl. split; [done|]. split; [done|].
      rewrite Emap. unfold home_step. by repeat case_match.
    + intros [|k] Hk; simpl; [by exists r|]. rewrite (move_return stuck r Hd). simpl. apply Hn. lia.
Qed.

Lemma return_reaches_home_witness :
  let r := rvc0 <| position0 := 2 |> <| position1 := 1 |> <| direction := RETURN |> in
  exists r', moves 3 0 r = Some (0, r') /\ at_home r' = true.
Proof.
  intros r. destruct (return_reaches_home 0 r) as (_ & (r' & E & H & _) & _).
  - split; [done|]. apply empty_map_wf.
  - done.
  - exists r'. split; [exact E|exact H].
Defined.
