(* ===== verification/KService.v ===== *)
(** The memory and string routines of rt-thread/src/kservice.c.

    Routines that write take the memory, a function from addresses to bytes,
    and the addresses that they are given; [long] has 4 bytes and the machine
    is little-endian. Routines that only read take what their pointers point
    to, a function from offsets to bytes; [char] is unsigned. *)
From stdpp Require Export functions strings.
From S2P Require Export RtDef.
Local Open Scope Z_scope.

(** ** Memory *)
Definition memory := Z -> Z.

Definition byte (k v : Z) : Z := Z.land (Z.shiftr v (8 * k)) 0xff.
Definition store32 (a v : Z) (m : memory) : memory :=
  <[a + 3 := byte 3 v]> (<[a + 2 := byte 2 v]> (<[a + 1 := byte 1 v]> (<[a := byte 0 v]> m))).
Definition load32 (a : Z) (m : memory) : Z :=
  m a + 2 ^ 8 * m (a + 1) + 2 ^ 16 * m (a + 2) + 2 ^ 24 * m (a + 3).

Definition LBLOCKSIZE : Z := 4.
Definition UNALIGNED (x : Z) : bool := has_bits x (LBLOCKSIZE - 1).

Definition UNALIGNED2 (x y : Z) : bool :=
  nz (Z.lor (Z.land x (LBLOCKSIZE - 1)) (Z.land y (LBLOCKSIZE - 1))).

(** *** rt_memset: four words at a time, then words, then bytes. *)
Fixpoint memset_words4 (fuel : nat) (a count buffer : Z) (m : memory) : Z * Z * memory :=
  match fuel with
  | O => (a, count, m)
  | S f => if LBLOCKSIZE * 4 <=? count
           then memset_words4 f (a + 16) (count - 16) buffer
                  (store32 (a + 12) buffer (store32 (a + 8) buffer
                    (store32 (a + 4) buffer (store32 a buffer m))))
           else (a, count, m)
  end.
Fixpoint memset_words (fuel : nat) (a count buffer : Z) (m : memory) : Z * Z * memory :=
  match fuel with
  | O => (a, count, m)
  | S f => if LBLOCKSIZE <=? count
           then memset_words f (a + 4) (count - 4) buffer (store32 a buffer m)
           else (a, count, m)
  end.
Fixpoint memset_bytes (count : nat) (a d : Z) (m : memory) : memory :=
  match count with O => m | S n => memset_bytes n (a + 1) d (<[a := d]> m) end.

Definition rt_memset (s c count : Z) (m : memory) : memory :=
  let d := Z.land c 0xff in
  let fuel := Z.to_nat count in
  if negb (count <? LBLOCKSIZE) && negb (UNALIGNED s) then
    let buffer := Z.lor (Z.shiftl d 8) d in
    let buffer := Z.lor buffer (Z.shiftl buffer 16) in
    let '(a, count, m) := memset_words4 fuel s count buffer m in
    let '(a, count, m) := memset_words fuel a count buffer m in
    memset_bytes (Z.to_nat count) a d m
  else memset_bytes (Z.to_nat count) s d m.

(** *** rt_memcpy *)
Definition copy32 (dst src : Z) (m : memory) : memory := store32 dst (load32 src m) m.

Fixpoint memcpy_words4 (fuel : nat) (dst src len : Z) (m : memory) : Z * Z * Z * memory :=
  match fuel with
  | O => (dst, src, len, m)
  | S f => if LBLOCKSIZE * 4 <=? len
           then memcpy_words4 f (dst + 16) (src + 16) (len - 16)
                  (copy32 (dst + 12) (src + 12) (copy32 (dst + 8) (src + 8)
                    (copy32 (dst + 4) (src + 4) (copy32 dst src m))))
           else (dst, src, len, m)
  end.
Fixpoint memcpy_words (fuel : nat) (dst src len : Z) (m : memory) : Z * Z * Z * memory :=
  match fuel with
  | O => (dst, src, len, m)
  | S f => if LBLOCKSIZE <=? len
           then memcpy_words f (dst + 4) (src + 4) (len - 4) (copy32 dst src m)
           else (dst, src, len, m)
  end.
Fixpoint memcpy_bytes (len : nat) (dst src : Z) (m : memory) : memory :=
  match len with O => m | S n => memcpy_bytes n (dst + 1) (src + 1) (<[dst := m src]> m) end.

Definition rt_memcpy (dst src count : Z) (m : memory) : memory :=
  let fuel := Z.to_nat count in
  if negb (count <? LBLOCKSIZE * 4) && negb (UNALIGNED2 src dst) then
    let '(d, s, len, m) := memcpy_words4 fuel dst src count m in
    let '(d, s, len, m) := memcpy_words fuel d s len m in
    memcpy_bytes (Z.to_nat len) d s m
  else memcpy_bytes (Z.to_nat count) dst src m.

(** *** rt_memmove *)
Fixpoint memcpy_backwards (n : nat) (tmp s : Z) (m : memory) : memory :=
  match n with O => m | S n => memcpy_backwards n (tmp - 1) (s - 1) (<[tmp - 1 := m (s - 1)]> m) end.

Definition rt_memmove (dest src n : Z) (m : memory) : memory :=
  if (src <? dest) && (dest <? src + n)
  then memcpy_backwards (Z.to_nat n) (dest + n) (src + n) m
  else memcpy_bytes (Z.to_nat n) dest src m.

(** ** Strings and reading *)
Abbreviation cptr := (Z -> Z).
(** The pointer [p + i]. *)
Definition at_ (p : cptr) (i : Z) : cptr := fun j => p (i + j).
(** A string literal or a buffer: its bytes, then the terminating zero. *)
Definition cstr (l : list Z) : cptr := fun i => if i <? 0 then 0 else nth (Z.to_nat i) l 0.
Fixpoint bytes_of (s : string) : list Z :=
  match s with
  | EmptyString => []
  | String c s => Z.of_nat (Ascii.nat_of_ascii c) :: bytes_of s
  end.
Definition lit (s : string) : cptr := cstr (bytes_of s).

Definition s8 : Z -> Z := swrap 8.

Fixpoint rt_memcmp (cs ct : cptr) (count : nat) : Z :=
  match count with
  | O => 0
  | S n => if negb (cs 0 - ct 0 =? 0) then cs 0 - ct 0 else rt_memcmp (at_ cs 1) (at_ ct 1) n
  end.

(** [rt_strncmp] keeps the difference in a [signed char]. *)
Fixpoint strncmp_loop (count : nat) (cs ct : cptr) (res : Z) : Z :=
  match count with
  | O => res
  | S n =>
      let res := s8 (cs 0 - ct 0) in
      if negb (res =? 0) || (cs 0 =? 0) then res else strncmp_loop n (at_ cs 1) (at_ ct 1) res
  end.
Definition rt_strncmp (cs ct : cptr) (count : nat) : Z := strncmp_loop count cs ct 0.

(** The loops without a bound: [None] is "not within [fuel] steps". *)
Fixpoint rt_strcmp (fuel : nat) (cs ct : cptr) : option Z :=
  if negb (cs 0 =? 0) && (cs 0 =? ct 0)
  then match fuel with O => None | S f => rt_strcmp f (at_ cs 1) (at_ ct 1) end
  else Some (cs 0 - ct 0).

Definition to_lower (c : Z) : Z := if (65 <=? c) && (c <=? 90) then c + 32 else c.
Fixpoint rt_strcasecmp (fuel : nat) (a b : cptr) : option Z :=
  let ca := to_lower (Z.land (a 0) 0xff) in
  let cb := to_lower (Z.land (b 0) 0xff) in
  if (ca =? cb) && negb (ca =? 0)
  then match fuel with O => None | S f => rt_strcasecmp f (at_ a 1) (at_ b 1) end
  else Some (ca - cb).

Fixpoint strlen_loop (fuel : nat) (s : cptr) (sc : Z) : option Z :=
  if negb (s sc =? 0)
  then match fuel with O => None | S f => strlen_loop f s (sc + 1) end
  else Some sc.
Definition rt_strlen (fuel : nat) (s : cptr) : option Z := strlen_loop fuel s 0.

Fixpoint strnlen_loop (fuel : nat) (s : cptr) (maxlen sc : Z) : Z :=
  if negb (s sc =? 0) && (sc <? maxlen)
  then match fuel with O => sc | S f => strnlen_loop f s maxlen (sc + 1) end
  else sc.
Definition rt_strnlen (s : cptr) (maxlen : Z) : Z := strnlen_loop (Z.to_nat maxlen) s maxlen 0.

(** The loop of [rt_strstr], from offset [i] of [s1]; the result is an offset. *)
Fixpoint strstr_loop (fuel : nat) (s1 s2 : cptr) (l1 l2 i : Z) : option Z :=
  if l2 <=? l1
  then if rt_memcmp (at_ s1 i) s2 (Z.to_nat l2) =? 0 then Some i
       else match fuel with O => None | S f => strstr_loop f s1 s2 (l1 - 1) l2 (i + 1) end
  else None.
Definition rt_strstr (fuel : nat) (s1 s2 : cptr) : option (option Z) :=
  l2 ← rt_strlen fuel s2;
  if l2 =? 0 then Some (Some 0)
  else l1 ← rt_strlen fuel s1; Some (strstr_loop (Z.to_nat l1) s1 s2 l1 l2 0).

(** [rt_strncpy]: the [n] bytes that it writes at its destination. *)
Fixpoint strncpy_bytes (n : nat) (s : cptr) : list Z :=
  match n with
  | O => []
  | S n => if s 0 =? 0 then 0 :: replicate n 0 else s 0 :: strncpy_bytes n (at_ s 1)
  end.
Definition rt_strncpy (src : cptr) (n : nat) : list Z := strncpy_bytes n src.

(** ** Copying and filling, byte by byte *)
Lemma insert_at (a v : Z) (m : memory) x : <[a := v]> m x = if x =? a then v else m x.
Proof.
  destruct (Z.eqb_spec x a) as [->|Hne]; [apply fn_lookup_insert|by apply fn_lookup_insert_ne].
Qed.

Definition in_range (a n x : Z) : bool := (a <=? x) && (x <? a + n).

Lemma in_range_empty a n x : n <= 0 -> in_range a n x = false.
Proof.
  intros Hn. unfold in_range. destruct (Z.leb_spec a x), (Z.ltb_spec x (a + n)); (done || lia).
Qed.

Lemma in_range_narrow a n k z : k <= n -> in_range a n z = false -> in_range a k z = false.
Proof. unfold in_range. intros Hk. rewrite !andb_false_iff, !Z.leb_gt, !Z.ltb_ge. lia. Qed.

Lemma memset_bytes_spec n a d m x :
  memset_bytes n a d m x = if in_range a (Z.of_nat n) x then d else m x.
Proof.
  revert a m. induction n as [|n IH]; intros a m; cbn [memset_bytes].
  - by rewrite in_range_empty.
  - rewrite IH, insert_at. unfold in_range. repeat case_match; lia.
Qed.

Lemma byte_repeat d k :
  0 <= d < 256 -> 0 <= k <= 3 ->
  byte k (Z.lor (Z.lor (Z.shiftl d 8) d) (Z.shiftl (Z.lor (Z.shiftl d 8) d) 16)) = d.
Proof.
  intros Hd Hk.
  assert (H : forallb (fun d => forallb (fun k =>
      byte k (Z.lor (Z.lor (Z.shiftl d 8) d) (Z.shiftl (Z.lor (Z.shiftl d 8) d) 16)) =? d)
    (seqZ 0 4)) (seqZ 0 256) = true) by (vm_compute; reflexivity).
  rewrite forallb_forall in H. specialize (H d). rewrite <- list_elem_of_In, elem_of_seqZ in H.
  specialize (H ltac:(lia)). rewrite forallb_forall in H. specialize (H k).
  rewrite <- list_elem_of_In, elem_of_seqZ in H. specialize (H ltac:(lia)). lia.
Qed.

Lemma store32_spec a v m x :
  store32 a v m x = if in_range a 4 x then byte (x - a) v else m x.
Proof.
  unfold store32. rewrite !insert_at. unfold in_range.
  destruct (Z.eqb_spec x (a + 3)); [subst; replace (a + 3 - a) with 3 by lia; by case_match; lia|].
  destruct (Z.eqb_spec x (a + 2)); [subst; replace (a + 2 - a) with 2 by lia; by case_match; lia|].
  destruct (Z.eqb_spec x (a + 1)); [subst; replace (a + 1 - a) with 1 by lia; by case_match; lia|].
  destruct (Z.eqb_spec x a); [subst; replace (a - a) with 0 by lia; by case_match; lia|].
  case_match; [lia|done].
Qed.

(** A loop that has filled the bytes from [a] on leaves less than it found. *)
Definition filled (d a0 : Z) (m0 : memory) (r : Z * Z * memory) (count0 : Z) : Prop :=
  let '(a, count, m) := r in
  0 <= count /\ a + count = a0 + count0 /\ a0 <= a /\
  forall x, m x = if in_range a0 (a - a0) x then d else m0 x.

Lemma filled_start d a count m : 0 <= count -> filled d a m (a, count, m) count.
Proof.
  intros Hc. split; [lia|]. split; [lia|]. split; [lia|]. intros x.
  by rewrite in_range_empty by lia.
Qed.

Lemma filled_store d a0 m0 count0 a count m v :
  filled d a0 m0 (a, count, m) count0 -> 4 <= count ->
  (forall k, 0 <= k <= 3 -> byte k v = d) ->
  filled d a0 m0 (a + 4, count - 4, store32 a v m) count0.
Proof.
  intros (Hc & He & Ha & Hm) H4 Hv. split; [lia|]. split; [lia|]. split; [lia|]. intros x.
  rewrite store32_spec, Hm. unfold in_range.
  destruct ((a <=? x) && (x <? a + 4)) eqn:E.
  - rewrite Hv by lia. case_match; [done|lia].
  - repeat case_match; (done || lia).
Qed.

Lemma memset_words4_filled fuel d a0 m0 count0 a count m v :
  filled d a0 m0 (a, count, m) count0 -> (forall k, 0 <= k <= 3 -> byte k v = d) ->
  filled d a0 m0 (memset_words4 fuel a count v m) count0.
Proof.
  intros H Hv. revert a count m H. induction fuel as [|f IH]; intros a count m H; simpl; [done|].
  destruct (Z.leb_spec (LBLOCKSIZE * 4) count) as [Hle|]; [|done]. unfold LBLOCKSIZE in Hle.
  apply IH. replace (a + 16) with (a + 4 + 4 + 4 + 4) by lia.
  replace (count - 16) with (count - 4 - 4 - 4 - 4) by lia.
  replace (a + 12) with (a + 4 + 4 + 4) by lia. replace (a + 8) with (a + 4 + 4) by lia.
  repeat (apply filled_store; [|lia|done]). done.
Qed.

Lemma memset_words_filled fuel d a0 m0 count0 a count m v :
  filled d a0 m0 (a, count, m) count0 -> (forall k, 0 <= k <= 3 -> byte k v = d) ->
  filled d a0 m0 (memset_words fuel a count v m) count0.
Proof.
  intros H Hv. revert a count m H. induction fuel as [|f IH]; intros a count m H; simpl; [done|].
  destruct (Z.leb_spec LBLOCKSIZE count) as [Hle|]; [|done]. unfold LBLOCKSIZE in Hle.
  apply IH. by apply filled_store.
Qed.

Lemma filled_rest d a0 m0 a count m count0 x :
  filled d a0 m0 (a, count, m) count0 ->
  memset_bytes (Z.to_nat count) a d m x = if in_range a0 count0 x then d else m0 x.
Proof.
  intros (Hc & He & Ha & Hm). rewrite memset_bytes_spec, Hm. unfold in_range.
  repeat case_match; (done || lia).
Qed.

(** [rt_memset] writes the low byte of its argument to exactly the [count]
    bytes from [s] on, whatever the alignment of [s] and however the work is
    divided between the loops over four words, over words and over bytes. *)
Theorem rt_memset_correct s c count m x :
  0 <= count ->
  rt_memset s c count m x = if in_range s count x then Z.land c 0xff else m x.
Proof.
  intros Hc. unfold rt_memset. case_match eqn:E.
  - assert (Hv : forall k, 0 <= k <= 3 -> byte k
        (Z.lor (Z.lor (Z.shiftl (Z.land c 255) 8) (Z.land c 255))
           (Z.shiftl (Z.lor (Z.shiftl (Z.land c 255) 8) (Z.land c 255)) 16)) = Z.land c 255).
    { intros k Hk. apply byte_repeat; [|done]. change 255 with (Z.ones 8).
      rewrite Z.land_ones by lia. by apply Z.mod_pos_bound. }
    pose proof (memset_words4_filled (Z.to_nat count) _ s m count s count m _
                  (filled_start _ s count m Hc) Hv) as H1.
    destruct (memset_words4 _ _ _ _ _) as [[a1 c1] m1].
    pose proof (memset_words_filled (Z.to_nat count) _ s m count a1 c1 m1 _ H1 Hv) as H2.
    destruct (memset_words _ _ _ _ _) as [[a2 c2] m2]. by apply filled_rest.
  - rewrite memset_bytes_spec. by rewrite Z2Nat.id by lia.
Qed.

Lemma rt_memset_correct_witness :
  rt_memset 8 0x123 19 (fun _ => 7) 26 = 0x23 /\ rt_memset 8 0x123 19 (fun _ => 7) 27 = 7.
Proof. split; rewrite (rt_memset_correct 8 0x123 19); [reflexivity|lia|reflexivity|lia]. Defined.

(** ** Copying *)
Definition bytes (m : memory) : Prop := forall a, 0 <= m a < 256.

Lemma byte_load32 a m k : bytes m -> 0 <= k <= 3 -> byte k (load32 a m) = m (a + k).
Proof.
  intros Hb Hk. unfold byte, load32. change 255 with (Z.ones 8).
  rewrite Z.land_ones, Z.shiftr_div_pow2 by lia.
  pose proof (Hb a). pose proof (Hb (a + 1)). pose proof (Hb (a + 2)). pose proof (Hb (a + 3)).
  assert (k = 0 \/ k = 1 \/ k = 2 \/ k = 3) as [->|[->|[->| ->]]] by lia;
    rewrite ?Z.add_0_r;
    change (2 ^ (8 * 0)) with 1; change (2 ^ (8 * 1)) with 256;
    change (2 ^ (8 * 2)) with 65536; change (2 ^ (8 * 3)) with 16777216;
    change (2 ^ 8) with 256; change (2 ^ 16) with 65536; change (2 ^ 24) with 16777216;
    Z.to_euclidean_division_equations; lia.
Qed.

(** The bytes from [dst0] to [dst] are copies. *)
Definition copied (dst0 src0 n0 : Z) (m0 : memory) (r : Z * Z * Z * memory) : Prop :=
  let '(dst, src, len, m) := r in
  0 <= len /\ dst + len = dst0 + n0 /\ src - src0 = dst - dst0 /\ dst0 <= dst /\
  forall x, m x = if in_range dst0 (dst - dst0) x then m0 (src0 + (x - dst0)) else m0 x.

Definition disjoint (dst src n : Z) : Prop := dst + n <= src \/ src + n <= dst.

Lemma copied_word dst0 src0 n0 m0 dst src len m :
  bytes m0 -> disjoint dst0 src0 n0 ->
  copied dst0 src0 n0 m0 (dst, src, len, m) -> 4 <= len ->
  copied dst0 src0 n0 m0 (dst + 4, src + 4, len - 4, copy32 dst src m).
Proof.
  intros Hb Hd (Hl & He & Hs & Ha & Hm) H4.
  assert (Hbm : bytes m) by (intros a; rewrite Hm; case_match; apply Hb).
  split; [lia|]. split; [lia|]. split; [lia|]. split; [lia|]. intros x.
  unfold copy32. rewrite store32_spec. unfold disjoint in Hd. destruct (in_range dst 4 x) eqn:E.
  - unfold in_range in E. rewrite byte_load32 by (done || lia). rewrite Hm.
    assert (in_range dst0 (dst - dst0) (src + (x - dst)) = false) as -> by (unfold in_range; lia).
    assert (in_range dst0 (dst + 4 - dst0) x = true) as -> by (unfold in_range; lia). f_equal. lia.
  - rewrite Hm. unfold in_range in *. repeat case_match; (done || lia).
Qed.

Lemma memcpy_words4_copied fuel dst0 src0 n0 m0 dst src len m :
  bytes m0 -> disjoint dst0 src0 n0 -> copied dst0 src0 n0 m0 (dst, src, len, m) ->
  copied dst0 src0 n0 m0 (memcpy_words4 fuel dst src len m).
Proof.
  intros Hb Hd. revert dst src len m. induction fuel as [|f IH]; intros dst src len m H; simpl; [done|].
  destruct (Z.leb_spec (LBLOCKSIZE * 4) len) as [Hle|]; [|done]. unfold LBLOCKSIZE in Hle.
  apply IH. replace (dst + 16) with (dst + 4 + 4 + 4 + 4) by lia.
  replace (src + 16) with (src + 4 + 4 + 4 + 4) by lia.
  replace (len - 16) with (len - 4 - 4 - 4 - 4) by lia.
  replace (dst + 12) with (dst + 4 + 4 + 4) by lia. replace (dst + 8) with (dst + 4 + 4) by lia.
  replace (src + 12) with (src + 4 + 4 + 4) by lia. replace (src + 8) with (src + 4 + 4) by lia.
  repeat (apply copied_word; [done|done| |lia]). done.
Qed.

Lemma memcpy_words_copied fuel dst0 src0 n0 m0 dst src len m :
  bytes m0 -> disjoint dst0 src0 n0 -> copied dst0 src0 n0 m0 (dst, src, len, m) ->
  copied dst0 src0 n0 m0 (memcpy_words fuel dst src len m).
Proof.
  intros Hb Hd. revert dst src len m. induction fuel as [|f IH]; intros dst src len m H; simpl; [done|].
  destruct (Z.leb_spec LBLOCKSIZE len) as [Hle|]; [|done]. unfold LBLOCKSIZE in Hle.
  apply IH. by apply copied_word.
Qed.

Lemma memcpy_bytes_spec n dst src m x :
  dst <= src \/ src + Z.of_nat n <= dst ->
  memcpy_bytes n dst src m x =
    if in_range dst (Z.of_nat n) x then m (src + (x - dst)) else m x.
Proof.
  revert dst src m. induction n as [|n IH]; intros dst src m Hd; cbn [memcpy_bytes].
  - by rewrite in_range_empty by done.
  - rewrite IH, !insert_at by lia. unfold in_range.
    destruct (Z.eqb_spec x dst) as [->|Hne].
    + clear IH. repeat case_match; first [lia|f_equal; lia].
    + replace (src + 1 + (x - (dst + 1))) with (src + (x - dst)) by lia.
      repeat case_match; (done || lia).
Qed.

Lemma memcpy_backwards_spec n dst src m x :
  src <= dst ->
  memcpy_backwards n (dst + Z.of_nat n) (src + Z.of_nat n) m x =
    if in_range dst (Z.of_nat n) x then m (src + (x - dst)) else m x.
Proof.
  intros Hd. revert m. induction n as [|n IH]; intros m; cbn [memcpy_backwards].
  - by rewrite in_range_empty by done.
  - replace (dst + Z.of_nat (S n) - 1) with (dst + Z.of_nat n) by lia.
    replace (src + Z.of_nat (S n) - 1) with (src + Z.of_nat n) by lia.
    rewrite IH, !insert_at. unfold in_range.
    destruct (Z.eqb_spec x (dst + Z.of_nat n)) as [->|Hne].
    + clear IH. repeat case_match; first [lia|f_equal; lia].
    + clear IH. repeat case_match; first [done|lia].
Qed.

(** [rt_memmove] copies [n] bytes as if through a buffer, for any overlap
    of source and destination. *)
Theorem rt_memmove_correct dest src n m x :
  rt_memmove dest src n m x = if in_range dest n x then m (src + (x - dest)) else m x.
Proof.
  destruct (Z.lt_ge_cases n 0) as [Hn|Hn].
  { rewrite in_range_empty by lia. unfold rt_memmove. destruct n; try lia. by destruct (_ && _). }
  unfold rt_memmove. case_match eqn:E.
  - rewrite <- (Z2Nat.id n) at 2 3 by lia. rewrite memcpy_backwards_spec, Z2Nat.id by lia. done.
  - rewrite memcpy_bytes_spec, Z2Nat.id by lia. done.
Qed.

(** [rt_memcpy] copies [count] bytes between disjoint regions, whatever their
    alignment: the word loops copy what the byte loop would. *)
Lemma rt_memcpy_correct dst src count m x :
  0 <= count -> disjoint dst src count -> bytes m ->
  rt_memcpy dst src count m x = if in_range dst count x then m (src + (x - dst)) else m x.
Proof.
  intros Hc Hd Hb. unfold rt_memcpy. unfold disjoint in Hd. case_match.
  - assert (H0 : copied dst src count m (dst, src, count, m)).
    { split; [done|]. split; [lia|]. split; [lia|]. split; [lia|]. intros y.
      by rewrite in_range_empty by lia. }
    pose proof (memcpy_words4_copied (Z.to_nat count) _ _ _ _ _ _ _ _ Hb Hd H0) as H1.
    destruct (memcpy_words4 _ _ _ _ _) as [[[d1 s1] l1] m1].
    pose proof (memcpy_words_copied (Z.to_nat count) _ _ _ _ _ _ _ _ Hb Hd H1) as H2.
    destruct (memcpy_words _ _ _ _ _) as [[[d2 s2] l2] m2].
    destruct H2 as (Hl & He & Hs & Ha & Hm). rewrite memcpy_bytes_spec by lia.
    rewrite !Hm. unfold in_range. repeat case_match; try done; try lia. f_equal. lia.
  - rewrite memcpy_bytes_spec by lia. by rewrite Z2Nat.id by lia.
Qed.

(** ** Names *)
Lemma s8_zero a b : 0 <= a < 256 -> 0 <= b < 256 -> (s8 (a - b) =? 0) = (a =? b).
Proof.
  intros Ha Hb. unfold s8, swrap. change (2 ^ 8) with 256. change (2 ^ (8 - 1)) with 128.
  case_match; Z.to_euclidean_division_equations; lia.
Qed.

Lemma strncpy_bytes_length n s : length (strncpy_bytes n s) = n.
Proof.
  revert s. induction n as [|n IH]; intros s; simpl; [done|]. case_match; simpl; [|by rewrite IH].
  by rewrite length_replicate.
Qed.

(** [rt_strncmp] of two strings over [n] characters is 0 exactly when
    [rt_strncpy] stores the same [n] bytes for both: the comparison that
    [rt_object_find] makes is equality of the names that objects keep. *)
Theorem rt_strncmp_zero cs ct n :
  bytes cs -> bytes ct ->
  rt_strncmp cs ct n = 0 <-> rt_strncpy cs n = rt_strncpy ct n.
Proof.
  unfold rt_strncmp, rt_strncpy. intros Hs Ht.
  assert (H : forall r, (n = 0%nat -> r = 0) ->
    strncmp_loop n cs ct r = 0 <-> strncpy_bytes n cs = strncpy_bytes n ct); [|by apply H].
  revert cs ct Hs Ht. induction n as [|n IH]; intros cs ct Hs Ht r Hr; simpl; [naive_solver|].
  pose proof (s8_zero (cs 0) (ct 0) (Hs 0) (Ht 0)) as E.
  destruct (Z.eqb_spec (s8 (cs 0 - ct 0)) 0) as [Ez|Ez]; simpl.
  - symmetry in E. apply Z.eqb_eq in E.
    destruct (Z.eqb_spec (cs 0) 0) as [E0|E0]; [by rewrite <- E, E0|].
    rewrite IH; [|by intros a; apply Hs|by intros a; apply Ht|by intros _].
    rewrite <- E, (proj2 (Z.eqb_neq _ _) E0). split; [by intros ->|by intros [=]].
  - symmetry in E. apply Z.eqb_neq in E. split; [done|].
    destruct (cs 0 =? 0) eqn:E1, (ct 0 =? 0) eqn:E2; intros H; first [lia|injection H; lia].
Qed.

Lemma lit_bytes s : bytes (lit s).
Proof.
  assert (H : forall i, 0 <= nth i (bytes_of s) 0 < 256).
  { induction s as [|c s IH]; intros [|i]; simpl; try lia; [|apply IH].
    pose proof (Ascii.nat_ascii_bounded c). lia. }
  intros a. unfold lit, cstr. case_match; [lia|apply H].
Qed.

Lemma rt_strncmp_zero_witness :
  rt_strncmp (lit "event_tasks_activation") (lit "event_tables") 8 = 0.
Proof.
  apply (rt_strncmp_zero (lit "event_tasks_activation") (lit "event_tables") 8).
  - apply lit_bytes.
  - apply lit_bytes.
  - vm_compute. reflexivity.
Defined.

(** The sign of [rt_strncmp] is not that of the difference: it is kept in a
    [signed char], and characters that are 128 or more apart compare the wrong
    way round. *)
Theorem rt_strncmp_sign c d n :
  0 <= d -> d + 128 <= c <= 255 ->
  rt_strncmp (cstr [c]) (cstr [d]) (S n) < 0.
Proof.
  intros Hd Hc. unfold rt_strncmp. cbn [strncmp_loop].
  change (cstr [c] 0) with c. change (cstr [d] 0) with d.
  assert (E : s8 (c - d) = c - d - 256).
  { unfold s8, swrap. change (2 ^ 8) with 256. change (2 ^ (8 - 1)) with 128.
    case_match; Z.to_euclidean_division_equations; lia. }
  rewrite E. destruct (Z.eqb_spec (c - d - 256) 0); [lia|]. simpl. lia.
Qed.

Lemma rt_strncmp_sign_witness : rt_strncmp (cstr [200]) (cstr [16]) 8 < 0.
Proof. apply (rt_strncmp_sign 200 16 7); lia. Defined.
