(* ===== verification/Ffs.v ===== *)
(** Finding the first bit set: [__rt_ffs] as built for the board
    (libcpu/arm/cortex-m4/cpuport.c, [__builtin_ffs]) and its two portable
    versions in rt-thread/src/kservice.c. *)
From S2P Require Export RtDef.
Local Open Scope Z_scope.

(** The compiler's [__builtin_ffs]: one more than the index of the least
    significant bit set of a 32-bit value, 0 for 0. *)
Fixpoint pos_ffs (p : positive) : Z :=
  match p with xO q => 1 + pos_ffs q | _ => 1 end.
Definition builtin_ffs (v : Z) : Z :=
  match u32 v with Zpos p => pos_ffs p | _ => 0 end.

(** [__rt_ffs] of cpuport.c under GCC. *)
Definition rt_ffs (value : Z) : Z := builtin_ffs value.

(** [__lowest_bit_bitmap] of RT_USING_TINY_FFS *)
Definition lowest_bit_bitmap_37 : list Z :=
  [0; 1; 2; 27; 3; 24; 28; 32; 4; 17; 25; 31; 29; 12; 32; 14;
   5; 8; 18; 32; 26; 23; 32; 16; 30; 11; 13; 7; 32; 22; 15; 10;
   6; 21; 9; 20; 19].

Definition rt_ffs_tiny (value : Z) : Z :=
  lowest_bit_bitmap_37 !!! Z.to_nat (u32 (Z.lxor (Z.land value (value - 1)) value) mod 37).

(** The [__lowest_bit_bitmap] of 256 entries *)
Definition lowest_bit_bitmap : list Z :=
  [0; 0; 1; 0; 2; 0; 1; 0; 3; 0; 1; 0; 2; 0; 1; 0;
   4; 0; 1; 0; 2; 0; 1; 0; 3; 0; 1; 0; 2; 0; 1; 0;
   5; 0; 1; 0; 2; 0; 1; 0; 3; 0; 1; 0; 2; 0; 1; 0;
   4; 0; 1; 0; 2; 0; 1; 0; 3; 0; 1; 0; 2; 0; 1; 0;
   6; 0; 1; 0; 2; 0; 1; 0; 3; 0; 1; 0; 2; 0; 1; 0;
   4; 0; 1; 0; 2; 0; 1; 0; 3; 0; 1; 0; 2; 0; 1; 0;
   5; 0; 1; 0; 2; 0; 1; 0; 3; 0; 1; 0; 2; 0; 1; 0;
   4; 0; 1; 0; 2; 0; 1; 0; 3; 0; 1; 0; 2; 0; 1; 0;
   7; 0; 1; 0; 2; 0; 1; 0; 3; 0; 1; 0; 2; 0; 1; 0;
   4; 0; 1; 0; 2; 0; 1; 0; 3; 0; 1; 0; 2; 0; 1; 0;
   5; 0; 1; 0; 2; 0; 1; 0; 3; 0; 1; 0; 2; 0; 1; 0;
   4; 0; 1; 0; 2; 0; 1; 0; 3; 0; 1; 0; 2; 0; 1; 0;
   6; 0; 1; 0; 2; 0; 1; 0; 3; 0; 1; 0; 2; 0; 1; 0;
   4; 0; 1; 0; 2; 0; 1; 0; 3; 0; 1; 0; 2; 0; 1; 0;
   5; 0; 1; 0; 2; 0; 1; 0; 3; 0; 1; 0; 2; 0; 1; 0;
   4; 0; 1; 0; 2; 0; 1; 0; 3; 0; 1; 0; 2; 0; 1; 0].

Definition rt_ffs_table (value : Z) : Z :=
  if value =? 0 then 0
  else if has_bits value 0xff
  then lowest_bit_bitmap !!! Z.to_nat (Z.land value 0xff) + 1
  else if has_bits value 0xff00
  then lowest_bit_bitmap !!! Z.to_nat (Z.shiftr (Z.land value 0xff00) 8) + 9
  else if has_bits value 0xff0000
  then lowest_bit_bitmap !!! Z.to_nat (Z.shiftr (Z.land value 0xff0000) 16) + 17
  else lowest_bit_bitmap !!! Z.to_nat (Z.shiftr (Z.land value 0xff000000) 24) + 25.

(** ** The least significant bit set *)
Definition lowest_bit (v i : Z) : Prop :=
  0 <= i /\ Z.testbit v i = true /\ (forall j, 0 <= j < i -> Z.testbit v j = false).

Lemma lowest_bit_unique v i j : lowest_bit v i -> lowest_bit v j -> i = j.
Proof.
  intros (Hi & Bi & Li) (Hj & Bj & Lj).
  destruct (Z.lt_trichotomy i j) as [H|[H|H]]; [|done|].
  - rewrite Lj in Bi by lia. done.
  - rewrite Li in Bj by lia. done.
Qed.

Lemma pos_ffs_lowest p : lowest_bit (Zpos p) (pos_ffs p - 1).
Proof.
  assert (H1 : forall q, 1 <= pos_ffs q) by (induction q; simpl; lia).
  induction p as [p IH|p IH|]; simpl.
  - split_and!; [lia|done|intros; lia].
  - replace (1 + pos_ffs p - 1) with (Z.succ (pos_ffs p - 1)) by lia.
    specialize (H1 p). destruct IH as (_ & B & L). rewrite Pos2Z.inj_xO. split_and!; [lia|..].
    + by rewrite Z.double_bits_succ.
    + intros j Hj. destruct (decide (j = 0)) as [->|]; [done|].
      replace j with (Z.succ (j - 1)) by lia. rewrite Z.double_bits_succ. apply L. lia.
  - split_and!; [lia|done|intros; lia].
Qed.

Lemma builtin_ffs_lowest v : 0 < v < 2 ^ 32 -> lowest_bit v (builtin_ffs v - 1).
Proof.
  intros Hv. unfold builtin_ffs, u32, wrap. rewrite Z.mod_small by lia.
  destruct v; [lia|apply pos_ffs_lowest|lia].
Qed.

Lemma builtin_ffs_eq v i : 0 < v < 2 ^ 32 -> lowest_bit v i -> builtin_ffs v = i + 1.
Proof. intros Hv Hi. pose proof (lowest_bit_unique _ _ _ (builtin_ffs_lowest v Hv) Hi). lia. Qed.

Lemma builtin_ffs_range v : 0 < v < 2 ^ 32 -> 1 <= builtin_ffs v <= 32.
Proof.
  intros Hv. destruct (builtin_ffs_lowest v Hv) as (H0 & HB & _). split; [lia|].
  destruct (Z.le_gt_cases (builtin_ffs v) 32); [done|].
  rewrite Z.bits_above_log2 in HB; [done|lia|].
  apply Z.lt_le_trans with 32; [|lia]. apply Z.log2_lt_pow2; lia.
Qed.

(** ** The portable versions *)
Lemma isolate_lowest p :
  Z.lxor (Z.land (Zpos p) (Zpos p - 1)) (Zpos p) = 2 ^ (pos_ffs p - 1).
Proof.
  assert (H1 : forall q, 1 <= pos_ffs q) by (induction q; simpl; lia).
  induction p as [p IH|p IH|]; simpl pos_ffs.
  - replace (Zpos p~1 - 1) with (Zpos p~0) by lia.
    assert (E : Z.land (Zpos p~1) (Zpos p~0) = Zpos p~0).
    { apply Z.bits_inj'. intros n Hn. rewrite Z.land_spec, Pos2Z.inj_xO, Pos2Z.inj_xI.
      destruct (decide (n = 0)) as [->|Hn0]; [by rewrite Z.testbit_even_0, andb_false_r|].
      replace n with (Z.succ (n - 1)) by lia.
      rewrite Z.testbit_odd_succ, Z.testbit_even_succ by lia. apply andb_diag. }
    rewrite E, Pos2Z.inj_xO, Pos2Z.inj_xI. apply Z.bits_inj'. intros n Hn.
    rewrite Z.lxor_spec. destruct (decide (n = 0)) as [->|Hn0].
    + by rewrite Z.testbit_even_0, Z.testbit_odd_0.
    + replace n with (Z.succ (n - 1)) by lia.
      rewrite Z.testbit_odd_succ, Z.testbit_even_succ, xorb_nilpotent by lia.
      change (2 ^ (1 - 1)) with (2 * 0 + 1). by rewrite Z.testbit_odd_succ, Z.bits_0 by lia.
  - specialize (H1 p). replace (Zpos p~0 - 1) with (2 * (Zpos p - 1) + 1) by lia.
    replace (1 + pos_ffs p - 1) with (Z.succ (pos_ffs p - 1)) by lia.
    rewrite Z.pow_succ_r, <- IH by lia. rewrite (Pos2Z.inj_xO p). apply Z.bits_inj'.
    intros n Hn. destruct (decide (n = 0)) as [->|Hn0].
    + rewrite Z.lxor_spec, Z.land_spec, !Z.testbit_even_0. done.
    + replace n with (Z.succ (n - 1)) by lia.
      rewrite Z.lxor_spec, Z.land_spec, Z.testbit_odd_succ, !Z.testbit_even_succ by lia.
      by rewrite Z.lxor_spec, Z.land_spec.
  - done.
Qed.

Lemma tiny_table :
  forallb (fun i => (lowest_bit_bitmap_37 !!! Z.to_nat (u32 (2 ^ i) mod 37) =? i + 1))
    (seqZ 0 32) = true.
Proof. vm_compute. reflexivity. Qed.

Lemma byte_table :
  forallb (fun b => lowest_bit_bitmap !!! Z.to_nat b + 1 =? builtin_ffs b) (seqZ 1 255) = true.
Proof. vm_compute. reflexivity. Qed.

Lemma forallb_seqZ (f : Z -> bool) m n i :
  forallb f (seqZ m n) = true -> m <= i < m + n -> f i = true.
Proof.
  intros H Hi. rewrite forallb_forall in H. apply H, list_elem_of_In, elem_of_seqZ. lia.
Qed.

Lemma rt_ffs_tiny_eq v : 0 <= v < 2 ^ 32 -> rt_ffs_tiny v = builtin_ffs v.
Proof.
  intros Hv. destruct (decide (v = 0)) as [->|H0]; [reflexivity|].
  pose proof (builtin_ffs_range v) as Hr. unfold builtin_ffs, u32, wrap in *.
  rewrite Z.mod_small in * by lia. destruct v as [|p|p]; [lia| |lia].
  unfold rt_ffs_tiny. rewrite isolate_lowest.
  pose proof (forallb_seqZ _ _ _ (pos_ffs p - 1) tiny_table ltac:(lia)) as E.
  apply Z.eqb_eq in E. rewrite E. lia.
Qed.

(** A byte of [v] holds the lowest bit when the bytes below it are zero. *)
Lemma byte_ffs v k m :
  0 < v < 2 ^ 32 -> 0 <= k -> m = Z.shiftl 0xff k ->
  (forall j, 0 <= j < k -> Z.testbit v j = false) -> Z.land v m <> 0 ->
  builtin_ffs v = lowest_bit_bitmap !!! Z.to_nat (Z.shiftr (Z.land v m) k) + 1 + k.
Proof.
  intros Hv Hk -> Hl Hm. set (b := Z.shiftr (Z.land v (Z.shiftl 255 k)) k).
  assert (Eb : b = Z.land (Z.shiftr v k) 255).
  { unfold b. rewrite Z.shiftr_land, Z.shiftr_shiftl_l by lia.
    by rewrite Z.sub_diag, Z.shiftl_0_r. }
  assert (Hb : 0 <= b < 256).
  { rewrite Eb. change 255 with (Z.ones 8). rewrite Z.land_ones by lia. by apply Z.mod_pos_bound. }
  assert (Hb0 : b <> 0).
  { intros E. apply Hm. apply Z.bits_inj'. intros n Hn. rewrite Z.bits_0.
    destruct (Z.lt_ge_cases n k); [rewrite Z.land_spec, Hl by lia; done|].
    replace n with (n - k + k) by lia. rewrite <- Z.shiftr_spec by lia. fold b.
    by rewrite E, Z.bits_0. }
  pose proof (forallb_seqZ _ _ _ b byte_table ltac:(lia)) as E. apply Z.eqb_eq in E.
  destruct (builtin_ffs_lowest b ltac:(lia)) as (H0 & HB & HL).
  assert (Hbit : forall j, 0 <= j -> Z.testbit b j = Z.testbit v (j + k) && (j <? 8)).
  { intros j Hj. rewrite Eb, Z.land_spec, Z.shiftr_spec by lia. f_equal.
    change 255 with (Z.ones 8). destruct (j <? 8) eqn:Ej.
    - apply Z.ones_spec_low. lia.
    - apply Z.ones_spec_high. lia. }
  rewrite Hbit in HB by lia. apply andb_prop in HB as [HB Hlt].
  rewrite (builtin_ffs_eq v (builtin_ffs b - 1 + k)); [lia|done|].
  split_and!; [lia|done|]. intros j Hj.
  destruct (Z.lt_ge_cases j k); [apply Hl; lia|].
  specialize (HL (j - k) ltac:(lia)). rewrite Hbit in HL by lia.
  replace (j - k + k) with j in HL by lia. apply andb_false_iff in HL as [?|HL]; [done|lia].
Qed.

Lemma land_zero_bits v m k n :
  Z.land v m = 0 -> m = Z.shiftl 0xff k -> 0 <= k -> k <= n < k + 8 -> Z.testbit v n = false.
Proof.
  intros H -> Hk Hn.
  assert (E : Z.testbit (Z.land v (Z.shiftl 255 k)) n = false) by (by rewrite H, Z.bits_0).
  rewrite Z.land_spec, Z.shiftl_spec in E by lia. change 255 with (Z.ones 8) in E.
  rewrite Z.ones_spec_low, andb_true_r in E by lia. done.
Qed.

Ltac low_byte m k :=
  apply (land_zero_bits _ m k); [assumption|reflexivity|lia|lia].

Lemma rt_ffs_table_eq v : 0 <= v < 2 ^ 32 -> rt_ffs_table v = builtin_ffs v.
Proof.
  intros Hv. unfold rt_ffs_table. destruct (Z.eqb_spec v 0) as [->|H0]; [reflexivity|].
  unfold has_bits, nz. repeat
    match goal with |- context [Z.eqb (Z.land v ?m) 0] => destruct (Z.eqb_spec (Z.land v m) 0); cbn [negb] end.
  - assert (Hl : forall j, 0 <= j < 24 -> Z.testbit v j = false).
    { intros j Hj. destruct (Z.lt_ge_cases j 8); [low_byte 0xff 0|].
      destruct (Z.lt_ge_cases j 16); [low_byte 0xff00 8|].
      low_byte 0xff0000 16. }
    rewrite (byte_ffs v 24 0xff000000); [lia|lia|lia|reflexivity|done|].
    intros H24. destruct (builtin_ffs_lowest v ltac:(lia)) as (Hp & HB & _).
    pose proof (builtin_ffs_range v ltac:(lia)).
    destruct (Z.lt_ge_cases (builtin_ffs v - 1) 24); [by rewrite Hl in HB by lia|].
    by rewrite (land_zero_bits v 0xff000000 24) in HB by (try done; lia).
  - rewrite (byte_ffs v 16 0xff0000); [lia|lia|lia|reflexivity| |done].
    intros j Hj. destruct (Z.lt_ge_cases j 8); [low_byte 0xff 0|].
    low_byte 0xff00 8.
  - rewrite (byte_ffs v 8 0xff00); [lia|lia|lia|reflexivity| |done].
    intros j Hj. low_byte 0xff 0.
  - rewrite (byte_ffs v 0 0xff); [|lia|lia|reflexivity|intros; lia|done].
    rewrite Z.shiftr_0_r. lia.
Qed.

(** C39. The three versions of [__rt_ffs] agree on every 32-bit value: the
    compiler's builtin that the board uses, the multiplication-free one of 37
    entries and the one of 256 entries. They return 0 for 0 and otherwise one
    more than the index of the least significant bit set. *)
Theorem rt_ffs_versions v :
  0 <= v < 2 ^ 32 ->
  rt_ffs_tiny v = rt_ffs v /\ rt_ffs_table v = rt_ffs v /\
  (v = 0 -> rt_ffs v = 0) /\ (v <> 0 -> 1 <= rt_ffs v <= 32 /\ lowest_bit v (rt_ffs v - 1)).
Proof.
  intros Hv. split; [by apply rt_ffs_tiny_eq|]. split; [by apply rt_ffs_table_eq|].
  split; [by intros ->|]. intros H0. split; [apply builtin_ffs_range; lia|].
  apply builtin_ffs_lowest. lia.
Qed.

Lemma rt_ffs_versions_witness : rt_ffs_tiny 0x80500 = 9 /\ rt_ffs_table 0x80500 = 9.
Proof.
  destruct (rt_ffs_versions 0x80500) as (H1 & H2 & _); [lia|].
  split; [rewrite H1|rewrite H2]; reflexivity.
Defined.
