(* ===== verification/KState.v ===== *)
(** The state of the kernel: the objects of rtdef.h as records, kept in finite
    maps from identifiers, and the global variables of rt-thread/src.

    A pointer to an object is the identifier of the object; the intrusive
    lists of the code are lists of identifiers (RtList.v relates the two
    representations). *)
From S2P Require Export RtDef RvcState KService.
Local Open Scope Z_scope.

(** *** Identifiers *)
Abbreviation tid := positive.

(** The C structure an object pointer points to. *)
Inductive okind := KThread | KSem | KMutex | KEvent | KMailBox | KMQ | KMemHeap
  | KMemPool | KDevice | KTimer.

#[export] Instance okind_eq_dec : EqDecision okind.
Proof. solve_decision. Defined.

Definition okind_to_nat (k : okind) : nat :=
  match k with
  | KThread => 0 | KSem => 1 | KMutex => 2 | KEvent => 3 | KMailBox => 4 | KMQ => 5
  | KMemHeap => 6 | KMemPool => 7 | KDevice => 8 | KTimer => 9
  end%nat.
Definition okind_of_nat (n : nat) : okind :=
  match n with
  | 0 => KThread | 1 => KSem | 2 => KMutex | 3 => KEvent | 4 => KMailBox | 5 => KMQ
  | 6 => KMemHeap | 7 => KMemPool | 8 => KDevice | _ => KTimer
  end%nat.
#[export] Instance okind_countable : Countable okind.
Proof. apply (inj_countable' okind_to_nat okind_of_nat). by intros []. Defined.

(** [struct rt_object *] *)
Abbreviation ref := (okind * positive)%type.

(** The timer embedded in a thread, and the timers the application declares. *)
Definition thread_timer (t : tid) : positive := xO t.
Definition app_timer (n : positive) : positive := xI n.

(** The heads of the lists that a thread can be linked in through [tlist]:
    [rt_thread_priority_table[p]], the [suspend_thread] list of an object, its
    [suspend_sender_thread] list, and [_rt_thread_defunct]. *)
Inductive qhead := QReady (p : Z) | QSuspend (r : ref) | QSender (r : ref) | QDefunct.

#[export] Instance qhead_eq_dec : EqDecision qhead.
Proof. solve_decision. Defined.
#[export] Instance qhead_countable : Countable qhead.
Proof.
  apply (inj_countable'
    (fun q => match q with
      | QReady p => inl p | QSuspend r => inr (inl r)
      | QSender r => inr (inr (inl r)) | QDefunct => inr (inr (inr tt)) end)
    (fun x : Z + (ref + (ref + unit)) => match x with
      | inl p => QReady p | inr (inl r) => QSuspend r
      | inr (inr (inl r)) => QSender r | inr (inr (inr _)) => QDefunct end)).
  by intros [].
Defined.

(** Code addresses kept in data: the kernel's own timeout function, and the
    functions that the application installs. *)
Inductive fn := F_rt_thread_timeout | F_signal_default_handler | F_user (n : positive).
#[export] Instance fn_eq_dec : EqDecision fn.
Proof. solve_decision. Defined.

(** A machine word of memory holding a pointer. *)
Inductive ptr := PNull | PAddr (a : Z) | PPool (n : positive).
#[export] Instance ptr_eq_dec : EqDecision ptr.
Proof. solve_decision. Defined.

(** *** [struct rt_object] *)
Record rt_object := RtObject { o_name : list Z; o_type : Z; o_flag : Z }.

(** *** [struct rt_thread], less the object header and the embedded timer *)
Record rt_thread := RtThread {
  sp : Z; stack_addr : Z; stack_size : Z;
  stack_guard : Z;             (* the byte at [stack_addr] *)
  error : Z; stat : Z;
  current_priority : Z; init_priority : Z; number_mask : Z;
  event_set : Z; event_info : Z;
  sig_pending : Z; sig_mask : Z;
  sig_ret : option Z;          (* the stack pointer below a signal frame *)
  sig_vectors : option (Z * list (option fn));  (* address and contents *)
  si_list : list (Z * Z);      (* address of the node and signal number *)
  init_tick : Z; remaining_tick : Z;
  cleanup : option fn;
  end_flag : Z; tick_count : Z; preemptableFlag : Z }.

(** *** [struct rt_timer], less the object header *)
Record rt_timer := RtTimer {
  timeout_func : fn; parameter : positive; tm_init_tick : Z; timeout_tick : Z }.

(** *** The objects of ipc.c, less headers and thread lists *)
Record rt_semaphore := RtSem { sem_value : Z }.
Record rt_mutex := RtMutex {
  mx_value : Z; original_priority : Z; hold : Z; owner : option tid }.
Record rt_event := RtEvent { ev_set : Z }.
Record rt_mailbox := RtMailbox {
  msg_pool : list Z; mb_size : Z; mb_entry : Z; in_offset : Z; out_offset : Z;
  mb_pool : Z }.               (* the address of [msg_pool] *)
(** A message queue: [mq_mem] maps the address of a [struct rt_mq_message] to
    its [next] field and the bytes that follow it; address 0 is [RT_NULL]. *)
Record rt_messagequeue := RtMQ {
  mq_pool : Z; mq_msg_size : Z; mq_max_msgs : Z; mq_entry : Z;
  mq_head : Z; mq_tail : Z; mq_free : Z; mq_mem : gmap Z (Z * list Z) }.
(** *** [struct rt_mempool] *)
Record rt_mempool := RtMempool {
  mp_start : Z; mp_size : Z; block_size : Z; block_list : ptr;
  block_total_count : Z; block_free_count : Z }.

(** *** [struct rt_memheap], less the object header, the header of the free list
    and the semaphore, which have an address and an identifier of their own *)
Record rt_memheap := RtMemheap {
  start_addr : Z; pool_size : Z; available_size : Z; max_used_size : Z;
  mh_block_list : Z; free_list : Z }.

(** *** The kernel *)
Record kstate := KState {
  objs : gmap ref rt_object;
  containers : gmap Z (list ref);          (* _object_container[].object_list *)
  threads : gmap tid rt_thread;
  queues : gmap qhead (list tid);
  timers : gmap positive rt_timer;
  timer_list : list positive;              (* _timer_list[0] *)
  expired_list : list positive;            (* the local [list] of rt_timer_check *)
  random_nr : Z;
  ready_priority_group : Z;                (* rt_thread_ready_priority_group *)
  scheduler_lock_nest : Z;
  current_thread : option tid;             (* rt_current_thread *)
  rt_current_priority : Z;
  interrupt_nest : Z;                      (* rt_interrupt_nest *)
  rt_tick : Z;
  rt_errno : Z;
  sems : gmap positive rt_semaphore;
  mutexes : gmap positive rt_mutex;
  events : gmap positive rt_event;
  mailboxes : gmap positive rt_mailbox;
  mqueues : gmap positive rt_messagequeue;
  mempools : gmap positive rt_mempool;
  mem : gmap Z ptr;                        (* the words of the memory pools *)
  siginfo_pool : positive;                 (* _siginfo_pool *)
  memheaps : gmap Z rt_memheap;            (* by the address of the structure *)
  heap_mem : memory;                       (* the bytes of the memory heaps *)
  devices : gmap positive rt_device;
  idle_hook_list : list (option fn);       (* of idle.c *)
  rvc : rvc_state;
  out : list output }.                     (* latest first *)

(** *** Field updates *)
Definition eta_object (r : rt_object) := RtObject (o_name r) (o_type r) (o_flag r).
#[export] Instance F_o_type : Field o_type := ltac:(field_of eta_object o_type).
#[export] Instance F_o_flag : Field o_flag := ltac:(field_of eta_object o_flag).
#[export] Instance F_o_name : Field o_name := ltac:(field_of eta_object o_name).

Definition eta_thread (r : rt_thread) := RtThread (sp r) (stack_addr r) (stack_size r)
  (stack_guard r) (error r) (stat r) (current_priority r) (init_priority r) (number_mask r)
  (event_set r) (event_info r) (sig_pending r) (sig_mask r) (sig_ret r) (sig_vectors r) (si_list r)
  (init_tick r) (remaining_tick r) (cleanup r) (end_flag r) (tick_count r) (preemptableFlag r).
#[export] Instance F_sp : Field sp := ltac:(field_of eta_thread sp).
#[export] Instance F_stack_addr : Field stack_addr := ltac:(field_of eta_thread stack_addr).
#[export] Instance F_stack_size : Field stack_size := ltac:(field_of eta_thread stack_size).
#[export] Instance F_stack_guard : Field stack_guard := ltac:(field_of eta_thread stack_guard).
#[export] Instance F_error : Field error := ltac:(field_of eta_thread error).
#[export] Instance F_stat : Field stat := ltac:(field_of eta_thread stat).
#[export] Instance F_current_priority : Field current_priority :=
  ltac:(field_of eta_thread current_priority).
#[export] Instance F_init_priority : Field init_priority :=
  ltac:(field_of eta_thread init_priority).
#[export] Instance F_number_mask : Field number_mask := ltac:(field_of eta_thread number_mask).
#[export] Instance F_event_set : Field event_set := ltac:(field_of eta_thread event_set).
#[export] Instance F_event_info : Field event_info := ltac:(field_of eta_thread event_info).
#[export] Instance F_sig_pending : Field sig_pending := ltac:(field_of eta_thread sig_pending).
#[export] Instance F_sig_mask : Field sig_mask := ltac:(field_of eta_thread sig_mask).
#[export] Instance F_sig_ret : Field sig_ret := ltac:(field_of eta_thread sig_ret).
#[export] Instance F_sig_vectors : Field sig_vectors := ltac:(field_of eta_thread sig_vectors).
#[export] Instance F_si_list : Field si_list := ltac:(field_of eta_thread si_list).
#[export] Instance F_init_tick : Field init_tick := ltac:(field_of eta_thread init_tick).
#[export] Instance F_remaining_tick : Field remaining_tick :=
  ltac:(field_of eta_thread remaining_tick).
#[export] Instance F_cleanup : Field cleanup := ltac:(field_of eta_thread cleanup).
#[export] Instance F_end_flag : Field end_flag := ltac:(field_of eta_thread end_flag).
#[export] Instance F_tick_count : Field tick_count := ltac:(field_of eta_thread tick_count).
#[export] Instance F_preemptableFlag : Field preemptableFlag :=
  ltac:(field_of eta_thread preemptableFlag).

Definition eta_timer (r : rt_timer) :=
  RtTimer (timeout_func r) (parameter r) (tm_init_tick r) (timeout_tick r).
#[export] Instance F_timeout_func : Field timeout_func := ltac:(field_of eta_timer timeout_func).
#[export] Instance F_parameter : Field parameter := ltac:(field_of eta_timer parameter).
#[export] Instance F_tm_init_tick : Field tm_init_tick := ltac:(field_of eta_timer tm_init_tick).
#[export] Instance F_timeout_tick : Field timeout_tick := ltac:(field_of eta_timer timeout_tick).

Definition eta_mutex (r : rt_mutex) :=
  RtMutex (mx_value r) (original_priority r) (hold r) (owner r).
#[export] Instance F_mx_value : Field mx_value := ltac:(field_of eta_mutex mx_value).
#[export] Instance F_original_priority : Field original_priority :=
  ltac:(field_of eta_mutex original_priority).
#[export] Instance F_hold : Field hold := ltac:(field_of eta_mutex hold).
#[export] Instance F_owner : Field owner := ltac:(field_of eta_mutex owner).

Definition eta_mailbox (r : rt_mailbox) :=
  RtMailbox (msg_pool r) (mb_size r) (mb_entry r) (in_offset r) (out_offset r)
  (mb_pool r).
#[export] Instance F_msg_pool : Field msg_pool := ltac:(field_of eta_mailbox msg_pool).
#[export] Instance F_mb_entry : Field mb_entry := ltac:(field_of eta_mailbox mb_entry).
#[export] Instance F_in_offset : Field in_offset := ltac:(field_of eta_mailbox in_offset).
#[export] Instance F_out_offset : Field out_offset := ltac:(field_of eta_mailbox out_offset).

Definition eta_mq (r : rt_messagequeue) := RtMQ (mq_pool r) (mq_msg_size r) (mq_max_msgs r)
  (mq_entry r) (mq_head r) (mq_tail r) (mq_free r) (mq_mem r).
#[export] Instance F_mq_entry : Field mq_entry := ltac:(field_of eta_mq mq_entry).
#[export] Instance F_mq_head : Field mq_head := ltac:(field_of eta_mq mq_head).
#[export] Instance F_mq_tail : Field mq_tail := ltac:(field_of eta_mq mq_tail).
#[export] Instance F_mq_free : Field mq_free := ltac:(field_of eta_mq mq_free).
#[export] Instance F_mq_mem : Field mq_mem := ltac:(field_of eta_mq mq_mem).

Definition eta_mempool (r : rt_mempool) := RtMempool (mp_start r) (mp_size r) (block_size r)
  (block_list r) (block_total_count r) (block_free_count r).
#[export] Instance F_block_list : Field block_list := ltac:(field_of eta_mempool block_list).
#[export] Instance F_block_free_count : Field block_free_count :=
  ltac:(field_of eta_mempool block_free_count).

Definition eta_memheap (r : rt_memheap) := RtMemheap (start_addr r) (pool_size r)
  (available_size r) (max_used_size r) (mh_block_list r) (free_list r).
#[export] Instance F_available_size : Field available_size := ltac:(field_of eta_memheap available_size).
#[export] Instance F_max_used_size : Field max_used_size := ltac:(field_of eta_memheap max_used_size).

Definition eta_kstate (r : kstate) := KState (objs r) (containers r) (threads r) (queues r)
  (timers r) (timer_list r) (expired_list r) (random_nr r) (ready_priority_group r)
  (scheduler_lock_nest r) (current_thread r) (rt_current_priority r) (interrupt_nest r)
  (rt_tick r) (rt_errno r) (sems r) (mutexes r) (events r) (mailboxes r) (mqueues r)
  (mempools r) (mem r) (siginfo_pool r) (memheaps r) (heap_mem r) (devices r) (idle_hook_list r) (rvc r) (out r).
#[export] Instance F_objs : Field objs := ltac:(field_of eta_kstate objs).
#[export] Instance F_containers : Field containers := ltac:(field_of eta_kstate containers).
#[export] Instance F_threads : Field threads := ltac:(field_of eta_kstate threads).
#[export] Instance F_queues : Field queues := ltac:(field_of eta_kstate queues).
#[export] Instance F_timers : Field timers := ltac:(field_of eta_kstate timers).
#[export] Instance F_timer_list : Field timer_list := ltac:(field_of eta_kstate timer_list).
#[export] Instance F_expired_list : Field expired_list := ltac:(field_of eta_kstate expired_list).
#[export] Instance F_random_nr : Field random_nr := ltac:(field_of eta_kstate random_nr).
#[export] Instance F_ready_priority_group : Field ready_priority_group :=
  ltac:(field_of eta_kstate ready_priority_group).
#[export] Instance F_scheduler_lock_nest : Field scheduler_lock_nest :=
  ltac:(field_of eta_kstate scheduler_lock_nest).
#[export] Instance F_current_thread : Field current_thread :=
  ltac:(field_of eta_kstate current_thread).
#[export] Instance F_rt_current_priority : Field rt_current_priority :=
  ltac:(field_of eta_kstate rt_current_priority).
#[export] Instance F_interrupt_nest : Field interrupt_nest :=
  ltac:(field_of eta_kstate interrupt_nest).
#[export] Instance F_rt_tick : Field rt_tick := ltac:(field_of eta_kstate rt_tick).
#[export] Instance F_rt_errno : Field rt_errno := ltac:(field_of eta_kstate rt_errno).
#[export] Instance F_sems : Field sems := ltac:(field_of eta_kstate sems).
#[export] Instance F_mutexes : Field mutexes := ltac:(field_of eta_kstate mutexes).
#[export] Instance F_events : Field events := ltac:(field_of eta_kstate events).
#[export] Instance F_mailboxes : Field mailboxes := ltac:(field_of eta_kstate mailboxes).
#[export] Instance F_mqueues : Field mqueues := ltac:(field_of eta_kstate mqueues).
#[export] Instance F_mempools : Field mempools := ltac:(field_of eta_kstate mempools).
#[export] Instance F_mem : Field mem := ltac:(field_of eta_kstate mem).
#[export] Instance F_siginfo_pool : Field siginfo_pool := ltac:(field_of eta_kstate siginfo_pool).
#[export] Instance F_memheaps : Field memheaps := ltac:(field_of eta_kstate memheaps).
#[export] Instance F_heap_mem : Field heap_mem := ltac:(field_of eta_kstate heap_mem).
#[export] Instance F_devices : Field devices := ltac:(field_of eta_kstate devices).
#[export] Instance F_idle_hook_list : Field idle_hook_list :=
  ltac:(field_of eta_kstate idle_hook_list).
#[export] Instance F_rvc : Field rvc := ltac:(field_of eta_kstate rvc).
#[export] Instance F_out : Field out := ltac:(field_of eta_kstate out).

(** *** Programs over the kernel state *)
Abbreviation K := (prog kstate).

(** Reading and writing through a pointer: no object, no behaviour. *)
Definition get_thread (t : tid) : K rt_thread := s ← get; deref (threads s !! t).
Definition mod_thread (t : tid) (f : rt_thread -> rt_thread) : K unit :=
  th ← get_thread t; modify (fun s => s <| threads ::= <[t := f th]> |>).
Definition get_timer (tm : positive) : K rt_timer := s ← get; deref (timers s !! tm).
Definition mod_timer (tm : positive) (f : rt_timer -> rt_timer) : K unit :=
  x ← get_timer tm; modify (fun s => s <| timers ::= <[tm := f x]> |>).
Definition get_obj (r : ref) : K rt_object := s ← get; deref (objs s !! r).
Definition mod_obj (r : ref) (f : rt_object -> rt_object) : K unit :=
  o ← get_obj r; modify (fun s => s <| objs ::= <[r := f o]> |>).

(** [thread->stat & RT_THREAD_STAT_MASK] *)
Definition stat_of (th : rt_thread) : Z := Z.land (stat th) RT_THREAD_STAT_MASK.
(** [thread->stat = v | (thread->stat & ~RT_THREAD_STAT_MASK)] *)
Definition put_stat (v : Z) (th : rt_thread) : rt_thread :=
  th <| stat := Z.lor v (clear_bits (stat th) RT_THREAD_STAT_MASK) |>.

(** [rt_thread_self] *)
Definition rt_thread_self : K (option tid) := gets current_thread.
(** Using the current thread as a pointer. *)
Definition self : K tid := c ← rt_thread_self; deref c.

(** The list of a head; an unused head is an empty list. *)
Definition queue (s : kstate) (h : qhead) : list tid := queues s !!! h.

(** [RT_DEBUG_NOT_IN_INTERRUPT] and [RT_DEBUG_IN_THREAD_CONTEXT] of rtdebug.h *)
Definition RT_DEBUG_NOT_IN_INTERRUPT : K unit :=
  n ← gets interrupt_nest; rt_assert (n =? 0).
Definition RT_DEBUG_IN_THREAD_CONTEXT : K unit :=
  c ← rt_thread_self;
  rt_assert (bool_decide (is_Some c));;
  RT_DEBUG_NOT_IN_INTERRUPT.

(** [rt_get_errno] and [rt_set_errno] of kservice.c *)
Definition rt_get_errno : K Z :=
  n ← gets interrupt_nest;
  if negb (n =? 0) then gets rt_errno
  else c ← rt_thread_self;
       match c with
       | None => gets rt_errno
       | Some t => th ← get_thread t; mret (error th)
       end.

Definition rt_set_errno (e : Z) : K unit :=
  n ← gets interrupt_nest;
  if negb (n =? 0) then modify (fun s => s <| rt_errno := e |>)
  else c ← rt_thread_self;
       match c with
       | None => modify (fun s => s <| rt_errno := e |>)
       | Some t => mod_thread t (fun th => th <| error := e |>)
       end.

(** [rt_kprintf]: the text is formatted and sent to the console device. *)
Definition rt_kprintf (format : string) (args : list Z) : K unit :=
  modify (fun s => s <| out ::= (fun l => OPrint format args :: l) |>).

(** What the linker decides and the program depends on. *)
Class Layout := {
  addr_current_priority : tid -> Z;   (* &thread->current_priority *)
  addr_stack : tid -> Z;              (* the stacks of the application *)
  addr_original_priority : positive -> Z;  (* &mutex->original_priority *)
  addr_string : mstr -> Z;            (* the strings of tasks.c *)
  addr_mb_pool : positive -> Z;       (* mb_pool and mb_pool2_5 of structures.h *)
}.

(** The allocator behind [rt_malloc] and [rt_free] (memheap.c): [None] is
    [RT_NULL]. *)
Class HeapOps := {
  heap_malloc : Z -> K (option Z);
  heap_free : Z -> K unit;
}.
