(* ===== verification/RtList.v ===== *)
(** The circular doubly-linked lists of rt-thread/include/rtservice.h, at the
    level of their pointers, and the lists of threads that the rest of the
    development uses for them. *)
From stdpp Require Export functions.
From S2P Require Export KState.
Local Open Scope Z_scope.

(** ** Pointers *)
Module Ptr.
Section Ptr.
Context {N : Type} `{EqDecision N}.

(** The [next] and [prev] fields of every node. *)
Record links := Links { next : N -> N; prev : N -> N }.
Definition set_next (a b : N) (m : links) : links := Links (<[a := b]> (next m)) (prev m).
Definition set_prev (a b : N) (m : links) : links := Links (next m) (<[a := b]> (prev m)).

(** [l->next = l->prev = l] *)
Definition rt_list_init (l : N) (m : links) : links := set_next l l (set_prev l l m).

Definition rt_list_insert_after (l n : N) (m : links) : links :=
  let m := set_prev (next m l) n m in
  let m := set_next n (next m l) m in
  let m := set_next l n m in
  set_prev n l m.

Definition rt_list_insert_before (l n : N) (m : links) : links :=
  let m := set_next (prev m l) n m in
  let m := set_prev n (prev m l) m in
  let m := set_prev l n m in
  set_next n l m.

Definition rt_list_remove (n : N) (m : links) : links :=
  let m := set_prev (next m n) (prev m n) m in
  let m := set_next (prev m n) (next m n) m in
  let m := set_prev n n m in
  set_next n n m.

Definition rt_list_isempty (l : N) (m : links) : bool := bool_decide (next m l = l).

(** The loop of [rt_list_len]; [fuel] bounds the number of its iterations. *)
Fixpoint rt_list_len_loop (fuel : nat) (l p : N) (m : links) (len : Z) : option Z :=
  if decide (next m p = l) then Some len
  else match fuel with
       | O => None
       | S f => rt_list_len_loop f l (next m p) m (u32 (len + 1))
       end.
Definition rt_list_len (fuel : nat) (l : N) (m : links) : option Z :=
  rt_list_len_loop fuel l l m 0.

(** [seg m a xs b]: from [a], the [next] pointers go through [xs] to [b] and
    the [prev] pointers come back. *)
Fixpoint seg (m : links) (a : N) (xs : list N) (b : N) : Prop :=
  match xs with
  | [] => next m a = b /\ prev m b = a
  | x :: xs => next m a = x /\ prev m x = a /\ seg m x xs b
  end.

(** The list of head [h] holds [xs]; a node in no list is [ring m n []]. *)
Definition ring (m : links) (h : N) (xs : list N) : Prop := NoDup (h :: xs) /\ seg m h xs h.

Lemma seg_app m a xs y ys b :
  seg m a (xs ++ y :: ys) b <-> seg m a xs y /\ seg m y ys b.
Proof.
  revert a. induction xs as [|x xs IH]; intros a; simpl; [tauto|]. rewrite IH. tauto.
Qed.

(** A segment reads [next] on [a :: xs] and [prev] on [xs ++ [b]]. *)
Lemma seg_frame m m' a xs b :
  (forall x, x ∈ a :: xs -> next m' x = next m x) ->
  (forall x, x ∈ xs ++ [b] -> prev m' x = prev m x) ->
  seg m a xs b -> seg m' a xs b.
Proof.
  revert a. induction xs as [|x xs IH]; intros a Hn Hp; simpl.
  - intros [H1 H2]. rewrite Hn, Hp by set_solver. done.
  - intros (H1 & H2 & H3). rewrite Hn, Hp by set_solver. split_and!; [done..|].
    apply IH; [set_solver..|done].
Qed.

Lemma ring_frame m m' h xs :
  (forall x, x ∈ h :: xs -> next m' x = next m x /\ prev m' x = prev m x) ->
  ring m h xs -> ring m' h xs.
Proof.
  intros Hf [Hd Hs]. split; [done|]. revert Hs. apply seg_frame.
  - intros x Hx. by apply Hf.
  - intros x Hx. apply Hf. set_solver.
Qed.

Lemma ring_ends m h xs :
  ring m h xs -> next m h = hd h xs /\ prev m h = List.last xs h.
Proof.
  intros [_ Hs]. split; [destruct xs; simpl in *; naive_solver|].
  destruct xs as [|x xs _] using rev_ind; [by destruct Hs|].
  rewrite last_last. apply seg_app in Hs as [_ [_ Hs]]. done.
Qed.

(** Linking [n] between two neighbours, and unlinking it. *)
Definition spliced (m m' : links) (p n l : N) : Prop :=
  (forall x, next m' x = if decide (x = n) then l else if decide (x = p) then n else next m x) /\
  (forall x, prev m' x = if decide (x = n) then p else if decide (x = l) then n else prev m x).
Definition unspliced (m m' : links) (p n l : N) : Prop :=
  (forall x, next m' x = if decide (x = n) then n else if decide (x = p) then l else next m x) /\
  (forall x, prev m' x = if decide (x = n) then n else if decide (x = l) then p else prev m x).

Ltac solve_nodup :=
  repeat match goal with H : NoDup (_ :: _) |- _ => apply NoDup_cons in H as [? H] end;
  repeat match goal with H : NoDup (_ ++ _) |- _ => apply NoDup_app in H as (? & ? & ?) end;
  repeat match goal with
         | H : seg _ _ _ _ |- _ => clear H
         | H : next _ _ = _ |- _ => clear H
         | H : prev _ _ = _ |- _ => clear H
         | H : forall x, next _ x = _ |- _ => clear H
         | H : forall x, prev _ x = _ |- _ => clear H
         end;
  first [done|set_solver].
Ltac at_node := repeat case_decide; simplify_eq; try done; try solve_nodup.

Lemma spliced_seg_left m m' h xs p n l :
  NoDup (n :: h :: xs) -> p = List.last xs h -> l ∉ xs -> spliced m m' p n l ->
  seg m h xs l -> seg m' h xs n.
Proof.
  intros Hd -> Hl [Hn Hp].
  destruct xs as [|x xs _] using rev_ind; simpl.
  - intros _. rewrite Hn, Hp. at_node.
  - rewrite last_last in *. rewrite !seg_app. intros [Hs _]. split.
    + eapply seg_frame; [..|exact Hs]; intros y Hy; rewrite ?Hn, ?Hp; at_node.
    + simpl. rewrite Hn, Hp. at_node.
Qed.

Lemma spliced_seg_right m m' h ys p n l :
  NoDup (n :: h :: ys) -> l = hd h ys -> p ∉ ys -> spliced m m' p n l ->
  seg m p ys h -> seg m' n ys h.
Proof.
  intros Hd -> Hl [Hn Hp]. destruct ys as [|y ys]; simpl in *.
  - intros _. rewrite Hn, Hp. at_node.
  - intros (_ & _ & Hs). split_and!; [rewrite Hn|rewrite Hp|]; [at_node..|].
    eapply seg_frame; [..|exact Hs]; intros z Hz; rewrite ?Hn, ?Hp; at_node.
Qed.

Lemma last_cons (x : N) xs a : List.last (x :: xs) a = List.last xs x.
Proof.
  revert x a. induction xs as [|y xs IH]; intros x a; [done|].
  rewrite (IH y x). exact (IH y a).
Qed.

Lemma seg_split m a xs ys b :
  seg m a (xs ++ ys) b <-> seg m a xs (hd b ys) /\ seg m (List.last xs a) ys b.
Proof.
  revert a. induction xs as [|x xs IH]; intros a.
  - destruct ys; simpl; tauto.
  - rewrite last_cons. simpl. rewrite IH. tauto.
Qed.

Lemma ring_splice m m' h n xs ys :
  ring m h (xs ++ ys) -> n ∉ h :: xs ++ ys ->
  spliced m m' (List.last xs h) n (hd h ys) -> ring m' h (xs ++ n :: ys).
Proof.
  intros [Hd Hs] Hn Hsp. apply seg_split in Hs as [H1 H2].
  assert (Hd' : NoDup (n :: h :: xs ++ ys)) by (by apply NoDup_cons).
  split; [by rewrite <- Permutation_middle, Permutation_swap|].
  apply seg_app; split.
  - eapply spliced_seg_left; [| |  |exact Hsp|done]; [|done|].
    + revert Hd'. rewrite app_comm_cons, app_comm_cons. by intros [? _]%NoDup_app.
    + destruct ys; simpl; solve_nodup.
  - eapply spliced_seg_right; [| |  |exact Hsp|done]; [|done|].
    + revert Hd'. clear. intros Hd. repeat (apply NoDup_cons; split); solve_nodup.
    + destruct xs as [|x xs _] using rev_ind; simpl; rewrite ?last_last; solve_nodup.
Qed.

Lemma unspliced_seg_left m m' h xs p n l :
  NoDup (n :: h :: xs) -> p = List.last xs h -> l ∉ n :: xs -> unspliced m m' p n l ->
  seg m h xs n -> seg m' h xs l.
Proof.
  intros Hd -> Hl [Hn Hp].
  destruct xs as [|x xs _] using rev_ind; simpl.
  - intros _. rewrite Hn, Hp. at_node.
  - rewrite last_last in *. rewrite !seg_app. intros [Hs _]. split.
    + eapply seg_frame; [..|exact Hs]; intros y Hy; rewrite ?Hn, ?Hp; at_node.
    + simpl. rewrite Hn, Hp. at_node.
Qed.

Lemma unspliced_seg_right m m' h ys p n l :
  NoDup (n :: h :: ys) -> l = hd h ys -> p ∉ n :: ys -> unspliced m m' p n l ->
  seg m n ys h -> seg m' p ys h.
Proof.
  intros Hd -> Hl [Hn Hp]. destruct ys as [|y ys]; simpl in *.
  - intros _. rewrite Hn, Hp. at_node.
  - intros (_ & _ & Hs). split_and!; [rewrite Hn|rewrite Hp|]; [at_node..|].
    eapply seg_frame; [..|exact Hs]; intros z Hz; rewrite ?Hn, ?Hp; at_node.
Qed.

Lemma ring_unsplice m m' h n xs ys :
  ring m h (xs ++ n :: ys) -> unspliced m m' (List.last xs h) n (hd h ys) ->
  ring m' h (xs ++ ys) /\ ring m' n [].
Proof.
  intros [Hd Hs] Hun. pose proof Hun as [Hn Hp].
  rewrite <- Permutation_middle, Permutation_swap in Hd.
  apply seg_app in Hs as [H1 H2]. split; split.
  - by apply NoDup_cons in Hd as [_ ?].
  - apply seg_split; split.
    + eapply unspliced_seg_left; [| | |exact Hun|exact H1]; [|done|].
      * revert Hd. rewrite !app_comm_cons. by intros [? _]%NoDup_app.
      * destruct ys; simpl; solve_nodup.
    + eapply unspliced_seg_right; [| | |exact Hun|exact H2]; [|done|].
      * clear Hn Hp Hun. repeat (apply NoDup_cons; split); solve_nodup.
      * destruct xs as [|x xs _] using rev_ind; simpl; rewrite ?last_last; solve_nodup.
  - apply NoDup_singleton.
  - simpl. rewrite Hn, Hp. by rewrite !decide_True by done.
Qed.

(** *** What the operations do to the lists *)
Lemma rt_list_init_ring m l : ring (rt_list_init l m) l [].
Proof.
  split; [apply NoDup_singleton|]. unfold rt_list_init. simpl.
  by rewrite !fn_lookup_insert.
Qed.

Lemma rt_list_isempty_ring m h xs :
  ring m h xs -> rt_list_isempty h m = bool_decide (xs = []).
Proof.
  intros Hr. pose proof (proj1 (ring_ends _ _ _ Hr)) as E. destruct Hr as [Hd _].
  unfold rt_list_isempty. rewrite E. apply bool_decide_ext.
  destruct xs; simpl; [done|]. split; [|done]. intros ->. solve_nodup.
Qed.

Lemma insert_before_spliced m p n l :
  prev m l = p -> n <> l -> n <> p -> spliced m (rt_list_insert_before l n m) p n l.
Proof.
  intros <- Hl Hp. unfold rt_list_insert_before, set_next, set_prev. split; intros x; simpl;
    unfold insert, fn_insert; repeat case_decide; simplify_eq; done.
Qed.

Lemma insert_after_spliced m p n l :
  next m p = l -> n <> l -> n <> p -> spliced m (rt_list_insert_after p n m) p n l.
Proof.
  intros <- Hl Hp. unfold rt_list_insert_after, set_next, set_prev. split; intros x; simpl;
    unfold insert, fn_insert; repeat case_decide; simplify_eq; done.
Qed.

Lemma remove_unspliced m p n l :
  prev m n = p -> next m n = l -> n <> l -> n <> p -> unspliced m (rt_list_remove n m) p n l.
Proof.
  intros <- <- Hl Hp. unfold rt_list_remove, set_next, set_prev. split; intros x; simpl;
    unfold insert, fn_insert; repeat (case_decide; simplify_eq); done.
Qed.

(** Removing a node that is in no list changes nothing. *)
Lemma rt_list_remove_alone m n x :
  ring m n [] -> next (rt_list_remove n m) x = next m x /\ prev (rt_list_remove n m) x = prev m x.
Proof.
  intros [_ [H1 H2]]. unfold rt_list_remove, set_next, set_prev. simpl.
  unfold insert, fn_insert.
  repeat (rewrite ?H1, ?H2; case_decide); subst; rewrite ?H1, ?H2; try done.

Qed.

Lemma ring_at m h xs n ys :
  ring m h (xs ++ n :: ys) -> prev m n = List.last xs h /\ next m n = hd h ys /\
    n <> List.last xs h /\ n <> hd h ys.
Proof.
  intros [Hd Hs]. rewrite <- Permutation_middle, Permutation_swap in Hd.
  apply seg_app in Hs as [H1 H2]. split_and!.
  - destruct xs as [|x xs _] using rev_ind; [by destruct H1|].
    rewrite last_last. by apply seg_app in H1 as (_ & _ & ?).
  - destruct ys; simpl in *; naive_solver.
  - destruct xs as [|x xs _] using rev_ind; simpl; rewrite ?last_last; [|clear H1 H2];
      solve_nodup.
  - destruct ys; simpl in *; [|clear H1 H2]; solve_nodup.
Qed.

Lemma rt_list_insert_before_ring m h n xs ys :
  ring m h (xs ++ ys) -> n ∉ h :: xs ++ ys ->
  ring (rt_list_insert_before (hd h ys) n m) h (xs ++ n :: ys).
Proof.
  intros Hr Hn. apply (ring_splice m); [done..|]. apply insert_before_spliced.
  - destruct ys as [|y ys]; simpl.
    + rewrite app_nil_r in Hr. by apply ring_ends in Hr as [_ ?].
    + by apply ring_at in Hr as [? _].
  - destruct ys; simpl; set_solver.
  - destruct xs as [|x xs _] using rev_ind; rewrite ?last_last; set_solver.
Qed.

Lemma rt_list_insert_after_ring m h n xs :
  ring m h xs -> n ∉ h :: xs -> ring (rt_list_insert_after h n m) h (n :: xs).
Proof.
  intros Hr Hn. apply (ring_splice m _ h n [] xs); [done..|]. apply insert_after_spliced.
  - by apply ring_ends in Hr as [? _].
  - destruct xs; simpl; set_solver.
  - set_solver.
Qed.

Lemma rt_list_remove_ring m h n xs ys :
  ring m h (xs ++ n :: ys) ->
  ring (rt_list_remove n m) h (xs ++ ys) /\ ring (rt_list_remove n m) n [].
Proof.
  intros Hr. apply (ring_unsplice m); [done|].
  apply ring_at in Hr as (? & ? & ? & ?). by apply remove_unspliced.
Qed.

(** *** What they leave alone *)
Lemma spliced_frame m m' p n l h xs :
  spliced m m' p n l -> n ∉ h :: xs -> p ∉ h :: xs -> l ∉ h :: xs ->
  ring m h xs -> ring m' h xs.
Proof.
  intros [Hn Hp] ? ? ?. apply ring_frame. intros x Hx. rewrite Hn, Hp.
  by rewrite !decide_False by set_solver.
Qed.

Lemma unspliced_frame m m' p n l h xs :
  unspliced m m' p n l -> n ∉ h :: xs -> p ∉ h :: xs -> l ∉ h :: xs ->
  ring m h xs -> ring m' h xs.
Proof.
  intros [Hn Hp] ? ? ?. apply ring_frame. intros x Hx. rewrite Hn, Hp.
  by rewrite !decide_False by set_solver.
Qed.

Lemma hd_in (h : N) ys : hd h ys ∈ h :: ys.
Proof. destruct ys; set_solver. Qed.
Lemma last_in (h : N) xs : List.last xs h ∈ h :: xs.
Proof. destruct xs as [|x xs _] using rev_ind; rewrite ?last_last; set_solver. Qed.

(** The loop of [rt_list_len] ends and counts, with as much fuel as nodes. *)
Lemma rt_list_len_loop_seg m h xs p len fuel :
  NoDup (h :: xs) -> seg m p xs h -> p ∉ xs -> (length xs <= fuel)%nat ->
  0 <= len -> len + Z.of_nat (length xs) < 2 ^ 32 ->
  rt_list_len_loop fuel h p m len = Some (len + Z.of_nat (length xs)).
Proof.
  revert p len fuel. induction xs as [|x xs IH]; intros p len fuel Hd Hs Hp Hf Hl Hb; simpl in *.
  - destruct Hs as [E _]. destruct fuel; simpl; rewrite E, decide_True by done; f_equal; lia.
  - destruct Hs as (E & _ & Hs). apply NoDup_cons in Hd as [Hh Hd].
    destruct fuel as [|fuel]; simpl; [lia|]. rewrite E, decide_False by set_solver.
    unfold u32, wrap. rewrite Z.mod_small by lia.
    rewrite IH; [f_equal; lia|..]; try lia; try done.
    + apply NoDup_cons. split; [set_solver|by apply NoDup_cons in Hd as [_ ?]].
    + by apply NoDup_cons in Hd as [? _].
Qed.
End Ptr.
End Ptr.

(** ** Lists of threads

    The rest of the development keeps, for every list head, the list of the
    threads linked behind it. *)
Definition q_push_back (h : qhead) (t : tid) (q : gmap qhead (list tid)) : gmap qhead (list tid) :=
  <[h := q !!! h ++ [t]]> q.
Definition q_push_front (h : qhead) (t : tid) (q : gmap qhead (list tid)) : gmap qhead (list tid) :=
  <[h := t :: q !!! h]> q.
(** [rt_list_insert_before(&u->tlist, &t->tlist)], [u] being in the list of [h]. *)
Fixpoint insert_before_elem (u t : tid) (l : list tid) : list tid :=
  match l with
  | [] => []
  | x :: l => if decide (x = u) then t :: x :: l else x :: insert_before_elem u t l
  end.
Definition q_insert_before (h : qhead) (u t : tid) (q : gmap qhead (list tid)) :
    gmap qhead (list tid) := <[h := insert_before_elem u t (q !!! h)]> q.
(** [rt_list_remove(&t->tlist)], whatever list [t] is in. *)
Definition q_remove (t : tid) (q : gmap qhead (list tid)) : gmap qhead (list tid) :=
  (fun l => filter (.≠ t) l) <$> q.

Lemma q_remove_lookup t q h : q_remove t q !!! h = filter (.≠ t) (q !!! h).
Proof. unfold q_remove. rewrite !lookup_total_alt, lookup_fmap. by destruct (q !! h). Qed.

Lemma elem_of_q_remove t u q h : u ∈ q_remove t q !!! h <-> u ∈ q !!! h /\ u <> t.
Proof. rewrite q_remove_lookup, list_elem_of_filter. tauto. Qed.

Lemma q_push_back_lookup h t q h' :
  q_push_back h t q !!! h' = if decide (h = h') then q !!! h ++ [t] else q !!! h'.
Proof.
  unfold q_push_back. case_decide; subst; [by rewrite lookup_total_insert_eq|].
  by rewrite lookup_total_insert_ne.
Qed.

(** No thread is in two lists. *)
Definition one_list (q : gmap qhead (list tid)) : Prop :=
  forall h1 h2 t, t ∈ q !!! h1 -> t ∈ q !!! h2 -> h1 = h2.
Definition unlinked (t : tid) (q : gmap qhead (list tid)) : Prop := forall h, t ∉ q !!! h.

(** The nodes: the list heads, and the [tlist] field of every thread. *)
Inductive node := Head (h : qhead) | Tlist (t : tid).
#[export] Instance node_eq_dec : EqDecision node.
Proof. solve_decision. Defined.
#[export] Instance Tlist_inj : Inj (=) (=) Tlist.
Proof. by intros ?? [=]. Qed.

(** The pointers [m] represent the lists [q]. *)
Record linked (m : Ptr.links (N := node)) (q : gmap qhead (list tid)) : Prop := {
  lk_ring h : Ptr.ring m (Head h) (Tlist <$> q !!! h);
  lk_alone t : unlinked t q -> Ptr.ring m (Tlist t) [] }.

Lemma filter_alone (t : tid) (l : list tid) : t ∉ l -> filter (.≠ t) l = l.
Proof.
  induction l as [|x l IH]; [done|]. intros Hx. rewrite filter_cons, decide_True by set_solver.
  f_equal. apply IH. set_solver.
Qed.

Section Refinement.
Context (m m' : Ptr.links (N := node)) (q : gmap qhead (list tid)).
Context (HL : linked m q) (H1 : one_list q).

Lemma node_in_one h h' x :
  x ∈ Head h :: (Tlist <$> q !!! h) -> x ∈ Head h' :: (Tlist <$> q !!! h') -> h = h'.
Proof.
  rewrite !elem_of_cons, !list_elem_of_fmap.
  intros [->|(t & -> & Ht)] [E|(u & E & Hu)]; simplify_eq; eauto.
Qed.

Lemma tlist_not_in t h : t ∉ q !!! h -> Tlist t ∉ Head h :: (Tlist <$> q !!! h).
Proof. rewrite elem_of_cons, list_elem_of_fmap. intros Ht [?|(u & ? & Hu)]; by simplify_eq. Qed.

Lemma linked_splice h t xs ys :
  unlinked t q -> q !!! h = xs ++ ys ->
  Ptr.spliced m m' (List.last (Tlist <$> xs) (Head h)) (Tlist t) (hd (Head h) (Tlist <$> ys)) ->
  linked m' (<[h := xs ++ t :: ys]> q).
Proof.
  intros Ht Hq Hsp.
  assert (Hp : List.last (Tlist <$> xs) (Head h) ∈ Head h :: (Tlist <$> q !!! h)).
  { rewrite Hq, fmap_app, app_comm_cons. apply elem_of_app. left. apply Ptr.last_in. }
  assert (Hl : hd (Head h) (Tlist <$> ys) ∈ Head h :: (Tlist <$> q !!! h)).
  { pose proof (Ptr.hd_in (Head h) (Tlist <$> ys)). rewrite Hq, fmap_app. set_solver. }
  split.
  - intros h'. destruct (decide (h = h')) as [<-|Hne].
    + rewrite lookup_total_insert_eq, fmap_app, fmap_cons.
      apply (Ptr.ring_splice m); [|..|done]; rewrite <- fmap_app, <- Hq; [apply HL|].
      by apply tlist_not_in.
    + rewrite lookup_total_insert_ne by done. apply (Ptr.spliced_frame _ _ _ _ _ _ _ Hsp).
      * by apply tlist_not_in.
      * intros Hin. by apply Hne, (node_in_one _ _ _ Hp).
      * intros Hin. by apply Hne, (node_in_one _ _ _ Hl).
      * apply HL.
  - intros u Hu.
    assert (Hu' : u ∉ xs ++ t :: ys) by (specialize (Hu h); by rewrite lookup_total_insert_eq in Hu).
    assert (Hq' : u ∉ q !!! h) by (rewrite Hq; set_solver).
    assert (Hx : forall x, x ∈ Head h :: (Tlist <$> q !!! h) -> x ∉ [Tlist u]).
    { intros x Hx ->%list_elem_of_singleton. by eapply tlist_not_in. }
    apply (Ptr.spliced_frame _ _ _ _ _ _ _ Hsp);
      [set_solver|by apply Hx|by apply Hx|].
    apply HL. intros h'. destruct (decide (h = h')) as [<-|Hne]; [done|].
    specialize (Hu h'). by rewrite lookup_total_insert_ne in Hu.
Qed.

Lemma linked_unsplice h t xs ys :
  q !!! h = xs ++ t :: ys ->
  Ptr.unspliced m m' (List.last (Tlist <$> xs) (Head h)) (Tlist t) (hd (Head h) (Tlist <$> ys)) ->
  linked m' (q_remove t q).
Proof.
  intros Hq Hun. pose proof (lk_ring _ _ HL h) as Hr.
  assert (Ht : t ∈ q !!! h) by (rewrite Hq; set_solver).
  assert (Hd : NoDup (q !!! h)).
  { destruct Hr as [Hd _]. apply NoDup_cons in Hd as [_ Hd]. by apply NoDup_fmap_1 in Hd. }
  assert (Hxy : (t ∉ xs) /\ (t ∉ ys)).
  { rewrite Hq in Hd. apply NoDup_app in Hd as (? & Hd1 & Hd2). apply NoDup_cons in Hd2 as [? _].
    split; [|done]. intros Hx. apply (Hd1 t Hx). set_solver. }
  assert (Hp : List.last (Tlist <$> xs) (Head h) ∈ Head h :: (Tlist <$> q !!! h)).
  { rewrite Hq, fmap_app, app_comm_cons. apply elem_of_app. left. apply Ptr.last_in. }
  assert (Hl : hd (Head h) (Tlist <$> ys) ∈ Head h :: (Tlist <$> q !!! h)).
  { pose proof (Ptr.hd_in (Head h) (Tlist <$> ys)). rewrite Hq, fmap_app. set_solver. }
  assert (Hn : Tlist t ∈ Head h :: (Tlist <$> q !!! h)) by set_solver.
  rewrite Hq, fmap_app, fmap_cons in Hr.
  destruct (Ptr.ring_unsplice _ _ _ _ _ _ Hr Hun) as [Hr1 Hr2].
  split.
  - intros h'. rewrite q_remove_lookup. destruct (decide (h = h')) as [<-|Hne].
    + rewrite Hq, filter_app, filter_cons, decide_False by tauto.
      rewrite !filter_alone by tauto. by rewrite fmap_app.
    + assert (t ∉ q !!! h') by (intros ?; by apply Hne, (H1 _ _ t)).
      rewrite filter_alone by done.
      apply (Ptr.unspliced_frame _ _ _ _ _ _ _ Hun); [intros Hin..|apply HL].
      * by apply Hne, (node_in_one _ _ _ Hn).
      * by apply Hne, (node_in_one _ _ _ Hp).
      * by apply Hne, (node_in_one _ _ _ Hl).
  - intros u Hu. destruct (decide (u = t)) as [->|Hut]; [done|].
    assert (Huq : unlinked u q).
    { intros h' Hin. apply (Hu h'). by apply elem_of_q_remove. }
    assert (Hx : forall x, x ∈ Head h :: (Tlist <$> q !!! h) -> x ∉ [Tlist u]).
    { intros x Hx ->%list_elem_of_singleton. by eapply tlist_not_in. }
    apply (Ptr.unspliced_frame _ _ _ _ _ _ _ Hun); [by apply Hx..|]. by apply HL.
Qed.
End Refinement.

Lemma insert_before_elem_split u t l :
  u ∈ l -> exists xs ys, l = xs ++ u :: ys /\ insert_before_elem u t l = xs ++ t :: u :: ys.
Proof.
  induction l as [|x l IH]; [set_solver|]. simpl. intros Hu. case_decide as E; subst.
  - by exists [], l.
  - destruct IH as (xs & ys & -> & ->); [set_solver|]. by exists (x :: xs), ys.
Qed.

Lemma linked_push_back m q h t :
  linked m q -> one_list q -> unlinked t q ->
  linked (Ptr.rt_list_insert_before (Head h) (Tlist t) m) (q_push_back h t q).
Proof.
  intros HL H1 Ht. pose proof (lk_ring _ _ HL h) as Hr.
  eapply linked_splice; [done..|by rewrite app_nil_r|]. simpl.
  apply Ptr.insert_before_spliced; [by apply Ptr.ring_ends in Hr as [_ ?]|done|].
  pose proof (Ptr.last_in (Head h) (Tlist <$> q !!! h)) as Hin. intros E. rewrite <- E in Hin.
  by eapply tlist_not_in.
Qed.

Lemma linked_push_front m q h t :
  linked m q -> one_list q -> unlinked t q ->
  linked (Ptr.rt_list_insert_after (Head h) (Tlist t) m) (q_push_front h t q).
Proof.
  intros HL H1 Ht. pose proof (lk_ring _ _ HL h) as Hr.
  eapply (linked_splice _ _ _ HL H1 h t [] (q !!! h)); [done..|]. simpl.
  apply Ptr.insert_after_spliced; [by apply Ptr.ring_ends in Hr as [? _]| |done].
  pose proof (Ptr.hd_in (Head h) (Tlist <$> q !!! h)) as Hin. intros E. rewrite <- E in Hin.
  by eapply tlist_not_in.
Qed.

Lemma linked_insert_before m q h u t :
  linked m q -> one_list q -> unlinked t q -> u ∈ q !!! h ->
  linked (Ptr.rt_list_insert_before (Tlist u) (Tlist t) m) (q_insert_before h u t q).
Proof.
  intros HL H1 Ht Hu. pose proof (lk_ring _ _ HL h) as Hr.
  destruct (insert_before_elem_split u t _ Hu) as (xs & ys & Hq & Hi).
  unfold q_insert_before. rewrite Hi. eapply linked_splice; [done..|]. simpl.
  rewrite Hq, fmap_app, fmap_cons in Hr. apply Ptr.ring_at in Hr as (? & _).
  apply Ptr.insert_before_spliced; [done|..].
  - intros [= ->]. by apply (Ht h).
  - pose proof (Ptr.last_in (Head h) (Tlist <$> xs)) as Hin. intros E. rewrite <- E in Hin.
    eapply (tlist_not_in q t h); [done|]. rewrite Hq, fmap_app. set_solver.
Qed.

#[export] Instance linked_dec (t : tid) (q : gmap qhead (list tid)) :
  Decision (exists h, t ∈ q !!! h).
Proof.
  destruct (decide (Exists (fun p : qhead * list tid => t ∈ p.2) (map_to_list q))) as [HE|HE].
  - left. apply Exists_exists in HE as ([h l] & Hin & Ht). exists h.
    apply elem_of_map_to_list in Hin. by rewrite lookup_total_alt, Hin.
  - right. intros [h Ht]. apply HE, Exists_exists. rewrite lookup_total_alt in Ht.
    destruct (q !! h) as [l|] eqn:E; [|by apply elem_of_nil in Ht].
    exists (h, l). split; [by apply elem_of_map_to_list|done].
Defined.

Lemma linked_remove m q t :
  linked m q -> one_list q -> linked (Ptr.rt_list_remove (Tlist t) m) (q_remove t q).
Proof.
  intros HL H1. destruct (decide (exists h, t ∈ q !!! h)) as [[h Ht]|Ht].
  - apply list_elem_of_split in Ht as (xs & ys & Hq). eapply linked_unsplice; [done..|].
    pose proof (lk_ring _ _ HL h) as Hr. rewrite Hq, fmap_app, fmap_cons in Hr.
    apply Ptr.ring_at in Hr as (? & ? & ? & ?). by apply Ptr.remove_unspliced.
  - assert (Hu : unlinked t q) by (intros h ?; apply Ht; eauto).
    pose proof (lk_alone _ _ HL t Hu) as Ha. split.
    + intros h. rewrite q_remove_lookup, filter_alone by done.
      eapply Ptr.ring_frame; [|apply HL]. intros x _. by apply Ptr.rt_list_remove_alone.
    + intros u Hun. eapply Ptr.ring_frame; [intros x _; by apply Ptr.rt_list_remove_alone|].
      destruct (decide (u = t)) as [->|Hne]; [done|]. apply HL. intros h Hin.
      apply (Hun h). by apply elem_of_q_remove.
Qed.

(** *** Sequences of list operations *)
Inductive list_op :=
| OpBack (h : qhead) (t : tid) | OpFront (h : qhead) (t : tid)
| OpBefore (h : qhead) (u t : tid) | OpRemove (t : tid).

Definition op_links (o : list_op) : Ptr.links (N := node) -> Ptr.links :=
  match o with
  | OpBack h t => Ptr.rt_list_insert_before (Head h) (Tlist t)
  | OpFront h t => Ptr.rt_list_insert_after (Head h) (Tlist t)
  | OpBefore h u t => Ptr.rt_list_insert_before (Tlist u) (Tlist t)
  | OpRemove t => Ptr.rt_list_remove (Tlist t)
  end.
Definition op_queues (o : list_op) : gmap qhead (list tid) -> gmap qhead (list tid) :=
  match o with
  | OpBack h t => q_push_back h t
  | OpFront h t => q_push_front h t
  | OpBefore h u t => q_insert_before h u t
  | OpRemove t => q_remove t
  end.

(** A thread is inserted only when it is in no list. *)
Definition op_legal (o : list_op) (q : gmap qhead (list tid)) : Prop :=
  match o with
  | OpBack _ t | OpFront _ t => unlinked t q
  | OpBefore h u t => unlinked t q /\ u ∈ q !!! h
  | OpRemove _ => True
  end.
Fixpoint ops_legal (os : list list_op) (q : gmap qhead (list tid)) : Prop :=
  match os with
  | [] => True
  | o :: os => op_legal o q /\ ops_legal os (op_queues o q)
  end.

Lemma elem_insert_before_elem u t x l :
  x ∈ insert_before_elem u t l -> x = t \/ x ∈ l.
Proof.
  induction l as [|y l IH]; [set_solver|]. simpl. case_decide; set_solver.
Qed.

Lemma one_list_insert (q : gmap qhead (list tid)) h t l :
  one_list q -> unlinked t q -> (forall x, x ∈ l -> x = t \/ x ∈ q !!! h) ->
  one_list (<[h := l]> q).
Proof.
  intros H1 Ht Hl.
  assert (Hx : forall h' x, x ∈ (<[h := l]> q) !!! h' -> (x = t /\ h' = h) \/ x ∈ q !!! h').
  { intros h' x. destruct (decide (h = h')) as [<-|Hne].
    - rewrite lookup_total_insert_eq. intros [->|?]%Hl; auto.
    - rewrite lookup_total_insert_ne by done. auto. }
  intros h1 h2 x [[-> ->]|Hx1]%Hx [[E ->]|Hx2]%Hx; subst; try done;
    [by destruct (Ht h2)|by destruct (Ht h1)|eauto].
Qed.

Lemma op_queues_one_list o q : one_list q -> op_legal o q -> one_list (op_queues o q).
Proof.
  intros H1. destruct o as [h t|h t|h u t|t]; simpl.
  - intros Ht. eapply one_list_insert; [done..|]. set_solver.
  - intros Ht. eapply one_list_insert; [done..|]. set_solver.
  - intros [Ht _]. eapply one_list_insert; [done..|]. intros x. apply elem_insert_before_elem.
  - intros _ h1 h2 x [? _]%elem_of_q_remove [? _]%elem_of_q_remove. eauto.
Qed.

Lemma op_linked o m q :
  linked m q -> one_list q -> op_legal o q -> linked (op_links o m) (op_queues o q).
Proof.
  intros HL H1. destruct o as [h t|h t|h u t|t]; simpl.
  - by apply linked_push_back.
  - by apply linked_push_front.
  - intros [? ?]. by apply linked_insert_before.
  - intros _. by apply linked_remove.
Qed.

Lemma linked_length m q h (fuel : nat) :
  linked m q -> (length (q !!! h) <= fuel)%nat -> Z.of_nat fuel < 2 ^ 32 ->
  Ptr.rt_list_len fuel (Head h) m = Some (Z.of_nat (length (q !!! h))).
Proof.
  intros HL Hf Hb. destruct (lk_ring _ _ HL h) as [Hd Hs]. unfold Ptr.rt_list_len.
  rewrite (Ptr.rt_list_len_loop_seg m (Head h) (Tlist <$> q !!! h)); rewrite ?length_fmap; try done.
  - by apply NoDup_cons in Hd as [? _].
  - lia.
Qed.

(** C3. The pointer operations of rtservice.h implement lists of threads: after
    any sequence of insertions at the back, at the front or before a linked
    thread, each of a thread that is in no list, and of removals of any thread,
    linked or not, the [next] and [prev] fields of all nodes represent exactly
    the lists that the same operations on lists give; [rt_list_isempty] and
    [rt_list_len] then read off whether a list is empty and its length. *)
Theorem list_ops_refine os m q h (fuel : nat) :
  linked m q -> one_list q -> ops_legal os q ->
  let m' := foldl (fun m o => op_links o m) m os in
  let q' := foldl (fun q o => op_queues o q) q os in
  linked m' q' /\ one_list q' /\
  Ptr.rt_list_isempty (Head h) m' = bool_decide (q' !!! h = []) /\
  ((length (q' !!! h) <= fuel)%nat -> Z.of_nat fuel < 2 ^ 32 ->
   Ptr.rt_list_len fuel (Head h) m' = Some (Z.of_nat (length (q' !!! h)))).
Proof.
  revert m q. induction os as [|o os IH]; intros m q HL H1; simpl.
  - intros _. split; [done|]. split; [done|]. split; [|by apply linked_length].
    rewrite (Ptr.rt_list_isempty_ring _ _ _ (lk_ring _ _ HL h)).
    apply bool_decide_ext. by destruct (q !!! h).
  - intros [Ho Hos]. apply IH; [by apply op_linked|by apply op_queues_one_list|done].
Qed.

Lemma unlinked_empty t : unlinked t ∅.
Proof. intros h. apply not_elem_of_nil. Qed.
Lemma unlinked_insert t h l q : unlinked t q -> t ∉ l -> unlinked t (<[h := l]> q).
Proof.
  intros Hq Hl h'. destruct (decide (h = h')) as [<-|]; [by rewrite lookup_total_insert_eq|].
  by rewrite lookup_total_insert_ne.
Qed.

(** All heads and threads alone, as [rt_list_init] leaves them. *)
Definition links0 : Ptr.links (N := node) := Ptr.Links id id.
Lemma links0_linked : linked links0 ∅.
Proof.
  split; intros; rewrite ?lookup_total_empty; (split; [apply NoDup_singleton|done]).
Qed.

Lemma list_ops_refine_witness :
  let os := [OpBack (QReady 5) 1%positive; OpFront (QReady 5) 2%positive;
             OpBefore (QReady 5) 1%positive 3%positive; OpRemove 2%positive] in
  Ptr.rt_list_len 9 (Head (QReady 5)) (foldl (fun m o => op_links o m) links0 os) = Some 2.
Proof.
  intros os. destruct (list_ops_refine os links0 ∅ (QReady 5) 9 links0_linked) as (_ & _ & _ & E).
  - by intros h1 h2 t ?%elem_of_nil.
  - cbn [os ops_legal op_legal op_queues]. unfold q_push_back, q_push_front, q_insert_before.
    split_and!; repeat apply unlinked_insert; try apply unlinked_empty; vm_compute; set_solver.
  - apply E; [vm_compute; lia|lia].
Defined.
