(* ===== verification/Sched.v ===== *)
(** The scheduler: rt-thread/src/scheduler.c, in its single-core version with
    32 priorities.

    A context switch is the [Switch] of Prelude.v: [rt_schedule] returns when
    the calling thread is switched in again. What the processor does between
    the two, saving the registers of one thread and loading those of another,
    is left to whoever resumes the call. The hooks ([rt_scheduler_hook], ...)
    are not set anywhere in the program and their calls are no-ops. *)
From S2P Require Export KState RtList Ffs.
Local Open Scope Z_scope.

(** The scheduler calls [rt_thread_handle_sig] of signal.c; a thread whose
    stack holds a signal frame runs [_signal_entry] when it is switched in. *)
Class SignalOps := {
  rt_thread_handle_sig : bool -> K unit;
  signal_entry : K unit;
}.

(** [rt_list_remove(&t->tlist)] and the two insertions at a list head. *)
Definition tlist_remove (t : tid) : K unit := modify (fun s => s <| queues ::= q_remove t |>).
Definition tlist_insert_before (h : qhead) (t : tid) : K unit :=
  modify (fun s => s <| queues ::= q_push_back h t |>).
Definition tlist_insert_after (h : qhead) (t : tid) : K unit :=
  modify (fun s => s <| queues ::= q_push_front h t |>).
Definition list_isempty (h : qhead) : K bool := gets (fun s => bool_decide (queue s h = [])).

(** An access to [rt_thread_priority_table[p]] is within the array. *)
Definition in_priority_table (p : Z) : bool := (0 <=? p) && (p <? RT_THREAD_PRIORITY_MAX).

(** The guard byte and the bounds that [_rt_scheduler_stack_check] tests. *)
Definition stack_overflow (th : rt_thread) : bool :=
  negb (stack_guard th =? 35) || (sp th <=? stack_addr th) || (stack_addr th + stack_size th <? sp th).

(** On an overflow the function stops the system: it is called with the
    interrupts disabled and waits for ever. *)
Definition rt_scheduler_stack_check (t : tid) : K unit :=
  th ← get_thread t; rt_assert (negb (stack_overflow th)).

Definition scheduler_get_highest_priority_thread : K (tid * Z) :=
  group ← gets ready_priority_group;
  let highest_ready_priority := rt_ffs group - 1 in
  q ← gets (fun s => queue s (QReady highest_ready_priority));
  t ← deref (head q);
  mret (t, highest_ready_priority).

Definition rt_system_scheduler_init : K unit :=
  modify (fun s => s <| scheduler_lock_nest := 0 |>
    <| queues ::= (fun q => foldr (fun p q => <[QReady p := []]> q) q
                              (seqZ 0 RT_THREAD_PRIORITY_MAX)) |>
    <| ready_priority_group := 0 |>).

Definition rt_schedule_insert_thread (t : tid) : K unit :=
  c ← rt_thread_self;
  if bool_decide (c = Some t) then mod_thread t (put_stat RT_THREAD_RUNNING)
  else
    mod_thread t (put_stat RT_THREAD_READY);;
    th ← get_thread t;
    rt_assert (in_priority_table (current_priority th));;
    tlist_insert_before (QReady (current_priority th)) t;;
    modify (fun s => s <| ready_priority_group ::= (fun g => Z.lor g (number_mask th)) |>).

Definition rt_schedule_remove_thread (t : tid) : K unit :=
  th ← get_thread t;
  tlist_remove t;;
  rt_assert (in_priority_table (current_priority th));;
  e ← list_isempty (QReady (current_priority th));
  when e (modify (fun s => s <| ready_priority_group ::= (fun g => clear_bits g (number_mask th)) |>)).

(** [rt_hw_context_switch_to] does not return. *)
Definition rt_hw_context_switch_to : K unit := fun s => Switch s (fun _ => Fault).

Definition rt_system_scheduler_start : K unit :=
  '(to, _) ← scheduler_get_highest_priority_thread;
  modify (fun s => s <| current_thread := Some to |>);;
  rt_schedule_remove_thread to;;
  mod_thread to (fun th => th <| stat := RT_THREAD_RUNNING |>);;
  rt_hw_context_switch_to.

(** The choice between the current thread and the first ready one: the thread
    to run, and whether the current one goes back to the ready queue. *)
Definition check_priorities (cur : tid) (c : rt_thread) (to : tid) (prio : Z) : tid * bool :=
  if current_priority c <? prio then (cur, false)
  else if (current_priority c =? prio) && negb (has_bits (stat c) RT_THREAD_STAT_YIELD_MASK)
       then (cur, false)
       else (to, true).

Section Schedule.
Context `{!SignalOps}.

(** The frame that [_signal_deliver] pushed on the stack of the thread. *)
Definition run_signal_frame : K unit :=
  me ← self;
  th ← get_thread me;
  if bool_decide (is_Some (sig_ret th)) then signal_entry else mret tt.

(** What [rt_schedule] does when the thread is switched in again. *)
Definition check_signal_pending : K unit :=
  me ← self;
  th ← get_thread me;
  if has_bits (stat th) RT_THREAD_STAT_SIGNAL_PENDING
  then mod_thread me
         (fun th => th <| stat ::= (fun x => clear_bits x RT_THREAD_STAT_SIGNAL_PENDING) |>);;
       rt_thread_handle_sig true
  else mret tt.

Definition resumed : K unit := run_signal_frame;; check_signal_pending.

Definition rt_schedule : K unit :=
  lock ← gets scheduler_lock_nest;
  group ← gets ready_priority_group;
  if (lock =? 0) && negb (group =? 0) then
    cur ← self;
    c ← get_thread cur;
    if preemptableFlag c =? 1 then mret tt
    else
      '(first, prio) ← scheduler_get_highest_priority_thread;
      '(to, need_insert) ←
        (if stat_of c =? RT_THREAD_RUNNING then
           mod_thread cur
             (fun th => th <| stat ::= (fun x => clear_bits x RT_THREAD_STAT_YIELD_MASK) |>);;
           mret (check_priorities cur c first prio)
         else mret (first, false));
      if bool_decide (to = cur) then
        rt_schedule_remove_thread cur;;
        mod_thread cur (put_stat RT_THREAD_RUNNING)
      else
        modify (fun s => s <| rt_current_priority := u8 prio |> <| current_thread := Some to |>);;
        when need_insert (rt_schedule_insert_thread cur);;
        rt_schedule_remove_thread to;;
        mod_thread to (put_stat RT_THREAD_RUNNING);;
        rt_scheduler_stack_check to;;
        nest ← gets interrupt_nest;
        if nest =? 0 then switch_out;; resumed
        else mret tt (* rt_hw_context_switch_interrupt: the switch is pending *)
  else mret tt.

Definition rt_enter_critical : K unit :=
  modify (fun s => s <| scheduler_lock_nest ::= (fun n => s16 (n + 1)) |>).

Definition rt_exit_critical : K unit :=
  modify (fun s => s <| scheduler_lock_nest ::= (fun n => s16 (n - 1)) |>);;
  n ← gets scheduler_lock_nest;
  if n <=? 0 then
    modify (fun s => s <| scheduler_lock_nest := 0 |>);;
    c ← rt_thread_self;
    if bool_decide (is_Some c) then rt_schedule else mret tt
  else mret tt.

Definition rt_critical_level : K Z := n ← gets scheduler_lock_nest; mret (u16 n).
End Schedule.
