(* ===== verification/SchedInv.v ===== *)
(** The invariant of the scheduler's data: threads, lists, ready bitmap and
    current thread agree, and what every step on them does to it. *)
From S2P Require Export Sched.
Local Open Scope Z_scope.

(** ** Bits *)
Lemma has_bits_testbit x i : 0 <= i -> has_bits x (2 ^ i) = Z.testbit x i.
Proof.
  intros Hi. unfold has_bits, nz. destruct (Z.testbit x i) eqn:E.
  - apply negb_true_iff, Z.eqb_neq. intros H.
    assert (Z.testbit (Z.land x (2 ^ i)) i = false) as H' by (by rewrite H, Z.bits_0).
    rewrite Z.land_spec, E, Z.pow2_bits_true in H' by lia. done.
  - apply negb_false_iff, Z.eqb_eq. apply Z.bits_inj'. intros n Hn.
    rewrite Z.land_spec, Z.bits_0, Z.pow2_bits_eqb by lia.
    destruct (Z.eqb_spec i n); subst; by rewrite ?E, ?andb_false_r.
Qed.

Lemma testbit_lor_pow2 x i j :
  0 <= i -> Z.testbit (Z.lor x (2 ^ i)) j = Z.testbit x j || (i =? j).
Proof. intros Hi. by rewrite Z.lor_spec, Z.pow2_bits_eqb by lia. Qed.

Lemma testbit_clear_pow2 x i j :
  0 <= i -> 0 <= j -> Z.testbit (clear_bits x (2 ^ i)) j = Z.testbit x j && negb (i =? j).
Proof.
  intros Hi Hj. unfold clear_bits.
  by rewrite Z.land_spec, Z.lnot_spec, Z.pow2_bits_eqb by lia.
Qed.

Lemma bits_range w x :
  0 <= w -> 0 <= x < 2 ^ w <-> 0 <= x /\ (forall j, w <= j -> Z.testbit x j = false).
Proof.
  intros Hw. split.
  - intros Hx. split; [lia|]. intros j Hj. rewrite <- (Z.mod_small x (2 ^ w)) by lia.
    by apply Z.mod_pow2_bits_high.
  - intros [Hx Hb]. split; [done|]. destruct (decide (x = 0)) as [->|]; [lia|].
    apply Z.log2_lt_pow2; [lia|]. destruct (Z.lt_ge_cases (Z.log2 x) w); [done|].
    specialize (Hb (Z.log2 x)). rewrite Z.bit_log2 in Hb by lia. discriminate Hb. lia.
Qed.

Lemma lor_pow2_range w x i : 0 <= i < w -> 0 <= x < 2 ^ w -> 0 <= Z.lor x (2 ^ i) < 2 ^ w.
Proof.
  intros Hi Hx. apply bits_range; [lia|]. apply bits_range in Hx as [H0 Hb]; [|lia]. split.
  - apply Z.lor_nonneg. lia.
  - intros j Hj. rewrite testbit_lor_pow2, Hb by lia. simpl. apply Z.eqb_neq. lia.
Qed.

Lemma clear_range w x m : 0 <= w -> 0 <= x < 2 ^ w -> 0 <= clear_bits x m < 2 ^ w.
Proof.
  intros Hw Hx. apply bits_range; [lia|]. apply bits_range in Hx as [H0 Hb]; [|lia]. split.
  - apply Z.land_nonneg. lia.
  - intros j Hj. unfold clear_bits. by rewrite Z.land_spec, Hb.
Qed.

(** ** The state bits of a thread *)
Lemma land_mask x : Z.land x RT_THREAD_STAT_MASK = x mod 8.
Proof. change RT_THREAD_STAT_MASK with (Z.ones 3). by rewrite Z.land_ones by lia. Qed.

Lemma stat_of_put_stat v th : 0 <= v < 8 -> stat_of (put_stat v th) = v.
Proof.
  intros Hv. unfold stat_of, put_stat, clear_bits. simpl.
  rewrite Z.land_lor_distr_l, <- Z.land_assoc, (Z.land_comm (Z.lnot _)), Z.land_lnot_diag,
    Z.land_0_r, Z.lor_0_r.
  rewrite land_mask. by apply Z.mod_small.
Qed.

(** Clearing or setting bits above the state leaves the state. *)
Lemma stat_of_clear th m :
  Z.land RT_THREAD_STAT_MASK m = 0 ->
  stat_of (th <| stat ::= (fun x => clear_bits x m) |>) = stat_of th.
Proof.
  intros Hm. unfold stat_of, clear_bits. simpl. rewrite <- Z.land_assoc. f_equal.
  rewrite Z.land_comm. apply Z.bits_inj'. intros n Hn. rewrite Z.land_spec, Z.lnot_spec by lia.
  destruct (Z.testbit RT_THREAD_STAT_MASK n) eqn:E; [|done].
  assert (Z.testbit (Z.land RT_THREAD_STAT_MASK m) n = false) as H by (by rewrite Hm, Z.bits_0).
  rewrite Z.land_spec, E in H. simpl in H. by rewrite H.
Qed.

Lemma stat_of_set th m :
  Z.land m RT_THREAD_STAT_MASK = 0 ->
  stat_of (th <| stat ::= (fun x => Z.lor x m) |>) = stat_of th.
Proof. intros Hm. unfold stat_of. simpl. by rewrite Z.land_lor_distr_l, Hm, Z.lor_0_r. Qed.

(** ** The invariant

    [X] is a set of threads that are between two states: the thread being
    moved by the step under way. *)
Definition thread_ok (th : rt_thread) : Prop :=
  (stat_of th <> RT_THREAD_INIT ->
    0 <= current_priority th < RT_THREAD_PRIORITY_MAX /\ number_mask th = 2 ^ current_priority th) /\
  stack_overflow th = false.

Definition is_wait (h : qhead) : bool :=
  match h with QSuspend _ | QSender _ => true | _ => false end.

Record core_inv (X : gset tid) (T : gmap tid rt_thread) (Q : gmap qhead (list tid)) (g : Z)
    (c : option tid) : Prop := {
  ci_thread t th : T !! t = Some th -> thread_ok th;
  ci_group : 0 <= g < 2 ^ 32;
  ci_bits p : 0 <= p < 32 -> Z.testbit g p = bool_decide (Q !!! QReady p <> []);
  ci_ready p t : t ∈ Q !!! QReady p ->
    exists th, T !! t = Some th /\ stat_of th = RT_THREAD_READY /\ current_priority th = p;
  ci_wait h t : is_wait h = true -> t ∈ Q !!! h ->
    exists th, T !! t = Some th /\ stat_of th = RT_THREAD_SUSPEND;
  ci_defunct t : t ∈ Q !!! QDefunct -> exists th, T !! t = Some th /\ stat_of th = RT_THREAD_CLOSE;
  ci_nodup h : NoDup (Q !!! h);
  ci_one : one_list Q;
  ci_cur t : c = Some t -> is_Some (T !! t);
  ci_queued t th : t ∉ X -> T !! t = Some th -> stat_of th = RT_THREAD_READY ->
    t ∈ Q !!! QReady (current_priority th);
  ci_running t th : t ∉ X -> T !! t = Some th -> stat_of th = RT_THREAD_RUNNING -> c = Some t;
  ci_cur_stat t th : t ∉ X -> c = Some t -> T !! t = Some th -> stat_of th <> RT_THREAD_READY }.

(** The state of a thread in a list is the state of that list. *)
Lemma linked_stat X T Q g c h t th :
  core_inv X T Q g c -> t ∈ Q !!! h -> T !! t = Some th ->
  stat_of th = match h with QReady _ => RT_THREAD_READY | QDefunct => RT_THREAD_CLOSE
               | _ => RT_THREAD_SUSPEND end.
Proof.
  intros HI Ht Hth. destruct h as [p|r|r|].
  - destruct (ci_ready _ _ _ _ _ HI p t Ht) as (? & ? & ? & _). by simplify_eq.
  - destruct (ci_wait _ _ _ _ _ HI (QSuspend r) t eq_refl Ht) as (? & ? & ?). by simplify_eq.
  - destruct (ci_wait _ _ _ _ _ HI (QSender r) t eq_refl Ht) as (? & ? & ?). by simplify_eq.
  - destruct (ci_defunct _ _ _ _ _ HI t Ht) as (? & ? & ?). by simplify_eq.
Qed.

Lemma running_unlinked X T Q g c t th :
  core_inv X T Q g c -> T !! t = Some th ->
  stat_of th = RT_THREAD_RUNNING \/ stat_of th = RT_THREAD_INIT -> unlinked t Q.
Proof.
  intros HI Hth Hs h Ht. pose proof (linked_stat _ _ _ _ _ _ _ _ HI Ht Hth) as E.
  destruct h; rewrite E in Hs; by destruct Hs.
Qed.

Lemma core_inv_weaken X Y T Q g c : X ⊆ Y -> core_inv X T Q g c -> core_inv Y T Q g c.
Proof. intros HXY []. split; eauto; set_solver. Qed.

(** A thread leaves the exempted set when its state agrees with the lists. *)
Lemma core_inv_release X T Q g c t th :
  core_inv X T Q g c -> T !! t = Some th ->
  (stat_of th = RT_THREAD_READY -> t ∈ Q !!! QReady (current_priority th)) ->
  (stat_of th = RT_THREAD_RUNNING -> c = Some t) ->
  (c = Some t -> stat_of th <> RT_THREAD_READY) ->
  core_inv (X ∖ {[t]}) T Q g c.
Proof.
  intros [] Hth H1 H2 H3. split; eauto; intros u uh Hu; intros;
    (destruct (decide (u = t)) as [->|]; [simplify_eq; eauto|]);
    match goal with H : _ |- _ => eapply H; eauto; set_solver end.
Qed.

(** ** Steps on the data *)

(** Fields that the scheduler does not read may change. *)
Lemma core_inv_same X T Q g c t th th' :
  core_inv X T Q g c -> T !! t = Some th -> stat_of th' = stat_of th ->
  current_priority th' = current_priority th -> thread_ok th' ->
  core_inv X (<[t := th']> T) Q g c.
Proof.
  intros HI Hth Hs Hp Hok. pose proof HI as []. split; try done.
  - intros u uh. rewrite lookup_insert. case_decide; [intros [=]; by subst|eauto].
  - intros p u Hu. destruct (ci_ready0 p u Hu) as (uh & ? & ? & ?). rewrite lookup_insert.
    case_decide; simplify_eq; eauto. eexists. split_and!; [done|congruence..].
  - intros h u Hh Hu. destruct (ci_wait0 h u Hh Hu) as (uh & ? & ?). rewrite lookup_insert.
    case_decide; simplify_eq; eauto. eexists. split; [done|congruence].
  - intros u Hu. destruct (ci_defunct0 u Hu) as (uh & ? & ?). rewrite lookup_insert.
    case_decide; simplify_eq; eauto. eexists. split; [done|congruence].
  - intros u Hu. rewrite lookup_insert. case_decide; eauto.
  - intros u uh Hu. rewrite lookup_insert. case_decide; [|by eauto]. intros [=]; subst.
    rewrite Hs, Hp. eauto.
  - intros u uh Hu. rewrite lookup_insert. case_decide; [|by eauto]. intros [=]; subst.
    rewrite Hs. eauto.
  - intros u uh Hu Hc. rewrite lookup_insert. case_decide; [|by eauto]. intros [=]; subst.
    rewrite Hs. eauto.
Qed.

(** A thread in no list may take any state, at the price of the exemption. *)
Lemma core_inv_set X T Q g c t th' :
  core_inv X T Q g c -> unlinked t Q -> is_Some (T !! t) -> thread_ok th' ->
  core_inv ({[t]} ∪ X) (<[t := th']> T) Q g c.
Proof.
  intros HI Hun Hth Hok. pose proof HI as [].
  assert (Hne : forall h u, u ∈ Q !!! h -> t <> u) by (intros h u Hu ->; by apply (Hun h)).
  split; try done.
  - intros u uh. rewrite lookup_insert. case_decide; [intros [=]; by subst|eauto].
  - intros p u Hu. rewrite lookup_insert_ne; eauto.
  - intros h u Hh Hu. rewrite lookup_insert_ne; eauto.
  - intros u Hu. rewrite lookup_insert_ne; eauto.
  - intros u Hu. rewrite lookup_insert. case_decide; eauto.
  - intros u uh Hu. rewrite lookup_insert_ne by set_solver. apply ci_queued0. set_solver.
  - intros u uh Hu. rewrite lookup_insert_ne by set_solver. apply ci_running0. set_solver.
  - intros u uh Hu Hc. rewrite lookup_insert_ne by set_solver. apply ci_cur_stat0; set_solver.
Qed.

Lemma unlinked_q_remove t Q : unlinked t (q_remove t Q).
Proof. intros h Hh. by apply elem_of_q_remove in Hh as [_ ?]. Qed.

Lemma unlinked_q_remove_ne t u Q : unlinked u Q -> unlinked u (q_remove t Q).
Proof. intros Hu h Hh. apply elem_of_q_remove in Hh as [? _]. by apply (Hu h). Qed.

(** Leaving a list, whatever happens to the bitmap. *)
Lemma core_inv_q_remove X T Q g g' c t :
  core_inv X T Q g c -> 0 <= g' < 2 ^ 32 ->
  (forall p, 0 <= p < 32 -> Z.testbit g' p = bool_decide (q_remove t Q !!! QReady p <> [])) ->
  core_inv ({[t]} ∪ X) T (q_remove t Q) g' c.
Proof.
  intros [] Hg Hb. split; try done.
  - intros p u [Hu _]%elem_of_q_remove. eauto.
  - intros h u Hh [Hu _]%elem_of_q_remove. eauto.
  - intros u [Hu _]%elem_of_q_remove. eauto.
  - intros h. rewrite q_remove_lookup. by apply NoDup_filter.
  - intros h1 h2 u [Hu1 _]%elem_of_q_remove [Hu2 _]%elem_of_q_remove. eauto.
  - intros u uh Hu ? ?. apply elem_of_q_remove. split; [apply ci_queued0; set_solver|set_solver].
  - intros u uh Hu. apply ci_running0. set_solver.
  - intros u uh Hu. apply ci_cur_stat0. set_solver.
Qed.

(** The bitmap that [rt_schedule_remove_thread] leaves. *)
Definition group_after_remove (T : gmap tid rt_thread) (Q : gmap qhead (list tid)) (g : Z)
    (t : tid) : Z :=
  match T !! t with
  | Some th => if bool_decide (q_remove t Q !!! QReady (current_priority th) = [])
               then clear_bits g (number_mask th) else g
  | None => g
  end.

Lemma core_inv_remove X T Q g c t th :
  core_inv X T Q g c -> T !! t = Some th -> stat_of th <> RT_THREAD_INIT ->
  core_inv ({[t]} ∪ X) T (q_remove t Q) (group_after_remove T Q g t) c.
Proof.
  intros HI Hth Hst. pose proof (ci_group _ _ _ _ _ HI) as Hg.
  destruct (proj1 (ci_thread _ _ _ _ _ HI t th Hth) Hst) as [Hp Hm].
  unfold RT_THREAD_PRIORITY_MAX in Hp. unfold group_after_remove. rewrite Hth, Hm.
  set (p0 := current_priority th) in *.
  assert (Hother : forall p, p <> p0 -> q_remove t Q !!! QReady p = Q !!! QReady p).
  { intros p Hne. rewrite q_remove_lookup. apply filter_alone. intros Hin.
    destruct (ci_ready _ _ _ _ _ HI p t Hin) as (? & ? & _ & ?). by simplify_eq. }
  apply (core_inv_q_remove _ _ _ g); [done|..].
  - case_bool_decide; [by apply clear_range|done].
  - intros p Hpr. destruct (decide (p = p0)) as [->|Hne].
    + case_bool_decide as E.
      * rewrite testbit_clear_pow2, Z.eqb_refl, andb_false_r by lia.
        symmetry. apply bool_decide_eq_false. tauto.
      * rewrite (ci_bits _ _ _ _ _ HI) by lia. apply bool_decide_ext. split; [done|].
        intros _ H. apply E. by rewrite q_remove_lookup, H.
    + rewrite (Hother p) by done. rewrite <- (ci_bits _ _ _ _ _ HI p) by lia.
      case_bool_decide; [|done]. rewrite testbit_clear_pow2 by lia.
      assert ((p0 =? p) = false) as -> by lia. by rewrite andb_true_r.
Qed.

(** A suspended thread is not in a ready queue: the bitmap stays. *)
Lemma core_inv_remove_suspended X T Q g c t th :
  core_inv X T Q g c -> T !! t = Some th -> stat_of th <> RT_THREAD_READY ->
  core_inv ({[t]} ∪ X) T (q_remove t Q) g c.
Proof.
  intros HI Hth Hst. apply (core_inv_q_remove _ _ _ g); [done|by apply HI|].
  intros p Hp. rewrite (ci_bits _ _ _ _ _ HI) by lia. f_equal. f_equal.
  rewrite q_remove_lookup, filter_alone; [done|]. intros Hin.
  destruct (ci_ready _ _ _ _ _ HI p t Hin) as (? & ? & ? & _). by simplify_eq.
Qed.

(** Joining a list. *)
Lemma push_back_elem h t Q h' u :
  u ∈ q_push_back h t Q !!! h' <-> u ∈ Q !!! h' \/ (h = h' /\ u = t).
Proof. rewrite q_push_back_lookup. case_decide; subst; set_solver. Qed.

Lemma unlinked_push_back h t u Q : unlinked u Q -> u <> t -> unlinked u (q_push_back h t Q).
Proof. intros Hu Hne h' [Hh|[_ ?]]%push_back_elem; [by apply (Hu h')|done]. Qed.

Lemma core_inv_queues X T Q Q' g g' c h t :
  core_inv X T Q g c -> unlinked t Q ->
  (forall h' u, u ∈ Q' !!! h' <-> u ∈ Q !!! h' \/ (h = h' /\ u = t)) ->
  (forall h', NoDup (Q' !!! h')) -> 0 <= g' < 2 ^ 32 ->
  (forall p, 0 <= p < 32 -> Z.testbit g' p = bool_decide (Q' !!! QReady p <> [])) ->
  (exists th, T !! t = Some th /\
     match h with
     | QReady p => stat_of th = RT_THREAD_READY /\ current_priority th = p
     | QDefunct => stat_of th = RT_THREAD_CLOSE
     | _ => stat_of th = RT_THREAD_SUSPEND
     end) ->
  core_inv X T Q' g' c.
Proof.
  intros [] Hun HQ HN Hg Hb (th & Hth & Hst). split; try done.
  - intros p u [Hu|[-> ->]]%HQ; [eauto|]. destruct Hst. eauto.
  - intros h' u Hh [Hu|[-> ->]]%HQ; [eauto|]. destruct h'; eauto; done.
  - intros u [Hu|[-> ->]]%HQ; eauto.
  - intros h1 h2 u [Hu1|[<- ->]]%HQ [Hu2|[<- E]]%HQ; subst; try done; eauto.
    + by destruct (Hun h1).
    + by destruct (Hun h2).
  - intros u uh Hu ? ?. apply HQ. left. eauto.
Qed.

Lemma NoDup_push_back h t Q h' : (forall h', NoDup (Q !!! h')) -> unlinked t Q ->
  NoDup (q_push_back h t Q !!! h').
Proof.
  intros HN Hun. rewrite q_push_back_lookup. case_decide; [|done].
  apply NoDup_app. split_and!; [done| |apply NoDup_singleton].
  intros x Hx ->%list_elem_of_singleton. by apply (Hun h).
Qed.

Lemma core_inv_push_ready X T Q g c t th :
  core_inv X T Q g c -> unlinked t Q -> T !! t = Some th -> stat_of th = RT_THREAD_READY ->
  core_inv X T (q_push_back (QReady (current_priority th)) t Q) (Z.lor g (number_mask th)) c.
Proof.
  intros HI Hun Hth Hst. pose proof (ci_group _ _ _ _ _ HI) as Hg.
  destruct (proj1 (ci_thread _ _ _ _ _ HI t th Hth)) as [Hp Hm]; [by rewrite Hst|].
  unfold RT_THREAD_PRIORITY_MAX in Hp. rewrite Hm.
  apply (core_inv_queues _ _ _ _ _ _ _ (QReady (current_priority th)) t HI); [done|..].
  - intros. apply push_back_elem.
  - intros h'. apply NoDup_push_back; [apply HI|done].
  - by apply lor_pow2_range.
  - intros p Hpr. rewrite testbit_lor_pow2, (ci_bits _ _ _ _ _ HI), q_push_back_lookup by lia.
    destruct (Z.eqb_spec (current_priority th) p) as [->|Hne].
    + rewrite orb_true_r, decide_True by done. symmetry. apply bool_decide_eq_true.
      by destruct (Q !!! QReady p).
    + rewrite orb_false_r, decide_False by congruence. done.
  - eauto.
Qed.

Lemma core_inv_push_wait X T Q g c t th h :
  core_inv X T Q g c -> unlinked t Q -> T !! t = Some th -> is_wait h = true ->
  stat_of th = RT_THREAD_SUSPEND -> core_inv X T (q_push_back h t Q) g c.
Proof.
  intros HI Hun Hth Hh Hst.
  apply (core_inv_queues _ _ _ _ _ _ _ h t HI); [done|..].
  - intros. apply push_back_elem.
  - intros h'. apply NoDup_push_back; [apply HI|done].
  - apply HI.
  - intros p Hpr. rewrite (ci_bits _ _ _ _ _ HI), q_push_back_lookup by lia.
    rewrite decide_False by (intros ->; done). done.
  - exists th. split; [done|]. by destruct h.
Qed.

(** Another thread becomes the current one. *)
Lemma core_inv_cur X T Q g c t :
  core_inv X T Q g c -> is_Some (T !! t) ->
  core_inv (X ∪ {[t]} ∪ match c with Some u => {[u]} | None => ∅ end) T Q g (Some t).
Proof.
  intros [] Ht. split; try done.
  - intros u [= <-]. done.
  - intros u uh Hu. apply ci_queued0. set_solver.
  - intros u uh Hu Hth Hs. assert (c = Some u) as -> by (eapply ci_running0; eauto; set_solver).
    set_solver.
  - intros u uh Hu [= <-]. set_solver.
Qed.

(** ** The invariant of a kernel state *)
Definition kinv_ex (X : gset tid) (s : kstate) : Prop :=
  core_inv X (threads s) (queues s) (ready_priority_group s) (current_thread s).
Definition kinv (s : kstate) : Prop := kinv_ex ∅ s.

Lemma kinv_ex_weaken X s : kinv s -> kinv_ex X s.
Proof. apply core_inv_weaken. set_solver. Qed.

Lemma kinv_ex_empty X s : X ≡ ∅ -> kinv_ex X s -> kinv s.
Proof. intros HX. apply core_inv_weaken. set_solver. Qed.

(** *** Running the primitives *)
Section Run.
Context (G : kstate -> Prop) (R : kstate -> kstate -> Prop).

Lemma get_thread_eq t th s : threads s !! t = Some th -> get_thread t s = Done th s.
Proof. intros H. unfold get_thread, get, mbind, prog_bind. simpl. by rewrite H. Qed.

Lemma mod_thread_eq t f th s :
  threads s !! t = Some th -> mod_thread t f s = Done tt (s <| threads ::= <[t := f th]> |>).
Proof. intros H. unfold mod_thread. by erewrite bind_done by (by apply get_thread_eq). Qed.

Lemma self_eq t s : current_thread s = Some t -> self s = Done t s.
Proof. intros H. unfold self, rt_thread_self, gets, mbind, prog_bind. simpl. by rewrite H. Qed.

Lemma wp_get_thread t th s (Q : rt_thread -> kstate -> Prop) :
  threads s !! t = Some th -> Q th s -> wp G R (get_thread t s) Q.
Proof. intros H HQ. by rewrite (get_thread_eq _ _ _ H). Qed.

Lemma wp_mod_thread t f th s (Q : unit -> kstate -> Prop) :
  threads s !! t = Some th -> Q tt (s <| threads ::= <[t := f th]> |>) ->
  wp G R (mod_thread t f s) Q.
Proof. intros H HQ. by rewrite (mod_thread_eq _ _ _ _ H). Qed.

Lemma wp_self t s (Q : tid -> kstate -> Prop) :
  current_thread s = Some t -> Q t s -> wp G R (self s) Q.
Proof. intros H HQ. by rewrite (self_eq _ _ H). Qed.

(** [rt_schedule_remove_thread] on a started thread. *)
Lemma remove_thread_eq X t th s :
  kinv_ex X s -> threads s !! t = Some th -> stat_of th <> RT_THREAD_INIT ->
  rt_schedule_remove_thread t s =
    Done tt (s <| queues ::= q_remove t |>
               <| ready_priority_group :=
                    group_after_remove (threads s) (queues s) (ready_priority_group s) t |>).
Proof.
  intros HI Hth Hst. destruct (proj1 (ci_thread _ _ _ _ _ HI t th Hth) Hst) as [Hp _].
  unfold rt_schedule_remove_thread, group_after_remove, in_priority_table.
  erewrite bind_done by (by apply get_thread_eq).
  unfold mbind, prog_bind, tlist_remove, modify, rt_assert, list_isempty, gets, queue. simpl.
  rewrite Hth. assert (((0 <=? current_priority th) &&
    (current_priority th <? RT_THREAD_PRIORITY_MAX)) = true) as -> by lia.
  simpl. case_bool_decide; [done|]. by destruct s.
Qed.

(** [rt_schedule_insert_thread] on a thread that is in no list. *)
Lemma insert_thread_eq X t th s :
  kinv_ex X s -> threads s !! t = Some th -> stat_of th <> RT_THREAD_INIT ->
  rt_schedule_insert_thread t s =
    if decide (current_thread s = Some t)
    then Done tt (s <| threads ::= <[t := put_stat RT_THREAD_RUNNING th]> |>)
    else Done tt (s <| threads ::= <[t := put_stat RT_THREAD_READY th]> |>
                    <| queues ::= q_push_back (QReady (current_priority th)) t |>
                    <| ready_priority_group ::= (fun g => Z.lor g (number_mask th)) |>).
Proof.
  intros HI Hth Hst. destruct (proj1 (ci_thread _ _ _ _ _ HI t th Hth) Hst) as [Hp _].
  unfold rt_schedule_insert_thread, rt_thread_self. rewrite bind_gets.
  destruct (decide (current_thread s = Some t)) as [E|E].
  - rewrite bool_decide_true by done. by apply mod_thread_eq.
  - rewrite bool_decide_false by done.
    erewrite bind_done by (by apply mod_thread_eq).
    erewrite bind_done by (apply get_thread_eq; apply lookup_insert_eq).
    unfold mbind, prog_bind, tlist_insert_before, modify, rt_assert, in_priority_table. simpl.
    by assert (((0 <=? current_priority th) &&
      (current_priority th <? RT_THREAD_PRIORITY_MAX)) = true) as -> by lia.
Qed.
End Run.

(** ** What the scheduler does not touch

    [sched_frame s s']: the two states differ in the scheduler's data only, and
    the threads in their [stat] only. *)
Definition nostat (th : rt_thread) : rt_thread := th <| stat := 0 |>.

Definition sched_frame (s s' : kstate) : Prop :=
  s' = s <| threads := threads s' |> <| queues := queues s' |>
         <| ready_priority_group := ready_priority_group s' |>
         <| current_thread := current_thread s' |>
         <| rt_current_priority := rt_current_priority s' |> /\
  nostat <$> threads s' = nostat <$> threads s.

#[export] Instance sched_frame_preorder : PreOrder sched_frame.
Proof.
  split.
  - intros s. by destruct s.
  - intros s1 s2 s3 [E1 F1] [E2 F2]. split; [|congruence].
    rewrite E2 at 1. rewrite E1. by destruct s1.
Qed.

Lemma frame_thread s s' t th :
  sched_frame s s' -> threads s !! t = Some th ->
  exists th', threads s' !! t = Some th' /\ nostat th' = nostat th.
Proof.
  intros [_ HF] Hth. assert (E : (nostat <$> threads s') !! t = Some (nostat th)).
  { by rewrite HF, lookup_fmap, Hth. }
  rewrite lookup_fmap in E. destruct (threads s' !! t) as [th'|]; [|done].
  exists th'. split; [done|]. by apply (inj Some).
Qed.

Lemma nostat_priority th th' : nostat th = nostat th' -> current_priority th = current_priority th'.
Proof. intros E. exact (f_equal current_priority E). Qed.

Lemma frame_put s t th th' :
  threads s !! t = Some th -> nostat th' = nostat th ->
  nostat <$> <[t := th']> (threads s) = nostat <$> threads s.
Proof.
  intros Hth E. rewrite fmap_insert, E, <- fmap_insert. f_equal. by apply insert_id.
Qed.

(** From [s] to [s'], the threads that are ready or running may change from one
    to the other, and the others stay exactly as they are. *)
Definition runnable (th : rt_thread) : Prop :=
  stat_of th = RT_THREAD_READY \/ stat_of th = RT_THREAD_RUNNING.
(** The bits of [stat] above the state and the mark of a yield, and all the
    other fields, are the same. *)
Definition same_signals (th th' : rt_thread) : Prop :=
  nostat th' = nostat th /\ clear_bits (stat th') 15 = clear_bits (stat th) 15.
Definition keeps_runnable (s s' : kstate) : Prop :=
  forall t th, threads s !! t = Some th ->
    exists th', threads s' !! t = Some th' /\
      (th' = th \/ runnable th /\ runnable th' /\ same_signals th th').

#[export] Instance same_signals_preorder : PreOrder same_signals.
Proof.
  split; [by split|]. intros x y z [E1 E2] [E3 E4]. split; congruence.
Qed.

Lemma clear_low x y m : 0 <= m -> Z.land m (Z.lnot 15) = 0 -> clear_bits x m = clear_bits y m ->
  clear_bits x 15 = clear_bits y 15.
Proof.
  intros Hm Hz E. unfold clear_bits in *. apply Z.bits_inj'. intros n Hn.
  pose proof (f_equal (fun z => Z.testbit z n) E) as En. pose proof (f_equal (fun z => Z.testbit z n) Hz) as Zn.
  cbn beta in *. rewrite !Z.land_spec, !Z.lnot_spec in * by lia. rewrite Z.bits_0 in Zn.
  destruct (Z.testbit 15 n); cbn in *; [by rewrite !andb_false_r|].
  rewrite andb_true_r in Zn. rewrite Zn in En. exact En.
Qed.
Lemma clear_clear x m : clear_bits (clear_bits x m) m = clear_bits x m.
Proof. unfold clear_bits. by rewrite <- Z.land_assoc, Z.land_diag. Qed.
Lemma clear_lor_mask x v m : Z.land v (Z.lnot m) = 0 -> clear_bits (Z.lor x v) m = clear_bits x m.
Proof. intros E. unfold clear_bits. by rewrite Z.land_lor_distr_l, E, Z.lor_0_r. Qed.

Lemma same_signals_put_stat v th : 0 <= v < 8 -> same_signals th (put_stat v th).
Proof.
  intros Hv. split; [by destruct th|]. apply (clear_low _ _ 7); [done|done|].
  unfold put_stat. cbn. rewrite Z.lor_comm, clear_lor_mask.
  - apply clear_clear.
  - change (Z.lnot 7) with (Z.lnot (Z.ones 3)). rewrite <- Z.ldiff_land. apply Z.ldiff_ones_r_low; [lia|].
    destruct (decide (v = 0)) as [->|]; [done|]. apply Z.log2_lt_pow2; lia.
Qed.
Lemma same_signals_clear_yield th :
  same_signals th (th <| stat ::= (fun x => clear_bits x RT_THREAD_STAT_YIELD_MASK) |>).
Proof. split; [by destruct th|]. apply (clear_low _ _ 8); [done|done|]. apply clear_clear. Qed.
Lemma same_signals_yield th :
  same_signals th (th <| stat ::= (fun x => Z.lor x RT_THREAD_STAT_YIELD) |>).
Proof. split; [by destruct th|]. apply (clear_low _ _ 8); [done|done|]. by apply clear_lor_mask. Qed.

#[export] Instance keeps_runnable_preorder : PreOrder keeps_runnable.
Proof.
  split.
  - intros s t th Ht. exists th. auto.
  - intros s1 s2 s3 H1 H2 t th Ht. destruct (H1 t th Ht) as (th2 & Ht2 & Hr2).
    destruct (H2 t th2 Ht2) as (th3 & Ht3 & Hr3). exists th3. split; [done|].
    destruct Hr2 as [->|(?&?&?)], Hr3 as [->|(?&?&?)]; auto.
    right. split_and!; [done..|by etrans].
Qed.

Lemma keeps_runnable_eq s s' : threads s' = threads s -> keeps_runnable s s'.
Proof. intros E t th Ht. rewrite E. exists th. auto. Qed.

Lemma keeps_runnable_put s s' t th th' :
  threads s !! t = Some th -> threads s' = <[t := th']> (threads s) ->
  runnable th -> runnable th' -> same_signals th th' -> keeps_runnable s s'.
Proof.
  intros Hth E H1 H2 H3 u uh Hu. rewrite E. destruct (decide (u = t)) as [->|Hne].
  - rewrite lookup_insert_eq. simplify_eq. exists th'. auto.
  - rewrite lookup_insert_ne by done. exists uh. auto.
Qed.

Lemma keeps_stopped s s' t th :
  keeps_runnable s s' -> threads s !! t = Some th -> stat_of th = RT_THREAD_SUSPEND ->
  threads s' !! t = Some th.
Proof.
  intros HS Ht Hs. destruct (HS t th Ht) as (th' & Ht' & [->|[[Hr|Hr] _]]); [done|..];
    by rewrite Hs in Hr.
Qed.

Lemma runnable_put_stat v th : v = RT_THREAD_READY \/ v = RT_THREAD_RUNNING -> runnable (put_stat v th).
Proof. intros [-> | ->]; [left|right]; by apply stat_of_put_stat. Qed.

(** *** What they do to the invariant *)
Lemma kinv_remove X t th s :
  kinv_ex X s -> threads s !! t = Some th -> stat_of th <> RT_THREAD_INIT ->
  exists s', rt_schedule_remove_thread t s = Done tt s' /\ kinv_ex ({[t]} ∪ X) s' /\
    unlinked t (queues s') /\ queues s' = q_remove t (queues s) /\
    threads s' = threads s /\ current_thread s' = current_thread s /\ sched_frame s s'.
Proof.
  intros HI Hth Hst. rewrite (remove_thread_eq _ _ _ _ HI Hth Hst). eexists.
  split; [done|]. split; [by eapply core_inv_remove|].
  split_and!; [apply unlinked_q_remove|done..].
Qed.

Lemma thread_ok_put_stat v th :
  0 <= v < 8 -> stat_of th <> RT_THREAD_INIT -> thread_ok th -> thread_ok (put_stat v th).
Proof. intros Hv Hst [H1 H2]. split; [intros _; exact (H1 Hst)|done]. Qed.

Lemma kinv_insert X t th s :
  kinv_ex X s -> threads s !! t = Some th -> stat_of th <> RT_THREAD_INIT ->
  unlinked t (queues s) ->
  exists s', rt_schedule_insert_thread t s = Done tt s' /\ kinv_ex (X ∖ {[t]}) s' /\
    current_thread s' = current_thread s /\ sched_frame s s' /\
    (queues s' = queues s \/ queues s' = q_push_back (QReady (current_priority th)) t (queues s)) /\
    exists v, (v = RT_THREAD_READY \/ v = RT_THREAD_RUNNING) /\
      threads s' = <[t := put_stat v th]> (threads s).
Proof.
  intros HI Hth Hst Hun. rewrite (insert_thread_eq _ _ _ _ HI Hth Hst).
  pose proof (ci_thread _ _ _ _ _ HI t th Hth) as Hok.
  destruct (decide _) as [Hc|Hc]; eexists; (split; [done|]);
    (split; [|split; [done|split; [split; [done|simpl; by eapply frame_put]|]]]);
    unfold kinv_ex; simpl;
    [|split; [by left|eauto]| |split; [by right|eauto]].
  - eapply core_inv_weaken; [|eapply core_inv_release].
    2:{ eapply core_inv_set; [exact HI|done|by eexists|by apply thread_ok_put_stat]. }
    2:{ apply lookup_insert_eq. }
    + set_solver.
    + by rewrite stat_of_put_stat.
    + done.
    + by rewrite stat_of_put_stat.
  - eapply core_inv_weaken; [|eapply core_inv_release].
    2:{ eapply (core_inv_push_ready _ _ _ _ _ _ (put_stat RT_THREAD_READY th)); [|done|..].
        - eapply core_inv_set; [exact HI|done|by eexists|by apply thread_ok_put_stat].
        - apply lookup_insert_eq.
        - by rewrite stat_of_put_stat. }
    2:{ apply lookup_insert_eq. }
    + set_solver.
    + intros _. apply push_back_elem. by right.
    + by rewrite stat_of_put_stat.
    + done.
Qed.

#[export] Hint Resolve get_thread_eq mod_thread_eq self_eq : steps.
