(* ===== verification/SchedThm.v ===== *)
(** [rt_schedule]: what it decides, and that it keeps the invariant. *)
From S2P Require Export SchedInv.
Local Open Scope Z_scope.

(** [rt_schedule] may choose a thread at all. *)
Definition may_schedule (s : kstate) (c : rt_thread) : bool :=
  (scheduler_lock_nest s =? 0) && negb (ready_priority_group s =? 0) &&
  negb (preemptableFlag c =? 1).

(** The first thread of the first non-empty ready queue. *)
Definition first_ready (s : kstate) (t : tid) (p : Z) : Prop :=
  0 <= p < RT_THREAD_PRIORITY_MAX /\ head (queue s (QReady p)) = Some t /\
  (forall q, 0 <= q < p -> queue s (QReady q) = []).

Lemma highest_eq X s :
  kinv_ex X s -> ready_priority_group s <> 0 ->
  exists t p, scheduler_get_highest_priority_thread s = Done (t, p) s /\ first_ready s t p.
Proof.
  intros HI Hg. pose proof (ci_group _ _ _ _ _ HI) as Hr.
  set (g := ready_priority_group s) in *. set (p := rt_ffs g - 1).
  destruct (builtin_ffs_lowest g ltac:(lia)) as (H0 & HB & HL).
  pose proof (builtin_ffs_range g ltac:(lia)) as Hp.
  assert (Hp' : 0 <= p < 32) by (unfold p, rt_ffs; lia).
  assert (Hq : forall q, 0 <= q < 32 -> Z.testbit g q = bool_decide (queue s (QReady q) <> [])).
  { apply (ci_bits _ _ _ _ _ HI). }
  fold (rt_ffs g) in HB, HL. fold p in HB, HL.
  rewrite Hq in HB by done. apply bool_decide_eq_true in HB.
  destruct (queue s (QReady p)) as [|t l] eqn:E; [done|]. exists t, p. split.
  - unfold scheduler_get_highest_priority_thread. rewrite bind_gets. fold g. cbv zeta. fold p.
    by rewrite bind_gets, E.
  - split; [done|split; [by rewrite E|]]. intros q Hqp. specialize (HL q Hqp).
    rewrite Hq in HL by lia. apply bool_decide_eq_false in HL.
    destruct (queue s (QReady q)); [done|]. by destruct HL.
Qed.

(** [rt_schedule] takes the next thread [to] out of its list, after putting
    [me] back at the end of its ready queue or not. *)
Definition lists_from (me : tid) (p : Z) (to : tid) (Q Q' : gmap qhead (list tid)) : Prop :=
  Q' = q_remove to Q \/ Q' = q_remove to (q_push_back (QReady p) me Q).

Lemma lists_from_elem me p to Q Q' h u :
  lists_from me p to Q Q' -> u ∈ Q' !!! h -> u ∈ Q !!! h \/ (u = me /\ h = QReady p).
Proof.
  intros [-> | ->] [Hu _]%elem_of_q_remove; [by left|].
  apply push_back_elem in Hu as [Hu|[<- ->]]; auto.
Qed.

Lemma lists_from_unlinked me p to Q Q' : lists_from me p to Q Q' -> unlinked to Q'.
Proof. intros [-> | ->]; apply unlinked_q_remove. Qed.

(** Re-running the current thread: the ready data stay as they are. *)
Lemma kinv_stay s me th :
  kinv s -> current_thread s = Some me -> threads s !! me = Some th ->
  stat_of th = RT_THREAD_RUNNING ->
  exists s', (rt_schedule_remove_thread me;; mod_thread me (put_stat RT_THREAD_RUNNING)) s = Done tt s' /\
    kinv s' /\ current_thread s' = Some me /\ sched_frame s s' /\
    queues s' = q_remove me (queues s) /\
    threads s' = <[me := put_stat RT_THREAD_RUNNING th]> (threads s).
Proof.
  intros HI Hc Hth Hst.
  destruct (kinv_remove ∅ me th s HI Hth) as (s1 & E1 & HI1 & Hun1 & HQ1 & HT1 & HC1 & HF1);
    [by rewrite Hst|].
  eexists. split; [|split; [|split; [|split]]].
  - erewrite bind_done by exact E1. apply mod_thread_eq. rewrite HT1. exact Hth.
  - eapply core_inv_weaken; [|eapply core_inv_release].
    2:{ eapply core_inv_set; [exact HI1|done|rewrite HT1; by eexists|].
        apply thread_ok_put_stat; [done|by rewrite Hst|]. eapply HI; eauto. }
    2:{ apply lookup_insert_eq. }
    + set_solver.
    + by rewrite stat_of_put_stat.
    + intros _. simpl. congruence.
    + by rewrite stat_of_put_stat.
  - simpl. congruence.
  - etrans; [exact HF1|]. split; [done|]. simpl. eapply frame_put; [by rewrite HT1|done].
  - split; [done|]. simpl. by rewrite HT1.
Qed.

(** A thread that has the processor gets the state RUNNING. *)
Lemma kinv_set_running X s to th :
  kinv_ex X s -> threads s !! to = Some th -> stat_of th <> RT_THREAD_INIT ->
  unlinked to (queues s) -> current_thread s = Some to ->
  exists s', mod_thread to (put_stat RT_THREAD_RUNNING) s = Done tt s' /\
    rt_scheduler_stack_check to s' = Done tt s' /\
    kinv_ex (X ∖ {[to]}) s' /\ current_thread s' = Some to /\ sched_frame s s' /\
    queues s' = queues s /\ threads s' = <[to := put_stat RT_THREAD_RUNNING th]> (threads s).
Proof.
  intros HI Hth Hst Hun Hc. pose proof (ci_thread _ _ _ _ _ HI to th Hth) as Hok.
  exists (s <| threads ::= <[to := put_stat RT_THREAD_RUNNING th]> |>).
  split; [by apply mod_thread_eq|].
  split; [|split; [|split; [done|split; [split; [done|simpl; by eapply frame_put]|done]]]].
  - unfold rt_scheduler_stack_check.
    erewrite bind_done by (apply get_thread_eq; apply lookup_insert_eq).
    unfold rt_assert. destruct Hok as [_ Ho]. unfold stack_overflow in *. simpl. by rewrite Ho.
  - eapply core_inv_weaken; [|eapply core_inv_release].
    2:{ eapply core_inv_set; [exact HI|done|by eexists|by apply thread_ok_put_stat]. }
    2:{ apply lookup_insert_eq. }
    + set_solver.
    + by rewrite stat_of_put_stat.
    + done.
    + by rewrite stat_of_put_stat.
Qed.


(** The switch itself, before the processor changes threads. *)
Lemma kinv_switch s me c to th prio ins :
  kinv s -> current_thread s = Some me -> threads s !! me = Some c ->
  threads s !! to = Some th -> stat_of th = RT_THREAD_READY -> to <> me ->
  ins = bool_decide (stat_of c = RT_THREAD_RUNNING) ->
  exists s1 s2 s3 s',
    modify (fun s => s <| rt_current_priority := u8 prio |> <| current_thread := Some to |>) s =
      Done tt s1 /\
    when ins (rt_schedule_insert_thread me) s1 = Done tt s2 /\
    rt_schedule_remove_thread to s2 = Done tt s3 /\
    mod_thread to (put_stat RT_THREAD_RUNNING) s3 = Done tt s' /\
    rt_scheduler_stack_check to s' = Done tt s' /\
    kinv s' /\ current_thread s' = Some to /\ sched_frame s s' /\
    lists_from me (current_priority c) to (queues s) (queues s') /\
    keeps_runnable s s'.
Proof.
  intros HI Hc Hme Hto Hst Hne ->.
  set (s1 := s <| rt_current_priority := u8 prio |> <| current_thread := Some to |>).
  assert (HI1 : kinv_ex {[to; me]} s1).
  { eapply core_inv_weaken; [|apply (core_inv_cur _ _ _ _ _ to HI); by eexists].
    rewrite Hc. set_solver. }
  assert (H2 : exists s2, when (bool_decide (stat_of c = RT_THREAD_RUNNING))
      (rt_schedule_insert_thread me) s1 = Done tt s2 /\ kinv_ex {[to]} s2 /\
      current_thread s2 = Some to /\ sched_frame s1 s2 /\
      (queues s2 = queues s \/ queues s2 = q_push_back (QReady (current_priority c)) me (queues s)) /\
      threads s2 !! to = Some th /\
      keeps_runnable s s2).
  { case_bool_decide as E.
    - destruct (kinv_insert {[to; me]} me c s1) as (s2 & E2 & HI2 & Hc2 & HF2 & HQ2 & v & Hv & HS2); [done|done| | |].
      + by rewrite E.
      + eapply running_unlinked; [exact HI|done|by left].
      + exists s2. split_and!; [exact E2| |by rewrite Hc2|done|exact HQ2| |].
        * eapply core_inv_weaken; [|exact HI2]. set_solver.
        * rewrite (insert_thread_eq _ _ c _ HI1) in E2; [|done|by rewrite E].
          destruct (decide _); injection E2 as <-; simpl; by rewrite lookup_insert_ne.
        * apply (keeps_runnable_put s s2 me c _ Hme HS2);
            [by right|by apply runnable_put_stat|apply same_signals_put_stat; destruct Hv as [-> | ->]; done].
    - exists s1. split_and!; [done| |done|done|by left|done|by apply keeps_runnable_eq].
      eapply core_inv_weaken; [|eapply (core_inv_release _ _ _ _ _ me c HI1)]; [set_solver|done|..].
      + intros H. by destruct (ci_cur_stat _ _ _ _ _ HI me c ltac:(set_solver) Hc Hme).
      + done.
      + intros [=]. by subst. }
  destruct H2 as (s2 & E2 & HI2 & Hc2 & HF2 & HQ2 & Hth2 & HS2).
  destruct (kinv_remove _ to th s2 HI2 Hth2) as (s3 & E3 & HI3 & Hun & HQ3 & HT3 & HC3 & HF3);
    [by rewrite Hst|].
  destruct (kinv_set_running _ s3 to th HI3) as (s4 & E4 & E5 & HI4 & Hc4 & HF4 & HQ4 & HS4);
    [by rewrite HT3|by rewrite Hst|done|congruence|].
  exists s1, s2, s3, s4. split_and!; [done..| |done| | |].
  - eapply kinv_ex_empty; [|exact HI4]. set_solver.
  - etrans; [|etrans; [exact HF2|etrans; [exact HF3|exact HF4]]]. by destruct s.
  - rewrite HQ4, HQ3. by destruct HQ2 as [-> | ->]; [left|right].
  - etrans; [exact HS2|]. etrans; [exact (keeps_runnable_eq _ _ HT3)|].
    apply (keeps_runnable_put _ _ to th _ ltac:(by rewrite HT3) HS4); [by left| |by apply same_signals_put_stat].
    apply runnable_put_stat. by right.
Qed.

(** The thread that runs next: the current one unless it is not running any
    more or the first ready thread has a better priority, or the same one after
    a yield. *)
Definition sched_next (me : tid) (c : rt_thread) (first : tid) (prio : Z) : tid :=
  if stat_of c =? RT_THREAD_RUNNING then fst (check_priorities me c first prio) else first.

Lemma sched_next_cases me c first prio :
  sched_next me c first prio = me \/ sched_next me c first prio = first.
Proof.
  unfold sched_next, check_priorities. repeat case_match; simpl; auto.
Qed.

Lemma frame_nest s s' : sched_frame s s' -> interrupt_nest s' = interrupt_nest s.
Proof. intros [E _]. by rewrite E. Qed.

Lemma sched_next_running me c first prio :
  stat_of c = RT_THREAD_RUNNING ->
  (sched_next me c first prio = me /\ current_priority c <= prio) \/
  (sched_next me c first prio = first /\ prio <= current_priority c).
Proof.
  intros E. unfold sched_next, check_priorities. rewrite E. simpl.
  destruct (Z.ltb_spec (current_priority c) prio); simpl; [left; split; [done|lia]|].
  destruct (Z.eqb_spec (current_priority c) prio); simpl; [|right; split; [done|lia]].
  destruct (has_bits _ _); simpl; [right|left]; (split; [done|lia]).
Qed.

Section Schedule.
Context `{!SignalOps}.

Lemma rt_schedule_no s :
  (scheduler_lock_nest s =? 0) && negb (ready_priority_group s =? 0) = false \/
  (exists me c, current_thread s = Some me /\ threads s !! me = Some c /\ may_schedule s c = false) ->
  rt_schedule s = Done tt s.
Proof.
  unfold rt_schedule, may_schedule. rewrite !bind_gets. intros [->|(me & c & Hc & Hme & Hm)]; [done|].
  case_match; [|done].
  erewrite bind_done by (by apply self_eq). erewrite bind_done by (by apply get_thread_eq).
  by destruct (preemptableFlag c =? 1).
Qed.

Lemma rt_schedule_yes s me c :
  kinv s -> current_thread s = Some me -> threads s !! me = Some c -> may_schedule s c = true ->
  exists first p s', first_ready s first p /\ kinv s' /\ sched_frame s s' /\
    current_thread s' = Some (sched_next me c first p) /\
    lists_from me (current_priority c) (sched_next me c first p) (queues s) (queues s') /\
    keeps_runnable s s' /\
    rt_schedule s =
      if bool_decide (sched_next me c first p <> me) && (interrupt_nest s =? 0)
      then Switch s' (fun s2 => resumed s2) else Done tt s'.
Proof.
  intros HI Hc Hme [[HL Hg]%andb_prop Hp]%andb_prop.
  apply negb_true_iff in Hg. apply negb_true_iff in Hp. rewrite Z.eqb_neq in Hg.
  destruct (highest_eq ∅ s HI Hg) as (first & p & Eh & Hf). exists first, p.
  pose proof Hf as (Hpr & Hhd & _).
  assert (Hin : first ∈ queues s !!! QReady p).
  { unfold queue in Hhd. destruct (queues s !!! QReady p); [done|]. injection Hhd as ->. set_solver. }
  destruct (ci_ready _ _ _ _ _ HI p first Hin) as (fh & Hfh & Hfs & Hfp).
  assert (Hne : first <> me).
  { intros ->. by apply (ci_cur_stat _ _ _ _ _ HI me fh). }
  unfold rt_schedule. rewrite !bind_gets, HL. rewrite (proj2 (Z.eqb_neq _ _) Hg). cbn [andb negb].
  erewrite bind_done by (by apply self_eq). erewrite bind_done by (by apply get_thread_eq).
  rewrite Hp. erewrite bind_done by exact Eh. unfold sched_next.
  set (c0 := c <| stat ::= (fun x => clear_bits x RT_THREAD_STAT_YIELD_MASK) |>).
  destruct (stat_of c =? RT_THREAD_RUNNING) eqn:Ec.
  - set (s0 := s <| threads ::= <[me := c0]> |>).
    erewrite (bind_done _ _ s _ s0) by (by erewrite bind_done by (by apply mod_thread_eq)).
    apply Z.eqb_eq in Ec.
    assert (Ec0 : stat_of c0 = stat_of c) by (by apply stat_of_clear).
    assert (HI0 : kinv s0).
    { apply (core_inv_same _ _ _ _ _ me c c0 HI); [done..|].
      destruct (ci_thread _ _ _ _ _ HI me c Hme) as [H1 H2]. split; [|done].
      rewrite Ec0. exact H1. }
    assert (HF0 : sched_frame s s0) by (split; [done|by eapply frame_put]).
    assert (Hme0 : threads s0 !! me = Some c0) by apply lookup_insert_eq.
    assert (HS0 : keeps_runnable s s0).
    { apply (keeps_runnable_put s s0 me c c0 Hme); [done|by right|right; by rewrite Ec0|apply same_signals_clear_yield]. }
    destruct (check_priorities me c first p) as [to ins] eqn:Ech. cbn [fst].
    assert (Hch : (to = me /\ ins = false) \/ (to = first /\ ins = true)).
    { unfold check_priorities in Ech. repeat case_match; naive_solver. }
    destruct Hch as [[-> ->]|[-> ->]].
    + rewrite bool_decide_true, bool_decide_false by tauto. cbn [andb].
      destruct (kinv_stay s0 me c0) as (s' & E' & HI' & Hc' & HF' & HQ' & HS'); [done..|by rewrite Ec0|].
      exists s'. split_and!; [done|done|by etrans|done|by left| |exact E'].
      etrans; [exact HS0|].
      apply (keeps_runnable_put s0 s' me c0 _ Hme0 HS'); [right; by rewrite Ec0| |by apply same_signals_put_stat].
      apply runnable_put_stat. by right.
    + rewrite bool_decide_false, bool_decide_true by done. cbn [andb].
      destruct (kinv_switch s0 me c0 first fh p true HI0) as (s1 & s2 & s3 & s' & E1 & E2 & E3 & E4 & E5 & HI' & Hc' & HF' & HQ' & HS').
      { done. } { done. } { simpl. by rewrite lookup_insert_ne. } { done. } { done. }
      { rewrite bool_decide_true by (by rewrite Ec0). done. }
      exists s'. split_and!; [done|done|by etrans|done|exact HQ'| |].
      { by etrans. }
      erewrite bind_done by exact E1. erewrite bind_done by exact E2.
      erewrite bind_done by exact E3. erewrite bind_done by exact E4.
      erewrite bind_done by exact E5. rewrite bind_gets.
      rewrite (frame_nest _ _ HF'). simpl. by destruct (interrupt_nest s =? 0).
  - erewrite bind_done by done. cbn beta iota.
    rewrite bool_decide_false, bool_decide_true by done. cbn [andb].
    destruct (kinv_switch s me c first fh p false HI)
      as (s1 & s2 & s3 & s' & E1 & E2 & E3 & E4 & E5 & HI' & Hc' & HF' & HQ' & HS').
    { done. } { done. } { done. } { done. } { done. }
    { rewrite bool_decide_false; [done|]. by apply Z.eqb_neq. }
    exists s'. split_and!; [done|done|done|done|exact HQ'|done|].
    erewrite bind_done by exact E1. erewrite bind_done by exact E2.
    erewrite bind_done by exact E3. erewrite bind_done by exact E4.
    erewrite bind_done by exact E5. rewrite bind_gets.
    rewrite (frame_nest _ _ HF'). by destruct (interrupt_nest s =? 0).
Qed.
End Schedule.

(** ** States to run examples on *)
Lemma kinv_no_queues s :
  queues s = ∅ -> ready_priority_group s = 0 ->
  (forall t th, threads s !! t = Some th -> thread_ok th /\ stat_of th <> RT_THREAD_READY /\
     (stat_of th = RT_THREAD_RUNNING -> current_thread s = Some t)) ->
  (forall t, current_thread s = Some t -> is_Some (threads s !! t)) -> kinv s.
Proof.
  intros HQ Hg HT Hc.
  assert (HN : forall h u, u ∈ queues s !!! h -> False).
  { intros h u. rewrite HQ, lookup_total_empty. set_solver. }
  split; rewrite ?Hg; try (intros; exfalso; by eapply HN); try done.
  - intros t th Ht. apply (HT t th Ht).
  - intros p Hp. rewrite Z.bits_0, HQ, lookup_total_empty. done.
  - intros h. rewrite HQ, lookup_total_empty. apply NoDup_nil_2.
  - intros h1 h2 t Hin. by destruct (HN h1 t).
  - intros t th _ Ht Hs. by destruct (HT t th Ht) as (_ & ? & _).
  - intros t th _ Ht. by destruct (HT t th Ht) as (_ & _ & ?).
  - intros t th _ _ Ht. by destruct (HT t th Ht) as (_ & ? & _).
Qed.

Definition thread0 (st prio : Z) : rt_thread :=
  RtThread 0x20000200 0x20000000 1024 35 0 st prio prio (2 ^ prio) 0 0 0 0 None None [] 5 5
    None 0 0 0.
Lemma thread0_ok st prio : 0 <= prio < 32 -> thread_ok (thread0 st prio).
Proof. intros Hp. by split. Qed.
Definition rvc1 : rvc_state := RvcState ∅ 0 0 DOWN 100 0 0 0 None None None None 1 0 0 0 0.
(** Thread 1 runs with priority 10; thread 2, of priority 5, is suspended. *)
Definition kstate0 : kstate :=
  KState ∅ ∅ {[1%positive := thread0 RT_THREAD_RUNNING 10; 2%positive := thread0 RT_THREAD_SUSPEND 5]}
    ∅ ∅ [] [] 0 0 0 (Some 1%positive) 10 0 0 0 ∅ ∅ ∅ ∅ ∅ ∅ ∅ 1%positive ∅ (fun _ => 0) ∅ (replicate 4 None) rvc1 [].
(** The state that a call leaves. *)
Definition after {A} (m : K A) (s : kstate) : kstate :=
  match m s with Done _ s => s | _ => s end.
(** Thread 2 is ready. *)
Definition kstate1 : kstate := after (rt_schedule_insert_thread 2%positive) kstate0.

Lemma kstate0_kinv : kinv kstate0.
Proof.
  apply kinv_no_queues; [done|done| |].
  - intros t th Ht.
    change ((<[1%positive := thread0 RT_THREAD_RUNNING 10]>
              {[2%positive := thread0 RT_THREAD_SUSPEND 5]} : gmap tid rt_thread) !! t = Some th) in Ht.
    apply lookup_insert_Some in Ht as [[<- <-]|[_ [<- <-]%lookup_singleton_Some]].
    + split; [by apply thread0_ok|done].
    + split; [by apply thread0_ok|done].
  - intros t [= <-]. by eexists.
Qed.

Lemma kstate1_kinv : kinv kstate1.
Proof.
  destruct (kinv_insert ∅ 2%positive (thread0 RT_THREAD_SUSPEND 5) kstate0)
    as (s' & E & HI & _); [apply kstate0_kinv|done|done| |].
  - intros h. exact (not_elem_of_nil 2%positive).
  - unfold kstate1, after. rewrite E. eapply kinv_ex_empty; [|exact HI]. set_solver.
Qed.

Section Claims.
Context `{!SignalOps}.

(** C1. [rt_schedule] does nothing when the scheduler is locked, no thread is
    ready or the current thread is not preemptable. Otherwise the next thread
    is the first of the ready queue of the best priority, unless the current
    thread is running and has a better priority, or the same and did not
    yield. The call keeps the invariant of the scheduler's data, touches
    nothing else, and switches contexts exactly when the next thread is
    another one and no interrupt is being served; of the lists of threads, the
    next thread leaves its own and the current one may join the end of its
    ready queue. *)
Theorem rt_schedule_correct s me c :
  kinv s -> current_thread s = Some me -> threads s !! me = Some c ->
  if may_schedule s c then
    exists first p s', first_ready s first p /\ kinv s' /\ sched_frame s s' /\
      current_thread s' = Some (sched_next me c first p) /\
      lists_from me (current_priority c) (sched_next me c first p) (queues s) (queues s') /\
      rt_schedule s =
        if bool_decide (sched_next me c first p <> me) && (interrupt_nest s =? 0)
        then Switch s' (fun s2 => resumed s2) else Done tt s'
  else rt_schedule s = Done tt s.
Proof.
  intros HI Hc Hme. destruct (may_schedule s c) eqn:E; [|apply rt_schedule_no; right; eauto].
  destruct (rt_schedule_yes s me c HI Hc Hme E) as (first & p & s' & Hall). exists first, p, s'.
  tauto.
Qed.

(** The state that a call leaves or switches out in. *)
Definition leaves {A} (o : outcome kstate A) (s' : kstate) : Prop :=
  match o with Done _ s | Switch s _ => s' = s | Fault => False end.

(** C2. After [rt_schedule], with the scheduler unlocked and the current thread
    running and preemptable, no ready thread has a better priority than the
    thread that has the processor. *)
Theorem rt_schedule_highest s me c s' :
  kinv s -> current_thread s = Some me -> threads s !! me = Some c ->
  scheduler_lock_nest s = 0 -> preemptableFlag c <> 1 -> stat_of c = RT_THREAD_RUNNING ->
  leaves (rt_schedule s) s' ->
  exists to th, current_thread s' = Some to /\ threads s' !! to = Some th /\
    forall q t, 0 <= q < RT_THREAD_PRIORITY_MAX -> t ∈ queue s' (QReady q) ->
      current_priority th <= q.
Proof.
  intros HI Hc Hme HL HP HR Hs'. destruct (may_schedule s c) eqn:E.
  - destruct (rt_schedule_yes s me c HI Hc Hme E)
      as (first & p & s1 & (Hp & Hh & Hl) & HI1 & HF & Hc1 & HQ & _ & Hrs).
    assert (s' = s1) as -> by (rewrite Hrs in Hs'; by destruct (_ && _)).
    destruct (ci_cur _ _ _ _ _ HI1 _ Hc1) as [th Hth]. exists (sched_next me c first p), th.
    split; [done|]. split; [done|]. intros q t Hq Ht.
    assert (Hin : first ∈ queues s !!! QReady p).
    { unfold queue in Hh. destruct (queues s !!! QReady p); [done|]. injection Hh as ->. set_solver. }
    destruct (ci_ready _ _ _ _ _ HI p first Hin) as (fh & Hfh & _ & Hfp).
    assert (Hpq : p <= q \/ (t = me /\ q = current_priority c)).
    { destruct (lists_from_elem _ _ _ _ _ _ _ HQ Ht) as [Ho|[-> [= ->]]]; [left|by right].
      destruct (Z.lt_ge_cases q p); [|done]. unfold queue in Hl. rewrite Hl in Ho by lia. set_solver. }
    assert (Hprio : current_priority th <= p /\ current_priority th <= current_priority c).
    { destruct (sched_next_running me c first p HR) as [[E1 Hle]|[E1 Hle]]; rewrite E1 in Hth.
      - destruct (frame_thread _ _ _ _ HF Hme) as (th' & Hth' & En%nostat_priority).
        rewrite Hth in Hth'. injection Hth' as <-. lia.
      - destruct (frame_thread _ _ _ _ HF Hfh) as (th' & Hth' & En%nostat_priority).
        rewrite Hth in Hth'. injection Hth' as <-. lia. }
    lia.
  - rewrite (rt_schedule_no s) in Hs' by (right; eauto). simpl in Hs'. subst s'.
    exists me, c. split; [done|]. split; [done|]. intros q t Hq Ht. exfalso.
    unfold may_schedule in E. rewrite HL in E. simpl in E.
    assert (Hg : ready_priority_group s = 0) by lia.
    pose proof (ci_bits _ _ _ _ _ HI q Hq) as Hb. rewrite Hg, Z.bits_0 in Hb.
    symmetry in Hb. apply bool_decide_eq_false in Hb. apply Hb. unfold queue in Ht.
    intros E0. rewrite E0 in Ht. set_solver.
Qed.

(** A thread made not preemptable keeps the processor even when it is
    suspended or closed: [rt_schedule] returns to it without a switch, so a
    blocking call of such a thread returns at once. *)
Theorem not_preemptable_never_switched s me c :
  current_thread s = Some me -> threads s !! me = Some c -> preemptableFlag c = 1 ->
  rt_schedule s = Done tt s.
Proof.
  intros Hc Hme HP. apply rt_schedule_no. right. exists me, c. split; [done|]. split; [done|].
  unfold may_schedule. rewrite HP. apply andb_false_r.
Qed.
End Claims.

(** Without signals the hooks of the scheduler into signal.c are never run. *)
Definition no_signals : SignalOps := {| rt_thread_handle_sig := fun _ => fault; signal_entry := fault |}.
#[local] Existing Instance no_signals.

Lemma rt_schedule_correct_witness :
  may_schedule kstate1 (thread0 RT_THREAD_RUNNING 10) = true /\
  exists first p s', first_ready kstate1 first p /\ kinv s' /\
    current_thread s' = Some (sched_next 1%positive (thread0 RT_THREAD_RUNNING 10) first p).
Proof.
  split; [reflexivity|].
  destruct (rt_schedule_correct kstate1 1%positive (thread0 RT_THREAD_RUNNING 10))
    as (first & p & s' & Hf & HI & _ & Hc & _).
  - apply kstate1_kinv.
  - reflexivity.
  - reflexivity.
  - exists first, p, s'. split; [exact Hf|]. split; [exact HI|exact Hc].
Defined.

Lemma rt_schedule_highest_witness :
  exists s' to th, leaves (rt_schedule kstate1) s' /\
    current_thread s' = Some to /\ threads s' !! to = Some th /\
    forall q t, 0 <= q < RT_THREAD_PRIORITY_MAX -> t ∈ queue s' (QReady q) -> current_priority th <= q.
Proof.
  destruct (rt_schedule kstate1) as [a s'|s' k|] eqn:E.
  - vm_compute in E. discriminate E.
  - destruct (rt_schedule_highest kstate1 1%positive
                (thread0 RT_THREAD_RUNNING 10) s') as (to & th & H).
    + apply kstate1_kinv.
    + reflexivity.
    + reflexivity.
    + reflexivity.
    + discriminate.
    + reflexivity.
    + rewrite E. reflexivity.
    + exists s', to, th. split; [reflexivity|exact H].
  - vm_compute in E. discriminate E.
Defined.

Lemma not_preemptable_never_switched_witness :
  let c := thread0 RT_THREAD_SUSPEND 10 <| preemptableFlag := 1 |> in
  let s := kstate1 <| threads ::= <[1%positive := c]> |> in
  rt_schedule s = Done tt s.
Proof.
  intros c s. apply (not_preemptable_never_switched s 1%positive c); reflexivity.
Defined.
