(* ===== verification/Object.v ===== *)
(** Kernel objects: rt-thread/src/object.c.

    [objs] holds the headers and [containers] the object lists of
    [_object_container]. An object on the heap is named by its address; what it
    holds is in its record, from its creation on, and not in the bytes of
    [heap_mem]. A deleted object keeps its record, of type 0, until its memory
    becomes another object. *)
From S2P Require Export Sched KService.
Local Open Scope Z_scope.

(** The classes of the rows of [_object_container]. *)
Definition object_classes : list Z :=
  [RT_Object_Class_Thread; RT_Object_Class_Semaphore; RT_Object_Class_Mutex;
   RT_Object_Class_Event; RT_Object_Class_MailBox; RT_Object_Class_MessageQueue;
   RT_Object_Class_MemHeap; RT_Object_Class_MemPool; RT_Object_Class_Device;
   RT_Object_Class_Timer].

(** The [object_size] of the rows: pointers are of 4 bytes, and the enumeration
    in [struct rt_device] of one. *)
Definition object_sizes : list (Z * Z) :=
  [(RT_Object_Class_Thread, 156); (RT_Object_Class_Semaphore, 32); (RT_Object_Class_Mutex, 36);
   (RT_Object_Class_Event, 32); (RT_Object_Class_MailBox, 48); (RT_Object_Class_MessageQueue, 60);
   (RT_Object_Class_MemHeap, 100); (RT_Object_Class_MemPool, 52); (RT_Object_Class_Device, 60);
   (RT_Object_Class_Timer, 44)].
Definition object_size (c : Z) : Z := (list_to_map object_sizes : gmap Z Z) !!! c.

(** The structure that the objects of a class are. *)
Definition object_kinds : list (Z * okind) :=
  [(RT_Object_Class_Thread, KThread); (RT_Object_Class_Semaphore, KSem); (RT_Object_Class_Mutex, KMutex);
   (RT_Object_Class_Event, KEvent); (RT_Object_Class_MailBox, KMailBox);
   (RT_Object_Class_MessageQueue, KMQ); (RT_Object_Class_MemHeap, KMemHeap);
   (RT_Object_Class_MemPool, KMemPool); (RT_Object_Class_Device, KDevice);
   (RT_Object_Class_Timer, KTimer)].
(** The object of class [c] at an address, and the address of an object; the
    timer of a thread is a part of it. *)
Definition THREAD_TIMER_OFFSET : Z := 96.
Definition object_at (c a : Z) : ref :=
  match (list_to_map object_kinds : gmap Z okind) !! c with
  | Some KTimer | None => (KTimer, app_timer (Z.to_pos a))
  | Some k => (k, Z.to_pos a)
  end.
Definition object_addr (r : ref) : Z :=
  match r with
  | (KTimer, xI n) => Z.pos n
  | (KTimer, xO t) => Z.pos t + THREAD_TIMER_OFFSET
  | (_, n) => Z.pos n
  end.

(** A row is named by its class. *)
Fixpoint get_information_loop (rows : list Z) (type : Z) : option Z :=
  match rows with
  | [] => None
  | c :: rows => if c =? type then Some c else get_information_loop rows type
  end.
Definition rt_object_get_information (type : Z) : option Z :=
  get_information_loop object_classes type.

Definition object_list (s : kstate) (c : Z) : list ref := containers s !!! c.
Definition object_list_insert_after (c : Z) (r : ref) : K unit :=
  modify (fun s => s <| containers ::= (fun m => <[c := r :: m !!! c]> m) |>).
(** [rt_list_remove(&object->list)] *)
Definition object_list_remove (r : ref) : K unit :=
  modify (fun s => s <| containers ::= fmap (filter (fun x => x <> r)) |>).

Definition rt_object_get_length (type : Z) : K Z :=
  match rt_object_get_information type with
  | None => mret 0
  | Some c => l ← gets (fun s => object_list s c); mret (Z.of_nat (length l))
  end.

(** The pointers stored and their number. *)
Definition rt_object_get_pointers (type maxlen : Z) : K (list ref) :=
  if maxlen <=? 0 then mret []
  else match rt_object_get_information type with
       | None => mret []
       | Some c => l ← gets (fun s => object_list s c); mret (take (Z.to_nat maxlen) l)
       end.

(** [rt_object_get_type] and [rt_object_is_systemobject] *)
Definition rt_object_get_type (r : ref) : K Z :=
  o ← get_obj r; mret (clear_bits (o_type o) RT_Object_Class_Static).
Definition rt_object_is_systemobject (r : ref) : K bool :=
  o ← get_obj r; mret (has_bits (o_type o) RT_Object_Class_Static).

(** [RT_ASSERT(rt_object_get_type(&x->parent.parent) == type)] *)
Definition assert_type (r : ref) (type : Z) : K unit :=
  t ← rt_object_get_type r; rt_assert (t =? type).
Definition assert_static (r : ref) : K unit :=
  b ← rt_object_is_systemobject r; rt_assert b.

Definition rt_object_detach (r : ref) : K unit :=
  mod_obj r (fun o => o <| o_type := 0 |>);;
  object_list_remove r.

Section Object.
Context `{!SignalOps}.

(** The memory of a static object that was never initialised is zero. *)
Definition rt_object_init (r : ref) (type : Z) (name : list Z) : K unit :=
  c ← deref (rt_object_get_information type);
  rt_enter_critical;;
  l ← gets (fun s => object_list s c);
  rt_assert (bool_decide (r ∉ l));;
  rt_exit_critical;;
  s ← get;
  let flag := match objs s !! r with Some o => o_flag o | None => 0 end in
  modify (fun s => s <| objs ::= <[r := RtObject (rt_strncpy (cstr name) RT_NAME_MAX)
                                       (Z.lor type RT_Object_Class_Static) flag]> |>);;
  object_list_insert_after c r.

(** [None] is [RT_NULL]: no memory. *)
Definition rt_object_allocate `{!HeapOps} (type : Z) (name : list Z) : K (option Z) :=
  RT_DEBUG_NOT_IN_INTERRUPT;;
  c ← deref (rt_object_get_information type);
  p ← heap_malloc (object_size c);
  match p with
  | None => mret None
  | Some a =>
      modify (fun s => s <| heap_mem ::= rt_memset a 0 (object_size c) |>);;
      modify (fun s => s <| objs ::=
        <[object_at c a := RtObject (rt_strncpy (cstr name) RT_NAME_MAX) type 0]> |>);;
      object_list_insert_after c (object_at c a);;
      mret (Some a)
  end.

Definition rt_object_delete `{!HeapOps} (r : ref) : K unit :=
  o ← get_obj r;
  rt_assert (negb (has_bits (o_type o) RT_Object_Class_Static));;
  mod_obj r (fun o => o <| o_type := RT_Object_Class_Null |>);;
  object_list_remove r;;
  heap_free (object_addr r).

(** [RT_ASSERT(rt_object_is_systemobject(&x->parent.parent) == RT_FALSE)] *)
Definition assert_dynamic (r : ref) : K unit :=
  b ← rt_object_is_systemobject r; rt_assert (negb b).

(** The loop of [rt_object_find]. *)
Fixpoint find_loop (s : kstate) (name : list Z) (l : list ref) : option ref :=
  match l with
  | [] => None
  | r :: l =>
      match objs s !! r with
      | Some o => if rt_strncmp (cstr (o_name o)) (cstr name) RT_NAME_MAX =? 0
                  then Some r else find_loop s name l
      | None => find_loop s name l
      end
  end.

Definition rt_object_find (name : option (list Z)) (type : Z) : K (option ref) :=
  match name, rt_object_get_information type with
  | Some name, Some c =>
      RT_DEBUG_NOT_IN_INTERRUPT;;
      rt_enter_critical;;
      s ← get;
      let r := find_loop s name (object_list s c) in
      rt_exit_critical;;
      mret r
  | _, _ => mret None
  end.
End Object.
