(* ===== verification/Clock.v ===== *)
(** Ticks and timers: rt-thread/src/clock.c, timer.c and irq.c.

    RT_TIMER_SKIP_LIST_LEVEL is 1: [_timer_list[0]] is one list, kept in
    [timer_list]. Ticks are 32-bit and wrap around. *)
From S2P Require Export Object.
Local Open Scope Z_scope.

(** The functions that timers call, and thread cleanups. *)
Class Callbacks := {
  call_timeout : fn -> positive -> K unit;
  call_cleanup : fn -> tid -> K unit;
}.

(** ** clock.c, without [rt_tick_increase] *)
Definition rt_tick_get : K Z := gets rt_tick.
Definition rt_tick_set (tick : Z) : K unit := modify (fun s => s <| rt_tick := tick |>).

(** C division of [int]s rounds towards zero. *)
Definition rt_tick_from_millisecond (ms : Z) : Z :=
  if ms <? 0 then u32 RT_WAITING_FOREVER
  else let tick := u32 (RT_TICK_PER_SECOND * Z.quot ms 1000) in
       u32 (tick + Z.quot (RT_TICK_PER_SECOND * Z.rem ms 1000 + 999) 1000).

Definition rt_tick_get_millisecond : K Z :=
  t ← rt_tick_get; mret (u32 (t * (1000 / RT_TICK_PER_SECOND))).

(** ** irq.c *)
Definition rt_interrupt_enter : K unit :=
  modify (fun s => s <| interrupt_nest ::= (fun n => u8 (n + 1)) |>).
Definition rt_interrupt_leave : K unit :=
  modify (fun s => s <| interrupt_nest ::= (fun n => u8 (n - 1)) |>).
Definition rt_interrupt_get_nest : K Z := gets interrupt_nest.

(** ** timer.c *)

(** [_timer_remove] takes the timer out of whichever list it is in. *)
Definition timer_remove (tm : positive) : K unit :=
  modify (fun s => s <| timer_list ::= filter (fun x => x <> tm) |>
                     <| expired_list ::= filter (fun x => x <> tm) |>).

Definition timer_ref (tm : positive) : ref := (KTimer, tm).

Definition clear_activated (tm : positive) : K unit :=
  mod_obj (timer_ref tm) (fun o => o <| o_flag ::= (fun f => clear_bits f RT_TIMER_FLAG_ACTIVATED) |>).
Definition set_activated (tm : positive) : K unit :=
  mod_obj (timer_ref tm) (fun o => o <| o_flag ::= (fun f => Z.lor f RT_TIMER_FLAG_ACTIVATED) |>).

(** [rt_list_init] of the rows drops no link: the lists of the model keep the
    nodes that are reachable from their heads. *)
Definition timer_init (tm : positive) (timeout : fn) (parameter : positive) (time flag : Z) : K unit :=
  mod_obj (timer_ref tm) (fun o => o <| o_flag := flag |>);;
  clear_activated tm;;
  modify (fun s => s <| timers ::= <[tm := RtTimer timeout parameter time 0]> |>).

Definition timer_list_next_timeout : K Z :=
  l ← gets timer_list;
  match l with
  | [] => mret RT_TICK_MAX
  | tm :: _ => x ← get_timer tm; mret (timeout_tick x)
  end.
Definition rt_timer_next_timeout_tick : K Z := timer_list_next_timeout.

Definition rt_timer_detach (tm : positive) : K Z :=
  assert_type (timer_ref tm) RT_Object_Class_Timer;;
  assert_static (timer_ref tm);;
  timer_remove tm;;
  clear_activated tm;;
  rt_object_detach (timer_ref tm);;
  mret RT_EOK.

(** The search of [rt_timer_start]: the timers after which the new one, of
    timeout [tick], is inserted, and those before which it is. *)
Definition fires_later (t tick : Z) : bool :=
  negb (u32 (t - tick) =? 0) && (u32 (t - tick) <? RT_TICK_MAX / 2).
Fixpoint timer_split (ts : gmap positive rt_timer) (tick : Z) (l : list positive)
  : option (list positive * list positive) :=
  match l with
  | [] => Some ([], [])
  | tm :: l' =>
      x ← ts !! tm;
      if fires_later (timeout_tick x) tick then Some ([], l)
      else '(a, b) ← timer_split ts tick l'; Some (tm :: a, b)
  end.

Definition rt_timer_start (tm : positive) : K Z :=
  assert_type (timer_ref tm) RT_Object_Class_Timer;;
  timer_remove tm;;
  clear_activated tm;;
  x ← get_timer tm;
  rt_assert (tm_init_tick x <? RT_TICK_MAX / 2);;
  now ← rt_tick_get;
  let tick := u32 (now + tm_init_tick x) in
  mod_timer tm (fun x => x <| timeout_tick := tick |>);;
  s ← get;
  '(before, after) ← deref (timer_split (timers s) tick (timer_list s));
  modify (fun s => s <| random_nr ::= (fun n => u32 (n + 1)) |>);;
  modify (fun s => s <| timer_list := before ++ tm :: after |>);;
  set_activated tm;;
  mret RT_EOK.

Definition rt_timer_stop (tm : positive) : K Z :=
  assert_type (timer_ref tm) RT_Object_Class_Timer;;
  o ← get_obj (timer_ref tm);
  if negb (has_bits (o_flag o) RT_TIMER_FLAG_ACTIVATED) then mret (- RT_ERROR)
  else
    timer_remove tm;;
    clear_activated tm;;
    mret RT_EOK.

(** [rt_timer_control]: the value behind [arg], before and after the call. *)
Definition rt_timer_control (tm : positive) (cmd arg : Z) : K (Z * Z) :=
  assert_type (timer_ref tm) RT_Object_Class_Timer;;
  if cmd =? RT_TIMER_CTRL_GET_TIME then
    x ← get_timer tm; mret (RT_EOK, tm_init_tick x)
  else if cmd =? RT_TIMER_CTRL_SET_TIME then
    mod_timer tm (fun x => x <| tm_init_tick := u32 arg |>);; mret (RT_EOK, arg)
  else if cmd =? RT_TIMER_CTRL_SET_ONESHOT then
    mod_obj (timer_ref tm) (fun o => o <| o_flag ::= (fun f => clear_bits f RT_TIMER_FLAG_PERIODIC) |>);;
    mret (RT_EOK, arg)
  else if cmd =? RT_TIMER_CTRL_SET_PERIODIC then
    mod_obj (timer_ref tm) (fun o => o <| o_flag ::= (fun f => Z.lor f RT_TIMER_FLAG_PERIODIC) |>);;
    mret (RT_EOK, arg)
  else if cmd =? RT_TIMER_CTRL_GET_STATE then
    o ← get_obj (timer_ref tm);
    mret (RT_EOK, if has_bits (o_flag o) RT_TIMER_FLAG_ACTIVATED
                  then RT_TIMER_FLAG_ACTIVATED else RT_TIMER_FLAG_DEACTIVATED)
  else mret (RT_EOK, arg).

Definition rt_system_timer_init : K unit := modify (fun s => s <| timer_list := [] |>).

Section Timer.
Context `{!SignalOps, !Callbacks}.

Definition rt_timer_init (tm : positive) (name : list Z) (timeout : fn) (parameter : positive)
    (time flag : Z) : K unit :=
  rt_object_init (timer_ref tm) RT_Object_Class_Timer name;;
  timer_init tm timeout parameter time flag.

Definition rt_timer_create `{!HeapOps} (name : list Z) (timeout : fn) (parameter : positive)
    (time flag : Z) : K (option positive) :=
  p ← rt_object_allocate RT_Object_Class_Timer name;
  match p with
  | None => mret None
  | Some a =>
      let tm := app_timer (Z.to_pos a) in
      timer_init tm timeout parameter time flag;;
      mret (Some tm)
  end.

Definition rt_timer_delete `{!HeapOps} (tm : positive) : K Z :=
  assert_type (timer_ref tm) RT_Object_Class_Timer;;
  assert_dynamic (timer_ref tm);;
  timer_remove tm;;
  clear_activated tm;;
  rt_object_delete (timer_ref tm);;
  mret RT_EOK.

(** One round of the loop of [rt_timer_check] on the first timer. The local
    list [list] is [expired_list]. *)
Definition timer_expire (tm : positive) : K unit :=
  x ← get_timer tm;
  timer_remove tm;;
  o ← get_obj (timer_ref tm);
  when (negb (has_bits (o_flag o) RT_TIMER_FLAG_PERIODIC)) (clear_activated tm);;
  modify (fun s => s <| expired_list ::= (fun l => tm :: l) |>);;
  call_timeout (timeout_func x) (parameter x);;
  e ← gets expired_list;
  if bool_decide (e = []) then mret tt
  else
    modify (fun s => s <| timer_list ::= filter (fun x => x <> tm) |>
                       <| expired_list ::= filter (fun x => x <> tm) |>);;
    o ← get_obj (timer_ref tm);
    if has_bits (o_flag o) RT_TIMER_FLAG_PERIODIC && has_bits (o_flag o) RT_TIMER_FLAG_ACTIVATED
    then clear_activated tm;; rt_timer_start tm;; mret tt
    else mret tt.

(** [current_tick] is read before the loop and after each timeout function;
    it is an argument of the loop. [fuel] bounds the rounds; at 0 the model
    stops as a fault. *)
Fixpoint timer_check_loop (fuel : nat) (current_tick : Z) : K unit :=
  l ← gets timer_list;
  match l with
  | [] => mret tt
  | tm :: _ =>
      x ← get_timer tm;
      if u32 (current_tick - timeout_tick x) <? RT_TICK_MAX / 2 then
        match fuel with
        | O => fault
        | S fuel =>
            timer_expire tm;;
            current_tick ← rt_tick_get;
            timer_check_loop fuel current_tick
        end
      else mret tt
  end.

Definition rt_timer_check (fuel : nat) : K unit :=
  modify (fun s => s <| expired_list := [] |>);;
  current_tick ← rt_tick_get;
  timer_check_loop fuel current_tick.

(** [rt_tick_increase], called by the tick interrupt. *)
Definition rt_tick_increase (fuel : nat) : K unit :=
  modify (fun s => s <| rt_tick ::= (fun t => u32 (t + 1)) |>);;
  me ← self;
  mod_thread me (fun th => th <| remaining_tick ::= (fun n => u32 (n - 1)) |>);;
  th ← get_thread me;
  when (0 <? tick_count th)
    (mod_thread me (fun th => th <| tick_count ::= (fun n => u16 (n - 1)) |>));;
  th ← get_thread me;
  when (remaining_tick th =? 0)
    (mod_thread me (fun th => th <| remaining_tick := init_tick th |>
                                <| stat ::= (fun x => Z.lor x RT_THREAD_STAT_YIELD) |>);;
     rt_schedule);;
  rt_timer_check fuel.
End Timer.
