(* ===== verification/TimerThm.v ===== *)
(** Properties of ticks and timers. *)
From stdpp Require Export sorting.
From S2P Require Export Clock SchedThm.
Local Open Scope Z_scope.

(** ** Ticks and milliseconds *)

(** [rt_tick_from_millisecond] rounds up: a delay of [ms] milliseconds is
    the least number of ticks (of 10 ms) that lasts at least as long, without
    overflow on the whole range of a non-negative [int]; a negative argument
    waits for ever. *)
Theorem rt_tick_from_millisecond_correct ms :
  - 2 ^ 31 <= ms < 2 ^ 31 ->
  if ms <? 0 then rt_tick_from_millisecond ms = RT_TICK_MAX
  else 0 <= rt_tick_from_millisecond ms < 2 ^ 31 /\
       10 * (rt_tick_from_millisecond ms - 1) < ms <= 10 * rt_tick_from_millisecond ms.
Proof.
  intros Hms. unfold rt_tick_from_millisecond, RT_TICK_PER_SECOND.
  destruct (Z.ltb_spec ms 0); [done|]. rewrite Z.quot_div_nonneg, Z.rem_mod_nonneg by lia.
  rewrite Z.quot_div_nonneg by (pose proof (Z.mod_pos_bound ms 1000); lia).
  assert (E : ms / 1000 * 1000 + ms mod 1000 = ms) by (Z.to_euclidean_division_equations; lia).
  pose proof (Z.mod_pos_bound ms 1000 ltac:(lia)).
  set (q := ms / 1000) in *. set (r := ms mod 1000) in *. unfold u32, wrap.
  rewrite (Z.mod_small (100 * q)) by lia.
  rewrite Z.mod_small by (Z.to_euclidean_division_equations; lia).
  Z.to_euclidean_division_equations. lia.
Qed.

Lemma rt_tick_from_millisecond_correct_witness :
  rt_tick_from_millisecond (-5) = RT_TICK_MAX /\
  10 * (rt_tick_from_millisecond 2001 - 1) < 2001 <= 10 * rt_tick_from_millisecond 2001.
Proof.
  split.
  - exact (rt_tick_from_millisecond_correct (-5) ltac:(lia)).
  - exact (proj2 (rt_tick_from_millisecond_correct 2001 ltac:(lia))).
Defined.

(** ** The list of timers

    Ticks are compared in the window of half the range that begins at [b]. *)
Definition ticks_from (b t : Z) : Z := u32 (t - b).
Definition in_window (b t : Z) : Prop := ticks_from b t < RT_TICK_MAX / 2.

Lemma fires_later_eq b t tick :
  in_window b t -> in_window b tick ->
  fires_later t tick = (ticks_from b tick <? ticks_from b t).
Proof.
  unfold in_window, ticks_from, fires_later, RT_TICK_MAX, u32, wrap.
  change (2 ^ 32) with 4294967296. change (0xffffffff / 2) with 2147483647. intros H1 H2.
  replace (t - tick) with ((t - b) - (tick - b)) by lia. rewrite Zminus_mod.
  pose proof (Z.mod_pos_bound (t - b) 4294967296 ltac:(lia)).
  pose proof (Z.mod_pos_bound (tick - b) 4294967296 ltac:(lia)).
  set (x := (t - b) mod 4294967296) in *. set (y := (tick - b) mod 4294967296) in *.
  destruct (Z.ltb_spec y x).
  - rewrite Z.mod_small by lia. lia.
  - destruct (decide (x = y)) as [->|].
    + rewrite Z.sub_diag, Z.mod_0_l by lia. done.
    + replace ((x - y) mod 4294967296) with (x - y + 4294967296); [lia|].
      rewrite <- (Z.mod_add (x - y) 1), Z.mod_small by lia. lia.
Qed.

(** The deadline of a timer, from [b]. *)
Definition deadline (ts : gmap positive rt_timer) (b : Z) (tm : positive) : Z :=
  match ts !! tm with Some x => ticks_from b (timeout_tick x) | None => 0 end.
Definition armed (ts : gmap positive rt_timer) (b : Z) (tm : positive) : Prop :=
  exists x, ts !! tm = Some x /\ in_window b (timeout_tick x).

Record timers_ok (ts : gmap positive rt_timer) (b : Z) (l : list positive) : Prop := {
  to_nodup : NoDup l;
  to_armed : Forall (armed ts b) l;
  to_sorted : StronglySorted (fun x y => deadline ts b x <= deadline ts b y) l }.

Lemma timers_ok_cons ts b tm l :
  timers_ok ts b (tm :: l) ->
  (tm ∉ l) /\ armed ts b tm /\ Forall (fun y => deadline ts b tm <= deadline ts b y) l /\
  timers_ok ts b l.
Proof.
  intros [HN HA HS]. apply NoDup_cons in HN as [? ?]. apply Forall_cons in HA as [? ?].
  apply StronglySorted_inv in HS as [? ?]. split_and!; try done.
Qed.

(** The search finds the place: the timers that fire no later than [tick], then
    those that fire later. *)
Lemma timer_split_eq ts b tick l :
  timers_ok ts b l -> in_window b tick ->
  exists before after, timer_split ts tick l = Some (before, after) /\ l = before ++ after /\
    Forall (fun x => deadline ts b x <= ticks_from b tick) before /\
    Forall (fun x => ticks_from b tick < deadline ts b x) after.
Proof.
  intros Hok Hw. induction l as [|tm l IH]; [by exists [], []|].
  apply timers_ok_cons in Hok as (_ & (x & Hx & Hwx) & Hle & Hok). simpl. rewrite Hx. simpl.
  rewrite (fires_later_eq b) by done.
  assert (E : deadline ts b tm = ticks_from b (timeout_tick x)) by (unfold deadline; by rewrite Hx).
  destruct (Z.ltb_spec (ticks_from b tick) (ticks_from b (timeout_tick x))).
  - exists [], (tm :: l). split_and!; [done|done|constructor|]. constructor; [lia|].
    eapply Forall_impl; [exact Hle|]. simpl. intros. lia.
  - destruct (IH Hok) as (before & after & Es & -> & Hb & Ha). rewrite Es. simpl.
    exists (tm :: before), after. split_and!; [done|done| |done]. constructor; [lia|done].
Qed.

Lemma sorted_insert {A} (R : A -> A -> Prop) l1 x l2 :
  StronglySorted R (l1 ++ l2) -> Forall (fun y => R y x) l1 -> Forall (R x) l2 ->
  StronglySorted R (l1 ++ x :: l2).
Proof.
  induction l1 as [|y l1 IH]; simpl; intros HS H1 H2; [by constructor|].
  apply StronglySorted_inv in HS as [HS HF]. apply Forall_cons in H1 as [? ?].
  constructor; [by apply IH|]. apply Forall_app in HF as [? ?]. apply Forall_app. split; [done|].
  by constructor.
Qed.

Lemma timers_ok_insert ts b l1 tm l2 :
  timers_ok ts b (l1 ++ l2) -> tm ∉ l1 ++ l2 -> armed ts b tm ->
  Forall (fun x => deadline ts b x <= deadline ts b tm) l1 ->
  Forall (fun x => deadline ts b tm < deadline ts b x) l2 ->
  timers_ok ts b (l1 ++ tm :: l2).
Proof.
  intros [HN HA HS] Hni Ha H1 H2. split.
  - rewrite <- Permutation_middle. by apply NoDup_cons.
  - rewrite <- Permutation_middle. by constructor.
  - apply sorted_insert; [done|done|]. eapply Forall_impl; [exact H2|]. simpl. intros. lia.
Qed.

Lemma sorted_filter {A} (R : A -> A -> Prop) (P : A -> Prop) `{forall x, Decision (P x)} l :
  StronglySorted R l -> StronglySorted R (filter P l).
Proof.
  induction 1 as [|x l HS IH HF]; [constructor|]. rewrite filter_cons. case_decide; [|done].
  constructor; [done|]. apply Forall_forall. intros y [_ Hy]%list_elem_of_filter.
  by apply (proj1 (Forall_forall _ _) HF).
Qed.

Lemma timers_ok_filter ts b l tm :
  timers_ok ts b l -> timers_ok ts b (filter (fun x => x <> tm) l).
Proof.
  intros [HN HA HS]. split; [by apply NoDup_filter| |by apply sorted_filter].
  apply Forall_forall. intros y [_ Hy]%list_elem_of_filter. by apply (proj1 (Forall_forall _ _) HA).
Qed.

(** A timer outside of the list may change. *)
Lemma timers_ok_set ts b l tm x :
  timers_ok ts b l -> tm ∉ l -> timers_ok (<[tm := x]> ts) b l.
Proof.
  intros [HN HA HS] Hni.
  assert (E : forall y, y ∈ l -> (<[tm := x]> ts) !! y = ts !! y).
  { intros y Hy. apply lookup_insert_ne. by intros ->. }
  split; [done| |].
  - apply Forall_forall. intros y Hy. unfold armed. rewrite (E y Hy).
    by apply (proj1 (Forall_forall _ _) HA).
  - clear HN HA Hni. induction HS as [|y l HS IH HF]; [constructor|].
    constructor; [apply IH; intros; apply E; set_solver|].
    apply Forall_forall. intros z Hz. unfold deadline. rewrite !E by set_solver.
    by apply (proj1 (Forall_forall _ _) HF).
Qed.

(** ** Objects *)
Definition typed (s : kstate) (r : ref) (c : Z) : Prop :=
  exists o, objs s !! r = Some o /\ clear_bits (o_type o) RT_Object_Class_Static = c.

Lemma assert_type_eq s r c : typed s r c -> assert_type r c s = Done tt s.
Proof.
  intros (o & Ho & Hc). unfold assert_type, rt_object_get_type, get_obj, get, mbind, prog_bind. simpl.
  rewrite Ho. simpl. rewrite Hc. unfold rt_assert. by rewrite Z.eqb_refl.
Qed.

Lemma get_obj_eq s r o : objs s !! r = Some o -> get_obj r s = Done o s.
Proof. intros H. unfold get_obj, get, mbind, prog_bind. simpl. by rewrite H. Qed.
Lemma mod_obj_eq s r o f :
  objs s !! r = Some o -> mod_obj r f s = Done tt (s <| objs ::= <[r := f o]> |>).
Proof. intros H. unfold mod_obj. by erewrite bind_done by (by apply get_obj_eq). Qed.
Lemma get_timer_eq s tm x : timers s !! tm = Some x -> get_timer tm s = Done x s.
Proof. intros H. unfold get_timer, get, mbind, prog_bind. simpl. by rewrite H. Qed.
Lemma mod_timer_eq s tm x f :
  timers s !! tm = Some x -> mod_timer tm f s = Done tt (s <| timers ::= <[tm := f x]> |>).
Proof. intros H. unfold mod_timer. by erewrite bind_done by (by apply get_timer_eq). Qed.

(** The state after the timer has been taken out of its list and deactivated. *)
Definition timer_off (tm : positive) (o : rt_object) (s : kstate) : kstate :=
  s <| timer_list ::= filter (fun x => x <> tm) |> <| expired_list ::= filter (fun x => x <> tm) |>
    <| objs ::= <[timer_ref tm := o <| o_flag ::= (fun f => clear_bits f RT_TIMER_FLAG_ACTIVATED) |>]> |>.

Lemma timer_off_eq tm o s :
  objs s !! timer_ref tm = Some o ->
  (timer_remove tm;; clear_activated tm) s = Done tt (timer_off tm o s).
Proof. intros Ho. unfold timer_remove. erewrite bind_done by done.
  match goal with |- clear_activated tm ?s1 = _ => exact (mod_obj_eq s1 _ o _ Ho) end.
Qed.

Lemma rt_timer_stop_eq tm o s :
  typed s (timer_ref tm) RT_Object_Class_Timer -> objs s !! timer_ref tm = Some o ->
  rt_timer_stop tm s =
    if has_bits (o_flag o) RT_TIMER_FLAG_ACTIVATED then Done RT_EOK (timer_off tm o s)
    else Done (- RT_ERROR) s.
Proof.
  intros Ht Ho. unfold rt_timer_stop.
  erewrite bind_done by (by apply assert_type_eq). erewrite bind_done by (by apply get_obj_eq).
  destruct (has_bits _ _); [|done]. cbn [negb].
  pose proof (timer_off_eq tm o s Ho) as E. unfold timer_remove in *.
  erewrite bind_done in E by done. erewrite bind_done by done.
  by erewrite bind_done by exact E.
Qed.

Definition timer_on (tm : positive) (o : rt_object) (x : rt_timer) (before after : list positive)
    (s : kstate) : kstate :=
  timer_off tm o s
    <| timers ::= <[tm := x <| timeout_tick := u32 (rt_tick s + tm_init_tick x) |>]> |>
    <| random_nr ::= (fun n => u32 (n + 1)) |>
    <| timer_list := before ++ tm :: after |>
    <| objs ::= <[timer_ref tm := o <| o_flag ::= (fun f => clear_bits f RT_TIMER_FLAG_ACTIVATED) |>
                                    <| o_flag ::= (fun f => Z.lor f RT_TIMER_FLAG_ACTIVATED) |>]> |>.

Lemma rt_timer_start_eq tm o x before after s :
  typed s (timer_ref tm) RT_Object_Class_Timer -> objs s !! timer_ref tm = Some o ->
  timers s !! tm = Some x -> tm_init_tick x < RT_TICK_MAX / 2 ->
  timer_split (<[tm := x <| timeout_tick := u32 (rt_tick s + tm_init_tick x) |>]> (timers s))
    (u32 (rt_tick s + tm_init_tick x)) (filter (fun y => y <> tm) (timer_list s)) =
    Some (before, after) ->
  rt_timer_start tm s = Done RT_EOK (timer_on tm o x before after s).
Proof.
  intros Ht Ho Hx Hi Hs. unfold rt_timer_start.
  erewrite bind_done by (by apply assert_type_eq).
  pose proof (timer_off_eq tm o s Ho) as E. unfold timer_remove in *.
  erewrite bind_done by done. erewrite bind_done in E by done. erewrite bind_done by exact E.
  set (s1 := timer_off tm o s) in *.
  erewrite bind_done by (by apply get_timer_eq). unfold rt_assert at 1.
  assert ((tm_init_tick x <? RT_TICK_MAX / 2) = true) as -> by lia.
  erewrite bind_done by done. unfold rt_tick_get. rewrite bind_gets. cbv zeta.
  erewrite bind_done by (by apply mod_timer_eq). unfold get at 1.
  erewrite bind_done by done. unfold deref at 1.
  change (timer_split _ _ _) with (timer_split
    (<[tm:=x <| timeout_tick := u32 (rt_tick s + tm_init_tick x) |>]> (timers s))
    (u32 (rt_tick s + tm_init_tick x)) (filter (λ y : positive, y ≠ tm) (timer_list s))).
  rewrite Hs. erewrite bind_done by done. cbn beta iota.
  erewrite bind_done by done. erewrite bind_done by done.
  set (o1 := o <| o_flag ::= (fun f => clear_bits f RT_TIMER_FLAG_ACTIVATED) |>) in *.
  match goal with |- (set_activated tm ≫= _) ?s = _ => set (s5 := s) end.
  assert (Ho5 : objs s5 !! timer_ref tm = Some o1) by exact (lookup_insert_eq _ _ _).
  unfold set_activated. erewrite bind_done by exact (mod_obj_eq _ _ _ _ Ho5).
  reflexivity.
Qed.

Lemma in_window_new b d : 0 <= d < RT_TICK_MAX / 2 ->
  in_window b (u32 (b + d)) /\ ticks_from b (u32 (b + d)) = d.
Proof.
  unfold in_window, ticks_from, RT_TICK_MAX, u32, wrap. change (0xffffffff / 2) with 2147483647.
  intros Hd. assert (E : ((b + d) mod 2 ^ 32 - b) mod 2 ^ 32 = d).
  { rewrite Zminus_mod_idemp_l. replace (b + d - b) with d by lia. apply Z.mod_small. lia. }
  rewrite E. lia.
Qed.

Lemma not_in_filter (tm : positive) (l : list positive) : tm ∉ filter (fun y => y <> tm) l.
Proof. rewrite list_elem_of_filter. tauto. Qed.

(** C4. [rt_timer_start] puts the timer where it belongs: the list of active
    timers stays sorted by deadline (modulo the wrap-around of the ticks) and
    without duplicates, the timer is in it once, activated, with a deadline of
    its period from now, behind the timers of an earlier or the same deadline
    and before the later ones, and no other timer moves. *)
Theorem rt_timer_start_correct tm o x s :
  typed s (timer_ref tm) RT_Object_Class_Timer -> objs s !! timer_ref tm = Some o ->
  timers s !! tm = Some x -> 0 <= tm_init_tick x < RT_TICK_MAX / 2 ->
  timers_ok (timers s) (rt_tick s) (timer_list s) ->
  exists before after s', rt_timer_start tm s = Done RT_EOK s' /\
    filter (fun y => y <> tm) (timer_list s) = before ++ after /\
    timer_list s' = before ++ tm :: after /\
    timers_ok (timers s') (rt_tick s') (timer_list s') /\
    deadline (timers s') (rt_tick s') tm = tm_init_tick x /\
    Forall (fun y => deadline (timers s') (rt_tick s') y <= tm_init_tick x) before /\
    Forall (fun y => tm_init_tick x < deadline (timers s') (rt_tick s') y) after /\
    (exists o', objs s' !! timer_ref tm = Some o' /\
       has_bits (o_flag o') RT_TIMER_FLAG_ACTIVATED = true) /\
    threads s' = threads s /\ queues s' = queues s /\ current_thread s' = current_thread s.
Proof.
  intros Ht Ho Hx Hi Hok. set (b := rt_tick s). set (tick := u32 (b + tm_init_tick x)).
  set (l := filter (fun y => y <> tm) (timer_list s)).
  set (ts := <[tm := x <| timeout_tick := tick |>]> (timers s)).
  destruct (in_window_new b (tm_init_tick x) Hi) as [Hw Hd]. fold tick in Hw, Hd.
  assert (Hl : timers_ok ts b l).
  { apply timers_ok_set; [by apply timers_ok_filter|apply not_in_filter]. }
  destruct (timer_split_eq ts b tick l Hl Hw) as (before & after & Es & El & Hb & Ha).
  assert (Etm : deadline ts b tm = tm_init_tick x).
  { unfold deadline, ts. rewrite lookup_insert_eq. exact Hd. }
  exists before, after, (timer_on tm o x before after s). rewrite Hd in Hb, Ha.
  split; [by apply rt_timer_start_eq; [..|lia|]|]. split; [done|]. split; [done|].
  change (timers (timer_on tm o x before after s)) with ts.
  change (rt_tick (timer_on tm o x before after s)) with b.
  split.
  { rewrite <- Etm in Hb, Ha. apply timers_ok_insert; [by rewrite <- El| | |done|done].
    - rewrite <- El. apply not_in_filter.
    - exists (x <| timeout_tick := tick |>). split; [apply lookup_insert_eq|exact Hw]. }
  split; [done|]. split; [done|]. split; [done|]. split; [|done].
  eexists. split; [exact (lookup_insert_eq _ _ _)|]. simpl.
  change RT_TIMER_FLAG_ACTIVATED with (2 ^ 0). rewrite has_bits_testbit, testbit_lor_pow2 by lia.
  apply orb_true_r.
Qed.

(** Two active timers and one to start, at tick 80. *)
Definition timer_obj (flag : Z) : rt_object := RtObject [] 0x8a flag.
Definition kstate_timers : kstate :=
  kstate0 <| rt_tick := 80 |>
    <| timers := {[app_timer 1 := RtTimer (F_user 3) 1 10 90; app_timer 2 := RtTimer (F_user 4) 1 50 120;
                   app_timer 3 := RtTimer (F_user 5) 1 25 0]} |>
    <| timer_list := [app_timer 1; app_timer 2] |>
    <| objs := {[timer_ref (app_timer 1) := timer_obj 3; timer_ref (app_timer 2) := timer_obj 3;
                 timer_ref (app_timer 3) := timer_obj 2]} |>.

Lemma rt_timer_start_correct_witness :
  exists before after s', rt_timer_start (app_timer 3) kstate_timers = Done RT_EOK s' /\
    [app_timer 1; app_timer 2] = before ++ after /\ timer_list s' = before ++ app_timer 3 :: after /\
    deadline (timers s') (rt_tick s') (app_timer 3) = 25.
Proof.
  destruct (rt_timer_start_correct (app_timer 3) (timer_obj 2) (RtTimer (F_user 5) 1 25 0) kstate_timers)
    as (before & after & s' & E & El & El' & _ & Ed & _).
  - exists (timer_obj 2). split; reflexivity.
  - reflexivity.
  - reflexivity.
  - split; [vm_compute; discriminate|reflexivity].
  - split.
    + apply (bool_decide_unpack _). vm_compute. exact I.
    + repeat constructor; (eexists; split; [reflexivity|reflexivity]).
    + repeat constructor. vm_compute. discriminate.
  - exists before, after, s'. split; [exact E|]. split; [exact El|]. split; [exact El'|exact Ed].
Defined.

#[export] Hint Resolve assert_type_eq get_obj_eq : steps.
