(* ===== verification/Thread.v ===== *)
(** Threads: suspension, resumption, timeouts and start-up of
    rt-thread/src/thread.c, with [rt_hw_stack_init] of
    libcpu/arm/cortex-m4/cpuport.c. The exit paths, which release signals, are
    in ThreadExit.v. *)
From S2P Require Export Clock.
Local Open Scope Z_scope.

Definition thread_ref (t : tid) : ref := (KThread, t).

(** *** The stack pointer of a new context; a frame has 17 words (USE_FPU). *)
Definition SIZEOF_STACK_FRAME : Z := 68.
Definition rt_hw_stack_init (stack_addr : Z) : Z :=
  RT_ALIGN_DOWN (stack_addr + 4) 8 - SIZEOF_STACK_FRAME.

(** *** Accessors added by the project *)
Definition rt_thread_get_status (t : tid) : K Z := th ← get_thread t; mret (stat th).
Definition rt_thread_get_priority (t : tid) : K Z := th ← get_thread t; mret (current_priority th).
Definition set_end_flag (t : tid) : K unit := mod_thread t (fun th => th <| end_flag := 1 |>).
Definition reset_end_flag (t : tid) : K unit := mod_thread t (fun th => th <| end_flag := 0 |>).
Definition set_tick_count (t : tid) (cnt : Z) : K unit :=
  mod_thread t (fun th => th <| tick_count := u16 cnt |>).
Definition get_tick_count (t : tid) : K Z := th ← get_thread t; mret (tick_count th).
Definition set_task_started (t : tid) (duration : Z) : K Z :=
  tick_start ← rt_tick_get;
  set_tick_count t duration;;
  reset_end_flag t;;
  mret (s32 tick_start).
Definition set_task_ended (t : tid) : K Z :=
  tick_end ← rt_tick_get;
  set_end_flag t;;
  mret (s32 tick_end).

(** *** Suspend and resume *)
Definition rt_thread_suspend (t : tid) : K Z :=
  assert_type (thread_ref t) RT_Object_Class_Thread;;
  th ← get_thread t;
  let st := stat_of th in
  if negb (st =? RT_THREAD_READY) && negb (st =? RT_THREAD_RUNNING) then mret (- RT_ERROR)
  else
    c ← rt_thread_self;
    when (st =? RT_THREAD_RUNNING) (rt_assert (bool_decide (c = Some t)));;
    rt_schedule_remove_thread t;;
    mod_thread t (put_stat RT_THREAD_SUSPEND);;
    rt_timer_stop (thread_timer t);;
    mret RT_EOK.

Definition rt_thread_resume (t : tid) : K Z :=
  assert_type (thread_ref t) RT_Object_Class_Thread;;
  th ← get_thread t;
  if negb (stat_of th =? RT_THREAD_SUSPEND) then mret (- RT_ERROR)
  else
    tlist_remove t;;
    rt_timer_stop (thread_timer t);;
    rt_schedule_insert_thread t;;
    mret RT_EOK.

(** [while (!rt_list_isempty(q)) { ..; thread->error = e; rt_thread_resume(thread); }]:
    every round takes a thread out of the list, or the loop does not end, so
    the length of the list is fuel enough. *)
Fixpoint resume_loop (fuel : nat) (q : qhead) (e : Z) : K unit :=
  l ← gets (fun s => queue s q);
  match l with
  | [] => mret tt
  | t :: _ =>
      match fuel with
      | O => fault
      | S fuel =>
          mod_thread t (fun th => th <| error := e |>);;
          rt_thread_resume t;;
          resume_loop fuel q e
      end
  end.
Definition resume_all (q : qhead) (e : Z) : K unit :=
  l ← gets (fun s => queue s q); resume_loop (length l) q e.

(** [1 << p] on an [int]: undefined from 32 on. *)
Definition priority_mask (p : Z) : K Z := rt_assert (in_priority_table p);; mret (2 ^ p).

Section Thread.
Context `{!SignalOps}.

(** The timeout function of the timer of a thread. *)
Definition rt_thread_timeout (t : tid) : K unit :=
  th ← get_thread t;
  rt_assert (stat_of th =? RT_THREAD_SUSPEND);;
  assert_type (thread_ref t) RT_Object_Class_Thread;;
  mod_thread t (fun th => th <| error := - RT_ETIMEOUT |>);;
  tlist_remove t;;
  rt_schedule_insert_thread t;;
  rt_schedule.

(** The object was not registered before, so its [tlist] is in no list;
    the fields that the code leaves alone are zero. *)
Definition thread_init (t : tid) (stack_start stack_size priority tick : Z) : K Z :=
  rt_assert (priority <? RT_THREAD_PRIORITY_MAX);;
  modify (fun s => s <| threads ::= <[t :=
    RtThread (rt_hw_stack_init (stack_start + stack_size - 4)) stack_start stack_size 35
      RT_EOK RT_THREAD_INIT (u8 priority) (u8 priority) 0 0 0 0 0 None None [] tick tick
      None 0 0 0]> |>);;
  o ← get_obj (thread_ref t);
  rt_timer_init (thread_timer t) (o_name o) F_rt_thread_timeout t 0 RT_TIMER_FLAG_ONE_SHOT;;
  mret RT_EOK.

Definition rt_thread_init (t : tid) (name : list Z) (stack_start stack_size priority tick : Z) : K Z :=
  rt_assert (negb (stack_start =? 0));;
  rt_object_init (thread_ref t) RT_Object_Class_Thread name;;
  thread_init t stack_start stack_size priority tick.

(** [None] is [RT_NULL]. *)
Definition rt_thread_create `{!HeapOps} (name : list Z) (stack_size priority tick : Z) : K (option tid) :=
  p ← rt_object_allocate RT_Object_Class_Thread name;
  match p with
  | None => mret None
  | Some a =>
      let t := Z.to_pos a in
      stack ← heap_malloc stack_size;
      match stack with
      | None => rt_object_delete (thread_ref t);; mret None
      | Some stack_start =>
          thread_init t stack_start stack_size priority tick;;
          mret (Some t)
      end
  end.

Definition rt_thread_startup (t : tid) : K Z :=
  th ← get_thread t;
  rt_assert (stat_of th =? RT_THREAD_INIT);;
  assert_type (thread_ref t) RT_Object_Class_Thread;;
  mod_thread t (fun th => th <| current_priority := init_priority th |>);;
  th ← get_thread t;
  mask ← priority_mask (current_priority th);
  mod_thread t (fun th => th <| number_mask := mask |>);;
  mod_thread t (fun th => th <| stat := RT_THREAD_SUSPEND |>);;
  rt_thread_resume t;;
  c ← rt_thread_self;
  if bool_decide (is_Some c) then rt_schedule;; mret RT_EOK else mret RT_EOK.

Definition rt_thread_yield : K Z :=
  me ← self;
  mod_thread me (fun th => th <| remaining_tick := init_tick th |>
                              <| stat ::= (fun x => Z.lor x RT_THREAD_STAT_YIELD) |>);;
  rt_schedule;;
  mret RT_EOK.

(** After a timed suspension: a timeout is no error. *)
Definition forget_timeout (t : tid) : K unit :=
  th ← get_thread t;
  when (error th =? - RT_ETIMEOUT) (mod_thread t (fun th => th <| error := RT_EOK |>)).

(** [rt_timer_control(.., SET_TIME, &time); rt_timer_start(..)] on the timer
    of a thread *)
Definition start_thread_timer (t : tid) (time : Z) : K unit :=
  rt_timer_control (thread_timer t) RT_TIMER_CTRL_SET_TIME time;;
  rt_timer_start (thread_timer t);;
  mret tt.

Definition rt_thread_sleep (tick : Z) : K Z :=
  me ← self;
  assert_type (thread_ref me) RT_Object_Class_Thread;;
  rt_thread_suspend me;;
  start_thread_timer me tick;;
  rt_schedule;;
  forget_timeout me;;
  mret RT_EOK.

Definition rt_thread_delay (tick : Z) : K Z := rt_thread_sleep tick.
Definition rt_thread_mdelay (ms : Z) : K Z := rt_thread_sleep (rt_tick_from_millisecond ms).

(** The result and the new value of [*tick]. *)
Definition rt_thread_delay_until (tick inc_tick : Z) : K (Z * Z) :=
  me ← self;
  assert_type (thread_ref me) RT_Object_Class_Thread;;
  cur_tick ← rt_tick_get;
  if u32 (cur_tick - tick) <? inc_tick then
    let tick := u32 (tick + inc_tick) in
    let left_tick := u32 (tick - cur_tick) in
    rt_thread_suspend me;;
    start_thread_timer me left_tick;;
    rt_schedule;;
    forget_timeout me;;
    mret (RT_EOK, tick)
  else mret (RT_EOK, cur_tick).

Definition rt_thread_find (name : option (list Z)) : K (option ref) :=
  rt_object_find name RT_Object_Class_Thread.

(** [RT_THREAD_CTRL_CHANGE_PRIORITY]: [arg] is an [int] here and is stored in
    the 8 bits of [current_priority]. *)
Definition change_priority (t : tid) (arg : Z) : K unit :=
  th ← get_thread t;
  if stat_of th =? RT_THREAD_READY then
    rt_schedule_remove_thread t;;
    mod_thread t (fun th => th <| current_priority := u8 arg |>);;
    mask ← priority_mask (u8 arg);
    mod_thread t (fun th => th <| number_mask := mask |>);;
    rt_schedule_insert_thread t
  else
    mod_thread t (fun th => th <| current_priority := u8 arg |>);;
    mask ← priority_mask (u8 arg);
    mod_thread t (fun th => th <| number_mask := mask |>).
End Thread.
