(* ===== verification/KInv.v ===== *)
(** The invariant of the kernel's shared data, and what suspending, resuming
    and timing threads does to it. *)
From S2P Require Export Thread TimerThm.
Local Open Scope Z_scope.

(** The active timers are timers of threads, in the order of their deadlines
    from now on. *)
Definition clock_data (ts : gmap positive rt_timer) (b : Z) (l : list positive) : Prop :=
  timers_ok ts b l /\ Forall (fun tm => exists t, tm = thread_timer t) l.
Definition clock_ok (s : kstate) : Prop := clock_data (timers s) (rt_tick s) (timer_list s).

(** Whether timers are periodic stays as it is. *)
Definition same_periodic (os os' : gmap ref rt_object) : Prop :=
  forall tm o', os' !! timer_ref tm = Some o' -> exists o, os !! timer_ref tm = Some o /\
    has_bits (o_flag o') RT_TIMER_FLAG_PERIODIC = has_bits (o_flag o) RT_TIMER_FLAG_PERIODIC.

#[export] Instance same_periodic_preorder : PreOrder same_periodic.
Proof.
  split; [intros os tm o Ho; by exists o|]. intros os1 os2 os3 H1 H2 tm o Ho.
  destruct (H2 tm o Ho) as (o2 & Ho2 & E2). destruct (H1 tm o2 Ho2) as (o1 & Ho1 & E1).
  exists o1. split; [done|congruence].
Qed.

Lemma same_periodic_put os tm o o' :
  os !! timer_ref tm = Some o ->
  has_bits (o_flag o') RT_TIMER_FLAG_PERIODIC = has_bits (o_flag o) RT_TIMER_FLAG_PERIODIC ->
  same_periodic os (<[timer_ref tm := o']> os).
Proof.
  intros Ho E tm' o2. destruct (decide (tm = tm')) as [<-|Hne].
  - rewrite lookup_insert_eq. intros [= <-]. by exists o.
  - rewrite lookup_insert_ne by (by intros [=]). intros H. by exists o2.
Qed.

(** Setting or clearing the flag ACTIVATED leaves the flag PERIODIC. *)
Lemma activated_periodic x :
  has_bits (clear_bits x RT_TIMER_FLAG_ACTIVATED) RT_TIMER_FLAG_PERIODIC = has_bits x RT_TIMER_FLAG_PERIODIC /\
  has_bits (Z.lor x RT_TIMER_FLAG_ACTIVATED) RT_TIMER_FLAG_PERIODIC = has_bits x RT_TIMER_FLAG_PERIODIC.
Proof.
  change RT_TIMER_FLAG_PERIODIC with (2 ^ 1). change RT_TIMER_FLAG_ACTIVATED with (2 ^ 0).
  rewrite !has_bits_testbit, testbit_clear_pow2, testbit_lor_pow2 by lia.
  by rewrite andb_true_r, orb_false_r.
Qed.

Lemma clock_data_filter ts b l tm : clock_data ts b l -> clock_data ts b (filter (fun x => x <> tm) l).
Proof.
  intros [H1 H2]. split; [by apply timers_ok_filter|]. apply Forall_forall.
  intros x [_ Hx]%list_elem_of_filter. by apply (proj1 (Forall_forall _ _) H2).
Qed.

(** ** Frames

    [kframe s s']: from [s] to [s'] only the data of the scheduler and of the
    timers change, the types of the objects do not, and the active timers stay
    in order. *)
Record kframe (s s' : kstate) : Prop := {
  kf_eq : s' = s <| threads := threads s' |> <| queues := queues s' |>
         <| ready_priority_group := ready_priority_group s' |>
         <| current_thread := current_thread s' |>
         <| rt_current_priority := rt_current_priority s' |>
         <| timer_list := timer_list s' |> <| expired_list := expired_list s' |>
         <| timers := timers s' |> <| random_nr := random_nr s' |> <| objs := objs s' |>;
  kf_objs r : fst r <> KTimer -> objs s' !! r = objs s !! r;
  kf_type r : o_type <$> objs s' !! r = o_type <$> objs s !! r;
  kf_periodic : same_periodic (objs s) (objs s');
  kf_clock : clock_ok s -> clock_ok s' }.

#[export] Instance kframe_preorder : PreOrder kframe.
Proof.
  split.
  - intros s. by split; [destruct s| | | |].
  - intros s1 s2 s3 [E1 O1 T1 P1 C1] [E2 O2 T2 P2 C2]. split.
    + rewrite E2 at 1. rewrite E1. by destruct s1.
    + intros r Hr. by rewrite O2, O1.
    + intros r. by rewrite T2, T1.
    + by etrans.
    + eauto.
Qed.

(** The objects and the active timers are the same. *)
Lemma kframe_sched_data s s' :
  s' = s <| threads := threads s' |> <| queues := queues s' |>
         <| ready_priority_group := ready_priority_group s' |>
         <| current_thread := current_thread s' |>
         <| rt_current_priority := rt_current_priority s' |>
         <| expired_list := expired_list s' |> -> kframe s s'.
Proof.
  intros E. assert (EO : objs s' = objs s) by (by rewrite E). split.
  - rewrite E at 1. destruct s'. rewrite E. by destruct s.
  - intros r _. by rewrite EO.
  - intros r. by rewrite EO.
  - by rewrite EO.
  - unfold clock_ok. by rewrite E.
Qed.

Lemma sched_kframe s s' : sched_frame s s' -> kframe s s'.
Proof.
  intros [E _]. apply kframe_sched_data.
  assert (E2 : expired_list s' = expired_list s) by (by rewrite E). rewrite E2.
  etrans; [exact E|]. by destruct s.
Qed.

Section Frame.
Context (s s' : kstate) (F : kframe s s').
Lemma kf_typed r c : typed s r c -> typed s' r c.
Proof.
  intros (o & Ho & Hc). pose proof (kf_type _ _ F r) as E. rewrite Ho in E. unfold typed.
  destruct (objs s' !! r) as [o'|]; [|done]. injection E as E. exists o'. by rewrite E.
Qed.
Lemma kf_nest : interrupt_nest s' = interrupt_nest s. Proof. by rewrite (kf_eq _ _ F). Qed.
Lemma kf_lock : scheduler_lock_nest s' = scheduler_lock_nest s. Proof. by rewrite (kf_eq _ _ F). Qed.
Lemma kf_tick : rt_tick s' = rt_tick s. Proof. by rewrite (kf_eq _ _ F). Qed.
Lemma kf_sems : sems s' = sems s. Proof. by rewrite (kf_eq _ _ F). Qed.
Lemma kf_mutexes : mutexes s' = mutexes s. Proof. by rewrite (kf_eq _ _ F). Qed.
Lemma kf_events : events s' = events s. Proof. by rewrite (kf_eq _ _ F). Qed.
Lemma kf_mailboxes : mailboxes s' = mailboxes s. Proof. by rewrite (kf_eq _ _ F). Qed.
Lemma kf_mqueues : mqueues s' = mqueues s. Proof. by rewrite (kf_eq _ _ F). Qed.
Lemma kf_mempools : mempools s' = mempools s. Proof. by rewrite (kf_eq _ _ F). Qed.
Lemma kf_mem : mem s' = mem s. Proof. by rewrite (kf_eq _ _ F). Qed.
Lemma kf_rvc : rvc s' = rvc s. Proof. by rewrite (kf_eq _ _ F). Qed.
Lemma kf_out : out s' = out s. Proof. by rewrite (kf_eq _ _ F). Qed.
End Frame.

(** ** The invariant

    The threads that are not closed have their object and their timer; every
    active timer has the flag ACTIVATED, and belongs to a suspended thread if
    it is the timer of a thread. *)
Definition thread_timer_ok (s : kstate) (t : tid) : Prop :=
  exists x, timers s !! thread_timer t = Some x /\ timeout_func x = F_rt_thread_timeout /\ parameter x = t.

Definition timer_active (s : kstate) (tm : positive) : Prop :=
  is_Some (timers s !! tm) /\
  (exists o, objs s !! timer_ref tm = Some o /\ has_bits (o_flag o) RT_TIMER_FLAG_ACTIVATED = true) /\
  forall t, tm = thread_timer t ->
    exists th, threads s !! t = Some th /\ stat_of th = RT_THREAD_SUSPEND.

Record kok (s : kstate) : Prop := {
  ko_kinv : kinv s;
  ko_live t th : threads s !! t = Some th -> stat_of th <> RT_THREAD_CLOSE ->
    typed s (thread_ref t) RT_Object_Class_Thread /\
    typed s (timer_ref (thread_timer t)) RT_Object_Class_Timer /\ thread_timer_ok s t;
  ko_timers tm : tm ∈ timer_list s -> timer_active s tm }.

Lemma kok_thread s t th : kok s -> threads s !! t = Some th -> thread_ok th.
Proof. intros HK. apply (ci_thread _ _ _ _ _ (ko_kinv _ HK)). Qed.

(** The objects and timers of a state may be those of a later one. *)
Lemma kok_frame s s' :
  kok s -> kinv s' -> kframe s s' ->
  (forall t th', threads s' !! t = Some th' -> exists th, threads s !! t = Some th /\
     (stat_of th' <> RT_THREAD_CLOSE -> stat_of th <> RT_THREAD_CLOSE)) ->
  (forall t, thread_timer_ok s t -> thread_timer_ok s' t) ->
  (forall tm, tm ∈ timer_list s' -> timer_active s' tm) -> kok s'.
Proof.
  intros [HI HL HT] HI' HF Hth Htm Hl. split; [done| |done].
  intros t th' Ht Hs. destruct (Hth t th' Ht) as (th & Hth0 & Hst).
  destruct (HL t th Hth0 (Hst Hs)) as (H1 & H2 & H3).
  split; [by apply (kf_typed _ _ HF)|]. split; [by apply (kf_typed _ _ HF)|auto].
Qed.

(** A timer stays active when it is not touched and its thread stays suspended. *)
Lemma timer_active_frame s s' tm :
  timer_active s tm -> timers s' !! tm = timers s !! tm ->
  objs s' !! timer_ref tm = objs s !! timer_ref tm ->
  (forall t th, tm = thread_timer t -> threads s !! t = Some th ->
     stat_of th = RT_THREAD_SUSPEND ->
     exists th', threads s' !! t = Some th' /\ stat_of th' = RT_THREAD_SUSPEND) ->
  timer_active s' tm.
Proof.
  intros (H1 & H2 & H3) E1 E2 H. unfold timer_active. rewrite E1, E2.
  split; [done|]. split; [done|]. intros t Et. destruct (H3 t Et) as (th & ? & ?). eauto.
Qed.

Lemma thread_timer_ok_eq s s' t : timers s' = timers s -> thread_timer_ok s t -> thread_timer_ok s' t.
Proof. unfold thread_timer_ok. by intros ->. Qed.

(** The timer of a thread that is not suspended is not active. *)
Lemma timer_of_inactive s t th :
  kok s -> threads s !! t = Some th -> stat_of th <> RT_THREAD_SUSPEND ->
  thread_timer t ∉ timer_list s.
Proof.
  intros HK Hth Hs Hin. destruct (ko_timers _ HK _ Hin) as (_ & _ & H3).
  destruct (H3 t eq_refl) as (th' & ? & ?). by simplify_eq.
Qed.

#[export] Instance thread_timer_inj : Inj (=) (=) thread_timer.
Proof. by intros ?? [=]. Qed.

(** ** Timers *)
Lemma timer_off_frame tm o s : objs s !! timer_ref tm = Some o -> kframe s (timer_off tm o s).
Proof.
  intros Ho. split.
  - by destruct s.
  - intros r Hr. simpl. apply lookup_insert_ne. by intros <-.
  - intros r. simpl. rewrite lookup_insert. case_decide; [|done]. subst r. by rewrite Ho.
  - apply (same_periodic_put _ _ o); [done|]. apply activated_periodic.
  - apply clock_data_filter.
Qed.

Lemma timer_stop_ok tm s :
  typed s (timer_ref tm) RT_Object_Class_Timer ->
  (tm ∈ timer_list s -> timer_active s tm) ->
  exists e s', rt_timer_stop tm s = Done e s' /\ kframe s s' /\
    threads s' = threads s /\ queues s' = queues s /\ current_thread s' = current_thread s /\
    ready_priority_group s' = ready_priority_group s /\ timers s' = timers s /\
    timer_list s' = filter (fun x => x <> tm) (timer_list s) /\
    (forall r, r <> timer_ref tm -> objs s' !! r = objs s !! r).
Proof.
  intros Ht Ha. pose proof Ht as (o & Ho & _). rewrite (rt_timer_stop_eq tm o s Ht Ho).
  destruct (has_bits _ _) eqn:Ef.
  - eexists _, (timer_off tm o s). split; [done|]. split; [by apply timer_off_frame|].
    do 6 (split; [done|]). intros r Hr. simpl. by rewrite lookup_insert_ne.
  - eexists _, s. split_and!; try done. assert (Hn : tm ∉ timer_list s).
    { intros Hin. destruct (Ha Hin) as (_ & (o' & Ho' & Hf) & _). congruence. }
    symmetry. clear -Hn. induction (timer_list s) as [|y l IH]; [done|].
    rewrite filter_cons, decide_True by set_solver. rewrite IH by set_solver. done.
Qed.

Lemma kinv_same_data s s' :
  kinv s -> threads s' = threads s -> queues s' = queues s ->
  ready_priority_group s' = ready_priority_group s -> current_thread s' = current_thread s -> kinv s'.
Proof. unfold kinv, kinv_ex. by intros HI -> -> -> ->. Qed.

(** ** Resuming *)

(** A suspended thread leaves its list and gets ready. *)
Lemma kinv_wake s t th :
  kinv s -> threads s !! t = Some th -> stat_of th = RT_THREAD_SUSPEND ->
  let s1 := s <| queues ::= q_remove t |> in
  kinv_ex {[t]} s1 /\ unlinked t (queues s1).
Proof.
  intros HI Hth Hst s1. split; [|apply unlinked_q_remove].
  eapply core_inv_weaken; [|eapply core_inv_remove_suspended; [exact HI|exact Hth|by rewrite Hst]].
  set_solver.
Qed.

(** The thread [t] of [s] has been woken up in [s']. *)
Definition woken (t : tid) (th : rt_thread) (s s' : kstate) : Prop :=
  if decide (current_thread s = Some t)
  then threads s' = <[t := put_stat RT_THREAD_RUNNING th]> (threads s) /\
       queues s' = q_remove t (queues s)
  else threads s' = <[t := put_stat RT_THREAD_READY th]> (threads s) /\
       queues s' = q_push_back (QReady (current_priority th)) t (q_remove t (queues s)).

Lemma rt_thread_resume_ok s t th :
  kok s -> threads s !! t = Some th -> stat_of th = RT_THREAD_SUSPEND ->
  exists s', rt_thread_resume t s = Done RT_EOK s' /\ kok s' /\ kframe s s' /\
    current_thread s' = current_thread s /\ woken t th s s' /\ timers s' = timers s /\
    timer_list s' = filter (fun x => x <> thread_timer t) (timer_list s).
Proof.
  intros HK Hth Hst. destruct (ko_live _ HK t th Hth) as (T1 & T2 & T3); [by rewrite Hst|].
  destruct (kinv_wake s t th (ko_kinv _ HK) Hth Hst) as [HI1 Hun].
  set (s1 := s <| queues ::= q_remove t |>) in *.
  destruct (timer_stop_ok (thread_timer t) s1 T2 (ko_timers _ HK (thread_timer t)))
    as (e & s2 & E2 & F2 & HT2 & HQ2 & HC2 & HG2 & HTM2 & HL2 & HO2).
  assert (F1 : kframe s s1) by (apply kframe_sched_data; by destruct s).
  assert (HI2 : kinv_ex {[t]} s2).
  { unfold kinv_ex. by rewrite HT2, HQ2, HC2, HG2. }
  assert (Hth2 : threads s2 !! t = Some th) by (by rewrite HT2).
  destruct (kinv_insert {[t]} t th s2 HI2 Hth2) as (s3 & E3 & HI3 & HC3 & HF3 & _);
    [by rewrite Hst|by rewrite HQ2|].
  assert (Hw : woken t th s s3 /\ timers s3 = timers s2 /\ timer_list s3 = timer_list s2 /\ objs s3 = objs s2).
  { rewrite (insert_thread_eq _ _ th _ HI2 Hth2) in E3 by (by rewrite Hst). unfold woken.
    assert (current_thread s2 = current_thread s) as E by (by rewrite HC2).
    rewrite E in E3. destruct (decide _); injection E3 as <-; simpl; by rewrite HT2, HQ2. }
  destruct Hw as (Hw & HTM3 & HL3 & HO3).
  exists s3. split; [|split; [|split; [|split; [by rewrite HC3, HC2|split; [done|split; [by rewrite HTM3, HTM2|by rewrite HL3, HL2]]]]]].
  - unfold rt_thread_resume. erewrite bind_done by (by apply assert_type_eq).
    erewrite bind_done by (by apply get_thread_eq). rewrite Hst, Z.eqb_refl. cbn [negb].
    unfold tlist_remove. erewrite bind_done by done. erewrite bind_done by exact E2.
    by erewrite bind_done by exact E3.
  - apply (kok_frame s); [done| | | | |].
    + eapply kinv_ex_empty; [|exact HI3]. set_solver.
    + etrans; [exact F1|]. etrans; [exact F2|]. by apply sched_kframe.
    + intros u uh Hu. unfold woken in Hw.
      destruct (decide (u = t)) as [->|Hne]; [exists th; split; [done|by rewrite Hst]|].
      exists uh. destruct (decide _); destruct Hw as [Hw _]; rewrite Hw in Hu;
        by rewrite lookup_insert_ne in Hu.
    + intros u. apply thread_timer_ok_eq. by rewrite HTM3, HTM2.
    + intros tm. rewrite HL3, HL2. intros [Hne Hin]%list_elem_of_filter.
      apply (timer_active_frame s); [by apply (ko_timers _ HK)|by rewrite HTM3, HTM2| |].
      * rewrite HO3. apply HO2. by intros [= ?].
      * intros u uh -> Hu Hs. exists uh. split; [|done].
        unfold woken in Hw. destruct (decide _); destruct Hw as [-> _]; by rewrite lookup_insert_ne by congruence.
  - etrans; [exact F1|]. etrans; [exact F2|]. by apply sched_kframe.
Qed.

(** ** Suspending the current thread *)
Lemma put_stat_same v th : nostat (put_stat v th) = nostat th.
Proof. done. Qed.

Lemma rt_thread_suspend_ok s me th :
  kok s -> current_thread s = Some me -> threads s !! me = Some th ->
  stat_of th = RT_THREAD_RUNNING ->
  exists s', rt_thread_suspend me s = Done RT_EOK s' /\ kok s' /\ kframe s s' /\
    current_thread s' = Some me /\ unlinked me (queues s') /\
    threads s' = <[me := put_stat RT_THREAD_SUSPEND th]> (threads s) /\
    (forall h, queues s' !!! h = queues s !!! h) /\ timers s' = timers s.
Proof.
  intros HK Hc Hth Hst. destruct (ko_live _ HK me th Hth) as (T1 & T2 & T3); [by rewrite Hst|].
  pose proof (ko_kinv _ HK) as HI.
  destruct (kinv_remove ∅ me th s HI Hth) as (s1 & E1 & HI1 & Hun1 & HQ1 & HT1 & HC1 & HF1);
    [by rewrite Hst|].
  assert (HQ : forall h, queues s1 !!! h = queues s !!! h).
  { intros h. rewrite HQ1, q_remove_lookup. apply filter_alone.
    eapply running_unlinked; [exact HI|exact Hth|by left]. }
  set (s2 := s1 <| threads ::= <[me := put_stat RT_THREAD_SUSPEND th]> |>).
  assert (Hth1 : threads s1 !! me = Some th) by (by rewrite HT1).
  assert (F1 : kframe s s1) by (by apply sched_kframe).
  assert (F2 : kframe s1 s2) by (apply kframe_sched_data; by destruct s1).
  assert (HI2 : kinv s2).
  { eapply core_inv_weaken; [|eapply core_inv_release].
    2:{ eapply core_inv_set; [exact HI1|done|by eexists|].
        apply thread_ok_put_stat; [done|by rewrite Hst|]. by eapply kok_thread. }
    2:{ apply lookup_insert_eq. }
    + set_solver.
    + by rewrite stat_of_put_stat.
    + by rewrite stat_of_put_stat.
    + by rewrite stat_of_put_stat. }
  assert (Ht2 : typed s2 (timer_ref (thread_timer me)) RT_Object_Class_Timer).
  { by apply (kf_typed _ _ F2), (kf_typed _ _ F1). }
  assert (HTM1 : timers s1 = timers s /\ timer_list s1 = timer_list s /\ objs s1 = objs s).
  { destruct HF1 as [EF _]. by rewrite EF. }
  destruct HTM1 as (HTM1 & HL1 & HO1).
  assert (Hni : thread_timer me ∉ timer_list s).
  { eapply timer_of_inactive; [done|exact Hth|]. by rewrite Hst. }
  destruct (timer_stop_ok (thread_timer me) s2 Ht2)
    as (e & s3 & E3 & F3 & HT3 & HQ3 & HC3 & HG3 & HTM3 & HL3 & HO3).
  { simpl. rewrite HL1. done. }
  exists s3. split; [|split; [|split; [|split; [|split; [|split; [|split]]]]]].
  - unfold rt_thread_suspend. erewrite bind_done by (by apply assert_type_eq).
    erewrite bind_done by (by apply get_thread_eq). rewrite Hst. cbv zeta.
    change (RT_THREAD_RUNNING =? RT_THREAD_READY) with false.
    change (RT_THREAD_RUNNING =? RT_THREAD_RUNNING) with true. cbn [negb andb].
    unfold rt_thread_self. rewrite bind_gets. rewrite Hc, bool_decide_true by done.
    cbn [when]. erewrite bind_done by done. erewrite bind_done by exact E1.
    erewrite bind_done by (by apply mod_thread_eq). by erewrite bind_done by exact E3.
  - apply (kok_frame s); [done| | | | |].
    + by eapply kinv_same_data.
    + etrans; [exact F1|]. by etrans.
    + intros u uh Hu. rewrite HT3 in Hu. simpl in Hu. rewrite HT1 in Hu.
      destruct (decide (u = me)) as [->|Hne]; [exists th; split; [done|by rewrite Hst]|].
      rewrite lookup_insert_ne in Hu by done. eauto.
    + intros u. apply thread_timer_ok_eq. rewrite HTM3. simpl. by rewrite HTM1.
    + intros tm. rewrite HL3. simpl. rewrite HL1. intros [Hne Hin]%list_elem_of_filter.
      apply (timer_active_frame s); [by apply (ko_timers _ HK)| | |].
      * rewrite HTM3. simpl. by rewrite HTM1.
      * rewrite HO3 by (by intros [= ?]). simpl. by rewrite HO1.
      * intros u uh -> Hu Hs. exists uh. split; [|done]. rewrite HT3. simpl. rewrite HT1.
        by rewrite lookup_insert_ne by congruence.
  - etrans; [exact F1|]. by etrans.
  - rewrite HC3. simpl. by rewrite HC1.
  - intros h. rewrite HQ3. simpl. apply Hun1.
  - rewrite HT3. simpl. by rewrite HT1.
  - intros h. rewrite HQ3. simpl. apply HQ.
  - rewrite HTM3. simpl. done.
Qed.

(** ** Starting the timer of a thread *)
Lemma timer_split_total ts tick l :
  (forall tm, tm ∈ l -> is_Some (ts !! tm)) ->
  exists before after, timer_split ts tick l = Some (before, after) /\ l = before ++ after.
Proof.
  induction l as [|tm l IH]; intros Hl; [by exists [], []|]. simpl.
  destruct (Hl tm) as [x Hx]; [set_solver|]. rewrite Hx. simpl.
  destruct (fires_later _ _); [by exists [], (tm :: l)|].
  destruct IH as (b & a & E & ->); [set_solver|]. rewrite E. simpl. by exists (tm :: b), a.
Qed.

Lemma rt_timer_control_set_time tm x time s :
  typed s (timer_ref tm) RT_Object_Class_Timer -> timers s !! tm = Some x ->
  rt_timer_control tm RT_TIMER_CTRL_SET_TIME time s =
    Done (RT_EOK, time) (s <| timers ::= <[tm := x <| tm_init_tick := u32 time |>]> |>).
Proof.
  intros Ht Hx. unfold rt_timer_control. erewrite bind_done by (by apply assert_type_eq).
  change (RT_TIMER_CTRL_SET_TIME =? RT_TIMER_CTRL_GET_TIME) with false.
  change (RT_TIMER_CTRL_SET_TIME =? RT_TIMER_CTRL_SET_TIME) with true. cbn iota.
  by erewrite bind_done by (by apply mod_timer_eq).
Qed.

(** Starting the timer of a thread: the state [timer_on] of [s] with the record
    [y] for the timer. *)
Lemma timer_on_clock t o y x b a s :
  0 <= tm_init_tick x < RT_TICK_MAX / 2 ->
  timer_split (<[thread_timer t := x <| timeout_tick := u32 (rt_tick s + tm_init_tick x) |>]>
      (<[thread_timer t := y]> (timers s)))
    (u32 (rt_tick s + tm_init_tick x)) (filter (fun z => z <> thread_timer t) (timer_list s)) = Some (b, a) ->
  clock_ok s -> clock_ok (timer_on (thread_timer t) o x b a (s <| timers ::= <[thread_timer t := y]> |>)).
Proof.
  intros Hx Es [Hok Hth]. set (tm := thread_timer t) in *. set (tick := u32 (rt_tick s + tm_init_tick x)) in *.
  set (ts := <[tm := x <| timeout_tick := tick |>]> (<[tm := y]> (timers s))) in *.
  destruct (in_window_new (rt_tick s) (tm_init_tick x) Hx) as [Hw Hd]. fold tick in Hw, Hd.
  assert (Hl : timers_ok ts (rt_tick s) (filter (fun z => z <> tm) (timer_list s))).
  { apply timers_ok_set; [apply timers_ok_set; [by apply timers_ok_filter|]|]; apply not_in_filter. }
  destruct (timer_split_eq ts (rt_tick s) tick _ Hl Hw) as (b' & a' & Es' & El & Hb & Ha).
  rewrite Es in Es'. injection Es' as <- <-.
  assert (Etm : deadline ts (rt_tick s) tm = ticks_from (rt_tick s) tick).
  { unfold deadline, ts. by rewrite lookup_insert_eq. }
  rewrite <- Etm in Hb, Ha.
  assert (Hall : Forall (fun z => exists u, z = thread_timer u) (b ++ a)).
  { rewrite <- El. apply Forall_forall. intros z [_ Hz]%list_elem_of_filter.
    by apply (proj1 (Forall_forall _ _) Hth). }
  change (clock_data ts (rt_tick s) (b ++ tm :: a)). split.
  - apply timers_ok_insert; [by rewrite <- El| | |done|done].
    + rewrite <- El. apply not_in_filter.
    + exists (x <| timeout_tick := tick |>). split; [apply lookup_insert_eq|exact Hw].
  - rewrite <- Permutation_middle. constructor; [by exists t|done].
Qed.

Lemma timer_on_frame tm o y x b a s :
  objs s !! timer_ref tm = Some o ->
  (clock_ok s -> clock_ok (timer_on tm o x b a (s <| timers ::= <[tm := y]> |>))) ->
  kframe s (timer_on tm o x b a (s <| timers ::= <[tm := y]> |>)).
Proof.
  intros Ho Hck. set (s1 := s <| timers ::= _ |>) in *.
  assert (EO : objs (timer_on tm o x b a s1) = <[timer_ref tm := o
    <| o_flag ::= (fun f => clear_bits f RT_TIMER_FLAG_ACTIVATED) |>
    <| o_flag ::= (fun f => Z.lor f RT_TIMER_FLAG_ACTIVATED) |>]> (objs s)) by exact (insert_insert_eq _ _ _ _).
  split; [by destruct s|..|done]; try rewrite EO.
  - intros r Hr. rewrite lookup_insert_ne; [done|]. by intros <-.
  - intros r. rewrite lookup_insert. case_decide; [|done]. subst r. by rewrite Ho.
  - apply (same_periodic_put _ _ o); [done|]. simpl.
    rewrite (proj2 (activated_periodic _)). apply activated_periodic.
Qed.

(** The timer of [t] is set to fire at [tick]. *)
Definition wakes_at (t : tid) (tick : Z) (s : kstate) : Prop :=
  thread_timer t ∈ timer_list s /\
  exists x, timers s !! thread_timer t = Some x /\ timeout_tick x = tick.

Lemma start_thread_timer_ok s t th time :
  kok s -> threads s !! t = Some th -> stat_of th = RT_THREAD_SUSPEND ->
  0 <= time < RT_TICK_MAX / 2 ->
  exists s', start_thread_timer t time s = Done tt s' /\ kok s' /\ kframe s s' /\
    threads s' = threads s /\ queues s' = queues s /\ current_thread s' = current_thread s /\
    ready_priority_group s' = ready_priority_group s /\ wakes_at t (u32 (rt_tick s + time)) s'.
Proof.
  intros HK Hth Hst Htime. destruct (ko_live _ HK t th Hth) as (_ & Ht & (x & Hx & Hf & Hpar));
    [by rewrite Hst|].
  set (tm := thread_timer t) in *. pose proof Ht as (o & Ho & Hty).
  set (x1 := x <| tm_init_tick := u32 time |>).
  set (s1 := s <| timers ::= <[tm := x1]> |>).
  set (x2 := x1 <| timeout_tick := u32 (rt_tick s1 + tm_init_tick x1) |>).
  assert (Hx1 : timers s1 !! tm = Some x1) by apply lookup_insert_eq.
  assert (Hi : tm_init_tick x1 < RT_TICK_MAX / 2).
  { simpl. unfold u32, wrap. change (RT_TICK_MAX / 2) with 2147483647 in *.
    rewrite Z.mod_small by lia. lia. }
  assert (HL1 : forall u, u ∈ timer_list s1 -> is_Some (timers s1 !! u)).
  { intros u Hu. simpl. destruct (decide (u = tm)) as [->|]; [by rewrite lookup_insert_eq|].
    rewrite lookup_insert_ne by done. by destruct (ko_timers _ HK _ Hu). }
  destruct (timer_split_total (<[tm := x2]> (timers s1)) (u32 (rt_tick s1 + tm_init_tick x1))
    (filter (fun y => y <> tm) (timer_list s1))) as (b & a & Es & El).
  { intros u [Hne Hu]%list_elem_of_filter. rewrite lookup_insert_ne by done. by apply HL1. }
  pose proof (rt_timer_start_eq tm o x1 b a s1 Ht Ho Hx1 Hi Es) as E.
  assert (F1 : kframe s (timer_on tm o x1 b a s1)).
  { apply timer_on_frame; [done|]. apply timer_on_clock; [|exact Es]. split; [|exact Hi].
    simpl. unfold u32, wrap. apply Z.mod_pos_bound. lia. }
  exists (timer_on tm o x1 b a s1). split; [|split; [|split; [|split_and!; try done]]].
  - unfold start_thread_timer. erewrite bind_done by (by apply rt_timer_control_set_time).
    by erewrite bind_done by exact E.
  - apply (kok_frame s); [done|by eapply kinv_same_data; [apply HK|done..]| | | |].
    + exact F1.
    + intros u uh Hu. by exists uh.
    + intros u (y & Hy & Hf1 & Hp1). unfold thread_timer_ok.
      change (timers (timer_on tm o x1 b a s1)) with (<[tm := x2]> (<[tm := x1]> (timers s))).
      destruct (decide (u = t)) as [->|Hne]; [rewrite lookup_insert_eq; eauto|].
      rewrite !lookup_insert_ne by (intros E'; by apply (inj thread_timer) in E'). eauto.
    + intros u Hu. change (timer_list (timer_on tm o x1 b a s1)) with (b ++ tm :: a) in Hu.
      destruct (decide (u = tm)) as [->|Hne].
      * split; [|split].
        -- exists x2. exact (lookup_insert_eq _ _ _).
        -- eexists. split; [exact (lookup_insert_eq _ _ _)|]. simpl.
           change RT_TIMER_FLAG_ACTIVATED with (2 ^ 0).
           rewrite has_bits_testbit, testbit_lor_pow2 by lia. apply orb_true_r.
        -- intros t' E'. apply (inj thread_timer) in E' as <-. by exists th.
      * assert (Hin : u ∈ b ++ a) by set_solver. rewrite <- El in Hin.
        apply list_elem_of_filter in Hin as [_ Hin].
        apply (timer_active_frame s); [by apply (ko_timers _ HK)| | |by eauto].
        -- change (timers (timer_on tm o x1 b a s1)) with (<[tm := x2]> (<[tm := x1]> (timers s))).
           by rewrite !lookup_insert_ne.
        -- simpl. by rewrite !lookup_insert_ne by (by intros [= ?]).
  - exact F1.
  - split; [apply elem_of_app; right; left|]. exists x2.
    split; [exact (lookup_insert_eq _ _ _)|]. simpl. unfold u32, wrap. by rewrite Zplus_mod_idemp_r.
Qed.

(** ** Changing threads and lists *)

(** Fields that neither the scheduler nor the lists depend on. *)
Lemma kok_set_thread s t th th' :
  kok s -> threads s !! t = Some th -> stat_of th' = stat_of th ->
  current_priority th' = current_priority th -> number_mask th' = number_mask th ->
  stack_overflow th' = stack_overflow th ->
  kok (s <| threads ::= <[t := th']> |>) /\ kframe s (s <| threads ::= <[t := th']> |>).
Proof.
  intros HK Hth Hs Hp Hm Ho. set (s' := s <| threads ::= <[t := th']> |>).
  assert (F : kframe s s') by (apply kframe_sched_data; by destruct s). split; [|done].
  apply (kok_frame s s' HK); [|done| |auto|].
  - eapply core_inv_same; [apply HK|done..|].
    destruct (kok_thread _ _ _ HK Hth) as [H1 H2]. split; [|congruence]. by rewrite Hs, Hp, Hm.
  - intros u uh Hu. change (threads s') with (<[t := th']> (threads s)) in Hu.
    destruct (decide (u = t)) as [->|Hne].
    + rewrite lookup_insert_eq in Hu. injection Hu as <-. exists th. by rewrite Hs.
    + rewrite lookup_insert_ne in Hu by done. eauto.
  - intros tm Hin. apply (timer_active_frame s); [by apply (ko_timers _ HK)|done|done|].
    intros u uh -> Hu Hsu. change (threads s') with (<[t := th']> (threads s)).
    destruct (decide (u = t)) as [->|Hne]; [|rewrite lookup_insert_ne by done; eauto].
    rewrite lookup_insert_eq. exists th'. split; [done|]. simplify_eq. congruence.
Qed.

(** A suspended thread joins a list of waiting threads. *)
Lemma kok_enqueue s t th q l :
  kok s -> unlinked t (queues s) -> threads s !! t = Some th -> stat_of th = RT_THREAD_SUSPEND ->
  is_wait q = true -> l ≡ₚ t :: queues s !!! q ->
  kok (s <| queues ::= <[q := l]> |>) /\ kframe s (s <| queues ::= <[q := l]> |>).
Proof.
  intros HK Hun Hth Hst Hq Hl. set (s' := s <| queues ::= <[q := l]> |>).
  assert (F : kframe s s') by (apply kframe_sched_data; by destruct s). split; [|done].
  pose proof (ko_kinv _ HK) as HI.
  apply (kok_frame s s' HK); [|done|by eauto|auto|by apply HK].
  apply (core_inv_queues _ _ _ _ _ _ _ q t HI Hun); [| |apply HI| |].
  - intros h u. change (queues s') with (<[q := l]> (queues s)).
    destruct (decide (q = h)) as [<-|Hne].
    + rewrite lookup_total_insert_eq, Hl, elem_of_cons. naive_solver.
    + rewrite lookup_total_insert_ne by done. naive_solver.
  - intros h. change (queues s') with (<[q := l]> (queues s)).
    destruct (decide (q = h)) as [<-|Hne].
    + rewrite lookup_total_insert_eq, Hl. apply NoDup_cons. split; [apply Hun|apply HI].
    + rewrite lookup_total_insert_ne by done. apply HI.
  - intros p Hp. change (queues s') with (<[q := l]> (queues s)).
    rewrite lookup_total_insert_ne by (by intros ->). by apply HI.
  - exists th. split; [done|]. by destruct q.
Qed.

(** The invariant is about the scheduler's data, the objects and the timers. *)
Lemma kok_ext s s' :
  kok s -> threads s' = threads s -> queues s' = queues s ->
  ready_priority_group s' = ready_priority_group s -> current_thread s' = current_thread s ->
  objs s' = objs s -> timers s' = timers s -> timer_list s' = timer_list s -> kok s'.
Proof.
  intros [HI HL HT] E1 E2 E3 E4 E5 E6 E7. split.
  - by eapply kinv_same_data.
  - intros t th. unfold typed, thread_timer_ok. rewrite E1, E5, E6. apply HL.
  - intros tm. unfold timer_active. rewrite E1, E5, E6, E7. apply HT.
Qed.

Lemma thread_same t th s : threads s !! t = Some th -> s <| threads ::= <[t := th]> |> = s.
Proof. intros E. destruct s. unfold upd, F_threads. simpl in *. by rewrite insert_id. Qed.
