(* ===== verification/Calm.v ===== *)
(** What the initialisation of objects and timers leaves: [rt_object_init] locks
    the scheduler and unlocks it again, which is no switch while the caller is
    the most urgent thread. *)
From S2P Require Export KInv.
Local Open Scope Z_scope.

(** ** When the scheduler has nothing to do *)

(** The current thread runs, and no ready thread is more urgent. *)
Definition calm (s : kstate) : Prop :=
  0 <= scheduler_lock_nest s < 2 ^ 15 - 1 /\
  forall me, current_thread s = Some me -> kinv s /\ exists th, threads s !! me = Some th /\
    stat_of th = RT_THREAD_RUNNING /\ has_bits (stat th) RT_THREAD_STAT_YIELD_MASK = false /\
    forall p u, u ∈ queue s (QReady p) -> current_priority th <= p.

Lemma clear_bits_none x m : has_bits x m = false -> clear_bits x m = x.
Proof.
  unfold has_bits, nz, clear_bits. intros Hb%negb_false_iff%Z.eqb_eq. rewrite <- Z.ldiff_land.
  rewrite <- (Z.lor_ldiff_and x m) at 2. by rewrite Hb, Z.lor_0_r.
Qed.

Lemma put_stat_id th v : stat_of th = v -> put_stat v th = th.
Proof.
  intros <-. unfold put_stat, stat_of, clear_bits. rewrite <- Z.ldiff_land, Z.lor_comm, Z.lor_ldiff_and. by destruct th.
Qed.

Lemma q_remove_id t Q : unlinked t Q -> q_remove t Q = Q.
Proof.
  intros Hu. unfold q_remove. apply map_eq. intros h. rewrite lookup_fmap. destruct (Q !! h) as [l|] eqn:E; [|done].
  cbn. f_equal. apply filter_alone. intros Hin. apply (Hu h). by rewrite (lookup_total_correct _ _ _ E).
Qed.

(** Updates that come together. *)
Lemma objs_objs f g s : s <| objs ::= f |> <| objs ::= g |> = s <| objs := g (f (objs s)) |>.
Proof. by destruct s. Qed.
Lemma objs_lists_objs f c g s :
  s <| objs ::= f |> <| containers ::= c |> <| objs ::= g |> = s <| objs := g (f (objs s)) |> <| containers ::= c |>.
Proof. by destruct s. Qed.

Section Calm.
Context `{!SignalOps}.

Lemma rt_schedule_calm s me :
  calm s -> current_thread s = Some me -> rt_schedule s = Done tt s.
Proof.
  intros [HL Hc] Hme. destruct (Hc me Hme) as (HI & th & Hth & Hst & Hy & Hp).
  unfold rt_schedule. rewrite !bind_gets. destruct (_ && _) eqn:Eg; [|done].
  apply andb_prop in Eg as [_ Hg%negb_true_iff%Z.eqb_neq].
  erewrite bind_done by (by apply self_eq). erewrite bind_done by (by apply get_thread_eq).
  destruct (_ =? 1); [done|]. destruct (highest_eq ∅ s HI Hg) as (first & p & Eh & _ & Hhd & _).
  erewrite bind_done by exact Eh. rewrite Hst, Z.eqb_refl.
  assert (Hpr : current_priority th <= p).
  { apply (Hp p first). destruct (queue s (QReady p)); [done|]. injection Hhd as ->. by left. }
  assert (E1 : mod_thread me (fun th => th <| stat ::= (fun x => clear_bits x RT_THREAD_STAT_YIELD_MASK) |>) s = Done tt s).
  { rewrite (mod_thread_eq _ _ _ _ Hth). f_equal. apply thread_same. rewrite Hth. f_equal.
    unfold upd, F_stat. cbn. rewrite clear_bits_none by done. by destruct th. }
  erewrite (bind_done _ _ s (check_priorities me th first p) s) by (by erewrite bind_done by exact E1).
  assert (Ech : check_priorities me th first p = (me, false)).
  { unfold check_priorities. destruct (Z.ltb_spec (current_priority th) p); [done|].
    rewrite (proj2 (Z.eqb_eq _ _)) by lia. by rewrite Hy. }
  rewrite Ech. rewrite bool_decide_true by done.
  rewrite (bind_done _ _ s tt s).
  - rewrite (mod_thread_eq _ _ _ _ Hth). f_equal. rewrite put_stat_id by done. by apply thread_same.
  - rewrite (remove_thread_eq ∅ me th s HI Hth) by (by rewrite Hst). f_equal.
    assert (Hun : unlinked me (queues s)) by (eapply running_unlinked; [exact HI|exact Hth|by left]).
    assert (Eg : group_after_remove (threads s) (queues s) (ready_priority_group s) me = ready_priority_group s).
    { unfold group_after_remove. rewrite Hth, q_remove_id by done. case_bool_decide as Eq; [|done].
      destruct (ci_thread _ _ _ _ _ HI me th Hth) as [[Hr ->] _]; [by rewrite Hst|].
      apply clear_bits_none. unfold RT_THREAD_PRIORITY_MAX in Hr. rewrite has_bits_testbit by lia.
      rewrite (ci_bits _ _ _ _ _ HI) by lia. apply bool_decide_eq_false. tauto. }
    rewrite Eg. change (s <| queues ::= q_remove me |>) with (s <| queues := q_remove me (queues s) |>).
    rewrite q_remove_id by done. by destruct s.
Qed.

(** Locking the scheduler and unlocking it again. *)
Lemma critical_calm s :
  calm s -> exists s1, rt_enter_critical s = Done tt s1 /\ rt_exit_critical s1 = Done tt s /\
    containers s1 = containers s.
Proof.
  intros HC. pose proof HC as [HL _]. exists (s <| scheduler_lock_nest := scheduler_lock_nest s + 1 |>).
  assert (E16 : forall n, 0 <= n < 2 ^ 15 -> s16 n = n).
  { intros n Hn. unfold s16, swrap. rewrite Z.mod_small by lia. change (2 ^ (16 - 1)) with (2 ^ 15). by rewrite (proj2 (Z.ltb_lt _ _)) by lia. }
  assert (Es : s <| scheduler_lock_nest := scheduler_lock_nest s |> = s) by (by destruct s).
  split; [|split; [|done]].
  - unfold rt_enter_critical, modify. f_equal. destruct s. unfold upd, F_scheduler_lock_nest. cbn in *. by rewrite E16 by lia.
  - unfold rt_exit_critical. rewrite (bind_done _ _ _ tt s).
    + rewrite bind_gets. destruct (Z.leb_spec (scheduler_lock_nest s) 0); [|done].
      rewrite (bind_done _ _ s tt s); [|unfold modify; f_equal; rewrite <- Es at 2; by replace (scheduler_lock_nest s) with 0 by lia].
      unfold rt_thread_self. rewrite bind_gets. case_bool_decide as Hb; [|done]. destruct Hb as [me Hme].
      by eapply rt_schedule_calm.
    + unfold modify. f_equal. destruct s. unfold upd, F_scheduler_lock_nest. cbn in *. rewrite E16 by lia.
      by replace (scheduler_lock_nest + 1 - 1) with scheduler_lock_nest by lia.
Qed.

(** ** [rt_object_init] and [rt_timer_init] *)
Lemma object_init_calm s r c name :
  calm s -> rt_object_get_information c = Some c -> r ∉ object_list s c ->
  exists o, o_type o = Z.lor c RT_Object_Class_Static /\
    rt_object_init r c name s =
      Done tt (s <| objs ::= <[r := o]> |> <| containers ::= (fun m => <[c := r :: m !!! c]> m) |>).
Proof.
  intros HC Hi Hr. destruct (critical_calm s HC) as (s1 & E1 & E2 & Ec).
  eexists. split; [|unfold rt_object_init; rewrite Hi; erewrite bind_done by reflexivity].
  2:{ erewrite bind_done by exact E1. rewrite bind_gets.
      erewrite (bind_done _ _ s1 tt s1) by (unfold rt_assert, object_list; by rewrite Ec, bool_decide_true).
      erewrite bind_done by exact E2. unfold get at 1. erewrite bind_done by reflexivity. reflexivity. }
  done.
Qed.

Lemma calm_boot s : current_thread s = None -> scheduler_lock_nest s = 0 -> calm s.
Proof. intros HC HN. split; [rewrite HN; lia|]. intros me. by rewrite HC. Qed.

(** The timer [tm], not active, is ready for use. *)
Lemma timer_init_calm s tm name f t time flag :
  calm s -> timer_ref tm ∉ object_list s RT_Object_Class_Timer ->
  has_bits flag RT_TIMER_FLAG_ACTIVATED = false ->
  exists o, o_type o = Z.lor RT_Object_Class_Timer RT_Object_Class_Static /\ o_flag o = flag /\
    rt_timer_init tm name f t time flag s =
      Done tt (s <| objs ::= <[timer_ref tm := o]> |>
                 <| containers ::= (fun m => <[RT_Object_Class_Timer := timer_ref tm :: m !!! RT_Object_Class_Timer]> m) |>
                 <| timers ::= <[tm := RtTimer f t time 0]> |>).
Proof.
  intros HC Hr Hf. destruct (object_init_calm s (timer_ref tm) RT_Object_Class_Timer name HC eq_refl Hr) as (o & Ho & E).
  exists (o <| o_flag := flag |>). split; [done|]. split; [done|].
  unfold rt_timer_init. erewrite bind_done by exact E. set (s1 := s <| objs ::= _ |> <| containers ::= _ |>).
  unfold timer_init. erewrite bind_done by (apply mod_obj_eq, lookup_insert_eq).
  unfold clear_activated. erewrite bind_done by (apply mod_obj_eq, lookup_insert_eq).
  unfold modify. f_equal. rewrite objs_objs. change (objs s1) with (<[timer_ref tm := o]> (objs s)).
  rewrite !insert_insert_eq. unfold s1. rewrite objs_lists_objs.
  assert (Eo : o <| o_flag := flag |> <| o_flag ::= (fun f0 => clear_bits f0 RT_TIMER_FLAG_ACTIVATED) |> =
               o <| o_flag := flag |>).
  { destruct o as [n y l]. change (RtObject n y (clear_bits flag RT_TIMER_FLAG_ACTIVATED) = RtObject n y flag).
    by rewrite clear_bits_none. }
  by rewrite Eo.
Qed.
End Calm.
