(* ===== verification/MemPool.v ===== *)
(** Memory pools of fixed-size blocks: rt-thread/src/mempool.c.

    [mem] holds the words that the code keeps in the pool: the first word of a
    block, a pointer to the next free block while the block is free and to the
    pool while it is allocated. *)
From S2P Require Export Thread.
Local Open Scope Z_scope.

Definition SIZEOF_PTR : Z := 4.
Definition mp_ref (mp : positive) : ref := (KMemPool, mp).

Definition get_mp (mp : positive) : K rt_mempool := s ← get; deref (mempools s !! mp).
Definition mod_mp (mp : positive) (f : rt_mempool -> rt_mempool) : K unit :=
  x ← get_mp mp; modify (fun s => s <| mempools ::= <[mp := f x]> |>).
Definition store_word (a : Z) (p : ptr) : K unit := modify (fun s => s <| mem ::= <[a := p]> |>).
Definition load_word (a : Z) : K ptr := s ← get; deref (mem s !! a).

(** The loop of [rt_mp_init] that links the blocks. *)
Fixpoint link_blocks (n : nat) (offset start stride : Z) : K unit :=
  match n with
  | O => mret tt
  | S n => store_word (start + offset * stride) (PAddr (start + (offset + 1) * stride));;
           link_blocks n (offset + 1) start stride
  end.

Section MemPool.
Context `{!SignalOps}.

Definition rt_mp_init (mp : positive) (name : list Z) (start size block_size0 : Z) : K Z :=
  rt_assert (negb (start =? 0));;
  rt_assert ((0 <? size) && (0 <? block_size0));;
  rt_object_init (mp_ref mp) RT_Object_Class_MemPool name;;
  let size := RT_ALIGN_DOWN size RT_ALIGN_SIZE in
  let bs := RT_ALIGN block_size0 RT_ALIGN_SIZE in
  let total := size / (bs + SIZEOF_PTR) in
  modify (fun s => s <| queues ::= <[QSuspend (mp_ref mp) := []]> |>);;
  let stride := bs + SIZEOF_PTR in
  link_blocks (Z.to_nat total) 0 start stride;;
  store_word (u32 (start + (total - 1) * stride)) PNull;;
  modify (fun s => s <| mempools ::= <[mp := RtMempool start size bs (PAddr start) total total]> |>);;
  mret RT_EOK.

Definition rt_mp_detach (mp : positive) : K Z :=
  assert_type (mp_ref mp) RT_Object_Class_MemPool;;
  assert_static (mp_ref mp);;
  resume_all (QSuspend (mp_ref mp)) (- RT_ERROR);;
  rt_object_detach (mp_ref mp);;
  mret RT_EOK.

Definition rt_mp_create `{!HeapOps} (name : list Z) (block_count block_size0 : Z) : K (option positive) :=
  RT_DEBUG_NOT_IN_INTERRUPT;;
  rt_assert ((0 <? block_count) && (0 <? block_size0));;
  p ← rt_object_allocate RT_Object_Class_MemPool name;
  match p with
  | None => mret None
  | Some a =>
      let mp := Z.to_pos a in
      let bs := RT_ALIGN block_size0 RT_ALIGN_SIZE in
      let stride := bs + SIZEOF_PTR in
      let size := u32 (stride * block_count) in
      start ← heap_malloc size;
      match start with
      | None => rt_object_delete (mp_ref mp);; mret None
      | Some start =>
          modify (fun s => s <| queues ::= <[QSuspend (mp_ref mp) := []]> |>);;
          link_blocks (Z.to_nat block_count) 0 start stride;;
          store_word (start + (block_count - 1) * stride) PNull;;
          modify (fun s => s <| mempools ::=
            <[mp := RtMempool start size bs (PAddr start) block_count block_count]> |>);;
          mret (Some mp)
      end
  end.

Definition rt_mp_delete `{!HeapOps} (mp : positive) : K Z :=
  RT_DEBUG_NOT_IN_INTERRUPT;;
  assert_type (mp_ref mp) RT_Object_Class_MemPool;;
  assert_dynamic (mp_ref mp);;
  resume_all (QSuspend (mp_ref mp)) (- RT_ERROR);;
  x ← get_mp mp;
  heap_free (mp_start x);;
  rt_object_delete (mp_ref mp);;
  mret RT_EOK.

(** The end of [rt_mp_alloc], when a block is free. *)
Definition mp_take (mp : positive) : K (option Z) :=
  mod_mp mp (fun x => x <| block_free_count ::= (fun n => u32 (n - 1)) |>);;
  x ← get_mp mp;
  match block_list x with
  | PAddr block =>
      next ← load_word block;
      mod_mp mp (fun x => x <| block_list := next |>);;
      store_word block (PPool mp);;
      mret (Some (block + SIZEOF_PTR))
  | _ => fault
  end.

(** [fuel] bounds the number of times that the caller is woken up in vain. *)
Fixpoint rt_mp_alloc (fuel : nat) (mp : positive) (time : Z) : K (option Z) :=
  x ← get_mp mp;
  if block_free_count x =? 0 then
    if time =? 0 then rt_set_errno (- RT_ETIMEOUT);; mret None
    else
      match fuel with
      | O => fault
      | S fuel =>
          RT_DEBUG_NOT_IN_INTERRUPT;;
          me ← self;
          mod_thread me (fun th => th <| error := RT_EOK |>);;
          rt_thread_suspend me;;
          tlist_insert_after (QSuspend (mp_ref mp)) me;;
          before_sleep ← rt_tick_get;
          when (0 <? time) (start_thread_timer me time);;
          rt_schedule;;
          th ← get_thread me;
          if negb (error th =? RT_EOK) then mret None
          else
            now ← rt_tick_get;
            let rest := s32 (time - u32 (now - before_sleep)) in
            let time := if 0 <? time then (if rest <? 0 then 0 else rest) else time in
            rt_mp_alloc fuel mp time
      end
  else mp_take mp.

Definition rt_mp_free (block : Z) : K unit :=
  if block =? 0 then mret tt
  else
    let block_ptr := block - SIZEOF_PTR in
    w ← load_word block_ptr;
    match w with
    | PPool mp =>
        mod_mp mp (fun x => x <| block_free_count ::= (fun n => u32 (n + 1)) |>);;
        x ← get_mp mp;
        store_word block_ptr (block_list x);;
        mod_mp mp (fun x => x <| block_list := PAddr block_ptr |>);;
        l ← gets (fun s => queue s (QSuspend (mp_ref mp)));
        match l with
        | [] => mret tt
        | t :: _ =>
            mod_thread t (fun th => th <| error := RT_EOK |>);;
            rt_thread_resume t;;
            rt_schedule
        end
    | _ => fault
    end.
End MemPool.
