(* ===== verification/Signal.v ===== *)
(** Signals of threads: rt-thread/src/signal.c.

    [si_list] lists the nodes of [tid->si_list]: the address of the node, a
    block of [_siginfo_pool], and the signal number of its [siginfo_t]. *)
From S2P Require Export MemPool.
Local Open Scope Z_scope.

(** The handlers that the program installs; they may call the scheduler. *)
Class Handlers := call_handler : SignalOps -> fn -> Z -> K unit.

(** The handler argument of [rt_signal_install]. *)
Inductive sighandler := SIG_DFL | SIG_IGN | SIG_HANDLER (f : fn).

Definition sig_valid (signo : Z) : bool := (0 <=? signo) && (signo <? RT_SIG_MAX).
(** [1u << signo]: undefined from 32 on. *)
Definition sig_mask_of (signo : Z) : K Z := rt_assert (sig_valid signo);; mret (2 ^ signo).

(** [sizeof(struct siginfo_node)] *)
Definition RT_SIG_INFO_MAX : Z := 32.
Definition SIZEOF_SIGINFO_NODE : Z := 12.

Section SignalHeap.
Context `{!HeapOps}.

Definition rt_system_signal_init `{!SignalOps} : K Z :=
  p ← rt_mp_create (bytes_of "signal") RT_SIG_INFO_MAX SIZEOF_SIGINFO_NODE;
  match p with
  | Some mp => modify (fun s => s <| siginfo_pool := mp |>);; mret 0
  | None => fault
  end.

Definition rt_thread_alloc_sig (t : tid) : K unit :=
  v ← heap_malloc (4 * RT_SIG_MAX);
  a ← deref v;
  mod_thread t (fun th => th <| sig_vectors :=
    Some (a, replicate (Z.to_nat RT_SIG_MAX) (Some F_signal_default_handler)) |>).

(** [None] is [SIG_ERR]; [Some None] is the null pointer. *)
Definition rt_signal_install (signo : Z) (handler : sighandler) : K (option (option fn)) :=
  me ← self;
  if negb (sig_valid signo) then mret None
  else
    th ← get_thread me;
    when (bool_decide (sig_vectors th = None)) (rt_thread_alloc_sig me);;
    th ← get_thread me;
    match sig_vectors th with
    | None => mret (Some None)
    | Some (a, v) =>
        let h := match handler with
                 | SIG_IGN => None
                 | SIG_DFL => Some F_signal_default_handler
                 | SIG_HANDLER f => Some f
                 end in
        old ← deref (v !! Z.to_nat signo);
        mod_thread me (fun th => th <| sig_vectors := Some (a, <[Z.to_nat signo := h]> v) |>);;
        mret (Some old)
    end.
End SignalHeap.

Definition rt_signal_mask (signo : Z) : K unit :=
  me ← self;
  m ← sig_mask_of signo;
  mod_thread me (fun th => th <| sig_mask ::= (fun x => clear_bits x m) |>).

Section Signal.
Context `{!SignalOps}.

(** The loop of [rt_thread_handle_sig] over the queued signals. *)
Fixpoint handle_sig_loop (fuel : nat) `{!Handlers} (me : tid) : K unit :=
  th ← get_thread me;
  if negb (has_bits (sig_pending th) (sig_mask th)) then mret tt
  else match si_list th with
  | [] => mret tt
  | (node, signo) :: rest =>
      match fuel with
      | O => fault
      | S fuel =>
          mod_thread me (fun th => th <| si_list := rest |>);;
          vec ← deref (sig_vectors th);
          handler ← deref (snd vec !! Z.to_nat signo);
          m ← sig_mask_of signo;
          mod_thread me (fun th => th <| sig_pending ::= (fun x => clear_bits x m) |>);;
          match handler with Some f => call_handler _ f signo | None => mret tt end;;
          rt_mp_free node;;
          mod_thread me (fun th => th <| error := - RT_EINTR |>);;
          handle_sig_loop fuel me
      end
  end.

Definition thread_handle_sig `{!Handlers} (fuel : nat) (clean_state : bool) : K unit :=
  me ← self;
  th ← get_thread me;
  if has_bits (sig_pending th) (sig_mask th) && negb (has_bits (stat th) RT_THREAD_STAT_SIGNAL_WAIT)
  then
    handle_sig_loop fuel me;;
    when clean_state
      (mod_thread me (fun th => th <| stat ::= (fun x => clear_bits x RT_THREAD_STAT_SIGNAL) |>))
  else mret tt.

(** [_signal_entry]: runs on the signal frame and goes back to what it
    interrupted. *)
Definition signal_frame_entry `{!Handlers} (fuel : nat) : K unit :=
  me ← self;
  thread_handle_sig fuel false;;
  th ← get_thread me;
  old ← deref (sig_ret th);
  mod_thread me (fun th => th <| sp := old |> <| sig_ret := None |>
                              <| stat ::= (fun x => clear_bits x RT_THREAD_STAT_SIGNAL) |>).

Definition signal_deliver (t : tid) : K unit :=
  th ← get_thread t;
  if negb (has_bits (sig_pending th) (sig_mask th)) then mret tt
  else if stat_of th =? RT_THREAD_SUSPEND then
    rt_thread_resume t;;
    mod_thread t (fun th => th <| stat ::= (fun x =>
      Z.lor x (Z.lor RT_THREAD_STAT_SIGNAL RT_THREAD_STAT_SIGNAL_PENDING)) |>);;
    rt_schedule
  else
    c ← rt_thread_self;
    if bool_decide (c = Some t) then
      mod_thread t (fun th => th <| stat ::= (fun x => Z.lor x RT_THREAD_STAT_SIGNAL) |>);;
      nest ← rt_interrupt_get_nest;
      if nest =? 0 then rt_thread_handle_sig true else mret tt
    else if negb (has_bits (Z.land (stat th) RT_THREAD_STAT_SIGNAL_MASK) RT_THREAD_STAT_SIGNAL) then
      mod_thread t (fun th => th <| stat ::= (fun x =>
        Z.lor x (Z.lor RT_THREAD_STAT_SIGNAL RT_THREAD_STAT_SIGNAL_PENDING)) |>);;
      mod_thread t (fun th => th
        <| stat ::= (fun x => clear_bits x RT_THREAD_STAT_SIGNAL_PENDING) |>
        <| sig_ret := Some (sp th) |>
        <| sp := rt_hw_stack_init (sp th - 32) |>);;
      rt_schedule
    else mret tt.

Definition rt_signal_unmask (signo : Z) : K unit :=
  me ← self;
  m ← sig_mask_of signo;
  mod_thread me (fun th => th <| sig_mask ::= (fun x => Z.lor x m) |>);;
  th ← get_thread me;
  if has_bits (sig_mask th) (sig_pending th) then signal_deliver me else mret tt.

Definition rt_thread_free_sig `{!HeapOps} (t : tid) : K unit :=
  th ← get_thread t;
  mod_thread t (fun th => th <| si_list := [] |> <| sig_vectors := None |>);;
  (fix free_nodes (l : list (Z * Z)) : K unit :=
     match l with
     | [] => mret tt
     | (node, _) :: l => rt_mp_free node;; free_nodes l
     end) (si_list th);;
  match sig_vectors th with Some (a, _) => heap_free a | None => mret tt end.

Definition rt_thread_kill (t : tid) (sig : Z) : K Z :=
  if negb (sig_valid sig) then mret (- RT_EINVAL)
  else
    th ← get_thread t;
    if has_bits (sig_pending th) (2 ^ sig) && existsb (fun n => snd n =? sig) (si_list th)
    then mret 0
    else
      pool ← gets siginfo_pool;
      node ← rt_mp_alloc 0 pool 0;
      match node with
      | Some node =>
          mod_thread t (fun th => th <| si_list ::= (fun l => l ++ [(node, sig)]) |>);;
          mod_thread t (fun th => th <| sig_pending ::= (fun x => Z.lor x (2 ^ sig)) |>)
      | None => rt_kprintf "The allocation of signal info node failed." []
      end;;
      signal_deliver t;;
      mret RT_EOK.

(** [rt_signal_wait]: the result and the signal received. *)
Fixpoint take_signal (set : Z) (l : list (Z * Z)) : option (Z * Z * list (Z * Z)) :=
  match l with
  | [] => None
  | (node, signo) :: l =>
      if has_bits (2 ^ signo) set then Some (node, signo, l)
      else '(n, sg, l') ← take_signal set l; Some (n, sg, (node, signo) :: l')
  end.

Definition signal_receive (me : tid) (set : Z) : K (Z * option Z) :=
  th ← get_thread me;
  match take_signal set (si_list th) with
  | None => mret (RT_EOK, None)
  | Some (node, signo, rest) =>
      mod_thread me (fun th => th <| si_list := rest |>
                                  <| sig_pending ::= (fun x => clear_bits x (2 ^ signo)) |>);;
      rt_mp_free node;;
      mret (RT_EOK, Some signo)
  end.

Definition rt_signal_wait (set timeout : Z) : K (Z * option Z) :=
  RT_DEBUG_IN_THREAD_CONTEXT;;
  me ← self;
  if set =? 0 then mret (- RT_EINVAL, None)
  else
    th ← get_thread me;
    if has_bits (sig_pending th) set then signal_receive me set
    else if timeout =? 0 then mret (- RT_ETIMEOUT, None)
    else
      rt_thread_suspend me;;
      mod_thread me (fun th => th <| stat ::= (fun x => Z.lor x RT_THREAD_STAT_SIGNAL_WAIT) |>);;
      when (negb (timeout =? RT_WAITING_FOREVER)) (start_thread_timer me timeout);;
      rt_schedule;;
      mod_thread me (fun th => th <| stat ::= (fun x => clear_bits x RT_THREAD_STAT_SIGNAL_WAIT) |>);;
      th ← get_thread me;
      if error th =? - RT_ETIMEOUT then
        mod_thread me (fun th => th <| error := RT_EOK |>);;
        mret (- RT_ETIMEOUT, None)
      else signal_receive me set.
End Signal.

(** The calls of [rt_schedule] into this file, [n] levels deep: freeing a node
    may reschedule. *)
Fixpoint signal_ops `{!Handlers} (n : nat) : SignalOps :=
  match n with
  | O => {| rt_thread_handle_sig := fun _ => fault; signal_entry := fault |}
  | S m =>
      {| rt_thread_handle_sig := @thread_handle_sig (signal_ops m) _ n;
         signal_entry := @signal_frame_entry (signal_ops m) _ n |}
  end.
