(* ===== verification/ThreadExit.v ===== *)
(** The end of threads, and [rt_thread_control]: the rest of
    rt-thread/src/thread.c and the reclaiming of dead threads by the idle
    thread (rt-thread/src/idle.c). *)
From S2P Require Export Signal.
Local Open Scope Z_scope.

(** [rt_thread_defunct_enqueue] and [rt_thread_defunct_dequeue] *)
Definition rt_thread_defunct_enqueue (t : tid) : K unit := tlist_insert_after QDefunct t.
Definition rt_thread_defunct_dequeue : K (option tid) :=
  l ← gets (fun s => queue s QDefunct);
  match l with
  | [] => mret None
  | t :: _ => tlist_remove t;; mret (Some t)
  end.

Section ThreadExit.
Context `{!SignalOps, !Callbacks, !HeapOps}.

Definition thread_cleanup_execute (t : tid) : K unit :=
  th ← get_thread t;
  match cleanup th with Some f => call_cleanup f t | None => mret tt end;;
  rt_thread_free_sig t.

(** Handing the object over: static ones leave the system, the others wait
    for the idle thread. *)
Definition release_thread (t : tid) : K unit :=
  b ← rt_object_is_systemobject (thread_ref t);
  if (b : bool) then rt_object_detach (thread_ref t) else rt_thread_defunct_enqueue t.

Definition thread_exit : K unit :=
  t ← self;
  thread_cleanup_execute t;;
  rt_schedule_remove_thread t;;
  mod_thread t (fun th => th <| stat := RT_THREAD_CLOSE |>);;
  rt_timer_detach (thread_timer t);;
  release_thread t;;
  rt_schedule.

Definition rt_thread_detach (t : tid) : K Z :=
  assert_type (thread_ref t) RT_Object_Class_Thread;;
  assert_static (thread_ref t);;
  th ← get_thread t;
  if stat_of th =? RT_THREAD_CLOSE then mret RT_EOK
  else
    when (negb (stat_of th =? RT_THREAD_INIT)) (rt_schedule_remove_thread t);;
    thread_cleanup_execute t;;
    rt_timer_detach (thread_timer t);;
    mod_thread t (fun th => th <| stat := RT_THREAD_CLOSE |>);;
    release_thread t;;
    mret RT_EOK.

Definition rt_thread_delete (t : tid) : K Z :=
  assert_type (thread_ref t) RT_Object_Class_Thread;;
  assert_dynamic (thread_ref t);;
  th ← get_thread t;
  if stat_of th =? RT_THREAD_CLOSE then mret RT_EOK
  else
    when (negb (stat_of th =? RT_THREAD_INIT)) (rt_schedule_remove_thread t);;
    thread_cleanup_execute t;;
    rt_timer_detach (thread_timer t);;
    mod_thread t (fun th => th <| stat := RT_THREAD_CLOSE |>);;
    rt_thread_defunct_enqueue t;;
    mret RT_EOK.

Definition rt_thread_control (t : tid) (cmd arg : Z) : K Z :=
  assert_type (thread_ref t) RT_Object_Class_Thread;;
  if cmd =? RT_THREAD_CTRL_CHANGE_PRIORITY then change_priority t arg;; mret RT_EOK
  else if cmd =? RT_THREAD_CTRL_STARTUP then rt_thread_startup t
  else if cmd =? RT_THREAD_CTRL_CLOSE then
    b ← rt_object_is_systemobject (thread_ref t);
    e ← (if (b : bool) then rt_thread_detach t else rt_thread_delete t);
    rt_schedule;;
    mret e
  else mret RT_EOK.

Definition set_task_as_not_preemptable (t : tid) : K unit :=
  rt_thread_control t RT_THREAD_CTRL_CHANGE_PRIORITY 0;;
  mod_thread t (fun th => th <| preemptableFlag := 1 |>).
Definition set_task_as_preemptable (t : tid) (priority : Z) : K unit :=
  rt_thread_control t RT_THREAD_CTRL_CHANGE_PRIORITY priority;;
  mod_thread t (fun th => th <| preemptableFlag := 0 |>).
End ThreadExit.
