(* ===== verification/Idle.v ===== *)
(** The idle thread: rt-thread/src/idle.c. It calls the hooks and gives back the
    memory of the threads that are gone. *)
From S2P Require Export ThreadExit.
Local Open Scope Z_scope.

Definition RT_IDLE_HOOK_LIST_SIZE : nat := 4.
Definition IDLE_THREAD_STACK_SIZE : Z := 1024.

(** The thread [idle[0]]. *)
Definition idle : tid := 8%positive.

(** The functions that [rt_thread_idle_sethook] is given. *)
Class IdleHooks := call_idle_hook : fn -> K unit.

(** The loops over [idle_hook_list]: the first slot that holds [old] gets
    [new]. *)
Fixpoint replace_hook (old new : option fn) (l : list (option fn)) : option (list (option fn)) :=
  match l with
  | [] => None
  | h :: l => if decide (h = old) then Some (new :: l) else cons h <$> replace_hook old new l
  end.

Definition rt_thread_idle_sethook (hook : option fn) : K Z :=
  l ← gets idle_hook_list;
  match replace_hook None hook l with
  | Some l => modify (fun s => s <| idle_hook_list := l |>);; mret RT_EOK
  | None => mret (- RT_EFULL)
  end.

Definition rt_thread_idle_delhook (hook : option fn) : K Z :=
  l ← gets idle_hook_list;
  match replace_hook hook None l with
  | Some l => modify (fun s => s <| idle_hook_list := l |>);; mret RT_EOK
  | None => mret (- RT_ENOSYS)
  end.

Section Idle.
Context `{!SignalOps, !Callbacks, !HeapOps, !IdleHooks, !Layout}.

(** One round of [rt_defunct_execute]: what is done with a thread that has left
    the list. *)
Definition defunct_reclaim (t : tid) : K unit :=
  th ← get_thread t;
  match cleanup th with Some f => call_cleanup f t | None => mret tt end;;
  rt_thread_free_sig t;;
  b ← rt_object_is_systemobject (thread_ref t);
  if (b : bool) then rt_object_detach (thread_ref t)
  else
    th ← get_thread t;
    heap_free (stack_addr th);;
    rt_object_delete (thread_ref t).

(** [fuel] bounds the threads reclaimed: a cleanup function may end others. *)
Fixpoint rt_defunct_execute (fuel : nat) : K unit :=
  RT_DEBUG_NOT_IN_INTERRUPT;;
  t ← rt_thread_defunct_dequeue;
  match t with
  | None => mret tt
  | Some t =>
      match fuel with
      | O => fault
      | S fuel => defunct_reclaim t;; rt_defunct_execute fuel
      end
  end.

(** The hooks from slot [i] on. *)
Fixpoint run_hooks (n : nat) (i : nat) : K unit :=
  match n with
  | O => mret tt
  | S n =>
      l ← gets idle_hook_list;
      h ← deref (l !! i);
      match h with Some f => call_idle_hook f | None => mret tt end;;
      run_hooks n (S i)
  end.

(** Between two rounds an interrupt may come. *)
Fixpoint rt_thread_idle_entry (rounds fuel : nat) : K unit :=
  match rounds with
  | O => mret tt
  | S n =>
      run_hooks RT_IDLE_HOOK_LIST_SIZE 0;;
      rt_defunct_execute fuel;;
      switch_out;;
      rt_thread_idle_entry n fuel
  end.

Definition rt_thread_idle_init : K unit :=
  rt_thread_init idle (bytes_of "tidle0") (addr_stack idle) IDLE_THREAD_STACK_SIZE
    (RT_THREAD_PRIORITY_MAX - 1) 32;;
  rt_thread_startup idle;;
  set_end_flag idle.

Definition rt_thread_idle_gethandler : tid := idle.
End Idle.
