(* ===== verification/CpuUsage.v ===== *)
(** The load of the processor: applications/cpu_usage.c, a hook of the idle
    thread. *)
From S2P Require Export Idle.
Local Open Scope Z_scope.

Definition CPU_USAGE_CALC_TICK : Z := 10.
Definition F_cpu_usage_idle_hook : fn := F_user 7.

Definition set_usage (f : rvc_state -> rvc_state) : K unit := modify (fun s => s <| rvc ::= f |>).

(** The counting loops, up to [CPU_USAGE_CALC_TICK] ticks after [tick]; the
    delay inside has no effect, and interrupts come in each round. [fuel] bounds
    the rounds. *)
Fixpoint count_total (fuel : nat) (tick : Z) : K unit :=
  now ← rt_tick_get;
  if u32 (now - tick) <? CPU_USAGE_CALC_TICK then
    match fuel with
    | O => fault
    | S fuel =>
        set_usage (fun r => r <| total_count ::= (fun n => u32 (n + 1)) |>);;
        switch_out;;
        count_total fuel tick
    end
  else mret tt.

Fixpoint count_rounds (fuel : nat) (tick count : Z) : K Z :=
  now ← rt_tick_get;
  if u32 (now - tick) <? CPU_USAGE_CALC_TICK then
    match fuel with
    | O => fault
    | S fuel => switch_out;; count_rounds fuel tick (u32 (count + 1))
    end
  else mret count.

(** The share of the rounds that other threads took, in percent and hundredths
    of a percent; a count that exceeds the total becomes the total. *)
Definition usage_of (count : Z) (r : rvc_state) : rvc_state :=
  if count <? total_count r then
    let busy := total_count r - count in
    r <| cpu_usage_major := u8 (u32 (busy * 100) / total_count r) |>
      <| cpu_usage_minor := u8 (u32 (u32 (busy * 100) mod total_count r * 100) / total_count r) |>
  else r <| total_count := count |> <| cpu_usage_major := 0 |> <| cpu_usage_minor := 0 |>.

Section CpuUsage.
Context `{!SignalOps}.

Definition cpu_usage_idle_hook (fuel : nat) : K unit :=
  r ← gets rvc;
  when (total_count r =? 0)
    (rt_enter_critical;;
     tick ← rt_tick_get;
     count_total fuel tick;;
     rt_exit_critical);;
  tick ← rt_tick_get;
  count ← count_rounds fuel tick 0;
  set_usage (usage_of count).

Definition cpu_usage_get : K (Z * Z) :=
  r ← gets rvc; mret (cpu_usage_major r, cpu_usage_minor r).

Definition cpu_usage_init : K unit :=
  rt_thread_idle_sethook (Some F_cpu_usage_idle_hook);; mret tt.
End CpuUsage.
