(* ===== verification/Ipc.v ===== *)
(** Semaphores and the lists of waiting threads: rt-thread/src/ipc.c.

    The lists of the threads that wait for an object are [QSuspend r] and, for
    the senders of mailboxes and message queues, [QSender r]. *)
From S2P Require Export ThreadExit.
Local Open Scope Z_scope.

(** ** Lists of waiting threads *)
Definition ipc_object_init (r : ref) : K unit :=
  modify (fun s => s <| queues ::= <[QSuspend r := []]> |>).

(** The first waiting thread of a lower priority than [p]. *)
Fixpoint first_lower (ts : gmap tid rt_thread) (p : Z) (l : list tid) : option (option tid) :=
  match l with
  | [] => Some None
  | u :: l => uh ← ts !! u;
              if p <? current_priority uh then Some (Some u) else first_lower ts p l
  end.

Definition ipc_list_suspend (q : qhead) (t : tid) (flag : Z) : K Z :=
  rt_thread_suspend t;;
  if flag =? RT_IPC_FLAG_FIFO then tlist_insert_before q t;; mret RT_EOK
  else if flag =? RT_IPC_FLAG_PRIO then
    th ← get_thread t;
    s ← get;
    u ← deref (first_lower (threads s) (current_priority th) (queue s q));
    match u with
    | Some u => modify (fun s => s <| queues ::= q_insert_before q u t |>);; mret RT_EOK
    | None => tlist_insert_before q t;; mret RT_EOK
    end
  else fault.

Definition ipc_list_resume (q : qhead) : K Z :=
  l ← gets (fun s => queue s q);
  t ← deref (head l);
  rt_thread_resume t;;
  mret RT_EOK.

Definition ipc_list_resume_all (q : qhead) : K Z := resume_all q (- RT_ERROR);; mret RT_EOK.

(** ** Semaphores *)
Definition sem_ref (x : positive) : ref := (KSem, x).
Definition get_sem (x : positive) : K rt_semaphore := s ← get; deref (sems s !! x).
Definition put_sem (x : positive) (v : rt_semaphore) : K unit :=
  modify (fun s => s <| sems ::= <[x := v]> |>).
Definition valid_flag (flag : Z) : bool := (flag =? RT_IPC_FLAG_FIFO) || (flag =? RT_IPC_FLAG_PRIO).
Definition set_flag (r : ref) (flag : Z) : K unit := mod_obj r (fun o => o <| o_flag := flag |>).

Section Semaphore.
Context `{!SignalOps}.

Definition rt_sem_init (x : positive) (name : list Z) (value flag : Z) : K Z :=
  rt_assert (value <? 0x10000);;
  rt_assert (valid_flag flag);;
  rt_object_init (sem_ref x) RT_Object_Class_Semaphore name;;
  ipc_object_init (sem_ref x);;
  put_sem x (RtSem (u16 value));;
  set_flag (sem_ref x) flag;;
  mret RT_EOK.

Definition rt_sem_detach (x : positive) : K Z :=
  assert_type (sem_ref x) RT_Object_Class_Semaphore;;
  assert_static (sem_ref x);;
  ipc_list_resume_all (QSuspend (sem_ref x));;
  rt_object_detach (sem_ref x);;
  mret RT_EOK.

Definition rt_sem_create `{!HeapOps} (name : list Z) (value flag : Z) : K (option positive) :=
  rt_assert (value <? 0x10000);;
  rt_assert (valid_flag flag);;
  RT_DEBUG_NOT_IN_INTERRUPT;;
  p ← rt_object_allocate RT_Object_Class_Semaphore name;
  match p with
  | None => mret None
  | Some a =>
      let x := Z.to_pos a in
      ipc_object_init (sem_ref x);;
      put_sem x (RtSem (u16 value));;
      set_flag (sem_ref x) flag;;
      mret (Some x)
  end.

Definition rt_sem_delete `{!HeapOps} (x : positive) : K Z :=
  assert_type (sem_ref x) RT_Object_Class_Semaphore;;
  assert_dynamic (sem_ref x);;
  RT_DEBUG_NOT_IN_INTERRUPT;;
  ipc_list_resume_all (QSuspend (sem_ref x));;
  rt_object_delete (sem_ref x);;
  mret RT_EOK.

(** The part of a blocking call after the timer is started: the thread gives
    up the processor and looks at how it was woken up. *)
Definition wait_result (me : tid) : K Z :=
  rt_schedule;;
  th ← get_thread me;
  mret (if negb (error th =? RT_EOK) then error th else RT_EOK).

Definition rt_sem_take (x : positive) (time : Z) : K Z :=
  assert_type (sem_ref x) RT_Object_Class_Semaphore;;
  v ← get_sem x;
  if 0 <? sem_value v then
    put_sem x (RtSem (u16 (sem_value v - 1)));;
    mret RT_EOK
  else if time =? 0 then mret (- RT_ETIMEOUT)
  else
    RT_DEBUG_IN_THREAD_CONTEXT;;
    me ← self;
    mod_thread me (fun th => th <| error := RT_EOK |>);;
    o ← get_obj (sem_ref x);
    ipc_list_suspend (QSuspend (sem_ref x)) me (o_flag o);;
    when (0 <? time) (start_thread_timer me time);;
    wait_result me.

Definition rt_sem_trytake (x : positive) : K Z := rt_sem_take x RT_WAITING_NO.

Definition rt_sem_release (x : positive) : K Z :=
  assert_type (sem_ref x) RT_Object_Class_Semaphore;;
  v ← get_sem x;
  e ← list_isempty (QSuspend (sem_ref x));
  if negb e then
    ipc_list_resume (QSuspend (sem_ref x));;
    rt_schedule;;
    mret RT_EOK
  else if sem_value v <? RT_SEM_VALUE_MAX then
    put_sem x (RtSem (u16 (sem_value v + 1)));;
    mret RT_EOK
  else mret (- RT_EFULL).

Definition rt_sem_control (x : positive) (cmd arg : Z) : K Z :=
  assert_type (sem_ref x) RT_Object_Class_Semaphore;;
  if cmd =? RT_IPC_CMD_RESET then
    ipc_list_resume_all (QSuspend (sem_ref x));;
    put_sem x (RtSem (u16 arg));;
    rt_schedule;;
    mret RT_EOK
  else mret (- RT_ERROR).
End Semaphore.
