(* ===== verification/MemHeap.v ===== *)
(** Memory heaps: rt-thread/src/memheap.c, and the aligned allocation of
    kservice.c.

    A heap is a piece of memory divided into blocks, each behind a header
    [struct rt_memheap_item]. The headers are in two circular lists: all of them
    in the order of their addresses, and the free ones. The bytes of the memory
    are [heap_mem]; a pointer is an address, and [RT_NULL] is 0. The structure
    [rt_memheap] at address [h] is the record [memheaps !! h]; the header of its
    free list and its semaphore are the parts of it at [free_header h] and
    [heap_lock h]. RT_USING_MEMTRACE is not set. *)
From S2P Require Export Ipc.
Local Open Scope Z_scope.

Definition RT_MEMHEAP_MAGIC : Z := 0x1ea01ea0.
Definition RT_MEMHEAP_MASK : Z := 0xfffffffe.
Definition RT_MEMHEAP_USED : Z := 0x01.
Definition RT_MEMHEAP_FREED : Z := 0x00.
Definition RT_MEMHEAP_MINIALLOC : Z := 12.
Definition SIZEOF_MEMHEAP_ITEM : Z := 24.
Definition RT_MEMHEAP_SIZE : Z := RT_ALIGN SIZEOF_MEMHEAP_ITEM RT_ALIGN_SIZE.

(** ** Headers: [struct rt_memheap_item] *)
Definition mi_magic (a : Z) (m : memory) : Z := load32 a m.
Definition mi_pool_ptr (a : Z) (m : memory) : Z := load32 (a + 4) m.
Definition mi_next (a : Z) (m : memory) : Z := load32 (a + 8) m.
Definition mi_prev (a : Z) (m : memory) : Z := load32 (a + 12) m.
Definition mi_next_free (a : Z) (m : memory) : Z := load32 (a + 16) m.
Definition mi_prev_free (a : Z) (m : memory) : Z := load32 (a + 20) m.

Definition mi_set_magic (a v : Z) : memory -> memory := store32 a v.
Definition mi_set_pool_ptr (a v : Z) : memory -> memory := store32 (a + 4) v.
Definition mi_set_next (a v : Z) : memory -> memory := store32 (a + 8) v.
Definition mi_set_prev (a v : Z) : memory -> memory := store32 (a + 12) v.
Definition mi_set_next_free (a v : Z) : memory -> memory := store32 (a + 16) v.
Definition mi_set_prev_free (a v : Z) : memory -> memory := store32 (a + 20) v.

Definition RT_MEMHEAP_IS_USED (a : Z) (m : memory) : bool := has_bits (mi_magic a m) RT_MEMHEAP_USED.
Definition MEMITEM_SIZE (a : Z) (m : memory) : Z := u32 (mi_next a m - a - RT_MEMHEAP_SIZE).
Definition MEMITEM (p : Z) : Z := u32 (p - RT_MEMHEAP_SIZE).

(** The statements on the lists that the operations share. *)

(** Take the header [x] out of the list of free blocks. *)
Definition free_remove (x : Z) (m : memory) : memory :=
  let m := mi_set_prev_free (mi_next_free x m) (mi_prev_free x m) m in
  mi_set_next_free (mi_prev_free x m) (mi_next_free x m) m.

(** Insert it after the head [fl]. *)
Definition free_insert (fl x : Z) (m : memory) : memory :=
  let m := mi_set_next_free x (mi_next_free fl m) m in
  let m := mi_set_prev_free x fl m in
  let m := mi_set_prev_free (mi_next_free fl m) x m in
  mi_set_next_free fl x m.

(** Break down the block list: the header [x] after [header]. *)
Definition block_insert (header x : Z) (m : memory) : memory :=
  let m := mi_set_prev x header m in
  let m := mi_set_next x (mi_next header m) m in
  let m := mi_set_prev (mi_next header m) x m in
  mi_set_next header x m.

(** The free block [new] behind [header] becomes a part of it. *)
Definition block_absorb (header new : Z) (m : memory) : memory :=
  let m := mi_set_prev (mi_next new m) header m in
  let m := mi_set_next header (mi_next new m) m in
  free_remove new m.

(** A new free block behind [header], of heap [h]. *)
Definition block_split (h header x : Z) (m : memory) : memory :=
  let m := mi_set_magic x (Z.lor RT_MEMHEAP_MAGIC RT_MEMHEAP_FREED) m in
  let m := mi_set_pool_ptr x h m in
  block_insert header x m.

(** ** The heap *)
Definition SIZEOF_OBJECT : Z := 20.
Definition free_header (h : Z) : Z := h + SIZEOF_OBJECT + 24.
Definition heap_ref (h : Z) : ref := (KMemHeap, Z.to_pos h).
Definition heap_lock (h : Z) : positive := Z.to_pos (free_header h + SIZEOF_MEMHEAP_ITEM).

Definition get_heap (h : Z) : K rt_memheap := s ← get; deref (memheaps s !! h).

(** The memory and the structure of a heap: what its operations change between
    taking and releasing its semaphore. *)
Record hstate := HState { hm : memory; hp : rt_memheap }.
Definition eta_hstate (r : hstate) := HState (hm r) (hp r).
#[export] Instance F_hm : Field hm := ltac:(field_of eta_hstate hm).
#[export] Instance F_hp : Field hp := ltac:(field_of eta_hstate hp).

Definition heap_run (h : Z) (f : hstate -> hstate) : K unit :=
  x ← get_heap h;
  modify (fun s => let v := f (HState (heap_mem s) x) in
                   s <| heap_mem := hm v |> <| memheaps ::= <[h := hp v]> |>).

Definition note_used (v : hstate) : hstate :=
  let used := u32 (pool_size (hp v) - available_size (hp v)) in
  if max_used_size (hp v) <? used then v <| hp ::= (fun x => x <| max_used_size := used |>) |> else v.

Definition available_add (n : Z) (v : hstate) : hstate :=
  v <| hp ::= (fun x => x <| available_size := u32 (available_size x + n) |>) |>.

(** *** rt_memheap_init *)
Definition heap_format (h start : Z) (v : hstate) : hstate :=
  let avail := available_size (hp v) in
  let fl := free_header h in
  let freed := Z.lor RT_MEMHEAP_MAGIC RT_MEMHEAP_FREED in
  let m := hm v in
  (* the free list header *)
  let m := mi_set_magic fl freed m in
  let m := mi_set_pool_ptr fl h m in
  let m := mi_set_next fl 0 m in
  let m := mi_set_prev fl 0 m in
  let m := mi_set_next_free fl fl m in
  let m := mi_set_prev_free fl fl m in
  (* the first big memory block *)
  let m := mi_set_magic start freed m in
  let m := mi_set_pool_ptr start h m in
  let m := mi_set_next start 0 m in
  let m := mi_set_prev start 0 m in
  let m := mi_set_next_free start start m in
  let m := mi_set_prev_free start start m in
  let m := mi_set_next start (u32 (start + avail + RT_MEMHEAP_SIZE)) m in
  let m := mi_set_prev start (mi_next start m) m in
  let m := free_insert fl start m in
  (* the small tailer block *)
  let tail := mi_next start m in
  let m := mi_set_magic tail (Z.lor RT_MEMHEAP_MAGIC RT_MEMHEAP_USED) m in
  let m := mi_set_pool_ptr tail h m in
  let m := mi_set_next tail start m in
  let m := mi_set_prev tail start m in
  let m := mi_set_prev_free tail 0 m in
  let m := mi_set_next_free tail 0 m in
  v <| hm := m |>.

Section MemHeap.
Context `{!SignalOps}.

Definition rt_memheap_init (h : Z) (name : list Z) (start size : Z) : K Z :=
  rt_assert (negb (h =? 0));;
  rt_object_init (heap_ref h) RT_Object_Class_MemHeap name;;
  let pool := RT_ALIGN_DOWN size RT_ALIGN_SIZE in
  let avail := u32 (pool - 2 * RT_MEMHEAP_SIZE) in
  modify (fun s => s <| memheaps ::=
    <[h := RtMemheap start pool avail (u32 (pool - avail)) start (free_header h)]> |>);;
  heap_run h (heap_format h start);;
  rt_sem_init (heap_lock h) name 1 RT_IPC_FLAG_PRIO;;
  mret RT_EOK.

Definition rt_memheap_detach (h : Z) : K Z :=
  assert_type (heap_ref h) RT_Object_Class_MemHeap;;
  assert_static (heap_ref h);;
  rt_sem_detach (heap_lock h);;
  rt_object_detach (heap_ref h);;
  mret RT_EOK.
End MemHeap.

(** *** rt_memheap_alloc *)

(** The search on the free list: the block at which it stops and the size that
    it has read last. A round per header fits in the memory of the heap. *)
Fixpoint find_fit (fuel : nat) (m : memory) (fl size header free_size : Z) : option (Z * Z) :=
  if negb (header =? fl) && (free_size <? size) then
    match fuel with
    | O => None
    | S fuel =>
        let free_size := MEMITEM_SIZE header m in
        find_fit fuel m fl size (if free_size <? size then mi_next_free header m else header) free_size
    end
  else Some (header, free_size).

(** The block [header], of [free_size] bytes, is given out for [size] bytes. *)
Definition heap_take (h size header free_size : Z) (v : hstate) : hstate :=
  let fl := free_list (hp v) in
  let v :=
    if u32 (size + RT_MEMHEAP_SIZE + RT_MEMHEAP_MINIALLOC) <=? free_size then
      let x := u32 (header + size + RT_MEMHEAP_SIZE) in
      let v := v <| hm ::= block_split h header x |> in
      let v := v <| hm ::= free_remove header |> in
      let v := v <| hm ::= mi_set_next_free header 0 |> in
      let v := v <| hm ::= mi_set_prev_free header 0 |> in
      let v := v <| hm ::= free_insert fl x |> in
      note_used (available_add (- size - RT_MEMHEAP_SIZE) v)
    else
      let v := note_used (available_add (- free_size) v) in
      let v := v <| hm ::= free_remove header |> in
      let v := v <| hm ::= mi_set_next_free header 0 |> in
      v <| hm ::= mi_set_prev_free header 0 |> in
  v <| hm ::= mi_set_magic header (Z.lor RT_MEMHEAP_MAGIC RT_MEMHEAP_USED) |>.

(** *** rt_memheap_free *)

(** The merge with the block before: the header of the result, and whether it is
    still to be inserted into the free list. *)
Definition join_prev (header : Z) (v : hstate) : Z * bool * hstate :=
  if negb (RT_MEMHEAP_IS_USED (mi_prev header (hm v)) (hm v)) then
    let v := available_add RT_MEMHEAP_SIZE v in
    let v := v <| hm ::= (fun m => mi_set_next (mi_prev header m) (mi_next header m) m) |> in
    let v := v <| hm ::= (fun m => mi_set_prev (mi_next header m) (mi_prev header m) m) |> in
    (mi_prev header (hm v), false, v)
  else (header, true, v).

(** The merge with the block behind. *)
Definition join_next (header : Z) (v : hstate) : hstate :=
  if negb (RT_MEMHEAP_IS_USED (mi_next header (hm v)) (hm v)) then
    let v := available_add RT_MEMHEAP_SIZE v in
    v <| hm ::= block_absorb header (mi_next header (hm v)) |>
  else v.

Definition heap_give (header : Z) (v : hstate) : hstate :=
  let fl := free_list (hp v) in
  let v := v <| hm ::= mi_set_magic header (Z.lor RT_MEMHEAP_MAGIC RT_MEMHEAP_FREED) |> in
  let v := available_add (MEMITEM_SIZE header (hm v)) v in
  let '(header, insert_header, v) := join_prev header v in
  let v := join_next header v in
  if insert_header then v <| hm ::= free_insert fl header |> else v.

(** *** rt_memheap_realloc *)

(** The block at [header], of [oldsize] bytes, grows into the free block behind
    it. *)
Definition heap_grow (h p header oldsize newsize : Z) (v : hstate) : hstate :=
  let fl := free_list (hp v) in
  let next := mi_next header (hm v) in
  let v := note_used (available_add (- (newsize - oldsize)) v) in
  let v := v <| hm ::= free_remove next |> in
  let v := v <| hm ::= (fun m => mi_set_prev (mi_next next m) (mi_prev next m) m) |> in
  let v := v <| hm ::= (fun m => mi_set_next (mi_prev next m) (mi_next next m) m) |> in
  let x := u32 (p + newsize) in
  let v := v <| hm ::= block_split h header x |> in
  v <| hm ::= free_insert fl x |>.

(** It shrinks, and the rest becomes a free block. *)
Definition heap_shrink (h header newsize : Z) (v : hstate) : hstate :=
  let fl := free_list (hp v) in
  let x := u32 (header + newsize + RT_MEMHEAP_SIZE) in
  let v := v <| hm ::= block_split h header x |> in
  let v :=
    if negb (RT_MEMHEAP_IS_USED (mi_next x (hm v)) (hm v)) then
      let free := mi_next x (hm v) in
      let v := available_add (- MEMITEM_SIZE free (hm v)) v in
      v <| hm ::= block_absorb x free |>
    else v in
  let v := v <| hm ::= free_insert fl x |> in
  available_add (MEMITEM_SIZE x (hm v)) v.

Section Operations.
Context `{!SignalOps}.

(** [size] rounded up, at least [RT_MEMHEAP_MINIALLOC]. *)
Definition alloc_size (size : Z) : Z :=
  let size := RT_ALIGN size RT_ALIGN_SIZE in
  if size <? RT_MEMHEAP_MINIALLOC then RT_MEMHEAP_MINIALLOC else size.

Definition rt_memheap_alloc (h size : Z) : K Z :=
  assert_type (heap_ref h) RT_Object_Class_MemHeap;;
  let size := alloc_size size in
  x ← get_heap h;
  if size <? available_size x then
    result ← rt_sem_take (heap_lock h) RT_WAITING_FOREVER;
    if negb (result =? RT_EOK) then rt_set_errno result;; mret 0
    else
      x ← get_heap h;
      m ← gets heap_mem;
      '(header, free_size) ← deref
        (find_fit (Z.to_nat (pool_size x)) m (free_list x) size (mi_next_free (free_list x) m) 0);
      if size <=? free_size then
        heap_run h (heap_take h size header free_size);;
        rt_sem_release (heap_lock h);;
        mret (u32 (header + RT_MEMHEAP_SIZE))
      else
        rt_sem_release (heap_lock h);;
        mret 0
  else mret 0.

Definition rt_memheap_free (p : Z) : K unit :=
  if p =? 0 then mret tt
  else
    let header := MEMITEM p in
    m ← gets heap_mem;
    rt_assert (mi_magic header m =? Z.lor RT_MEMHEAP_MAGIC RT_MEMHEAP_USED);;
    rt_assert (Z.land (mi_magic (mi_next header m) m) RT_MEMHEAP_MASK =? RT_MEMHEAP_MAGIC);;
    let h := mi_pool_ptr header m in
    rt_assert (negb (h =? 0));;
    assert_type (heap_ref h) RT_Object_Class_MemHeap;;
    result ← rt_sem_take (heap_lock h) RT_WAITING_FOREVER;
    if negb (result =? RT_EOK) then rt_set_errno result
    else
      heap_run h (heap_give header);;
      rt_sem_release (heap_lock h);;
      mret tt.

Definition rt_memheap_realloc (h p newsize : Z) : K Z :=
  assert_type (heap_ref h) RT_Object_Class_MemHeap;;
  if newsize =? 0 then rt_memheap_free p;; mret 0
  else
    let newsize := alloc_size newsize in
    if p =? 0 then rt_memheap_alloc h newsize
    else
      let header := MEMITEM p in
      oldsize ← gets (fun s => MEMITEM_SIZE header (heap_mem s));
      if oldsize <? newsize then
        result ← rt_sem_take (heap_lock h) RT_WAITING_FOREVER;
        if negb (result =? RT_EOK) then rt_set_errno result;; mret 0
        else
          m ← gets heap_mem;
          let next := mi_next header m in
          rt_assert (header <? next);;
          if negb (RT_MEMHEAP_IS_USED next m) &&
             (u32 (newsize + RT_MEMHEAP_MINIALLOC) <? u32 (MEMITEM_SIZE next m + oldsize)) then
            heap_run h (heap_grow h p header oldsize newsize);;
            rt_sem_release (heap_lock h);;
            mret p
          else
            rt_sem_release (heap_lock h);;
            new ← rt_memheap_alloc h newsize;
            when (negb (new =? 0))
              (modify (fun s => s <| heap_mem ::=
                 rt_memcpy new p (if oldsize <? newsize then oldsize else newsize) |>);;
               rt_memheap_free p);;
            mret new
      else if oldsize <=? u32 (newsize + RT_MEMHEAP_SIZE + RT_MEMHEAP_MINIALLOC) then mret p
      else
        result ← rt_sem_take (heap_lock h) RT_WAITING_FOREVER;
        if negb (result =? RT_EOK) then rt_set_errno result;; mret 0
        else
          heap_run h (heap_shrink h header newsize);;
          rt_sem_release (heap_lock h);;
          mret p.
End Operations.

(** ** The heap of the system *)

(** The address of [_heap]. *)
Class SystemHeap := { addr_heap : Z }.

Section System.
Context `{!SignalOps, !SystemHeap}.

Definition rt_system_heap_init (begin_addr end_addr : Z) : K unit :=
  rt_assert (begin_addr <? end_addr);;
  rt_memheap_init addr_heap (bytes_of "heap") begin_addr (u32 (end_addr - begin_addr));;
  mret tt.

(** The member after [r] of a list of objects: [Some None] at its end, and
    nothing if [r] has left the list. *)
Fixpoint next_node (r : ref) (l : list ref) : option (option ref) :=
  match l with
  | [] => None
  | x :: l => if decide (x = r) then Some (head l) else next_node r l
  end.

(** The other heaps, from the node of [r] on. *)
Fixpoint malloc_others (fuel : nat) (node : option ref) (size : Z) : K Z :=
  match node with
  | None => mret 0
  | Some r =>
      let h := Z.pos (snd r) in
      assert_type r RT_Object_Class_MemHeap;;
      p ← (if h =? addr_heap then mret 0 else rt_memheap_alloc h size);
      if negb (p =? 0) then mret p
      else
        match fuel with
        | O => fault
        | S fuel =>
            l ← gets (fun s => object_list s RT_Object_Class_MemHeap);
            node ← deref (next_node r l);
            malloc_others fuel node size
        end
  end.

Definition rt_malloc (size : Z) : K Z :=
  p ← rt_memheap_alloc addr_heap size;
  if p =? 0 then
    l ← gets (fun s => object_list s RT_Object_Class_MemHeap);
    malloc_others (length l) (head l) size
  else mret p.

Definition rt_free (p : Z) : K unit := rt_memheap_free p.

Definition rt_realloc (p newsize : Z) : K Z :=
  if p =? 0 then rt_malloc newsize
  else if newsize =? 0 then rt_free p;; mret 0
  else
    let header := MEMITEM p in
    h ← gets (fun s => mi_pool_ptr header (heap_mem s));
    new ← rt_memheap_realloc h p newsize;
    if new =? 0 then
      new ← rt_malloc newsize;
      when (negb (new =? 0))
        (modify (fun s => let oldsize := MEMITEM_SIZE header (heap_mem s) in
           s <| heap_mem ::= rt_memcpy new p (if oldsize <? newsize then oldsize else newsize) |>);;
         rt_free p);;
      mret new
    else mret new.

Definition rt_calloc (count size : Z) : K Z :=
  let total_size := u32 (count * size) in
  p ← rt_malloc total_size;
  when (negb (p =? 0)) (modify (fun s => s <| heap_mem ::= rt_memset p 0 total_size |>));;
  mret p.

(** [rt_memory_info]: what it stores through its pointers. *)
Definition rt_memory_info : K (Z * Z * Z) :=
  x ← get_heap addr_heap;
  mret (pool_size x, u32 (pool_size x - available_size x), max_used_size x).

(** *** Aligned blocks: rt_malloc_align and rt_free_align of kservice.c *)
Definition rt_malloc_align (size align : Z) : K Z :=
  let align := Z.land (u32 (align + 3)) (Z.lnot 3) in
  let align_size := u32 (Z.land (u32 (size + 3)) (Z.lnot 3) + align) in
  p ← rt_malloc align_size;
  if p =? 0 then mret 0
  else
    let align_ptr := if Z.land p (u32 (align - 1)) =? 0 then u32 (p + align)
                     else clear_bits (u32 (p + (align - 1))) (u32 (align - 1)) in
    modify (fun s => s <| heap_mem ::= store32 (u32 (align_ptr - 4)) p |>);;
    mret align_ptr.

Definition rt_free_align (p : Z) : K unit :=
  real ← gets (fun s => load32 (u32 (p - 4)) (heap_mem s));
  rt_free real.

(** What the rest of the kernel needs of the heap. *)
#[export] Instance memheap_ops : HeapOps :=
  {| heap_malloc size := p ← rt_malloc size; mret (if p =? 0 then None else Some p);
     heap_free := rt_free |}.
End System.
