(* ===== verification/MemHeapLists.v ===== *)
(** The headers of a memory heap in its memory: reading and writing their
    fields, and the two circular lists that they are in. *)
From S2P Require Export MemHeap RtList.
Local Open Scope Z_scope.

(** ** Words *)
Lemma load32_store32 a v m : 0 <= v < 2 ^ 32 -> load32 a (store32 a v m) = v.
Proof.
  intros Hv. unfold load32. rewrite !store32_spec. unfold in_range.
  repeat (rewrite (proj2 (Z.leb_le _ _)), (proj2 (Z.ltb_lt _ _)) by lia; cbn [andb]).
  replace (a - a) with 0 by lia. replace (a + 1 - a) with 1 by lia. replace (a + 2 - a) with 2 by lia.
  replace (a + 3 - a) with 3 by lia. unfold byte. change 255 with (Z.ones 8).
  rewrite !Z.land_ones, !Z.shiftr_div_pow2 by lia.
  change (2 ^ (8 * 0)) with 1. change (2 ^ (8 * 1)) with 256. change (2 ^ (8 * 2)) with 65536.
  change (2 ^ (8 * 3)) with 16777216. change (2 ^ 8) with 256. change (2 ^ 16) with 65536.
  change (2 ^ 24) with 16777216. Z.to_euclidean_division_equations. lia.
Qed.

Lemma load32_store32_ne a b v m : b + 4 <= a \/ a + 4 <= b -> load32 b (store32 a v m) = load32 b m.
Proof.
  intros H. unfold load32. rewrite !store32_spec. unfold in_range.
  by do 4 (rewrite (proj2 (andb_false_iff _ _)) by (rewrite Z.leb_gt, Z.ltb_ge; lia)).
Qed.

(** ** Headers *)
Record item := Item { i_magic : Z; i_pool : Z; i_next : Z; i_prev : Z; i_next_free : Z; i_prev_free : Z }.
Definition eta_item (r : item) :=
  Item (i_magic r) (i_pool r) (i_next r) (i_prev r) (i_next_free r) (i_prev_free r).
#[export] Instance F_i_magic : Field i_magic := ltac:(field_of eta_item i_magic).
#[export] Instance F_i_pool : Field i_pool := ltac:(field_of eta_item i_pool).
#[export] Instance F_i_next : Field i_next := ltac:(field_of eta_item i_next).
#[export] Instance F_i_prev : Field i_prev := ltac:(field_of eta_item i_prev).
#[export] Instance F_i_next_free : Field i_next_free := ltac:(field_of eta_item i_next_free).
#[export] Instance F_i_prev_free : Field i_prev_free := ltac:(field_of eta_item i_prev_free).

Definition item_at (m : memory) (a : Z) : item :=
  Item (mi_magic a m) (mi_pool_ptr a m) (mi_next a m) (mi_prev a m) (mi_next_free a m) (mi_prev_free a m).

(** Headers do not overlap. *)
Definition apart (a b : Z) : Prop := a + 24 <= b \/ b + 24 <= a.
Definition spaced (D : list Z) : Prop := forall a b, a ∈ D -> b ∈ D -> a <> b -> apart a b.

(** At the headers [D] the memory [m] holds the values [F]. *)
Definition view (D : list Z) (m : memory) (F : Z -> item) : Prop := forall a, a ∈ D -> item_at m a = F a.

(** The memories agree outside of the headers [D]. *)
Definition outside (D : list Z) (x : Z) : Prop := forall a, a ∈ D -> in_range a 24 x = false.
Definition same_data (D : list Z) (m m' : memory) : Prop := forall x, outside D x -> m' x = m x.

#[export] Instance same_data_preorder D : PreOrder (same_data D).
Proof.
  split; [by intros m x|]. intros m1 m2 m3 H1 H2 x Hx. by rewrite H2, H1.
Qed.
Lemma same_data_mono D D' m m' : D ⊆ D' -> same_data D m m' -> same_data D' m m'.
Proof. intros HD H x Hx. apply H. intros a Ha. apply Hx. by apply HD. Qed.

Lemma same_data_store D a k v m : a ∈ D -> 0 <= k <= 20 -> same_data D m (store32 (a + k) v m).
Proof.
  intros Ha Hk x Hx. specialize (Hx a Ha). rewrite store32_spec. unfold in_range in *.
  destruct (Z.leb_spec (a + k) x), (Z.ltb_spec x (a + k + 4)); cbn [andb]; try done. lia.
Qed.

(** Writing a field changes that field. *)
Lemma item_at_store_ne a b k v m : apart a b -> 0 <= k <= 20 -> item_at (store32 (a + k) v m) b = item_at m b.
Proof.
  intros Hab Hk. unfold item_at, mi_magic, mi_pool_ptr, mi_next, mi_prev, mi_next_free, mi_prev_free.
  unfold apart in Hab. rewrite !load32_store32_ne by lia. done.
Qed.

Lemma view_store D m F a k v it :
  view D m F -> spaced D -> a ∈ D -> 0 <= k <= 20 -> item_at (store32 (a + k) v m) a = it ->
  view D (store32 (a + k) v m) (<[a := it]> F).
Proof.
  intros HV HD Ha Hk E b Hb. destruct (decide (b = a)) as [->|Hne].
  - by rewrite fn_lookup_insert.
  - rewrite fn_lookup_insert_ne by done. rewrite item_at_store_ne; [by apply HV|by apply HD, not_eq_sym|done].
Qed.

Ltac field_store :=
  intros HV HD Ha Hv; apply view_store; [done|done|done|lia|]; rewrite <- (HV _ Ha);
  unfold item_at, mi_magic, mi_pool_ptr, mi_next, mi_prev, mi_next_free, mi_prev_free, upd; cbn;
  rewrite ?Z.add_0_r, ?load32_store32 by done; rewrite !load32_store32_ne by lia; done.

Lemma view_set_magic D m F a v :
  view D m F -> spaced D -> a ∈ D -> 0 <= v < 2 ^ 32 ->
  view D (mi_set_magic a v m) (<[a := F a <| i_magic := v |>]> F).
Proof.
  change (mi_set_magic a v m) with (store32 a v m).
  replace (store32 a v m) with (store32 (a + 0) v m) by (by rewrite Z.add_0_r). field_store.
Qed.
Lemma view_set_pool_ptr D m F a v :
  view D m F -> spaced D -> a ∈ D -> 0 <= v < 2 ^ 32 ->
  view D (mi_set_pool_ptr a v m) (<[a := F a <| i_pool := v |>]> F).
Proof. field_store. Qed.
Lemma view_set_next D m F a v :
  view D m F -> spaced D -> a ∈ D -> 0 <= v < 2 ^ 32 ->
  view D (mi_set_next a v m) (<[a := F a <| i_next := v |>]> F).
Proof. field_store. Qed.
Lemma view_set_prev D m F a v :
  view D m F -> spaced D -> a ∈ D -> 0 <= v < 2 ^ 32 ->
  view D (mi_set_prev a v m) (<[a := F a <| i_prev := v |>]> F).
Proof. field_store. Qed.
Lemma view_set_next_free D m F a v :
  view D m F -> spaced D -> a ∈ D -> 0 <= v < 2 ^ 32 ->
  view D (mi_set_next_free a v m) (<[a := F a <| i_next_free := v |>]> F).
Proof. field_store. Qed.
Lemma view_set_prev_free D m F a v :
  view D m F -> spaced D -> a ∈ D -> 0 <= v < 2 ^ 32 ->
  view D (mi_set_prev_free a v m) (<[a := F a <| i_prev_free := v |>]> F).
Proof. field_store. Qed.

(** *** What an operation leaves as it was *)
Definition tags (i : item) : Z * Z := (i_magic i, i_pool i).
Definition block_links (i : item) : Z * Z := (i_next i, i_prev i).
Definition free_links (i : item) : Z * Z := (i_next_free i, i_prev_free i).
Definition same {A} (f : item -> A) (D : list Z) (m m' : memory) : Prop :=
  forall a, a ∈ D -> f (item_at m' a) = f (item_at m a).

#[export] Instance same_preorder {A} (f : item -> A) D : PreOrder (same f D).
Proof.
  split; [by intros m a|]. intros m1 m2 m3 H1 H2 a Ha. by rewrite H2, H1.
Qed.
Lemma same_mono {A} (f : item -> A) D D' m m' : D' ⊆ D -> same f D m m' -> same f D' m m'.
Proof. intros HD H a Ha. apply H. by apply HD. Qed.

(** ** The lists of headers *)
Definition blocks_of (F : Z -> item) : Ptr.links := Ptr.Links (fun a => i_next (F a)) (fun a => i_prev (F a)).
Definition frees_of (F : Z -> item) : Ptr.links :=
  Ptr.Links (fun a => i_next_free (F a)) (fun a => i_prev_free (F a)).
Abbreviation block_ring m := (Ptr.ring (blocks_of (item_at m))).
Abbreviation free_ring m := (Ptr.ring (frees_of (item_at m))).

Lemma block_ring_view D m F h l :
  view D m F -> h :: l ⊆ D -> Ptr.ring (blocks_of F) h l -> block_ring m h l.
Proof.
  intros HV HD. apply Ptr.ring_frame. intros x Hx. pose proof (HV x (HD x Hx)) as E.
  split; [exact (f_equal i_next E)|exact (f_equal i_prev E)].
Qed.
Lemma free_ring_view D m F h l :
  view D m F -> h :: l ⊆ D -> Ptr.ring (frees_of F) h l -> free_ring m h l.
Proof.
  intros HV HD. apply Ptr.ring_frame. intros x Hx. pose proof (HV x (HD x Hx)) as E.
  split; [exact (f_equal i_next_free E)|exact (f_equal i_prev_free E)].
Qed.

Lemma block_ring_same D m m' h l :
  same block_links D m m' -> h :: l ⊆ D -> block_ring m h l -> block_ring m' h l.
Proof.
  intros HS HD. apply Ptr.ring_frame. intros x Hx. pose proof (HS x (HD x Hx)) as E.
  split; [exact (f_equal fst E)|exact (f_equal snd E)].
Qed.
Lemma free_ring_same D m m' h l :
  same free_links D m m' -> h :: l ⊆ D -> free_ring m h l -> free_ring m' h l.
Proof.
  intros HS HD. apply Ptr.ring_frame. intros x Hx. pose proof (HS x (HD x Hx)) as E.
  split; [exact (f_equal fst E)|exact (f_equal snd E)].
Qed.

(** The neighbours of a member. *)
Lemma ring_neighbours (L : Ptr.links) (h : Z) l1 x l2 :
  Ptr.ring L h (l1 ++ x :: l2) -> Ptr.next L x = hd h l2 /\ Ptr.prev L x = List.last l1 h.
Proof.
  intros [_ HS]. apply Ptr.seg_app in HS as [H1 H2]. split.
  - destruct l2; cbn in *; tauto.
  - destruct l1 as [|y l1 _] using rev_ind; [by destruct H1|]. rewrite last_last.
    apply Ptr.seg_app in H1 as [_ [_ H1]]. exact H1.
Qed.

Lemma hd_elem (h : Z) l : hd h l ∈ h :: l.
Proof. destruct l; cbn; set_solver. Qed.
Lemma last_elem (h : Z) l : List.last l h ∈ h :: l.
Proof. destruct l as [|y l _] using rev_ind; cbn; [set_solver|]. rewrite last_last. set_solver. Qed.

(** Unlinking a member, whatever its own links become. *)
Lemma ring_remove (L L' : Ptr.links) (h : Z) l1 x l2 :
  Ptr.ring L h (l1 ++ x :: l2) ->
  (forall y, y <> x -> Ptr.next L' y = if decide (y = List.last l1 h) then hd h l2 else Ptr.next L y) ->
  (forall y, y <> x -> Ptr.prev L' y = if decide (y = hd h l2) then List.last l1 h else Ptr.prev L y) ->
  Ptr.ring L' h (l1 ++ l2).
Proof.
  intros HR Hn Hp. set (L2 := Ptr.rt_list_init x L').
  assert (Hx : x ∉ h :: l1 ++ l2).
  { destruct HR as [HR _]. rewrite <- Permutation_middle, Permutation_swap in HR. by apply NoDup_cons in HR as [? _]. }
  assert (Hu : Ptr.unspliced L L2 (List.last l1 h) x (hd h l2)).
  { split; intros y; cbn; unfold insert, fn_insert; (destruct (decide (x = y)) as [->|];
      [by rewrite decide_True|rewrite decide_False by congruence]); [by apply Hn|by apply Hp]. }
  destruct (Ptr.ring_unsplice _ _ _ _ _ _ HR Hu) as [HR' _]. revert HR'. apply Ptr.ring_frame.
  intros y Hy. cbn. rewrite !fn_lookup_insert_ne by (by intros ->). done.
Qed.

Lemma ring_insert_after (L L' : Ptr.links) (h : Z) l1 l2 x :
  Ptr.ring L h (l1 ++ l2) -> x ∉ h :: l1 ++ l2 ->
  (forall y, Ptr.next L' y = if decide (y = x) then hd h l2
     else if decide (y = List.last l1 h) then x else Ptr.next L y) ->
  (forall y, Ptr.prev L' y = if decide (y = x) then List.last l1 h
     else if decide (y = hd h l2) then x else Ptr.prev L y) ->
  Ptr.ring L' h (l1 ++ x :: l2).
Proof. intros HR Hx Hn Hp. eapply Ptr.ring_splice; [exact HR|done|by split]. Qed.

(** *** The operations on the lists *)
Definition headers (D : list Z) : Prop := spaced D /\ forall a, a ∈ D -> 0 <= a < 2 ^ 32.

Ltac at_item :=
  unfold insert, fn_insert, upd, tags, block_links, free_links; cbn; repeat case_decide; simplify_eq/=;
  try (done || congruence).

(** What an operation on one of the lists keeps. *)
Definition keeps_free (D : list Z) (m m' : memory) : Prop :=
  same tags D m m' /\ same free_links D m m' /\ same_data D m m'.
Definition keeps_blocks (D : list Z) (m m' : memory) : Prop :=
  same tags D m m' /\ same block_links D m m' /\ same_data D m m'.

Lemma view_refl D m : view D m (item_at m).
Proof. by intros a Ha. Qed.

Lemma view_same {A} (f : item -> A) D m m' F :
  view D m' F -> (forall a, f (F a) = f (item_at m a)) -> same f D m m'.
Proof. intros HV HF a Ha. by rewrite (HV a Ha). Qed.

Lemma free_remove_ok D m h l1 x l2 :
  headers D -> h :: l1 ++ x :: l2 ⊆ D -> free_ring m h (l1 ++ x :: l2) ->
  free_ring (free_remove x m) h (l1 ++ l2) /\ keeps_blocks D m (free_remove x m).
Proof.
  intros [HD HB] HS HR. destruct (ring_neighbours _ _ _ _ _ HR) as [En Ep].
  pose proof (hd_elem h l2) as Hn. pose proof (last_elem h l1) as Hp.
  set (n := hd h l2) in *. set (p := List.last l1 h) in *.
  assert (Hx : x ∈ D) by (apply HS; set_solver). assert (HnD : n ∈ D) by (apply HS; set_solver).
  assert (HpD : p ∈ D) by (apply HS; set_solver).
  assert (Hd : x ∉ h :: l1 ++ l2).
  { destruct HR as [Hd _]. rewrite <- Permutation_middle, Permutation_swap in Hd. by apply NoDup_cons in Hd as [? _]. }
  assert (Hxn : n <> x) by (intros ->; set_solver). assert (Hxp : p <> x) by (intros ->; set_solver).
  cbn in En, Ep. unfold free_remove. rewrite En, Ep.
  pose proof (view_set_prev_free D m _ n p (view_refl D m) HD HnD (HB p HpD)) as V1.
  set (m1 := mi_set_prev_free n p m) in *.
  assert (E1 : mi_prev_free x m1 = p /\ mi_next_free x m1 = n).
  { split; [transitivity (i_prev_free (item_at m1 x))|transitivity (i_next_free (item_at m1 x))]; try done;
      rewrite (V1 x Hx); at_item. }
  destruct E1 as [-> ->].
  pose proof (view_set_next_free D m1 _ p n V1 HD HpD (HB n HnD)) as V2.
  split; [|split; [|split]].
  - eapply free_ring_view; [exact V2|set_solver|]. eapply ring_remove; [exact HR|..]; intros y Hy; at_item.
  - eapply view_same; [exact V2|]. intros a. at_item.
  - eapply view_same; [exact V2|]. intros a. at_item.
  - etrans; apply same_data_store; (done || lia).
Qed.

Lemma free_insert_ok D m h x l :
  headers D -> h :: x :: l ⊆ D -> free_ring m h l -> x ∉ h :: l ->
  free_ring (free_insert h x m) h (x :: l) /\ keeps_blocks D m (free_insert h x m).
Proof.
  intros [HD HB] HS HR Hxl. destruct (Ptr.ring_ends _ _ _ HR) as [En _].
  pose proof (hd_elem h l) as Hn. set (n := hd h l) in *.
  assert (Hx : x ∈ D) by (apply HS; set_solver). assert (HnD : n ∈ D) by (apply HS; set_solver).
  assert (HhD : h ∈ D) by (apply HS; set_solver).
  assert (Hxn : n <> x) by (intros ->; set_solver). assert (Hxh : h <> x) by (intros ->; set_solver).
  cbn in En. unfold free_insert. rewrite En.
  pose proof (view_set_next_free D m _ x n (view_refl D m) HD Hx (HB n HnD)) as V1.
  set (m1 := mi_set_next_free x n m) in *.
  pose proof (view_set_prev_free D m1 _ x h V1 HD Hx (HB h HhD)) as V2.
  set (m2 := mi_set_prev_free x h m1) in *.
  assert (E2 : mi_next_free h m2 = n).
  { transitivity (i_next_free (item_at m2 h)); [done|]. rewrite (V2 h HhD). at_item. }
  rewrite E2.
  pose proof (view_set_prev_free D m2 _ n x V2 HD HnD (HB x Hx)) as V3. set (m3 := mi_set_prev_free n x m2) in *.
  pose proof (view_set_next_free D m3 _ h x V3 HD HhD (HB x Hx)) as V4.
  split; [|split; [|split]].
  - eapply free_ring_view; [exact V4|set_solver|].
    eapply (ring_insert_after _ _ h [] l x HR); [done|..]; intros y; fold n; at_item.
  - eapply view_same; [exact V4|]. intros a. at_item.
  - eapply view_same; [exact V4|]. intros a. at_item.
  - do 3 (etrans; [|apply same_data_store; (done || lia)]). apply same_data_store; (done || lia).
Qed.

(** Two stores that join the neighbours [p] and [n] of a header. *)
Lemma block_join_ok D m t l1 x l2 :
  headers D -> t :: l1 ++ x :: l2 ⊆ D -> block_ring m t (l1 ++ x :: l2) ->
  let p := List.last l1 t in let n := hd t l2 in
  mi_prev x m = p /\ mi_next x m = n /\
  (mi_prev x (mi_set_next p n m) = p /\ mi_next x (mi_set_next p n m) = n) /\
  (mi_prev x (mi_set_prev n p m) = p /\ mi_next x (mi_set_prev n p m) = n) /\
  forall m', m' = mi_set_prev n p (mi_set_next p n m) \/ m' = mi_set_next p n (mi_set_prev n p m) ->
    block_ring m' t (l1 ++ l2) /\ keeps_free D m m' /\ mi_prev x m' = p /\ mi_next x m' = n.
Proof.
  intros [HD HB] HS HR p n. destruct (ring_neighbours _ _ _ _ _ HR) as [En Ep].
  pose proof (hd_elem t l2) as Hn. pose proof (last_elem t l1) as Hp. fold n in Hn, En. fold p in Hp, Ep.
  assert (Hx : x ∈ D) by (apply HS; set_solver). assert (HnD : n ∈ D) by (apply HS; set_solver).
  assert (HpD : p ∈ D) by (apply HS; set_solver).
  assert (Hd : x ∉ t :: l1 ++ l2).
  { destruct HR as [Hd _]. rewrite <- Permutation_middle, Permutation_swap in Hd. by apply NoDup_cons in Hd as [? _]. }
  assert (Hxn : n <> x) by (intros E; rewrite E in Hn; set_solver).
  assert (Hxp : p <> x) by (intros E; rewrite E in Hp; set_solver).
  cbn in En, Ep.
  pose proof (view_set_next D m _ p n (view_refl D m) HD HpD (HB n HnD)) as V1.
  pose proof (view_set_prev D m _ n p (view_refl D m) HD HnD (HB p HpD)) as W1.
  pose proof (view_set_prev D _ _ n p V1 HD HnD (HB p HpD)) as V2.
  pose proof (view_set_next D _ _ p n W1 HD HpD (HB n HnD)) as W2.
  assert (HI : forall m1, i_prev (item_at m1 x) = mi_prev x m1 /\ i_next (item_at m1 x) = mi_next x m1) by done.
  split_and!; try done.
  - rewrite <- (proj1 (HI _)), (V1 x Hx). clear -Ep Hxp. at_item.
  - rewrite <- (proj2 (HI _)), (V1 x Hx). clear -En Hxp. at_item.
  - rewrite <- (proj1 (HI _)), (W1 x Hx). clear -Ep Hxn. at_item.
  - rewrite <- (proj2 (HI _)), (W1 x Hx). clear -En Hxn. at_item.
  - intros m' Hm'. assert (exists F, view D m' F /\
      (forall y, i_next (F y) = if decide (y = p) then n else i_next (item_at m y)) /\
      (forall y, i_prev (F y) = if decide (y = n) then p else i_prev (item_at m y)) /\
      (forall y, tags (F y) = tags (item_at m y)) /\ (forall y, free_links (F y) = free_links (item_at m y)))
      as (F & VF & F1 & F2 & F3 & F4).
    { destruct Hm' as [-> | ->]; eexists; (split; [eassumption|]); clear; split_and!; intros y; at_item. }
    split; [|split; [split; [|split]|]].
    + eapply block_ring_view; [exact VF|set_solver|]. eapply ring_remove; [exact HR|..]; intros y _; [apply F1|apply F2].
    + by eapply view_same.
    + by eapply view_same.
    + destruct Hm' as [-> | ->]; (etrans; apply same_data_store; (done || lia)).
    + rewrite <- (proj1 (HI _)), <- (proj2 (HI _)), (VF x Hx), F1, F2.
      rewrite !decide_False by congruence. done.
Qed.

Lemma block_split_ok D m t h l1 y x l2 :
  headers D -> x :: t :: l1 ++ y :: l2 ⊆ D -> x ∉ t :: l1 ++ y :: l2 -> 0 <= h < 2 ^ 32 ->
  block_ring m t (l1 ++ y :: l2) ->
  block_ring (block_split h y x m) t (l1 ++ y :: x :: l2) /\
  tags (item_at (block_split h y x m) x) = (RT_MEMHEAP_MAGIC, h) /\
  (forall a, a ∈ D -> a <> x -> tags (item_at (block_split h y x m) a) = tags (item_at m a)) /\
  same free_links D m (block_split h y x m) /\ same_data D m (block_split h y x m).
Proof.
  intros [HD HB] HS Hxl Hh HR. destruct (ring_neighbours _ _ _ _ _ HR) as [En _].
  pose proof (hd_elem t l2) as Hn. set (n := hd t l2) in *.
  assert (HxD : x ∈ D) by (apply HS; set_solver). assert (HyD : y ∈ D) by (apply HS; set_solver).
  assert (HnD : n ∈ D) by (apply HS; set_solver).
  assert (Hxn : n <> x) by (intros E; rewrite E in Hn; set_solver). assert (Hxy : y <> x) by set_solver.
  cbn in En. unfold block_split, block_insert. rewrite Z.lor_0_r.
  pose proof (view_set_magic D m _ x RT_MEMHEAP_MAGIC (view_refl D m) HD HxD ltac:(done)) as V1.
  set (m1 := mi_set_magic x _ m) in *.
  pose proof (view_set_pool_ptr D m1 _ x h V1 HD HxD Hh) as V2. set (m2 := mi_set_pool_ptr x h m1) in *.
  pose proof (view_set_prev D m2 _ x y V2 HD HxD (HB y HyD)) as V3. set (m3 := mi_set_prev x y m2) in *.
  assert (E3 : mi_next y m3 = n).
  { transitivity (i_next (item_at m3 y)); [done|]. rewrite (V3 y HyD). clear V1 V2 V3. at_item. }
  rewrite E3.
  pose proof (view_set_next D m3 _ x n V3 HD HxD (HB n HnD)) as V4. set (m4 := mi_set_next x n m3) in *.
  assert (E4 : mi_next y m4 = n).
  { transitivity (i_next (item_at m4 y)); [done|]. rewrite (V4 y HyD). clear V1 V2 V3 V4. at_item. }
  rewrite E4.
  pose proof (view_set_prev D m4 _ n x V4 HD HnD (HB x HxD)) as V5. set (m5 := mi_set_prev n x m4) in *.
  pose proof (view_set_next D m5 _ y x V5 HD HyD (HB x HxD)) as V6. clear V1 V2 V3 V4 V5.
  set (m6 := mi_set_next y x m5) in *. split; [|split; [|split; [|split]]].
  - eapply block_ring_view; [exact V6|set_solver|].
    replace (l1 ++ y :: x :: l2) with ((l1 ++ [y]) ++ x :: l2) by (by rewrite <- app_assoc).
    assert (HR' : Ptr.ring (blocks_of (item_at m)) t ((l1 ++ [y]) ++ l2)) by (by rewrite <- app_assoc).
    eapply (ring_insert_after _ _ t (l1 ++ [y]) l2 x HR'); [by rewrite <- app_assoc|..]; intros z;
      rewrite last_last; fold n; at_item.
  - rewrite (V6 x HxD). at_item.
  - intros a Ha Hax. rewrite (V6 a Ha). at_item.
  - eapply view_same; [exact V6|]. intros a. at_item.
  - do 5 (etrans; [|apply same_data_store; (done || lia)]).
    unfold m1, mi_set_magic. rewrite <- (Z.add_0_r x). apply same_data_store; (done || lia).
Qed.
