(* ===== verification/MemHeapInv.v ===== *)
(** The blocks of a memory heap: how they lie in its memory, and what the steps
    of its operations do to them. *)
From S2P Require Export MemHeapLists.
Local Open Scope Z_scope.

(** ** Blocks

    The blocks of a heap in the order of their addresses, as their sizes and
    whether they are used; each is behind a header of 24 bytes. *)
Abbreviation hblocks := (list (Z * bool)).

Fixpoint total (bs : hblocks) : Z := match bs with [] => 0 | b :: bs => 24 + fst b + total bs end.
(** Their headers, from address [a] on, and those of the free ones. *)
Fixpoint addrs (a : Z) (bs : hblocks) : list Z :=
  match bs with [] => [] | b :: bs => a :: addrs (a + 24 + fst b) bs end.
Fixpoint free_addrs (a : Z) (bs : hblocks) : list Z :=
  match bs with
  | [] => []
  | (n, u) :: bs => (if u : bool then [] else [a]) ++ free_addrs (a + 24 + n) bs
  end.
Fixpoint free_total (bs : hblocks) : Z :=
  match bs with [] => 0 | (n, u) :: bs => (if u : bool then 0 else n) + free_total bs end.

(** The headers, with the use of their blocks. *)
Fixpoint tagged (a : Z) (bs : hblocks) : list (Z * bool) :=
  match bs with [] => [] | (n, u) :: bs => (a, u) :: tagged (a + 24 + n) bs end.

Lemma total_app b1 b2 : total (b1 ++ b2) = total b1 + total b2.
Proof. induction b1 as [|b b1 IH]; cbn; lia. Qed.
Lemma addrs_app a b1 b2 : addrs a (b1 ++ b2) = addrs a b1 ++ addrs (a + total b1) b2.
Proof.
  revert a. induction b1 as [|b b1 IH]; intros a; cbn; [by rewrite Z.add_0_r|].
  rewrite IH. do 3 f_equal. lia.
Qed.
Lemma free_addrs_app a b1 b2 : free_addrs a (b1 ++ b2) = free_addrs a b1 ++ free_addrs (a + total b1) b2.
Proof.
  revert a. induction b1 as [|[n u] b1 IH]; intros a; cbn; [by rewrite Z.add_0_r|].
  rewrite IH, <- app_assoc. do 3 f_equal. lia.
Qed.
Lemma free_total_app b1 b2 : free_total (b1 ++ b2) = free_total b1 + free_total b2.
Proof. induction b1 as [|[n u] b1 IH]; cbn; lia. Qed.

Lemma tagged_app a b1 b2 : tagged a (b1 ++ b2) = tagged a b1 ++ tagged (a + total b1) b2.
Proof.
  revert a. induction b1 as [|[n u] b1 IH]; intros a; cbn; [by rewrite Z.add_0_r|].
  rewrite IH. do 3 f_equal. lia.
Qed.
Lemma tagged_addr a bs x u : (x, u) ∈ tagged a bs -> x ∈ addrs a bs.
Proof.
  revert a. induction bs as [|[n v] bs IH]; intros a; cbn; [by intros ?%elem_of_nil|].
  intros [[= -> ->]|H]%elem_of_cons; [set_solver|]. apply elem_of_cons. right. by apply IH.
Qed.

Definition nonneg (bs : hblocks) : Prop := Forall (fun b => 0 <= fst b) bs.

Lemma nonneg_app b1 b2 : nonneg (b1 ++ b2) <-> nonneg b1 /\ nonneg b2.
Proof. unfold nonneg. by rewrite Forall_app. Qed.
Lemma nonneg_cons b bs : nonneg (b :: bs) <-> 0 <= fst b /\ nonneg bs.
Proof. unfold nonneg. by rewrite Forall_cons. Qed.
Lemma total_nonneg bs : nonneg bs -> 0 <= total bs.
Proof. induction bs as [|b bs IH]; cbn; [lia|]. intros [? ?]%nonneg_cons. specialize (IH ltac:(done)). lia. Qed.

Lemma addrs_range a bs x : nonneg bs -> x ∈ addrs a bs -> a <= x /\ x + 24 <= a + total bs.
Proof.
  revert a. induction bs as [|b bs IH]; intros a; cbn; [by intros _ ?%elem_of_nil|].
  intros [Hb Hn]%nonneg_cons. pose proof (total_nonneg bs Hn). intros [->|Hx]%elem_of_cons; [lia|].
  destruct (IH _ Hn Hx). lia.
Qed.

Lemma addrs_apart a bs x y : nonneg bs -> x ∈ addrs a bs -> y ∈ addrs a bs -> x <> y -> apart x y.
Proof.
  revert a. induction bs as [|b bs IH]; intros a; cbn; [by intros _ ?%elem_of_nil|].
  intros [Hb Hn]%nonneg_cons. unfold apart.
  intros [->|Hx]%elem_of_cons [->|Hy]%elem_of_cons Hne; [done|..].
  - destruct (addrs_range _ _ _ Hn Hy). lia.
  - destruct (addrs_range _ _ _ Hn Hx). lia.
  - by eapply IH.
Qed.

Lemma addrs_nodup a bs : nonneg bs -> NoDup (addrs a bs).
Proof.
  revert a. induction bs as [|b bs IH]; intros a; cbn; [constructor|].
  intros [Hb Hn]%nonneg_cons. constructor; [|by apply IH].
  intros Hx. destruct (addrs_range _ _ _ Hn Hx). lia.
Qed.

(** The header of one block, and the others. *)
Lemma tagged_at a b1 n u b2 x v :
  nonneg (b1 ++ (n, u) :: b2) ->
  (x, v) ∈ tagged a (b1 ++ (n, u) :: b2) <->
  x = a + total b1 /\ v = u \/
  x <> a + total b1 /\ ((x, v) ∈ tagged a b1 \/ (x, v) ∈ tagged (a + total b1 + 24 + n) b2).
Proof.
  intros Hn. pose proof (addrs_nodup a _ Hn) as Hd. rewrite addrs_app in Hd. cbn in Hd.
  apply NoDup_app in Hd as (_ & Hd1 & Hd2). apply NoDup_cons in Hd2 as [Hd2 _].
  rewrite tagged_app. cbn [tagged]. rewrite elem_of_app, elem_of_cons. split.
  - intros [H|[[= -> ->]|H]]; [right|by left|right]; (split; [|tauto]); intros ->.
    + apply (Hd1 (a + total b1)); [by eapply tagged_addr|set_solver].
    + apply Hd2. by eapply tagged_addr.
  - intros [[-> ->]|[_ [H|H]]]; tauto.
Qed.

Lemma addrs_elem a bs x : x ∈ addrs a bs <-> exists b1 b b2, bs = b1 ++ b :: b2 /\ x = a + total b1.
Proof.
  revert a. induction bs as [|b bs IH]; intros a; cbn.
  - split; [by intros ?%elem_of_nil|]. intros ([] & ? & ? & ? & _); done.
  - rewrite elem_of_cons, IH. split.
    + intros [->|(b1 & c & b2 & -> & ->)]; [exists [], b, bs; cbn; split; [done|lia]|].
      exists (b :: b1), c, b2. cbn. split; [done|lia].
    + intros ([|c b1] & d & b2 & [= -> ->] & ->); cbn; [left; lia|]. right.
      exists b1, d, b2. split; [done|lia].
Qed.

Lemma addrs_last a b1 c t : List.last (addrs a (b1 ++ [c])) t = a + total b1.
Proof. rewrite addrs_app. cbn [addrs]. by rewrite last_last. Qed.

Lemma free_addrs_sub a bs : free_addrs a bs ⊆ addrs a bs.
Proof.
  revert a. induction bs as [|[n u] bs IH]; intros a; cbn; [done|]. specialize (IH (a + 24 + n)).
  destruct u; set_solver.
Qed.

Lemma free_addrs_at a b1 n u b2 : nonneg (b1 ++ (n, u) :: b2) ->
  a + total b1 ∈ free_addrs a (b1 ++ (n, u) :: b2) <-> u = false.
Proof.
  intros Hn. pose proof (addrs_nodup a _ Hn) as Hd. rewrite free_addrs_app. cbn. rewrite !elem_of_app.
  rewrite addrs_app in Hd. cbn in Hd. apply NoDup_app in Hd as (_ & Hd1 & Hd2). apply NoDup_cons in Hd2 as [Hd2 _].
  pose proof (free_addrs_sub a b1) as S1. pose proof (free_addrs_sub (a + total b1 + 24 + n) b2) as S2.
  split; [|intros ->; right; left; set_solver].
  intros [H|[H|H]].
  - exfalso. apply (Hd1 (a + total b1)); [by apply S1|set_solver].
  - destruct u; [by apply elem_of_nil in H|done].
  - exfalso. apply Hd2. by apply S2.
Qed.

(** ** A heap in memory *)
Section Heap.
Context (h a0 P : Z).

Definition tailer : Z := a0 + P - 24.
Definition hdrs (bs : hblocks) : list Z := free_header h :: tailer :: addrs a0 bs.

(** The blocks fill the pool up to the tailer, and the structure of the heap is
    elsewhere. *)
Record placed (bs : hblocks) : Prop := {
  pl_heap : 0 < h /\ free_header h + 24 <= 2 ^ 32;
  pl_pool : 0 < a0 /\ a0 + P <= 2 ^ 32;
  pl_apart : free_header h + 24 <= a0 \/ a0 + P <= free_header h;
  pl_nonneg : nonneg bs;
  pl_total : total bs + 24 = P }.

Lemma placed_range bs x : placed bs -> x ∈ addrs a0 bs -> a0 <= x /\ x + 24 <= tailer.
Proof.
  intros HP Hx. destruct (addrs_range _ _ _ (pl_nonneg _ HP) Hx) as [H1 H2].
  pose proof (pl_total _ HP). unfold tailer. lia.
Qed.

Lemma placed_headers bs : placed bs -> headers (hdrs bs).
Proof.
  intros HP. pose proof (placed_range bs) as HR. pose proof (addrs_apart a0 bs) as HA.
  pose proof (total_nonneg _ (pl_nonneg _ HP)) as Hz. pose proof HP as [Hh Hp Ha Hn Ht].
  assert (Htl : a0 <= tailer /\ tailer + 24 = a0 + P) by (unfold tailer; clear -Hz Ht; lia).
  assert (Hf : 0 < free_header h) by (unfold free_header, SIZEOF_OBJECT; clear -Hh; lia). split.
  - intros x y Hx Hy Hne. unfold hdrs in Hx, Hy. rewrite !elem_of_cons in Hx, Hy.
    destruct Hx as [->|[->|Hx]], Hy as [->|[->|Hy]]; try done; unfold apart.
    + clear -Ha Htl. lia.
    + destruct (HR y HP Hy) as [R1 R2]. clear -Ha Htl R1 R2. lia.
    + clear -Ha Htl. lia.
    + destruct (HR y HP Hy) as [R1 R2]. clear -R1 R2. lia.
    + destruct (HR x HP Hx) as [R1 R2]. clear -Ha Htl R1 R2. lia.
    + destruct (HR x HP Hx) as [R1 R2]. clear -R1 R2. lia.
    + by apply HA.
  - intros x Hx. unfold hdrs in Hx. rewrite !elem_of_cons in Hx. destruct Hx as [->|[->|Hx]].
    + clear -Hf Hh. lia.
    + clear -Htl Hp. lia.
    + destruct (HR x HP Hx) as [R1 R2]. clear -R1 R2 Htl Hp. lia.
Qed.

Lemma placed_nodup bs : placed bs -> NoDup (hdrs bs).
Proof.
  intros HP. pose proof (placed_range bs) as HR. pose proof HP as [Hh Hp Ha Hn Ht].
  pose proof (total_nonneg _ Hn) as Hz. apply NoDup_cons_2; [|apply NoDup_cons_2].
  - rewrite elem_of_cons. intros [E|Hx].
    + unfold tailer in E. clear -E Hz Ht Ha. lia.
    + destruct (HR _ HP Hx) as [R1 R2]. unfold tailer in R2. clear -R1 R2 Ha. lia.
  - intros Hx. destruct (HR _ HP Hx) as [R1 R2]. clear -R2. lia.
  - by apply addrs_nodup.
Qed.

(** Other blocks in the same room. *)
Lemma placed_replace b1 c d b2 :
  placed (b1 ++ c ++ b2) -> nonneg d -> total d = total c -> placed (b1 ++ d ++ b2).
Proof.
  intros [Hh Hp Ha Hn Ht] Hd E. rewrite !total_app in Ht. apply nonneg_app in Hn as [H1 Hn].
  apply nonneg_app in Hn as [_ H2]. split; try done.
  - by rewrite !nonneg_app.
  - rewrite !total_app. lia.
Qed.

Definition block_magic (u : bool) : Z :=
  Z.lor RT_MEMHEAP_MAGIC (if u then RT_MEMHEAP_USED else RT_MEMHEAP_FREED).

(** The headers of [bs] are in the memory, and those of [fl] in the list of
    free blocks. *)
Record laid (m : memory) (bs : hblocks) (fl : list Z) : Prop := {
  la_placed : placed bs;
  la_blocks : block_ring m tailer (addrs a0 bs);
  la_free : free_ring m (free_header h) fl;
  la_sub : fl ⊆ addrs a0 bs;
  la_tags x u : (x, u) ∈ tagged a0 bs -> tags (item_at m x) = (block_magic u, h);
  la_tail : tags (item_at m tailer) = (block_magic true, h) }.

Lemma used_magic u : has_bits (block_magic u) RT_MEMHEAP_USED = u.
Proof. by destruct u. Qed.

(** *** Reading headers *)
Definition head_addr (a : Z) (b2 : hblocks) : Z := match b2 with [] => tailer | _ => a end.

Lemma hd_addrs a b2 : hd tailer (addrs a b2) = head_addr a b2.
Proof. by destruct b2. Qed.

(** Behind the last block there is the tailer, so the address behind a block is
    that of a header in both cases. *)
Lemma placed_behind b1 n u b2 :
  placed (b1 ++ (n, u) :: b2) -> hd tailer (addrs (a0 + total b1 + 24 + n) b2) = a0 + total b1 + 24 + n.
Proof.
  intros [_ _ _ _ Ht]. rewrite total_app in Ht. cbn in Ht. destruct b2; [|done]. cbn in *. unfold tailer. lia.
Qed.

Lemma laid_read m b1 n u b2 fl :
  laid m (b1 ++ (n, u) :: b2) fl ->
  let a := a0 + total b1 in
  mi_magic a m = block_magic u /\ mi_pool_ptr a m = h /\ mi_next a m = a + 24 + n /\
  mi_prev a m = List.last (addrs a0 b1) tailer /\ MEMITEM_SIZE a m = n.
Proof.
  intros [HP HB HF HS HT _] a.
  assert (E : tags (item_at m a) = (block_magic u, h)) by (apply HT, tagged_at; [apply HP|by left]).
  rewrite addrs_app in HB. cbn in HB. fold a in HB.
  destruct (ring_neighbours _ _ _ _ _ HB) as [En Ep]. cbn in En, Ep.
  pose proof (placed_behind b1 n u b2 HP) as Eb. fold a in Eb. rewrite Eb in En.
  split_and!; [exact (f_equal fst E)|exact (f_equal snd E)|done|done|].
  unfold MEMITEM_SIZE. rewrite En. change RT_MEMHEAP_SIZE with 24.
  replace (a + 24 + n - a - 24) with n by lia. destruct HP as [_ Hp _ Hn Ht].
  rewrite total_app in Ht. cbn in Ht. apply nonneg_app in Hn as [Hn1 [Hn2 Hn3]%nonneg_cons].
  pose proof (total_nonneg _ Hn1). pose proof (total_nonneg _ Hn3). cbn in Hn2.
  unfold u32, wrap. apply Z.mod_small. lia.
Qed.

(** Whether the header behind a block is used. *)
Definition next_used (b2 : hblocks) : bool := match b2 with [] => true | b :: _ => snd b end.
Definition prev_used (b1 : hblocks) : bool := match last b1 with None => true | Some b => snd b end.

Lemma laid_next m b1 n u b2 fl :
  laid m (b1 ++ (n, u) :: b2) fl ->
  mi_magic (a0 + total b1 + 24 + n) m = block_magic (next_used b2).
Proof.
  intros HL. pose proof (la_placed _ _ _ HL) as HP. destruct b2 as [|[k v] b2].
  - pose proof (placed_behind b1 n u [] HP) as E. cbn in E. rewrite <- E.
    exact (f_equal fst (la_tail _ _ _ HL)).
  - assert (E : b1 ++ (n, u) :: (k, v) :: b2 = (b1 ++ [(n, u)]) ++ (k, v) :: b2) by (by rewrite <- app_assoc).
    assert (ET : tags (item_at m (a0 + total b1 + 24 + n)) = (block_magic v, h)).
    { eapply HL. rewrite E. apply tagged_at; [by rewrite <- E; apply HP|]. left.
      rewrite total_app. cbn. split; [lia|done]. }
    exact (f_equal fst ET).
Qed.

Lemma laid_prev m b1 n u b2 fl :
  laid m (b1 ++ (n, u) :: b2) fl ->
  mi_magic (List.last (addrs a0 b1) tailer) m = block_magic (prev_used b1).
Proof.
  intros HL. unfold prev_used. destruct b1 as [|[k v] b1 _] using rev_ind.
  - exact (f_equal fst (la_tail _ _ _ HL)).
  - rewrite addrs_last, last_snoc. cbn.
    assert (ET : tags (item_at m (a0 + total b1)) = (block_magic v, h)); [|exact (f_equal fst ET)].
    pose proof (pl_nonneg _ (la_placed _ _ _ HL)) as Hn. eapply HL. rewrite <- app_assoc in *.
    apply tagged_at; [done|by left].
Qed.

(** *** Steps *)
Lemma placed_at b1 b b2 : a0 + total b1 ∈ addrs a0 (b1 ++ b :: b2).
Proof. apply addrs_elem. by exists b1, b, b2. Qed.
Lemma in_hdrs bs x : x ∈ addrs a0 bs -> x ∈ hdrs bs.
Proof. unfold hdrs. set_solver. Qed.

Lemma laid_free_sub m bs fl : laid m bs fl -> free_header h :: fl ⊆ hdrs bs.
Proof. intros HL. pose proof (la_sub _ _ _ HL). unfold hdrs. set_solver. Qed.

(** Steps that change the list of free blocks only. *)
Lemma laid_frees m m' bs fl fl' :
  laid m bs fl -> same tags (hdrs bs) m m' -> same block_links (hdrs bs) m m' ->
  free_ring m' (free_header h) fl' -> fl' ⊆ addrs a0 bs -> laid m' bs fl'.
Proof.
  intros [HP HB HF HS HT Htl] ST SB HF' HS'. split; try done.
  - eapply block_ring_same; [exact SB| |exact HB]. unfold hdrs. set_solver.
  - intros x u Hx. rewrite ST; [by eapply HT|]. by eapply in_hdrs, tagged_addr.
  - rewrite ST; [done|]. unfold hdrs. set_solver.
Qed.

Lemma step_remove m bs l1 x l2 :
  laid m bs (l1 ++ x :: l2) ->
  laid (free_remove x m) bs (l1 ++ l2) /\ same_data (hdrs bs) m (free_remove x m).
Proof.
  intros HL. destruct (free_remove_ok (hdrs bs) m (free_header h) l1 x l2) as (HR & ST & SB & SD).
  - apply placed_headers, HL.
  - by eapply laid_free_sub.
  - apply HL.
  - split; [|done]. eapply laid_frees; [done..|]. pose proof (la_sub _ _ _ HL). set_solver.
Qed.

Lemma step_insert m bs fl x :
  laid m bs fl -> x ∈ addrs a0 bs -> x ∉ fl ->
  laid (free_insert (free_header h) x m) bs (x :: fl) /\
  same_data (hdrs bs) m (free_insert (free_header h) x m).
Proof.
  intros HL Hx Hf. pose proof (la_sub _ _ _ HL) as HS.
  assert (Hh : x <> free_header h).
  { intros ->. pose proof (placed_nodup _ (la_placed _ _ _ HL)) as Hd. unfold hdrs in Hd.
    apply NoDup_cons in Hd as [Hd _]. set_solver. }
  destruct (free_insert_ok (hdrs bs) m (free_header h) x fl) as (HR & ST & SB & SD).
  - apply placed_headers, HL.
  - pose proof (laid_free_sub _ _ _ HL). pose proof (in_hdrs _ _ Hx). set_solver.
  - apply HL.
  - set_solver.
  - split; [|done]. eapply laid_frees; [done..|]. set_solver.
Qed.

(** A block that is not in the list of free blocks: its links in it are void. *)
Lemma step_unlinked m bs fl x :
  laid m bs fl -> x ∈ addrs a0 bs -> x ∉ fl ->
  let m' := mi_set_prev_free x 0 (mi_set_next_free x 0 m) in laid m' bs fl /\ same_data (hdrs bs) m m'.
Proof.
  intros HL Hx Hf m'. destruct (placed_headers _ (la_placed _ _ _ HL)) as [HD _].
  pose proof (in_hdrs _ _ Hx) as HxD.
  pose proof (view_set_next_free _ m _ x 0 (view_refl _ m) HD HxD ltac:(done)) as V1.
  pose proof (view_set_prev_free _ _ _ x 0 V1 HD HxD ltac:(done)) as V2. fold m' in V2. clear V1.
  assert (Hh : x <> free_header h).
  { intros ->. pose proof (placed_nodup _ (la_placed _ _ _ HL)) as Hd. unfold hdrs in Hd.
    apply NoDup_cons in Hd as [Hd _]. set_solver. }
  split; [|etrans; apply same_data_store; (done || lia)].
  eapply laid_frees; [done| | | |apply HL].
  - eapply view_same; [exact V2|]. intros a. at_item.
  - eapply view_same; [exact V2|]. intros a. at_item.
  - eapply free_ring_same; [|reflexivity|apply HL]. intros a Ha.
    rewrite (V2 a (laid_free_sub _ _ _ HL a Ha)). assert (a <> x) by set_solver. at_item.
Qed.

(** The block at [a0 + total b1] becomes used or free. *)
Lemma step_tag m b1 n u b2 fl v :
  laid m (b1 ++ (n, u) :: b2) fl ->
  let m' := mi_set_magic (a0 + total b1) (block_magic v) m in
  laid m' (b1 ++ (n, v) :: b2) fl /\ same_data (hdrs (b1 ++ (n, u) :: b2)) m m'.
Proof.
  intros HL m'. pose proof (placed_at b1 (n, u) b2) as Hx. set (x := a0 + total b1) in *.
  assert (EA : addrs a0 (b1 ++ (n, v) :: b2) = addrs a0 (b1 ++ (n, u) :: b2)) by (by rewrite !addrs_app).
  pose proof (la_placed _ _ _ HL) as HP. destruct (placed_headers _ HP) as [HD _].
  pose proof (in_hdrs _ _ Hx) as HxD.
  pose proof (view_set_magic _ m _ x (block_magic v) (view_refl _ m) HD HxD ltac:(by destruct v)) as V.
  fold m' in V. split.
  2:{ unfold m', mi_set_magic. rewrite <- (Z.add_0_r x). apply same_data_store; (done || lia). }
  split.
  - apply (placed_replace b1 [(n, u)] [(n, v)] b2); [done| |done].
    pose proof (pl_nonneg _ HP) as Hn. apply nonneg_app in Hn as [_ [Hn _]%nonneg_cons]. by repeat constructor.
  - rewrite EA. eapply block_ring_same; [|reflexivity|apply HL]. intros a Ha.
    rewrite (V a) by (unfold hdrs; set_solver). at_item.
  - eapply free_ring_same; [|reflexivity|apply HL]. intros a Ha.
    rewrite (V a) by (by eapply laid_free_sub). at_item.
  - rewrite EA. apply HL.
  - pose proof (pl_nonneg _ HP) as Hn. assert (Hn' : nonneg (b1 ++ (n, v) :: b2)) by
      (rewrite nonneg_app, nonneg_cons in *; done).
    intros y w Hy. pose proof Hy as Hw%tagged_addr. rewrite EA in Hw. apply (tagged_at _ _ _ _ _ _ _ Hn') in Hy.
    rewrite (V y) by (by apply in_hdrs). fold x in Hy. destruct Hy as [[-> ->]|[Hne Hy]].
    + assert (ET : tags (item_at m x) = (block_magic u, h)) by (eapply HL, tagged_at; [done|by left]).
      injection ET as _ ET. at_item.
    + rewrite fn_lookup_insert_ne by done. eapply HL, tagged_at; [done|]. by right.
  - rewrite (V tailer) by (unfold hdrs; set_solver). assert (tailer <> x).
    { intros E. pose proof (placed_range _ _ HP Hx) as HR. clear -E HR. lia. }
    rewrite fn_lookup_insert_ne by done. exact (la_tail _ _ _ HL).
Qed.

(** The addresses around two blocks that come from one, or become one. *)
Lemma addrs_one b1 n u b2 :
  addrs a0 (b1 ++ (n, u) :: b2) = addrs a0 b1 ++ (a0 + total b1) :: addrs (a0 + total b1 + 24 + n) b2.
Proof. by rewrite addrs_app. Qed.
Lemma addrs_two b1 n u k v b2 :
  let a := a0 + total b1 in
  addrs a0 (b1 ++ (n, u) :: (k, v) :: b2) =
  addrs a0 b1 ++ a :: (a + 24 + n) :: addrs (a + 24 + n + 24 + k) b2.
Proof. intros a. by rewrite addrs_app. Qed.

Lemma placed_two b1 n u k v b2 :
  0 <= n -> 0 <= k ->
  placed (b1 ++ (n, u) :: (k, v) :: b2) <-> placed (b1 ++ (n + 24 + k, u) :: b2).
Proof.
  intros Hn Hk. split; intros HP.
  - apply (placed_replace b1 [(n, u); (k, v)] [(n + 24 + k, u)] b2); [done| |cbn; lia].
    repeat constructor; cbn; lia.
  - apply (placed_replace b1 [(n + 24 + k, u)] [(n, u); (k, v)] b2); [done| |cbn; lia].
    repeat constructor; cbn; lia.
Qed.

Lemma tagged_two b1 n u k v b2 x w :
  nonneg (b1 ++ (n, u) :: (k, v) :: b2) ->
  let a := a0 + total b1 in
  ((x, w) ∈ tagged a0 (b1 ++ (n, u) :: (k, v) :: b2) <->
   x = a + 24 + n /\ w = v \/ x <> a + 24 + n /\ (x, w) ∈ tagged a0 (b1 ++ (n + 24 + k, u) :: b2)).
Proof.
  intros Hn a. assert (E : b1 ++ (n, u) :: (k, v) :: b2 = (b1 ++ [(n, u)]) ++ (k, v) :: b2) by (by rewrite <- app_assoc).
  rewrite E in *. rewrite (tagged_at _ _ _ _ _ _ _ Hn). rewrite total_app, !tagged_app. cbn.
  rewrite !elem_of_app, !elem_of_cons, elem_of_nil. unfold a.
  replace (a0 + (total b1 + (24 + n + 0))) with (a0 + total b1 + 24 + n) by lia.
  replace (a0 + total b1 + 24 + (n + 24 + k)) with (a0 + total b1 + 24 + n + 24 + k) by lia. tauto.
Qed.

Lemma step_split m b1 n k u b2 fl :
  laid m (b1 ++ (n + 24 + k, u) :: b2) fl -> 0 <= n -> 0 <= k ->
  let a := a0 + total b1 in let m' := block_split h a (a + 24 + n) m in
  let bs := b1 ++ (n, u) :: (k, false) :: b2 in
  laid m' bs fl /\ a + 24 + n ∉ fl /\ same_data (hdrs bs) m m'.
Proof.
  intros HL Hn Hk a m' bs. pose proof (la_placed _ _ _ HL) as HP.
  pose proof (proj2 (placed_two b1 n u k false b2 Hn Hk) HP) as HP'. fold bs in HP'.
  assert (EA : addrs a0 bs = addrs a0 b1 ++ a :: (a + 24 + n) :: addrs (a + 24 + n + 24 + k) b2) by apply addrs_two.
  pose proof (la_blocks _ _ _ HL) as HB. rewrite addrs_one in HB. fold a in HB.
  pose proof (addrs_one b1 (n + 24 + k) u b2) as EO. fold a in EO.
  replace (a + 24 + (n + 24 + k)) with (a + 24 + n + 24 + k) in HB, EO by lia.
  pose proof (placed_nodup _ HP') as Hd. unfold hdrs in Hd. rewrite EA in Hd.
  set (x := a + 24 + n) in *. set (l2 := addrs (x + 24 + k) b2) in *.
  assert (Hx : x ∉ free_header h :: tailer :: addrs a0 b1 ++ a :: l2).
  { revert Hd. clear. intros Hd. change (a :: x :: l2) with ([a] ++ x :: l2) in Hd.
    rewrite app_assoc, <- Permutation_middle, <- app_assoc in Hd.
    rewrite (Permutation_swap x tailer), (Permutation_swap x (free_header h)) in Hd.
    by apply NoDup_cons in Hd as [Hd _]. }
  assert (HD : tailer :: addrs a0 b1 ++ a :: l2 ⊆ hdrs bs).
  { unfold hdrs. rewrite EA. clear. set_solver. }
  assert (HxD : x ∈ hdrs bs) by (unfold hdrs; rewrite EA; clear; set_solver).
  destruct (block_split_ok (hdrs bs) m tailer h (addrs a0 b1) a x l2) as (HB' & T1 & T2 & SF & SD).
  - by apply placed_headers.
  - clear -HD HxD. set_solver.
  - clear -Hx. set_solver.
  - pose proof (pl_heap _ HP). unfold free_header, SIZEOF_OBJECT in *. lia.
  - done.
  - fold m' in HB', T1, T2, SF, SD. pose proof (la_sub _ _ _ HL) as HS. rewrite EO in HS.
    split; [|split; [clear -HS Hx; set_solver|done]]. split; [done| | | | |].
    + by rewrite EA.
    + eapply free_ring_same; [exact SF| |apply HL]. unfold hdrs. rewrite EA. clear -HS. set_solver.
    + rewrite EA. clear -HS. set_solver.
    + intros y w Hy. apply tagged_two in Hy; [|apply HP']. fold a in Hy. fold x in Hy.
      destruct Hy as [[-> ->]|[Hne Hy]]; [by rewrite T1|].
      rewrite T2; [by eapply HL| |done]. apply tagged_addr in Hy. rewrite EO in Hy. clear -Hy HD. set_solver.
    + rewrite T2; [exact (la_tail _ _ _ HL)|clear -HD; set_solver|clear -Hx; set_solver].
Qed.

(** Two blocks become one, when its header is out of the list of blocks, and out
    of the list of free blocks. *)
Lemma laid_join m m1 m2 b1 n u k v b2 fl fl' :
  let bs := b1 ++ (n, u) :: (k, v) :: b2 in let bs' := b1 ++ (n + 24 + k, u) :: b2 in
  laid m bs fl -> block_ring m1 tailer (addrs a0 bs') -> keeps_free (hdrs bs) m m1 ->
  free_ring m2 (free_header h) fl' -> keeps_blocks (hdrs bs) m1 m2 ->
  fl' ⊆ fl -> a0 + total b1 + 24 + n ∉ fl' -> laid m2 bs' fl'.
Proof.
  intros bs bs' HL HB (ST1 & _ & _) HF (ST2 & SB & _) Hfl Hx. pose proof (la_placed _ _ _ HL) as HP.
  pose proof (pl_nonneg _ HP) as Hn. assert (Hnk : 0 <= n /\ 0 <= k).
  { apply nonneg_app in Hn as [_ Hn]. rewrite !nonneg_cons in Hn. tauto. }
  destruct Hnk as [Hn0 Hk0].
  assert (HP' : placed bs') by (eapply placed_two; [done..|exact HP]).
  assert (HA : forall y, y ∈ addrs a0 bs <-> y = a0 + total b1 + 24 + n \/ y ∈ addrs a0 bs').
  { intros y. unfold bs, bs'. rewrite addrs_two, addrs_one.
    replace (a0 + total b1 + 24 + (n + 24 + k)) with (a0 + total b1 + 24 + n + 24 + k) by lia.
    rewrite !elem_of_app, !elem_of_cons. clear. tauto. }
  assert (HD : hdrs bs' ⊆ hdrs bs).
  { intros y. unfold hdrs. rewrite !elem_of_cons, HA. clear. tauto. }
  assert (Hxa : a0 + total b1 + 24 + n ∉ addrs a0 bs').
  { pose proof (addrs_nodup a0 _ Hn) as Hd. unfold bs in Hd. rewrite addrs_two in Hd. unfold bs'. rewrite addrs_one.
    replace (a0 + total b1 + 24 + (n + 24 + k)) with (a0 + total b1 + 24 + n + 24 + k) by lia.
    set (l1 := addrs a0 b1) in *. set (l2 := addrs (_ + k) b2) in *. set (y := _ + n) in *.
    revert Hd. generalize (a0 + total b1) as z. clear. intros z Hd.
    rewrite (Permutation_swap y z), <- Permutation_middle in Hd. apply NoDup_cons in Hd as [Hd _]. done. }
  assert (STs : same tags (hdrs bs) m m2) by (by etrans).
  split; [done| |done| | |].
  - eapply block_ring_same; [exact SB| |exact HB]. intros y Hy. apply HD. unfold hdrs. clear -Hy. set_solver.
  - intros y Hy. assert (y <> a0 + total b1 + 24 + n) by congruence.
    pose proof (la_sub _ _ _ HL y (Hfl y Hy)) as Hy'. apply HA in Hy'. tauto.
  - intros y w Hy. pose proof Hy as Ha%tagged_addr. rewrite STs by (by apply HD, in_hdrs).
    eapply HL. apply tagged_two; [done|]. right. split; [congruence|done].
  - rewrite STs; [exact (la_tail _ _ _ HL)|]. unfold hdrs. clear. set_solver.
Qed.

Lemma step_join m b1 n u k v b2 fl :
  let bs := b1 ++ (n, u) :: (k, v) :: b2 in let bs' := b1 ++ (n + 24 + k, u) :: b2 in
  let a := a0 + total b1 in let x := a + 24 + n in let y := x + 24 + k in
  laid m bs fl ->
  mi_prev x m = a /\ mi_next x m = y /\ mi_prev x (mi_set_next a y m) = a /\ mi_next x (mi_set_next a y m) = y /\
  mi_prev x (mi_set_prev y a m) = a /\ mi_next x (mi_set_prev y a m) = y /\
  forall m', m' = mi_set_prev y a (mi_set_next a y m) \/ m' = mi_set_next a y (mi_set_prev y a m) ->
    same_data (hdrs bs) m m' /\ mi_prev x m' = a /\ mi_next x m' = y /\ (x ∉ fl -> laid m' bs' fl) /\
    forall l1 l2, fl = l1 ++ x :: l2 ->
      laid (free_remove x m') bs' (l1 ++ l2) /\ same_data (hdrs bs) m (free_remove x m').
Proof.
  intros bs bs' a x y HL. pose proof (la_placed _ _ _ HL) as HP. pose proof (placed_headers _ HP) as HH.
  pose proof (la_blocks _ _ _ HL) as HB.
  assert (EA : addrs a0 bs = (addrs a0 b1 ++ [a]) ++ x :: addrs y b2) by (unfold bs; by rewrite addrs_two, <- app_assoc).
  assert (EB : addrs a0 bs' = (addrs a0 b1 ++ [a]) ++ addrs y b2).
  { unfold bs'. rewrite addrs_one, <- app_assoc. cbn. do 3 f_equal. unfold y, x, a. lia. }
  assert (EY : hd tailer (addrs y b2) = y).
  { assert (E : bs = (b1 ++ [(n, u)]) ++ (k, v) :: b2) by (unfold bs; by rewrite <- app_assoc).
    pose proof HP as HP'. rewrite E in HP'. apply placed_behind in HP'. rewrite total_app in HP'. cbn in HP'.
    replace (a0 + (total b1 + (24 + n + 0)) + 24 + k) with y in HP' by (unfold y, x, a; lia). done. }
  rewrite EA in HB.
  assert (HS0 : tailer :: (addrs a0 b1 ++ [a]) ++ x :: addrs y b2 ⊆ hdrs bs).
  { unfold hdrs. rewrite EA. clear. set_solver. }
  destruct (block_join_ok _ m tailer _ x _ HH HS0 HB) as (E1 & E2 & (E3 & E4) & (E5 & E6) & HJ).
  cbv zeta in *. rewrite last_last, EY in *. split_and!; [done..|]. intros m' Hm'.
  destruct (HJ m' Hm') as (HB' & KF & E7 & E8). pose proof KF as (_ & SF & SD). rewrite <- EB in HB'.
  split; [done|]. split; [done|]. split; [done|]. pose proof (laid_free_sub _ _ _ HL) as HS.
  assert (HF : free_ring m' (free_header h) fl) by (eapply free_ring_same; [exact SF|done|apply HL]). split.
  - intros Hx. by eapply (laid_join m m' m').
  - intros l1 l2 ->. destruct (free_remove_ok _ _ _ _ _ _ HH HS HF) as [HR KB].
    split; [|etrans; [exact SD|apply KB]]. eapply (laid_join m m'); [done..| |]; [clear; set_solver|].
    destruct HF as [Hd _]. fold a x. clear -Hd. rewrite <- Permutation_middle in Hd.
    apply NoDup_cons in Hd as [_ Hd]. by apply NoDup_cons in Hd as [Hd _].
Qed.
End Heap.
