(* ===== verification/IpcWait.v ===== *)
(** Blocking on an object: what the lists of waiting threads of ipc.c are, and
    what a thread that blocks leaves behind and does when it is resumed. *)
From S2P Require Export Ipc KInv.
Local Open Scope Z_scope.

(** ** The order of the waiting threads *)

(** [t], of priority [p], before the first thread of a lower priority. *)
Fixpoint insert_prio (ts : gmap tid rt_thread) (p : Z) (t : tid) (l : list tid) : list tid :=
  match l with
  | [] => [t]
  | u :: l' => if p <? from_option current_priority 0 (ts !! u)
               then t :: l else u :: insert_prio ts p t l'
  end.
Definition wait_insert (flag : Z) (ts : gmap tid rt_thread) (p : Z) (t : tid) (l : list tid) :=
  if flag =? RT_IPC_FLAG_FIFO then l ++ [t] else insert_prio ts p t l.

Lemma insert_prio_perm ts p t l : insert_prio ts p t l ≡ₚ t :: l.
Proof.
  induction l as [|u l IH]; [done|]. simpl. destruct (_ <? _); [done|]. rewrite IH. apply Permutation_swap.
Qed.
Lemma wait_insert_perm flag ts p t l : wait_insert flag ts p t l ≡ₚ t :: l.
Proof.
  unfold wait_insert. destruct (_ =? _); [|apply insert_prio_perm].
  symmetry. apply Permutation_cons_append.
Qed.

(** The list stays sorted by priority. *)
Definition by_priority (ts : gmap tid rt_thread) (l : list tid) : Prop :=
  StronglySorted (fun u v => from_option current_priority 0 (ts !! u) <=
                             from_option current_priority 0 (ts !! v)) l.

Lemma insert_prio_sorted ts t th l :
  ts !! t = Some th -> by_priority ts l -> by_priority ts (insert_prio ts (current_priority th) t l).
Proof.
  intros Ht. unfold by_priority. induction l as [|u l IH]; intros Hl; simpl.
  - repeat constructor.
  - inversion_clear Hl as [|? ? Hs Hf]. rewrite Forall_forall in Hf. destruct (Z.ltb_spec (current_priority th)
      (from_option current_priority 0 (ts !! u))) as [Hlt|Hge].
    + constructor; [by constructor; [|apply Forall_forall]|].
      apply Forall_forall. intros v. rewrite elem_of_cons, Ht. simpl.
      intros [->|Hv]; [lia|]. specialize (Hf v Hv). simpl in Hf. lia.
    + constructor; [by apply IH|]. apply Forall_forall. intros v Hv.
      rewrite insert_prio_perm, elem_of_cons in Hv. destruct Hv as [->|Hv]; [rewrite Ht; simpl; lia|].
      by apply Hf.
Qed.

Lemma insert_prio_ext ts ts' p t l :
  (forall u, current_priority <$> ts' !! u = current_priority <$> ts !! u) ->
  insert_prio ts' p t l = insert_prio ts p t l.
Proof.
  intros E. induction l as [|u l IH]; [done|]. simpl.
  assert (from_option current_priority 0 (ts' !! u) = from_option current_priority 0 (ts !! u)) as ->.
  { specialize (E u). destruct (ts' !! u), (ts !! u); simpl in *; by simplify_eq. }
  destruct (_ <? _); [done|]. by rewrite IH.
Qed.

Lemma first_lower_insert ts p t l :
  (forall u, u ∈ l -> is_Some (ts !! u)) -> NoDup l ->
  exists o, first_lower ts p l = Some o /\
    insert_prio ts p t l = match o with Some u => insert_before_elem u t l | None => l ++ [t] end /\
    match o with Some u => u ∈ l | None => True end.
Proof.
  induction l as [|u l IH]; intros Hl Hd; simpl; [by exists None|].
  apply NoDup_cons in Hd as [Hu Hd].
  destruct (Hl u) as [uh Huh]; [set_solver|]. rewrite Huh. simpl.
  destruct (p <? current_priority uh).
  - exists (Some u). rewrite decide_True by done. split_and!; [done|done|set_solver].
  - destruct IH as (o & -> & -> & Ho); [set_solver|done|]. exists o. split; [done|].
    destruct o as [v|]; [|done]. split; [|set_solver]. by rewrite decide_False by (by intros ->).
Qed.

(** ** Joining the list *)
Lemma ipc_list_suspend_ok s me th q flag :
  kok s -> current_thread s = Some me -> threads s !! me = Some th ->
  stat_of th = RT_THREAD_RUNNING -> is_wait q = true -> valid_flag flag = true ->
  exists s', ipc_list_suspend q me flag s = Done RT_EOK s' /\ kok s' /\ kframe s s' /\
    current_thread s' = Some me /\
    threads s' = <[me := put_stat RT_THREAD_SUSPEND th]> (threads s) /\
    (forall h, queues s' !!! h = if decide (h = q)
       then wait_insert flag (threads s) (current_priority th) me (queues s !!! q)
       else queues s !!! h).
Proof.
  intros HK Hc Hth Hst Hq Hfl.
  destruct (rt_thread_suspend_ok s me th HK Hc Hth Hst)
    as (s1 & E1 & HK1 & F1 & Hc1 & Hun1 & HT1 & HQ1 & _).
  set (th1 := put_stat RT_THREAD_SUSPEND th).
  assert (Hth1 : threads s1 !! me = Some th1) by (rewrite HT1; apply lookup_insert_eq).
  assert (Hst1 : stat_of th1 = RT_THREAD_SUSPEND) by (by apply stat_of_put_stat).
  set (l := wait_insert flag (threads s1) (current_priority th) me (queues s1 !!! q)).
  destruct (kok_enqueue s1 me th1 q l HK1 Hun1 Hth1 Hst1 Hq (wait_insert_perm _ _ _ _ _)) as [HK2 F2].
  pose proof (ko_kinv _ HK1) as HI1.
  exists (s1 <| queues ::= <[q := l]> |>). split; [|split; [done|split; [by etrans|split; [done|split; [done|]]]]].
  - unfold ipc_list_suspend. erewrite bind_done by exact E1. unfold l, wait_insert.
    destruct (Z.eqb_spec flag RT_IPC_FLAG_FIFO) as [->|Hn]; [done|].
    assert ((flag =? RT_IPC_FLAG_PRIO) = true) as -> by (unfold valid_flag in Hfl; lia).
    erewrite bind_done by (by apply get_thread_eq). unfold get at 1. erewrite bind_done by done.
    destruct (first_lower_insert (threads s1) (current_priority th1) me (queue s1 q))
      as (o & Eo & Ei & Ho); [| |].
    { intros u Hu. destruct (ci_wait _ _ _ _ _ HI1 q u Hq Hu) as (uh & ? & _). by eexists. }
    { apply HI1. }
    rewrite Eo. erewrite bind_done by done. unfold queue in Ei.
    assert (Ep : current_priority th1 = current_priority th) by done. rewrite Ep in Ei.
    rewrite Ei. by destruct o.
  - intros h. change (queues (s1 <| queues ::= <[q := l]> |>)) with (<[q := l]> (queues s1)).
    destruct (decide (h = q)) as [->|Hne]; [|by rewrite lookup_total_insert_ne, HQ1].
    rewrite lookup_total_insert_eq. unfold l, wait_insert. rewrite HQ1. destruct (_ =? _); [done|].
    apply insert_prio_ext. intros u. rewrite HT1. destruct (decide (u = me)) as [->|].
    + by rewrite lookup_insert_eq, Hth.
    + by rewrite lookup_insert_ne.
Qed.

(** ** Giving up the processor *)

(** The current thread [me] can block: threads can be switched, another one is
    ready, and [me] is running. *)
Record may_block (s : kstate) (me : tid) (th : rt_thread) : Prop := {
  mb_kok : kok s;
  mb_current : current_thread s = Some me;
  mb_thread : threads s !! me = Some th;
  mb_running : stat_of th = RT_THREAD_RUNNING;
  mb_preempt : preemptableFlag th <> 1;
  mb_nest : interrupt_nest s = 0;
  mb_lock : scheduler_lock_nest s = 0;
  mb_ready : exists p u, u ∈ queues s !!! QReady p }.

(** No thread comes or goes, and those that are neither ready nor running stay
    as they are. *)
Definition dispatched (s : kstate) : Prop :=
  exists t th, current_thread s = Some t /\ threads s !! t = Some th /\ stat_of th = RT_THREAD_RUNNING.
Definition others (s s' : kstate) : Prop :=
  keeps_runnable s s' /\ dom (threads s') = dom (threads s) /\ dispatched s'.

Lemma sched_dom s s' : sched_frame s s' -> dom (threads s') = dom (threads s).
Proof. intros [_ HF]. apply (f_equal dom) in HF. by rewrite !dom_fmap_L in HF. Qed.

Lemma dispatched_sched s s' t th :
  kinv s' -> current_thread s' = Some t -> keeps_runnable s s' ->
  threads s !! t = Some th -> runnable th -> dispatched s'.
Proof.
  intros HI Hc HS Ht Hr. destruct (HS t th Ht) as (th' & Ht' & R). exists t, th'. do 2 (split; [done|]).
  pose proof (ci_cur_stat _ _ _ _ _ HI t th' ltac:(set_solver) Hc Ht').
  destruct R as [->|(_ & Hr' & _)]; [by destruct Hr|by destruct Hr'].
Qed.

(** Scheduling does not touch the lists of waiting threads. *)
Lemma lists_from_wait s me p to th Q' h :
  kinv s -> lists_from me p to (queues s) Q' -> threads s !! to = Some th -> runnable th ->
  is_wait h = true -> Q' !!! h = queues s !!! h.
Proof.
  intros HI HQ Hto Hr Hw. assert (Hne : to ∉ queues s !!! h).
  { intros Hf. destruct (ci_wait _ _ _ _ _ HI h _ Hw Hf) as (uh & Hu & Hs). simplify_eq.
    by destruct Hr as [Hr|Hr]; rewrite Hs in Hr. }
  destruct HQ as [-> | ->]; rewrite q_remove_lookup, ?q_push_back_lookup,
    ?decide_False by (by intros <-); by apply filter_alone.
Qed.

Lemma others_eq s1 s2 s' : threads s2 = threads s1 -> others s2 s' -> others s1 s'.
Proof. unfold others, keeps_runnable. by intros ->. Qed.

(** Nothing to do with signals when the thread is switched in. *)
Definition no_pending (th : rt_thread) : Prop :=
  sig_ret th = None /\ has_bits (stat th) RT_THREAD_STAT_SIGNAL_PENDING = false.

(** The call [o] of [me] switches out in [s'] to another thread; resumed
    without signals in any state, it goes on as [ret] of the thread's record. *)
Definition blocks {A} (me : tid) (o : outcome kstate A) (s' : kstate)
    (ret : rt_thread -> kstate -> outcome kstate A) : Prop :=
  exists k, o = Switch s' k /\ current_thread s' <> Some me /\
    forall s2 th2, current_thread s2 = Some me -> threads s2 !! me = Some th2 ->
      no_pending th2 -> k s2 = ret th2 s2.

Lemma blocks_bind {A B} me (o : outcome kstate A) s' ret (f : A -> prog kstate B) :
  blocks me o s' ret ->
  blocks me (outcome_bind f o) s' (fun th s => outcome_bind f (ret th s)).
Proof.
  intros (k & -> & Hc & Hk). eexists. split; [done|]. split; [done|].
  intros s2 th2 H1 H2 H3. by rewrite (Hk s2 th2).
Qed.

Lemma blocks_ext {A} me (o : outcome kstate A) s' ret ret' :
  blocks me o s' ret ->
  (forall s2 th2, threads s2 !! me = Some th2 -> ret th2 s2 = ret' th2 s2) -> blocks me o s' ret'.
Proof.
  intros (k & -> & Hc & Hk) Hr. eexists. split; [done|]. split; [done|].
  intros s2 th2 H1 H2 H3. rewrite (Hk s2 th2) by done. by apply Hr.
Qed.

Lemma kok_sched s s' :
  kok s -> kinv s' -> sched_frame s s' ->
  keeps_runnable s s' -> kok s'.
Proof.
  intros HK HI HF HS. pose proof HF as [EF _].
  assert (Etm : timers s' = timers s) by (by rewrite EF).
  assert (Etl : timer_list s' = timer_list s) by (by rewrite EF).
  apply (kok_frame s); [done|done|by apply sched_kframe| | |].
  - intros t th' Ht'.
    destruct (threads s !! t) as [th|] eqn:Ht.
    + exists th. split; [done|]. intros Hcl E. apply Hcl.
      destruct (HS t th Ht) as (th2 & Ht2 & [->|[Hr _]]); simplify_eq.
      by destruct Hr as [Hr|Hr]; rewrite E in Hr.
    + exfalso. destruct HF as [_ HF]. assert (E : (nostat <$> threads s') !! t = None).
      { by rewrite HF, lookup_fmap, Ht. }
      by rewrite lookup_fmap, Ht' in E.
  - intros t. by apply thread_timer_ok_eq.
  - intros tm. rewrite Etl. intros Hin. apply (timer_active_frame s); [by apply (ko_timers _ HK)| | |].
    + by rewrite Etm.
    + by rewrite EF.
    + intros t th _ Ht Hs. exists th. split; [by eapply keeps_stopped|done].
Qed.

Lemma ready_group s p u : kinv s -> u ∈ queues s !!! QReady p -> ready_priority_group s <> 0.
Proof.
  intros HI Hu E. destruct (ci_ready _ _ _ _ _ HI p u Hu) as (uh & Huh & Hs & Hp).
  destruct (proj1 (ci_thread _ _ _ _ _ HI u uh Huh)) as [Hr _]; [by rewrite Hs|].
  pose proof (ci_bits _ _ _ _ _ HI p) as Hb. rewrite E, Z.bits_0 in Hb.
  unfold RT_THREAD_PRIORITY_MAX in Hr. specialize (Hb ltac:(lia)). symmetry in Hb.
  apply bool_decide_eq_false in Hb. apply Hb. intros E0. rewrite E0 in Hu. by apply elem_of_nil in Hu.
Qed.

Lemma in_thread_context_eq s me :
  current_thread s = Some me -> interrupt_nest s = 0 -> RT_DEBUG_IN_THREAD_CONTEXT s = Done tt s.
Proof.
  intros Hc Hn. unfold RT_DEBUG_IN_THREAD_CONTEXT, RT_DEBUG_NOT_IN_INTERRUPT, rt_thread_self.
  rewrite bind_gets, Hc. rewrite bool_decide_true by (by eexists).
  erewrite bind_done by done. by rewrite bind_gets, Hn.
Qed.
#[export] Hint Resolve in_thread_context_eq : steps.

(** Clearing the error of the caller first does not change whether it can block. *)
Definition no_error (me : tid) (th : rt_thread) (s : kstate) : kstate :=
  s <| threads ::= <[me := th <| error := RT_EOK |>]> |>.

Lemma no_error_ok s me th :
  may_block s me th -> may_block (no_error me th s) me (th <| error := RT_EOK |>) /\ kframe s (no_error me th s).
Proof.
  intros [HK Hc Hth Hst Hp Hn Hl Hu].
  destruct (kok_set_thread s me th (th <| error := RT_EOK |>) HK Hth) as [HK' F]; [done..|].
  split; [|done]. split; try done. apply lookup_insert_eq.
Qed.

(** The caller is the current thread and no interrupt is being served. *)
Record thread_context (s : kstate) (me : tid) (th : rt_thread) : Prop := {
  tc_kok : kok s;
  tc_current : current_thread s = Some me;
  tc_thread : threads s !! me = Some th;
  tc_nest : interrupt_nest s = 0 }.

Lemma may_block_context s me th : may_block s me th -> thread_context s me th.
Proof. by intros []. Qed.

Lemma no_error_context s me th :
  thread_context s me th -> thread_context (no_error me th s) me (th <| error := RT_EOK |>) /\
  kframe s (no_error me th s).
Proof.
  intros [HK Hc Hth Hn].
  destruct (kok_set_thread s me th (th <| error := RT_EOK |>) HK Hth) as [HK' F]; [done..|].
  split; [|done]. split; try done. apply lookup_insert_eq.
Qed.

Lemma no_error_put s me th th' :
  no_error me th s <| threads ::= <[me := th']> |> = s <| threads ::= <[me := th']> |>.
Proof. destruct s. unfold no_error, upd, F_threads. simpl. by rewrite insert_insert_eq. Qed.

Lemma wait_insert_no_error flag s me th p t l :
  threads s !! me = Some th ->
  wait_insert flag (threads (no_error me th s)) p t l = wait_insert flag (threads s) p t l.
Proof.
  intros Hth. unfold wait_insert. destruct (_ =? _); [done|]. apply insert_prio_ext.
  intros u. simpl. destruct (decide (u = me)) as [->|].
  - by rewrite lookup_insert_eq, Hth.
  - by rewrite lookup_insert_ne.
Qed.

Lemma sched_next_runnable s me c first p :
  kinv s -> threads s !! me = Some c -> first ∈ queues s !!! QReady p ->
  exists th, threads s !! sched_next me c first p = Some th /\ runnable th.
Proof.
  intros HI Hme Hin. destruct (ci_ready _ _ _ _ _ HI p first Hin) as (fh & Hfh & Hfs & _).
  unfold sched_next. destruct (Z.eqb_spec (stat_of c) RT_THREAD_RUNNING) as [Ec|Ec].
  - unfold check_priorities. repeat case_match; simpl; eexists; (split; [done|]); (by right) || (by left).
  - exists fh. split; [done|]. by left.
Qed.

Section Blocking.
Context `{!SignalOps}.

Lemma resumed_quiet me th s :
  current_thread s = Some me -> threads s !! me = Some th -> no_pending th ->
  resumed s = Done tt s.
Proof.
  intros Hc Hth [H1 H2]. unfold resumed, run_signal_frame, check_signal_pending.
  assert (E : forall {B} (f : tid -> prog kstate B), (self ≫= f) s = f me s).
  { intros B f. by erewrite bind_done by (by apply self_eq). }
  assert (E' : forall {B} (f : rt_thread -> prog kstate B), (get_thread me ≫= f) s = f th s).
  { intros B f. by erewrite bind_done by (by apply get_thread_eq). }
  erewrite bind_done; [by rewrite E, E', H2|]. by rewrite E, E', H1.
Qed.

Lemma rt_schedule_blocks s me th :
  kok s -> current_thread s = Some me -> threads s !! me = Some th ->
  stat_of th = RT_THREAD_SUSPEND -> preemptableFlag th <> 1 ->
  interrupt_nest s = 0 -> scheduler_lock_nest s = 0 -> ready_priority_group s <> 0 ->
  exists s', blocks me (rt_schedule s) s' (fun _ s2 => Done tt s2) /\ kok s' /\ sched_frame s s' /\
    threads s' !! me = Some th /\
    (forall h, is_wait h = true -> queues s' !!! h = queues s !!! h) /\ others s s'.
Proof.
  intros HK Hc Hth Hst Hp Hn Hl Hg.
  assert (Hm : may_schedule s th = true).
  { unfold may_schedule. rewrite Hl. simpl. lia. }
  destruct (rt_schedule_yes s me th (ko_kinv _ HK) Hc Hth Hm)
    as (first & p & s' & (Hp1 & Hh & _) & HI & HF & Hc' & HQ & HS & E).
  assert (Hin : first ∈ queues s !!! QReady p).
  { unfold queue in Hh. destruct (queues s !!! QReady p); [done|]. injection Hh as ->. set_solver. }
  destruct (ci_ready _ _ _ _ _ (ko_kinv _ HK) p first Hin) as (fh & Hfh & Hfs & _).
  assert (Hne : first <> me) by (intros ->; simplify_eq; by rewrite Hst in Hfs).
  assert (En : sched_next me th first p = first) by (unfold sched_next; by rewrite Hst).
  rewrite En in *. rewrite bool_decide_true in E by done. rewrite Hn in E. cbn [andb] in E.
  exists s'. split; [|split; [|split; [done|split; [|split; [|]]]]].
  - eexists. split; [exact E|]. split; [congruence|]. intros s2 th2 H1 H2 H3. by eapply resumed_quiet.
  - by apply (kok_sched s).
  - by eapply keeps_stopped.
  - intros h Hw. eapply (lists_from_wait s me _ first fh); [apply HK|exact HQ|done|by left|done].
  - split; [done|]. split; [by apply sched_dom|]. eapply (dispatched_sched s s' first fh); [done..|by left].
Qed.

(** Starting the timer for a positive [time] and giving up the processor, for
    a thread that is suspended already. *)
Lemma timed_schedule s1 me th1 time :
  kok s1 -> current_thread s1 = Some me -> threads s1 !! me = Some th1 ->
  stat_of th1 = RT_THREAD_SUSPEND -> preemptableFlag th1 <> 1 -> interrupt_nest s1 = 0 ->
  scheduler_lock_nest s1 = 0 -> ready_priority_group s1 <> 0 -> time < RT_TICK_MAX / 2 ->
  exists s2 s', when (0 <? time) (start_thread_timer me time) s1 = Done tt s2 /\
    blocks me (rt_schedule s2) s' (fun _ s3 => Done tt s3) /\ kok s' /\ kframe s1 s' /\
    threads s' !! me = Some th1 /\
    (forall h, is_wait h = true -> queues s' !!! h = queues s1 !!! h) /\
    (0 < time -> wakes_at me (u32 (rt_tick s1 + time)) s') /\ others s1 s'.
Proof.
  intros HK1 Hc1 Hth1 Hst1 Hp Hn Hl Hg Ht.
  assert (H2 : exists s2, when (0 <? time) (start_thread_timer me time) s1 = Done tt s2 /\ kok s2 /\
    kframe s1 s2 /\ threads s2 = threads s1 /\ queues s2 = queues s1 /\
    current_thread s2 = current_thread s1 /\ ready_priority_group s2 = ready_priority_group s1 /\
    (0 < time -> wakes_at me (u32 (rt_tick s1 + time)) s2)).
  { destruct (Z.ltb_spec 0 time) as [Hpos|Hneg]; [|exists s1; split_and!; try done; lia].
    destruct (start_thread_timer_ok s1 me th1 time HK1 Hth1 Hst1) as (s2 & E2 & HK2 & F2 & HT2 & HQ2 & HC2 & HG2 & HW2);
      [lia|]. exists s2. split_and!; try done. }
  destruct H2 as (s2 & E2 & HK2 & F2 & HT2 & HQ2 & HC2 & HG2 & HW2).
  destruct (rt_schedule_blocks s2 me th1 HK2) as (s' & HB & HK' & HF' & Hth' & HQ' & HO').
  { congruence. } { by rewrite HT2. } { done. } { done. }
  { by rewrite (kf_nest _ _ F2). } { by rewrite (kf_lock _ _ F2). } { congruence. }
  exists s2, s'. do 3 (split; [done|]). split; [|split; [done|split; [|split]]].
  - etrans; [exact F2|]. by apply sched_kframe.
  - intros h Hh. by rewrite HQ', HQ2.
  - intros Hpos. destruct (HW2 Hpos) as (Hin & x & Hx & Htk). destruct HF' as [EF _].
    unfold wakes_at. rewrite EF. simpl. split; [done|]. by exists x.
  - by eapply others_eq.
Qed.

(** Joining the list of [q], starting the timer and giving up the processor:
    the common part of the blocking calls of ipc.c. *)
Definition block_on (q : qhead) (me : tid) (flag time : Z) : K Z :=
  ipc_list_suspend q me flag;;
  when (0 <? time) (start_thread_timer me time);;
  wait_result me.

Record blocked (s s' : kstate) (me : tid) (th : rt_thread) (q : qhead) (flag time : Z) : Prop := {
  bl_kok : kok s';
  bl_frame : kframe s s';
  bl_thread : threads s' !! me = Some (put_stat RT_THREAD_SUSPEND th);
  bl_queue h : is_wait h = true -> queues s' !!! h = if decide (h = q)
    then wait_insert flag (threads s) (current_priority th) me (queues s !!! q) else queues s !!! h;
  bl_timer : 0 < time -> wakes_at me (u32 (rt_tick s + time)) s';
  bl_others : others (s <| threads ::= <[me := put_stat RT_THREAD_SUSPEND th]> |>) s' }.

Lemma block_steps s me th q flag time :
  may_block s me th -> is_wait q = true -> valid_flag flag = true -> time < RT_TICK_MAX / 2 ->
  exists s1 s2 s', ipc_list_suspend q me flag s = Done RT_EOK s1 /\
    when (0 <? time) (start_thread_timer me time) s1 = Done tt s2 /\
    blocks me (wait_result me s2) s' (fun th2 s3 => Done (error th2) s3) /\
    blocked s s' me th q flag time.
Proof.
  intros [HK Hc Hth Hst Hp Hn Hl (p & u & Hu)] Hq Hfl Ht.
  destruct (ipc_list_suspend_ok s me th q flag HK Hc Hth Hst Hq Hfl)
    as (s1 & E1 & HK1 & F1 & Hc1 & HT1 & HQ1).
  set (th1 := put_stat RT_THREAD_SUSPEND th) in *.
  assert (Hth1 : threads s1 !! me = Some th1) by (rewrite HT1; apply lookup_insert_eq).
  assert (Hst1 : stat_of th1 = RT_THREAD_SUSPEND) by (by apply stat_of_put_stat).
  destruct (timed_schedule s1 me th1 time HK1) as (s2 & s' & E2 & HB & HK' & F2 & Hth' & HQ' & HW & HO); try done.
  { by rewrite (kf_nest _ _ F1). } { by rewrite (kf_lock _ _ F1). }
  { eapply (ready_group _ p u (ko_kinv _ HK1)). rewrite HQ1. by rewrite decide_False by (by intros <-). }
  exists s1, s2, s'. do 2 (split; [done|]). split.
  - unfold wait_result. destruct HB as (k & E & Hc' & Hk). unfold mbind, prog_bind. rewrite E.
    eexists. split; [done|]. split; [done|]. intros s3 th3 H1 H2 H3. cbn beta.
    rewrite (Hk _ _ H1 H2 H3). cbn [outcome_bind]. rewrite (get_thread_eq _ _ _ H2). cbn [outcome_bind].
    unfold mret, prog_ret. destruct (Z.eqb_spec (error th3) RT_EOK) as [->|]; done.
  - split; [done| |done| | |].
    + by etrans.
    + intros h Hh. rewrite HQ' by done. apply HQ1.
    + intros Hpos. rewrite <- (kf_tick _ _ F1). by apply HW.
    + by eapply others_eq.
Qed.

Lemma block_on_ok s me th q flag time :
  may_block s me th -> is_wait q = true -> valid_flag flag = true -> time < RT_TICK_MAX / 2 ->
  exists s', blocks me (block_on q me flag time s) s' (fun th2 s2 => Done (error th2) s2) /\
    blocked s s' me th q flag time.
Proof.
  intros. destruct (block_steps s me th q flag time) as (s1 & s2 & s' & E1 & E2 & HB & Hb); [done..|].
  exists s'. split; [|done]. unfold block_on. erewrite bind_done by exact E1.
  by erewrite bind_done by exact E2.
Qed.

(** The same when the call goes on with [f]. *)
Definition block_then {A} (q : qhead) (me : tid) (flag time : Z) (f : Z -> K A) : K A :=
  ipc_list_suspend q me flag;;
  when (0 <? time) (start_thread_timer me time);;
  e ← wait_result me;
  f e.

Lemma block_then_ok {A} s me th q flag time (f : Z -> K A) :
  may_block s me th -> is_wait q = true -> valid_flag flag = true -> time < RT_TICK_MAX / 2 ->
  exists s', blocks me (block_then q me flag time f s) s' (fun th2 s2 => f (error th2) s2) /\
    blocked s s' me th q flag time.
Proof.
  intros. destruct (block_steps s me th q flag time) as (s1 & s2 & s' & E1 & E2 & HB & Hb); [done..|].
  exists s'. split; [|done]. unfold block_then. erewrite bind_done by exact E1.
  erewrite bind_done by exact E2. exact (blocks_bind _ _ _ _ f HB).
Qed.
End Blocking.

(** ** Waking the first waiting thread *)
Lemma woken_wait_queues s s1 t th h :
  kinv s -> woken t th s s1 -> is_wait h = true ->
  queues s1 !!! h = filter (.≠ t) (queues s !!! h).
Proof.
  intros HI Hw Hh. unfold woken in Hw. destruct (decide _); destruct Hw as [_ ->].
  - apply q_remove_lookup.
  - rewrite q_push_back_lookup, decide_False by (by intros <-). apply q_remove_lookup.
Qed.

Lemma ipc_list_resume_ok s q t l :
  kok s -> is_wait q = true -> queues s !!! q = t :: l ->
  exists th s1, threads s !! t = Some th /\ stat_of th = RT_THREAD_SUSPEND /\
    ipc_list_resume q s = Done RT_EOK s1 /\ kok s1 /\ kframe s s1 /\
    current_thread s1 = current_thread s /\ woken t th s s1 /\
    (forall h, is_wait h = true -> queues s1 !!! h = if decide (h = q) then l else queues s !!! h).
Proof.
  intros HK Hq El. pose proof (ko_kinv _ HK) as HI.
  assert (Ht : t ∈ queues s !!! q) by (rewrite El; set_solver).
  destruct (ci_wait _ _ _ _ _ HI q t Hq Ht) as (th & Hth & Hst).
  destruct (rt_thread_resume_ok s t th HK Hth Hst) as (s1 & E & HK1 & F1 & Hc1 & Hw & _).
  exists th, s1. do 2 (split; [done|]). split; [|split; [done|split; [done|split; [done|split; [done|]]]]].
  - unfold ipc_list_resume. rewrite bind_gets. unfold queue. rewrite El.
    erewrite bind_done by done. by erewrite bind_done by exact E.
  - intros h Hh. rewrite (woken_wait_queues s s1 t th h HI Hw Hh). case_decide as E1.
    + subst h. pose proof (ci_nodup _ _ _ _ _ HI q) as Hd. rewrite El in *.
      apply NoDup_cons in Hd as [Hd _]. rewrite filter_cons, decide_False by tauto. by apply filter_alone.
    + apply filter_alone. intros Hin. apply E1. by apply (ci_one _ _ _ _ _ HI h q t).
Qed.

(** ** Waking all of them *)

(** [l] waited in [q]: its threads are ready, in their order, with [error] set to
    [e]. Nothing else has changed. *)
Record all_resumed (q : qhead) (l : list tid) (e : Z) (s s' : kstate) : Prop := {
  ar_kok : kok s';
  ar_frame : kframe s s';
  ar_current : current_thread s' = current_thread s;
  ar_threads u : threads s' !! u =
    if decide (u ∈ l) then (fun th => put_stat RT_THREAD_READY (th <| error := e |>)) <$> threads s !! u
    else threads s !! u;
  ar_wait h : is_wait h = true -> queues s' !!! h = if decide (h = q) then [] else queues s !!! h;
  ar_defunct : queues s' !!! QDefunct = queues s !!! QDefunct;
  ar_ready p : queues s' !!! QReady p = queues s !!! QReady p ++
    filter (fun t => from_option current_priority 0 (threads s !! t) = p) l;
  ar_timers tm : tm ∈ timer_list s' -> tm ∈ timer_list s }.

Lemma resume_one_ok s q t l e :
  kok s -> is_wait q = true -> queues s !!! q = t :: l -> current_thread s <> Some t ->
  exists th s1 s2, threads s !! t = Some th /\
    mod_thread t (fun th => th <| error := e |>) s = Done tt s1 /\ rt_thread_resume t s1 = Done RT_EOK s2 /\
    kok s2 /\ kframe s s2 /\ current_thread s2 = current_thread s /\
    threads s2 = <[t := put_stat RT_THREAD_READY (th <| error := e |>)]> (threads s) /\
    queues s2 = q_push_back (QReady (current_priority th)) t (q_remove t (queues s)) /\
    timer_list s2 = filter (fun x => x <> thread_timer t) (timer_list s).
Proof.
  intros HK Hq El Hc. assert (Ht : t ∈ queues s !!! q) by (rewrite El; set_solver).
  destruct (ci_wait _ _ _ _ _ (ko_kinv _ HK) q t Hq Ht) as (th & Hth & Hst).
  destruct (kok_set_thread s t th (th <| error := e |>) HK Hth) as [HK1 F1]; [done..|].
  destruct (rt_thread_resume_ok _ t (th <| error := e |>) HK1) as (s2 & E & HK2 & F2 & Hc2 & Hw & _ & HT2);
    [apply lookup_insert_eq|done|].
  exists th, (s <| threads ::= <[t := th <| error := e |>]> |>), s2. split; [done|].
  split; [by apply mod_thread_eq|]. split; [done|]. split; [done|]. split; [by etrans|]. split; [done|].
  unfold woken in Hw. rewrite decide_False in Hw by done. destruct Hw as [-> ->].
  split; [apply insert_insert_eq|done].
Qed.

Lemma resume_loop_ok l : forall fuel s q e,
  kok s -> is_wait q = true -> queues s !!! q = l -> (forall t, current_thread s = Some t -> t ∉ l) ->
  (length l <= fuel)%nat ->
  exists s', resume_loop fuel q e s = Done tt s' /\ all_resumed q l e s s'.
Proof.
  induction l as [|t l IH]; intros fuel s q e HK Hq El Hc Hfuel.
  - exists s. split; [destruct fuel; cbn [resume_loop]; rewrite bind_gets; unfold queue; by rewrite El|].
    split; try done. + intros h _. case_decide; congruence. + intros p. by rewrite app_nil_r.
  - destruct fuel as [|fuel]; [cbn in Hfuel; lia|].
    destruct (resume_one_ok s q t l e HK Hq El) as (th & s1 & s2 & Hth & E1 & E2 & HK2 & F2 & HC2 & HT2 & HQ2 & HL2).
    { intros E. apply (Hc t E). set_solver. }
    pose proof (ko_kinv _ HK) as HI. pose proof (ci_nodup _ _ _ _ _ HI q) as Hd. rewrite El in Hd.
    apply NoDup_cons in Hd as [Htl Hd].
    assert (HQW : forall h, is_wait h = true -> queues s2 !!! h = if decide (h = q) then l else queues s !!! h).
    { intros h Hh. rewrite HQ2, q_push_back_lookup, decide_False, q_remove_lookup by (by intros <-). case_decide as Eh.
      - subst h. rewrite El, filter_cons, decide_False by tauto. by apply filter_alone.
      - apply filter_alone. intros Hin. apply Eh, (ci_one _ _ _ _ _ HI h q t Hin). rewrite El. set_solver. }
    assert (Hun : forall h, is_wait h = false -> t ∉ queues s !!! h).
    { intros h Hh Hin. assert (h = q) as -> by (apply (ci_one _ _ _ _ _ HI h q t Hin); rewrite El; set_solver). congruence. }
    destruct (IH fuel s2 q e HK2 Hq) as (s' & E & [A1 A2 A3 A4 A5 A6 A7 A8]).
    { by rewrite HQW, decide_True. } { intros u. rewrite HC2. intros Hu. specialize (Hc u Hu). set_solver. }
    { cbn in Hfuel. lia. }
    exists s'. split.
    { cbn [resume_loop]. rewrite bind_gets. unfold queue. rewrite El.
      erewrite bind_done by exact E1. by erewrite bind_done by exact E2. }
    split; [done|by etrans|congruence|..].
    + intros u. rewrite A4, HT2. destruct (decide (u = t)) as [->|Hne].
      * rewrite decide_False, decide_True, lookup_insert_eq, Hth by set_solver. done.
      * rewrite lookup_insert_ne by done. destruct (decide (u ∈ l)); [rewrite decide_True by set_solver|rewrite decide_False by set_solver]; done.
    + intros h Hh. rewrite A5 by done. case_decide as Eh; [done|]. by rewrite HQW, decide_False.
    + rewrite A6, HQ2, q_push_back_lookup, decide_False, q_remove_lookup by done. apply filter_alone. by apply Hun.
    + intros p. rewrite A7, HQ2, q_push_back_lookup, !q_remove_lookup, !filter_alone, filter_cons, Hth by (by apply Hun).
      cbn [from_option]. assert (Ef : filter (fun u => from_option current_priority 0 (threads s2 !! u) = p) l =
        filter (fun u => from_option current_priority 0 (threads s !! u) = p) l).
      { apply filter_ext_in. intros u Hu. rewrite HT2, lookup_insert_ne; [done|]. by intros ->. }
      rewrite Ef. destruct (decide (QReady (current_priority th) = QReady p)) as [[= ->]|Hne].
      * rewrite decide_True by done. by rewrite <- app_assoc.
      * rewrite decide_False by congruence. done.
    + intros tm Hin%A8. rewrite HL2 in Hin. by apply list_elem_of_filter in Hin as [_ ?].
Qed.

Lemma resume_all_ok s q l e :
  kok s -> is_wait q = true -> queues s !!! q = l -> (forall t, current_thread s = Some t -> t ∉ l) ->
  exists s', resume_all q e s = Done tt s' /\ all_resumed q l e s s'.
Proof.
  intros HK Hq El Hc. unfold resume_all. rewrite bind_gets. unfold queue. rewrite El.
  by apply resume_loop_ok.
Qed.

(** ** States to run examples on

    Thread 1 runs, with priority 10, and thread 2, of priority 5, is suspended;
    there is an object of every kind, with the number 1. *)
Definition header (type flag : Z) : rt_object := RtObject [] (Z.lor type RT_Object_Class_Static) flag.
Definition objects0 : gmap ref rt_object :=
  {[thread_ref 1 := header RT_Object_Class_Thread 0; thread_ref 2 := header RT_Object_Class_Thread 0;
    timer_ref (thread_timer 1) := header RT_Object_Class_Timer 0;
    timer_ref (thread_timer 2) := header RT_Object_Class_Timer 0;
    (KSem, 1%positive) := header RT_Object_Class_Semaphore RT_IPC_FLAG_FIFO;
    (KMutex, 1%positive) := header RT_Object_Class_Mutex RT_IPC_FLAG_PRIO;
    (KEvent, 1%positive) := header RT_Object_Class_Event RT_IPC_FLAG_PRIO;
    (KMailBox, 1%positive) := header RT_Object_Class_MailBox RT_IPC_FLAG_FIFO;
    (KMQ, 1%positive) := header RT_Object_Class_MessageQueue RT_IPC_FLAG_FIFO]}.
Definition idle_timer (t : tid) : rt_timer := RtTimer F_rt_thread_timeout t 0 0.
Definition kstate_idle : kstate :=
  kstate0 <| objs := objects0 |>
    <| timers := {[thread_timer 1 := idle_timer 1; thread_timer 2 := idle_timer 2]} |>.
(** Thread 2 ready, and thread 2 waiting. *)
Definition kstate_ready : kstate := after (rt_schedule_insert_thread 2%positive) kstate_idle.
Definition kstate_waiting (q : qhead) : kstate := kstate_idle <| queues ::= <[q := [2%positive]]> |>.

Lemma kstate_idle_kok : kok kstate_idle.
Proof.
  split.
  - by eapply kinv_same_data; [apply kstate0_kinv|..].
  - intros t th Ht _.
    change ((<[1%positive := thread0 RT_THREAD_RUNNING 10]>
              {[2%positive := thread0 RT_THREAD_SUSPEND 5]} : gmap tid rt_thread) !! t = Some th) in Ht.
    apply lookup_insert_Some in Ht as [[<- <-]|[_ [<- <-]%lookup_singleton_Some]];
      (split; [by eexists|split; by eexists]).
  - intros tm Hin. by apply elem_of_nil in Hin.
Qed.

Lemma kstate_ready_kok : kok kstate_ready.
Proof.
  destruct (kinv_insert ∅ 2%positive (thread0 RT_THREAD_SUSPEND 5) kstate_idle)
    as (s' & E & HI & _ & HF & _ & v & _ & HS); [apply kstate_idle_kok|done|done| |].
  - intros h. exact (not_elem_of_nil 2%positive).
  - unfold kstate_ready, after. rewrite E.
    pose proof HF as [EF _].
    apply (kok_frame kstate_idle); [apply kstate_idle_kok| |by apply sched_kframe| | |].
    + eapply kinv_ex_empty; [|exact HI]. set_solver.
    + intros t th' Ht. destruct (decide (t = 2%positive)) as [->|Hne].
      * by exists (thread0 RT_THREAD_SUSPEND 5).
      * rewrite HS, lookup_insert_ne in Ht by done. eauto.
    + intros t. apply thread_timer_ok_eq. by rewrite EF.
    + intros tm. rewrite EF. intros Hin. by apply elem_of_nil in Hin.
Qed.

Lemma kstate_waiting_kok q : is_wait q = true -> kok (kstate_waiting q).
Proof.
  intros Hq. apply (kok_enqueue kstate_idle 2%positive (thread0 RT_THREAD_SUSPEND 5) q [2%positive]);
    [apply kstate_idle_kok| |done|done|done|done].
  intros h. exact (not_elem_of_nil 2%positive).
Qed.

Lemma kstate_ready_may_block : may_block kstate_ready 1%positive (thread0 RT_THREAD_RUNNING 10).
Proof.
  split; [apply kstate_ready_kok|by vm_compute..|]. exists 5, 2%positive. vm_compute. set_solver.
Qed.

Lemma kstate_waiting_context q :
  is_wait q = true -> thread_context (kstate_waiting q) 1%positive (thread0 RT_THREAD_RUNNING 10).
Proof. intros Hq. split; try done. by apply kstate_waiting_kok. Qed.
