(* ===== verification/HeapSpec.v ===== *)
(** Dynamic memory: what the kernel needs of [rt_malloc] and [rt_free], as an
    interface, and the objects that live in the memory they give out. *)
From S2P Require Export IpcWait Idle.
Local Open Scope Z_scope.

(** ** The interface *)

(** The heap has objects of its own ([private]): nothing that it depends on has
    changed. *)
Record heap_same (private : ref -> Prop) (s s' : kstate) : Prop := {
  hs_mem : heap_mem s' = heap_mem s;
  hs_heaps : memheaps s' = memheaps s;
  hs_objs r : private r -> objs s' !! r = objs s !! r;
  hs_sems x : private (sem_ref x) -> sems s' !! x = sems s !! x;
  hs_queue x : private (sem_ref x) -> queue s' (QSuspend (sem_ref x)) = queue s (QSuspend (sem_ref x));
  hs_list : object_list s' RT_Object_Class_MemHeap = object_list s RT_Object_Class_MemHeap }.

#[export] Instance heap_same_preorder private : PreOrder (heap_same private).
Proof.
  split; [by intros s|]. intros s1 s2 s3 [A1 A2 A3 A4 A5 A6] [B1 B2 B3 B4 B5 B6].
  split; [congruence|congruence|..|congruence]; intros z Hz.
  - by rewrite B3, A3.
  - by rewrite B4, A4.
  - by rewrite B5, A5.
Qed.

(** What the heap changes. *)
Definition heap_step (s s' : kstate) : Prop :=
  s' = s <| heap_mem := heap_mem s' |> <| memheaps := memheaps s' |>.

(** The object that a reference is a part of, and where that object starts. *)
Definition owner_of (r : ref) : ref := match r with (KTimer, xO t) => thread_ref t | _ => r end.
Definition home (r : ref) : Z := object_addr (owner_of r).

(** [B]: the blocks given out, their sizes by their addresses. *)
Class HeapSpec `{!HeapOps} := {
  heap_private : ref -> Prop;
  heap_region : Z -> Prop;
  heap_owns : gmap Z Z -> kstate -> Prop;
  private_kind r : heap_private r -> fst r = KMemHeap \/ fst r = KSem;
  private_region r : heap_private r -> ~ heap_region (object_addr r);
  region_pos a : heap_region a -> 0 < a;
  owns_same B s s' : heap_same heap_private s s' -> heap_owns B s -> heap_owns B s';
  owns_region B s a n : heap_owns B s -> B !! a = Some n -> heap_region a;
  owns_list B s r : heap_owns B s -> r ∈ object_list s RT_Object_Class_MemHeap ->
    ~ heap_region (home r);
  owns_apart B s a n b k : heap_owns B s -> B !! a = Some n -> B !! b = Some k -> a <> b ->
    a + n <= b \/ b + k <= a;
  owns_idle B s x : heap_owns B s -> heap_private (sem_ref x) -> queue s (QSuspend (sem_ref x)) = [];
  owns_bytes B s : heap_owns B s -> bytes (heap_mem s);
  owns_write B s a n m : heap_owns B s -> B !! a = Some n -> bytes m ->
    (forall x, in_range a n x = false -> m x = heap_mem s x) -> heap_owns B (s <| heap_mem := m |>);
  heap_malloc_ok B s n : heap_owns B s -> 0 <= n <= 2 ^ 32 - 4 ->
    exists r s', heap_malloc n s = Done r s' /\
      match r with
      | None => s' = s
      | Some a => B !! a = None /\ heap_step s s' /\ exists k, n <= k /\ heap_owns (<[a := k]> B) s'
      end;
  heap_free_ok B s a n : heap_owns B s -> B !! a = Some n ->
    exists s', heap_free a s = Done tt s' /\ heap_step s s' /\ heap_owns (delete a B) s' }.

(** ** Objects on the heap *)

(** Nobody waits for the object, and it is not in use. *)
Definition unused (r : ref) (s : kstate) : Prop :=
  queue s (QSuspend r) = [] /\ queue s (QSender r) = [] /\
  match r with
  | (KThread, t) => forall th, threads s !! t = Some th ->
      stat_of th = RT_THREAD_CLOSE /\ t ∉ queue s QDefunct
  | (KTimer, tm) => tm ∉ timer_list s
  | _ => True
  end.
Definition unlisted (r : ref) (s : kstate) : Prop := forall c, r ∉ object_list s c.
Definition clean (r : ref) (s : kstate) : Prop := unlisted r s /\ unused r s.
(** Nothing is left of an object that was there before. *)
Definition fresh_object (x : ref) (s : kstate) : Prop := forall r, owner_of r = x -> clean r s.

Lemma object_at_home c a : 0 < a -> home (object_at c a) = a /\ owner_of (object_at c a) = object_at c a.
Proof.
  intros Ha. unfold object_at. destruct (_ !! c) as [[]|]; cbn; (split; [lia|done]).
Qed.

Section Dynamic.
Context `{!HeapOps, !HeapSpec}.

(** [D]: the blocks given out, with their sizes and the objects in them. No
    object is in the rest of the memory of the heap. *)
Record dyn_ok (D : gmap Z (Z * option ref)) (s : kstate) : Prop := {
  dy_heap : heap_owns (fst <$> D) s;
  dy_clean r : heap_region (home r) -> clean r s \/ exists n, D !! home r = Some (n, Some (owner_of r)) }.

Lemma dyn_ok_fresh D s a r : dyn_ok D s -> heap_region a -> D !! a = None -> home r = a -> clean r s.
Proof. intros HD Ha Hn <-. destruct (dy_clean _ _ HD r Ha) as [|(n & E)]; [done|congruence]. Qed.

(** Steps that leave the heap alone and use no more of it. *)
Lemma dyn_ok_step D s s' :
  dyn_ok D s -> heap_same heap_private s s' ->
  (forall r, heap_region (home r) -> clean r s -> clean r s' \/ exists n, D !! home r = Some (n, Some (owner_of r))) ->
  dyn_ok D s'.
Proof.
  intros HD HS Hc. split; [by eapply owns_same; [|apply HD]|]. intros r Hr.
  destruct (dy_clean _ _ HD r Hr) as [Hr'|]; [|by right]. by apply Hc.
Qed.

(** [clean] reads the lists, the threads and the active timers. *)
Lemma clean_same r s s' :
  containers s' = containers s -> queues s' = queues s -> threads s' = threads s ->
  timer_list s' = timer_list s -> clean r s -> clean r s'.
Proof. unfold clean, unlisted, unused, object_list, queue. by intros -> -> -> ->. Qed.

Lemma heap_step_clean r s s' : heap_step s s' -> clean r s -> clean r s'.
Proof. intros E. apply clean_same; by rewrite E. Qed.

(** Allocating and freeing a block that holds no object. *)
Lemma dyn_malloc_ok D s n :
  dyn_ok D s -> 0 <= n <= 2 ^ 32 - 4 ->
  exists r s', heap_malloc n s = Done r s' /\
    match r with
    | None => s' = s
    | Some a => D !! a = None /\ heap_region a /\ heap_step s s' /\
        exists k, n <= k /\ dyn_ok (<[a := (k, None)]> D) s'
    end.
Proof.
  intros HD Hn. destruct (heap_malloc_ok _ s n (dy_heap _ _ HD) Hn) as ([a|] & s' & E & HR); eexists _, _; [|done].
  destruct HR as (Ha & HS & k & Hk & HO). split; [exact E|]. rewrite lookup_fmap, fmap_None in Ha.
  split; [done|]. split; [eapply owns_region; [exact HO|apply lookup_insert_eq]|]. split; [done|].
  exists k. split; [done|]. split; [by rewrite fmap_insert|]. intros r Hr.
  destruct (dy_clean _ _ HD r Hr) as [Hc|(j & Ej)]; [left; by eapply heap_step_clean|right].
  exists j. by rewrite lookup_insert_ne by congruence.
Qed.

Lemma dyn_free_ok D s a n :
  dyn_ok D s -> D !! a = Some (n, None) ->
  exists s', heap_free a s = Done tt s' /\ heap_step s s' /\ dyn_ok (delete a D) s'.
Proof.
  intros HD Ha. destruct (heap_free_ok _ s a n (dy_heap _ _ HD)) as (s' & E & HS & HO); [by rewrite lookup_fmap, Ha|].
  exists s'. split; [done|]. split; [done|]. split; [by rewrite fmap_delete|]. intros r Hr.
  destruct (dy_clean _ _ HD r Hr) as [Hc|(j & Ej)]; [left; by eapply heap_step_clean|right].
  exists j. by rewrite lookup_delete_ne by congruence.
Qed.

(** *** Allocation of an object *)

(** The effect apart from the heap's own state. *)
Record allocated (c : Z) (x : ref) (name : list Z) (s s' : kstate) : Prop := {
  al_eq : s' = s <| heap_mem := heap_mem s' |> <| memheaps := memheaps s' |>
                 <| objs := objs s' |> <| containers := containers s' |>;
  al_objs : objs s' = <[x := RtObject (rt_strncpy (cstr name) RT_NAME_MAX) c 0]> (objs s);
  al_list c' : object_list s' c' = if decide (c' = c) then x :: object_list s c else object_list s c' }.

Lemma clean_allocated c x name s s' r :
  allocated c x name s s' -> r <> x -> clean r s -> clean r s'.
Proof.
  intros [E _ HL] Hne [Hl Hu]. split.
  - intros c'. rewrite HL. case_decide; [|apply Hl]. intros [->|Hin]%elem_of_cons; [done|by eapply Hl].
  - revert Hu. unfold unused, queue. by rewrite E.
Qed.

(** A new header where nothing of the heap is. *)
Lemma heap_same_header s x o c :
  ~ heap_private x -> c <> RT_Object_Class_MemHeap ->
  heap_same heap_private s (s <| objs ::= <[x := o]> |> <| containers ::= (fun m => <[c := x :: m !!! c]> m) |>).
Proof.
  intros Hx Hc. split; try done.
  - intros r Hr. cbn. apply lookup_insert_ne. by intros <-.
  - unfold object_list. cbn. by rewrite lookup_total_insert_ne.
Qed.

Lemma get_information_in c : c ∈ object_classes -> rt_object_get_information c = Some c /\ 0 <= object_size c <= 2 ^ 32 - 4.
Proof.
  intros Hc. assert (HF : Forall (fun c => rt_object_get_information c = Some c /\
    (0 <=? object_size c) && (object_size c <=? 2 ^ 32 - 4) = true) object_classes) by (repeat constructor).
  rewrite Forall_forall in HF. destruct (HF c Hc) as [E1 E2]. split; [done|lia].
Qed.

Lemma not_in_interrupt_eq s : interrupt_nest s = 0 -> RT_DEBUG_NOT_IN_INTERRUPT s = Done tt s.
Proof. intros HN. unfold RT_DEBUG_NOT_IN_INTERRUPT. by rewrite bind_gets, HN. Qed.

Lemma rt_object_allocate_ok D s c name :
  dyn_ok D s -> interrupt_nest s = 0 -> c ∈ object_classes -> c <> RT_Object_Class_MemHeap ->
  exists r s', rt_object_allocate c name s = Done r s' /\
    match r with
    | None => s' = s
    | Some a => let x := object_at c a in exists k,
        D !! a = None /\ heap_region a /\ object_size c <= k /\ fresh_object x s /\
        allocated c x name s s' /\ dyn_ok (<[a := (k, Some x)]> D) s'
    end.
Proof.
  intros HD HN Hc Hm. destruct (get_information_in c Hc) as [Ei Hsz].
  unfold rt_object_allocate. erewrite bind_done by exact (not_in_interrupt_eq s HN). rewrite Ei.
  erewrite bind_done by reflexivity.
  destruct (heap_malloc_ok _ s _ (dy_heap _ _ HD) Hsz) as ([a|] & s1 & E & HR).
  2:{ exists None, s1. by erewrite bind_done by exact E. }
  destruct HR as (Ha & HS & k & Hk & HO). rewrite lookup_fmap, fmap_None in Ha.
  pose proof (owns_region _ _ _ _ HO (lookup_insert_eq _ _ _)) as Hreg.
  pose proof (object_at_home c a (region_pos _ Hreg)) as [Eh Eo]. set (x := object_at c a) in *.
  assert (Hx : ~ heap_private x).
  { intros Hp. apply (private_region _ Hp). unfold home in Eh. by rewrite <- Eo, Eh. }
  set (s2 := s1 <| heap_mem ::= rt_memset a 0 (object_size c) |>).
  set (o := RtObject (rt_strncpy (cstr name) RT_NAME_MAX) c 0).
  set (s3 := s2 <| objs ::= <[x := o]> |>). set (s4 := s3 <| containers ::= (fun m => <[c := x :: m !!! c]> m) |>).
  exists (Some a), s4. split; [by erewrite bind_done by exact E|].
  assert (HO2 : heap_owns (<[a := k]> (fst <$> D)) s2).
  { apply (owns_write _ s1 a k); [done|apply lookup_insert_eq|..].
    - intros y. rewrite rt_memset_correct by lia. case_match; [done|by apply (owns_bytes _ _ HO)].
    - intros y Hy. rewrite rt_memset_correct by lia. rewrite (in_range_narrow a k) by (done || lia). done. }
  assert (HA : allocated c x name s s4).
  { split.
    - unfold s4, s3, s2. unfold heap_step in HS. rewrite HS. by destruct s.
    - unfold s4, s3, s2. unfold heap_step in HS. by rewrite HS.
    - intros c'. unfold object_list, s4, s3, s2. unfold heap_step in HS. rewrite HS. cbn. case_decide as Hd; [subst c'; apply lookup_total_insert_eq|].
      by rewrite lookup_total_insert_ne. }
  cbv zeta. exists k. do 3 (split; [done|]). split.
  { intros r Er. apply (dyn_ok_fresh D s a r HD Hreg Ha). unfold home in *. rewrite Er. rewrite Eo in Eh. done. }
  split; [exact HA|].
  split.
  - rewrite fmap_insert. eapply owns_same; [|exact HO2]. by apply heap_same_header.
  - intros r Hr. destruct (decide (owner_of r = x)) as [Ex|Hne].
    { right. exists k. unfold home in *. rewrite Ex. rewrite Eo in Eh. rewrite Eh. apply lookup_insert_eq. }
    assert (Hrx : r <> x) by (by intros ->).
    destruct (dy_clean _ _ HD r Hr) as [Hcl|(j & Ej)]; [left; by eapply clean_allocated|right].
    exists j. by rewrite lookup_insert_ne by congruence.
Qed.

(** *** Deletion *)
Record deleted (x : ref) (s s' : kstate) : Prop := {
  de_eq : s' = s <| heap_mem := heap_mem s' |> <| memheaps := memheaps s' |>
                 <| objs := objs s' |> <| containers := containers s' |>;
  de_objs r : r <> x -> objs s' !! r = objs s !! r;
  de_type : exists o, objs s' !! x = Some o /\ o_type o = 0;
  de_list c : object_list s' c = filter (fun r => r <> x) (object_list s c) }.

Lemma clean_deleted x s s' r : deleted x s s' -> clean r s -> clean r s'.
Proof.
  intros [E _ _ HL] [Hl Hu]. split.
  - intros c. rewrite HL, list_elem_of_filter. intros [_ Hin]. by eapply Hl.
  - revert Hu. unfold unused, queue. by rewrite E.
Qed.

Lemma filter_notin {A} `{EqDecision A} (x : A) (l : list A) : x ∉ l -> filter (fun y => y <> x) l = l.
Proof.
  intros Hx. induction l as [|y l IH]; [done|]. rewrite filter_cons, decide_True by set_solver. f_equal. apply IH. set_solver.
Qed.

Lemma object_list_filter s x c :
  object_list (s <| containers ::= fmap (filter (fun r => r <> x)) |>) c = filter (fun r => r <> x) (object_list s c).
Proof. unfold object_list. cbn. rewrite !lookup_total_alt, lookup_fmap. by destruct (containers s !! c). Qed.

Lemma rt_object_delete_ok D s x n o :
  dyn_ok D s -> D !! home x = Some (n, Some x) -> owner_of x = x ->
  objs s !! x = Some o -> has_bits (o_type o) RT_Object_Class_Static = false ->
  (forall r, owner_of r = x -> unused r s /\ (r <> x -> unlisted r s)) ->
  exists s', rt_object_delete x s = Done tt s' /\ deleted x s s' /\ dyn_ok (delete (home x) D) s'.
Proof.
  intros HD HB Hx Ho Hst Hu. assert (Eh : home x = object_addr x) by (unfold home; by rewrite Hx).
  assert (Hreg : heap_region (home x)).
  { eapply owns_region; [apply HD|]. by rewrite lookup_fmap, HB. }
  unfold rt_object_delete. erewrite bind_done by (by apply get_obj_eq).
  erewrite bind_done by (unfold rt_assert; by rewrite Hst). erewrite bind_done by (by apply mod_obj_eq).
  unfold object_list_remove. erewrite bind_done by reflexivity. set (s1 := _ <| containers ::= _ |>).
  assert (HL : forall c, object_list s1 c = filter (fun r => r <> x) (object_list s c)) by exact (object_list_filter _ x).
  assert (HS : heap_same heap_private s s1).
  { split; try done.
    - intros r Hr. cbn. apply lookup_insert_ne. intros <-. apply (private_region _ Hr). by rewrite <- Eh.
    - rewrite HL. apply filter_notin. intros Hin. by apply (owns_list _ _ _ (dy_heap _ _ HD) Hin). }
  rewrite <- Eh. destruct (heap_free_ok (fst <$> D) s1 (home x) n) as (s2 & E & HS2 & HO2).
  { by eapply owns_same; [|apply HD]. } { by rewrite lookup_fmap, HB. }
  unfold heap_step in HS2. exists s2. split; [exact E|]. assert (HDe : deleted x s s2).
  { split.
    - rewrite HS2. by destruct s.
    - intros r Hr. rewrite HS2. by apply lookup_insert_ne.
    - exists (o <| o_type := RT_Object_Class_Null |>). rewrite HS2. split; [apply lookup_insert_eq|done].
    - intros c. rewrite <- HL. by rewrite HS2. }
  split; [done|]. split; [by rewrite fmap_delete|]. intros r Hr. destruct (decide (owner_of r = x)) as [Er|Er].
  - left. destruct (Hu r Er) as [Hu1 Hu2]. split.
    + intros c. rewrite (de_list _ _ _ HDe), list_elem_of_filter. intros [Hne Hin]. by apply (Hu2 Hne c).
    + revert Hu1. unfold unused, queue. by rewrite (de_eq _ _ _ HDe).
  - destruct (dy_clean _ _ HD r Hr) as [Hcl|(j & Ej)]; [left; by eapply clean_deleted|right].
    exists j. rewrite lookup_delete_ne; [done|]. intros Eq. rewrite <- Eq, HB in Ej. congruence.
Qed.
End Dynamic.
