(* ===== verification/Dynamic.v ===== *)
(** What creating and deleting objects on the heap leaves as it was, for all
    classes of objects: the invariant of the kernel, the other objects, and the
    accounts of the heap. *)
From S2P Require Export HeapSpec.
Local Open Scope Z_scope.

(** ** The invariant of the kernel *)
Lemma core_inv_ext X T Q Q' g c : (forall h, Q' !!! h = Q !!! h) -> core_inv X T Q g c -> core_inv X T Q' g c.
Proof.
  intros E [C1 C2 C3 C4 C5 C6 C7 C8 C9 C10 C11 C12]. split; try done.
  - intros p Hp. by rewrite E, C3.
  - intros p t. rewrite E. apply C4.
  - intros h t Hh. rewrite E. by apply C5.
  - intros t. rewrite E. apply C6.
  - intros h. rewrite E. apply C7.
  - intros h1 h2 t. rewrite !E. apply C8.
  - intros t th H1 H2 H3. rewrite E. eauto.
Qed.

(** The same for the scheduler and the timers. *)
Record same_kernel (s s' : kstate) : Prop := {
  sd_threads : threads s' = threads s;
  sd_queue h : queue s' h = queue s h;
  sd_group : ready_priority_group s' = ready_priority_group s;
  sd_current : current_thread s' = current_thread s;
  sd_timers : timers s' = timers s;
  sd_timer_list : timer_list s' = timer_list s;
  sd_tick : rt_tick s' = rt_tick s;
  sd_nest : interrupt_nest s' = interrupt_nest s;
  sd_lock : scheduler_lock_nest s' = scheduler_lock_nest s }.

#[export] Instance same_kernel_preorder : PreOrder same_kernel.
Proof.
  split; [by intros s|]. intros s1 s2 s3 [] []. split; try congruence.
Qed.

(** An object that is not in use is not what the invariant speaks of. *)
Lemma kok_object s s' x :
  kok s -> same_kernel s s' -> owner_of x = x -> unused x s ->
  (forall r, r <> x -> objs s' !! r = objs s !! r) -> kok s'.
Proof.
  intros [HI HL HT] [E1 E2 E3 E4 E5 E6 _ _ _] Hx Hu HO. split.
  - unfold kinv, kinv_ex. rewrite E1, E3, E4. by eapply core_inv_ext.
  - intros t th. rewrite E1. intros Ht Hs. destruct (HL t th Ht Hs) as (T1 & T2 & T3).
    unfold typed, thread_timer_ok. rewrite E5, !HO; [done|..].
    + intros <-. by injection Hx.
    + intros <-. destruct Hu as (_ & _ & Hu). by destruct (Hu th Ht).
  - intros tm. rewrite E6. intros Hin. destruct (HT tm Hin) as (A1 & A2 & A3).
    unfold timer_active. rewrite E1, E5, HO; [done|]. intros <-. by destruct Hu as (_ & _ & Hu).
Qed.

(** ** Initialising an object *)

(** From [s] to [s'] only the object [x] has changed, and nobody waits for it. *)
Record object_step (x : ref) (s s' : kstate) : Prop := {
  os_data : same_kernel s s';
  os_mem : heap_mem s' = heap_mem s;
  os_heaps : memheaps s' = memheaps s;
  os_lists : containers s' = containers s;
  os_objs r : r <> x -> objs s' !! r = objs s !! r;
  os_sems y : sem_ref y <> x -> sems s' !! y = sems s !! y }.

#[export] Instance object_step_preorder x : PreOrder (object_step x).
Proof.
  split; [by intros s|]. intros s1 s2 s3 [A1 A2 A3 A4 A5 A6] [B1 B2 B3 B4 B5 B6].
  split; [by etrans|congruence..| |]; intros z Hz; [by rewrite B5, A5|by rewrite B6, A6].
Qed.

Lemma unused_same r s s' : same_kernel s s' -> unused r s -> unused r s'.
Proof.
  intros [E1 E2 _ _ _ E6 _ _ _]. unfold unused. rewrite !E2, E1, E6. destruct r as [[] t]; try done.
Qed.

(** A list of waiting threads that is empty is initialised. *)
Lemma queue_init s q : queue s q = [] -> forall h, queue (s <| queues ::= <[q := []]> |>) h = queue s h.
Proof.
  intros Hq h. unfold queue in *. cbn. destruct (decide (q = h)) as [<-|]; [|by rewrite lookup_total_insert_ne].
  by rewrite lookup_total_insert_eq.
Qed.

(** The result of a call that makes an object [x] of class [c]: [s'] differs from
    [s] in [x], in the list of its class and in what belongs to the heap. *)
Record created (c : Z) (x : ref) (s s' : kstate) : Prop := {
  cr_data : same_kernel s s';
  cr_objs r : r <> x -> objs s' !! r = objs s !! r;
  cr_list c' : object_list s' c' = if decide (c' = c) then x :: object_list s c else object_list s c' }.

(** The result of one that fails: of the block that it had for an object and gave
    back there is a header of type 0 left. *)
Record no_effect (x : ref) (s s' : kstate) : Prop := {
  ne_data : same_kernel s s';
  ne_objs r : r <> x -> objs s' !! r = objs s !! r;
  ne_type : exists o, objs s' !! x = Some o /\ o_type o = 0;
  ne_list c : object_list s' c = object_list s c }.

(** [x] is an object of class [c] on the heap. *)
Definition dyn_object (D : gmap Z (Z * option ref)) (c : Z) (x : ref) (s : kstate) : Prop :=
  owner_of x = x /\ (exists o, objs s !! x = Some o /\ o_type o = c) /\ exists n, D !! home x = Some (n, Some x).

Section Dynamic.
Context `{!HeapOps, !HeapSpec}.

Lemma heap_step_data s s' : heap_step s s' -> same_kernel s s'.
Proof. intros E. by split; rewrite E. Qed.

Lemma not_private D s x n : dyn_ok D s -> owner_of x = x -> D !! home x = Some (n, Some x) -> ~ heap_private x.
Proof.
  intros HD Hx HB Hp. apply (private_region _ Hp). unfold home in HB. rewrite Hx in HB.
  eapply owns_region; [apply HD|]. by rewrite lookup_fmap, HB.
Qed.

Lemma dyn_ok_object D s s' x n :
  dyn_ok D s -> owner_of x = x -> D !! home x = Some (n, Some x) -> object_step x s s' -> dyn_ok D s'.
Proof.
  intros HD Hx HB [A1 A2 A3 A4 A5 A6]. pose proof (not_private _ _ _ _ HD Hx HB) as Hp.
  apply (dyn_ok_step D s s' HD).
  - split; [done|done|..].
    + intros r Hr. apply A5. by intros ->.
    + intros y Hy. apply A6. by intros <-.
    + intros r _. apply A1.
    + unfold object_list. by rewrite A4.
  - intros r Hr [Hl Hu]. left. split; [|by eapply unused_same]. intros c. unfold object_list. rewrite A4. apply Hl.
Qed.

(** The steps of a call that makes an object. *)
Lemma object_create_ok D s c name :
  dyn_ok D s -> kok s -> interrupt_nest s = 0 -> c ∈ object_classes -> c <> RT_Object_Class_MemHeap ->
  exists r s', rt_object_allocate c name s = Done r s' /\
    match r with
    | None => s' = s
    | Some a => let x := object_at c a in exists k,
        D !! a = None /\ 0 < a /\ object_size c <= k /\ owner_of x = x /\ home x = a /\
        fresh_object x s /\ unused x s' /\ created c x s s' /\ kok s' /\
        objs s' !! x = Some (RtObject (rt_strncpy (cstr name) RT_NAME_MAX) c 0) /\
        s' = s <| heap_mem := heap_mem s' |> <| memheaps := memheaps s' |>
               <| objs := objs s' |> <| containers := containers s' |> /\
        dyn_ok (<[a := (k, Some x)]> D) s'
    end.
Proof.
  intros HD HK HN Hc Hm. destruct (rt_object_allocate_ok D s c name HD HN Hc Hm) as ([a|] & s' & E & HR);
    eexists _, s'; [|done]. split; [exact E|]. destruct HR as (k & Ha & Hreg & Hk & Hcl & [E1 E2 E3] & HD').
  pose proof (region_pos _ Hreg) as Hpos. pose proof (object_at_home c a Hpos) as [Eh Eo].
  set (x := object_at c a) in *. assert (HS : same_kernel s s') by (by split; rewrite E1).
  assert (HO : forall r, r <> x -> objs s' !! r = objs s !! r).
  { intros r Hr. rewrite E2. by apply lookup_insert_ne. }
  exists k. do 5 (split; [done|]). split; [done|]. split; [eapply unused_same; [done|by apply Hcl]|].
  split; [by split|]. split; [eapply kok_object; [done..|by apply Hcl|done]|]. split; [rewrite E2; apply lookup_insert_eq|done].
Qed.

(** Deleting an object that nobody waits for. *)
Lemma object_delete_ok D s c x :
  dyn_ok D s -> kok s -> dyn_object D c x s -> has_bits c RT_Object_Class_Static = false ->
  (forall r, owner_of r = x -> unused r s /\ (r <> x -> unlisted r s)) ->
  exists s', rt_object_delete x s = Done tt s' /\ deleted x s s' /\ kok s' /\ dyn_ok (delete (home x) D) s'.
Proof.
  intros HD HK (Hx & (o & Ho & Ht) & n & HB) Hc Hu.
  destruct (rt_object_delete_ok D s x n o HD HB Hx Ho) as (s' & E & HDe & HD'); [by rewrite Ht|done|].
  exists s'. split; [done|]. split; [done|]. split; [|done].
  eapply (kok_object s s' x HK); [|done|by apply Hu|apply HDe]. by split; rewrite (de_eq _ _ _ HDe).
Qed.

(** Giving up after [object_create_ok]: the object is deleted again. *)
Lemma create_undo D s s1 s2 c x k :
  home x ∉ dom D -> fresh_object x s -> created c x s s1 -> object_step x s1 s2 ->
  kok s2 -> dyn_ok (<[home x := (k, Some x)]> D) s2 -> owner_of x = x ->
  has_bits c RT_Object_Class_Static = false -> (exists o, objs s2 !! x = Some o /\ o_type o = c) ->
  exists s', rt_object_delete x s2 = Done tt s' /\ no_effect x s s' /\ kok s' /\ dyn_ok D s'.
Proof.
  intros Hn Hcl [C1 C2 C3] HS HK HD Hx Hc Ho. pose proof (os_data _ _ _ HS) as HS'.
  destruct (object_delete_ok _ s2 c x HD HK) as (s' & E & [D1 D2 D3 D4] & HK' & HD').
  { split; [done|]. split; [done|]. exists k. apply lookup_insert_eq. } { done. }
  { intros r Hr. destruct (Hcl r Hr) as [Hl Hu]. split; [eapply unused_same; [|exact Hu]; by etrans|].
    intros Hne c'. unfold object_list. rewrite (os_lists _ _ _ HS). fold (object_list s1 c'). rewrite C3.
    case_decide; [|apply Hl]. intros [->|Hin]%elem_of_cons; [done|by apply (Hl c)]. }
  exists s'. split; [done|]. split; [split|split; [done|]].
  - etrans; [exact C1|]. etrans; [exact HS'|]. by split; rewrite D1.
  - intros r Hr. by rewrite D2, (os_objs _ _ _ HS), C2.
  - done.
  - intros c'. rewrite D4. unfold object_list. rewrite (os_lists _ _ _ HS). fold (object_list s1 c').
    rewrite C3. destruct (Hcl x Hx) as [Hl _]. case_decide as Ec; [subst c'|apply filter_notin, Hl].
    rewrite filter_cons, decide_False by tauto. apply filter_notin, Hl.
  - rewrite delete_insert_id in HD'; [done|]. by apply not_elem_of_dom.
Qed.
End Dynamic.
