(* ===== verification/SemThm.v ===== *)
(** Semaphores refine counters with a list of waiting threads. *)
From S2P Require Export IpcWait.
Local Open Scope Z_scope.

(** ** The abstract semaphore *)
Record sem_spec := SemSpec { tokens : Z; waiting : list tid }.

Definition sem_spec_ok (a : sem_spec) : Prop :=
  0 <= tokens a <= RT_SEM_VALUE_MAX /\ (waiting a <> [] -> tokens a = 0).

(** Taking: the result, or none when the caller joins the waiting threads. *)
Definition spec_take (time : Z) (join : list tid -> list tid) (a : sem_spec) : sem_spec * option Z :=
  if 0 <? tokens a then (SemSpec (tokens a - 1) (waiting a), Some RT_EOK)
  else if time =? 0 then (a, Some (- RT_ETIMEOUT))
  else (SemSpec (tokens a) (join (waiting a)), None).

(** Releasing: the token goes to the first waiting thread if there is one. *)
Definition spec_release (a : sem_spec) : sem_spec * option tid * Z :=
  match waiting a with
  | t :: l => (SemSpec (tokens a) l, Some t, RT_EOK)
  | [] => if tokens a <? RT_SEM_VALUE_MAX
          then (SemSpec (tokens a + 1) [], None, RT_EOK) else (a, None, - RT_EFULL)
  end.

Lemma spec_take_ok time join a : sem_spec_ok a -> sem_spec_ok (fst (spec_take time join a)).
Proof.
  intros [H1 H2]. unfold spec_take. destruct (Z.ltb_spec 0 (tokens a)); simpl.
  - split; simpl; [lia|]. intros Hw. specialize (H2 Hw). lia.
  - destruct (time =? 0); [done|]. split; simpl; [lia|]. intros _. lia.
Qed.

Lemma spec_release_ok a : sem_spec_ok a -> sem_spec_ok (fst (fst (spec_release a))).
Proof.
  intros [H1 H2]. unfold spec_release. destruct (waiting a) as [|t l] eqn:E.
  - destruct (Z.ltb_spec (tokens a) RT_SEM_VALUE_MAX); [|by split; rewrite ?E]. split; simpl; [lia|done].
  - split; simpl; [done|]. intros _. by apply H2.
Qed.

(** ** The semaphore of the kernel *)
Definition sem_is (s : kstate) (x : positive) (a : sem_spec) : Prop :=
  typed s (sem_ref x) RT_Object_Class_Semaphore /\
  sems s !! x = Some (RtSem (tokens a)) /\ queues s !!! QSuspend (sem_ref x) = waiting a.

(** The states that differ in the value of semaphore [x] only. *)
Definition sem_set (x : positive) (n : Z) (s : kstate) : kstate := s <| sems ::= <[x := RtSem n]> |>.

Lemma sem_set_ok x n s : kok s -> kok (sem_set x n s).
Proof. intros HK. by eapply kok_ext. Qed.

Lemma sem_is_set s x a n :
  sem_is s x a -> sem_is (sem_set x n s) x (SemSpec n (waiting a)).
Proof. intros (H1 & H2 & H3). split; [done|]. split; [apply lookup_insert_eq|done]. Qed.

Section Semaphore.
Context `{!SignalOps}.

Lemma get_sem_eq s x v : sems s !! x = Some v -> get_sem x s = Done v s.
Proof. intros E. unfold get_sem, get, mbind, prog_bind. simpl. by rewrite E. Qed.

Lemma sem_take_block s x a o me th time :
  sem_is s x a -> objs s !! sem_ref x = Some o -> tokens a <= 0 -> time <> 0 ->
  may_block s me th ->
  rt_sem_take x time s =
    block_on (QSuspend (sem_ref x)) me (o_flag o) time (no_error me th s).
Proof.
  intros (H1 & H2 & H3) Ho Ha Ht [HK Hc Hth Hst Hp Hn Hl Hu]. unfold rt_sem_take.
  erewrite bind_done by (by apply assert_type_eq). erewrite bind_done by (by apply get_sem_eq).
  cbn [sem_value]. rewrite (proj2 (Z.ltb_ge 0 (tokens a))) by done.
  rewrite (proj2 (Z.eqb_neq time 0)) by done. cbn iota.
  erewrite bind_done by (by eapply in_thread_context_eq). erewrite bind_done by (by apply self_eq).
  erewrite bind_done by (by apply mod_thread_eq). fold (no_error me th s).
  assert (Ho0 : objs (no_error me th s) !! sem_ref x = Some o) by done.
  by erewrite bind_done by exact (get_obj_eq (no_error me th s) _ _ Ho0).
Qed.

Lemma sem_take_now s x a time :
  sem_is s x a -> sem_spec_ok a -> 0 < tokens a ->
  rt_sem_take x time s = Done RT_EOK (sem_set x (tokens a - 1) s).
Proof.
  intros (H1 & H2 & H3) [Hr Hw] Hp.
  unfold rt_sem_take. erewrite bind_done by (by apply assert_type_eq).
  erewrite bind_done by (by apply get_sem_eq). cbn [sem_value].
  rewrite (proj2 (Z.ltb_lt _ _) Hp). unfold sem_set, u16, wrap. rewrite Z.mod_small; [done|].
  unfold RT_SEM_VALUE_MAX in Hr. lia.
Qed.

Lemma sem_take_fail s x a :
  sem_is s x a -> tokens a <= 0 -> rt_sem_take x 0 s = Done (- RT_ETIMEOUT) s.
Proof.
  intros (H1 & H2 & H3) Hp.
  unfold rt_sem_take. erewrite bind_done by (by apply assert_type_eq).
  erewrite bind_done by (by apply get_sem_eq). cbn [sem_value].
  by rewrite (proj2 (Z.ltb_ge _ _) Hp).
Qed.

Lemma sem_take_blocks s x a o me th time :
  sem_is s x a -> objs s !! sem_ref x = Some o -> tokens a <= 0 -> time <> 0 ->
  may_block s me th -> valid_flag (o_flag o) = true -> time < RT_TICK_MAX / 2 ->
  exists s', blocks me (rt_sem_take x time s) s' (fun th2 s2 => Done (error th2) s2) /\
    blocked (no_error me th s) s' me (th <| error := RT_EOK |>)
      (QSuspend (sem_ref x)) (o_flag o) time /\
    sem_is s' x (SemSpec (tokens a)
      (wait_insert (o_flag o) (threads s) (current_priority th) me (waiting a))).
Proof.
  intros Hx Ho Hp Ht Hm Hfl Htm. pose proof Hx as (H1 & H2 & H3).
  rewrite (sem_take_block s x a o me th) by done.
  destruct (no_error_ok s me th Hm) as [Hm0 F0].
  destruct (block_on_ok _ me _ (QSuspend (sem_ref x)) (o_flag o) time Hm0)
    as (s' & HB & Hb); [done..|].
  exists s'. split; [done|]. split; [done|]. destruct Hb as [HK' F' Hth' HQ' _ _]. split_and!.
  - by apply (kf_typed _ _ F').
  - by rewrite (kf_sems _ _ F').
  - rewrite HQ' by done. rewrite decide_True by done.
    change (queues (no_error me th s)) with (queues s). rewrite H3.
    apply wait_insert_no_error. apply Hm.
Qed.

Lemma sem_release_count s x a :
  sem_is s x a -> sem_spec_ok a -> waiting a = [] ->
  rt_sem_release x s =
    if tokens a <? RT_SEM_VALUE_MAX then Done RT_EOK (sem_set x (tokens a + 1) s)
    else Done (- RT_EFULL) s.
Proof.
  intros (H1 & H2 & H3) [Hr Hw] El. unfold rt_sem_release.
  erewrite bind_done by (by apply assert_type_eq). erewrite bind_done by (by apply get_sem_eq).
  unfold list_isempty, queue. rewrite bind_gets, H3, El. rewrite bool_decide_true by done.
  cbn [negb sem_value]. destruct (Z.ltb_spec (tokens a) RT_SEM_VALUE_MAX) as [Hlt|]; [|done].
  unfold sem_set, u16, wrap, RT_SEM_VALUE_MAX in *. rewrite Z.mod_small; [done|lia].
Qed.

Lemma sem_release_wake s x a t l :
  kok s -> sem_is s x a -> waiting a = t :: l ->
  exists th s1, threads s !! t = Some th /\ stat_of th = RT_THREAD_SUSPEND /\ kok s1 /\ kframe s s1 /\
    current_thread s1 = current_thread s /\ woken t th s s1 /\ sem_is s1 x (SemSpec (tokens a) l) /\
    (forall h, is_wait h = true ->
       queues s1 !!! h = if decide (h = QSuspend (sem_ref x)) then l else queues s !!! h) /\
    rt_sem_release x s = (rt_schedule;; mret RT_EOK) s1.
Proof.
  intros HK (H1 & H2 & H3) El.
  destruct (ipc_list_resume_ok s (QSuspend (sem_ref x)) t l HK eq_refl)
    as (th & s1 & Hth & Hst & E & HK1 & F1 & Hc1 & Hwk & HQ1); [congruence|].
  exists th, s1. do 6 (split; [done|]). split; [split_and!|split; [done|]].
  - by apply (kf_typed _ _ F1).
  - by rewrite (kf_sems _ _ F1).
  - by rewrite HQ1, decide_True.
  - unfold rt_sem_release.
    erewrite bind_done by (by apply assert_type_eq). erewrite bind_done by (by apply get_sem_eq).
    unfold list_isempty, queue. rewrite bind_gets, H3, El. rewrite bool_decide_false by done.
    cbn [negb]. by erewrite bind_done by exact E.
Qed.

(** C8. [rt_sem_take] takes a token when there is one, fails with
    [-RT_ETIMEOUT] and no effect when there is none and the caller does not
    wait, and otherwise suspends the caller: it joins the waiting threads at
    the end (FIFO) or before those of a lower priority (PRIO), its timer is set
    to [time] ticks from now for a positive [time], the processor goes to
    another thread, and the call later returns the [error] that the waker left
    in the thread, none by default. A semaphore with waiting threads has no
    token, and every outcome keeps that and the kernel's invariant. *)
Theorem rt_sem_take_refines s x a o time :
  kok s -> sem_is s x a -> objs s !! sem_ref x = Some o -> sem_spec_ok a ->
  (forall join, sem_spec_ok (fst (spec_take time join a))) /\
  match snd (spec_take time id a) with
  | Some e => exists s', rt_sem_take x time s = Done e s' /\ kok s' /\
      s' = s <| sems := sems s' |> /\ sem_is s' x (fst (spec_take time id a))
  | None => forall me th, may_block s me th -> valid_flag (o_flag o) = true ->
      time < RT_TICK_MAX / 2 ->
      exists s', blocks me (rt_sem_take x time s) s' (fun th2 s2 => Done (error th2) s2) /\
        blocked (no_error me th s) s' me (th <| error := RT_EOK |>)
          (QSuspend (sem_ref x)) (o_flag o) time /\
        sem_is s' x (fst (spec_take time
          (wait_insert (o_flag o) (threads s) (current_priority th) me) a))
  end.
Proof.
  intros HK Hx Ho Ha. split; [intros join; by apply spec_take_ok|].
  unfold spec_take. destruct (Z.ltb_spec 0 (tokens a)) as [Hp|Hp]; cbn [fst snd].
  - exists (sem_set x (tokens a - 1) s).
    split_and!; [by apply sem_take_now|by apply sem_set_ok|by destruct s|by apply sem_is_set].
  - destruct (Z.eqb_spec time 0) as [->|Ht]; cbn [fst snd].
    + exists s. split_and!; [by eapply sem_take_fail|done|by destruct s|done].
    + intros me th Hm Hfl Htm. by apply sem_take_blocks.
Qed.

(** C9. [rt_sem_release] gives its token to the first waiting thread when there
    is one: the value stays as it is, that thread alone leaves the list and
    gets ready with its [error] unchanged, and the scheduler runs. With no
    waiting thread the value grows by one, up to 65535, beyond which the call
    fails with [-RT_EFULL] and no effect. So no token is lost or made up, and a
    semaphore with waiting threads still has no token. *)
Theorem rt_sem_release_refines s x a :
  kok s -> sem_is s x a -> sem_spec_ok a ->
  sem_spec_ok (fst (fst (spec_release a))) /\
  exists s1, kok s1 /\ sem_is s1 x (fst (fst (spec_release a))) /\
    match snd (fst (spec_release a)) with
    | Some t => exists th, threads s !! t = Some th /\ stat_of th = RT_THREAD_SUSPEND /\
        woken t th s s1 /\ kframe s s1 /\
        rt_sem_release x s = (rt_schedule;; mret (snd (spec_release a))) s1
    | None => s1 = s <| sems := sems s1 |> /\ rt_sem_release x s = Done (snd (spec_release a)) s1
    end.
Proof.
  intros HK Hx Ha. split; [by apply spec_release_ok|].
  unfold spec_release. destruct (waiting a) as [|t l] eqn:El.
  - pose proof (sem_release_count s x a Hx Ha El) as E.
    destruct (tokens a <? RT_SEM_VALUE_MAX); cbn [fst snd].
    + exists (sem_set x (tokens a + 1) s). split_and!; [by apply sem_set_ok| |by destruct s|done].
      rewrite <- El. by apply sem_is_set.
    + exists s. split_and!; [done|done|by destruct s|done].
  - destruct (sem_release_wake s x a t l HK Hx El) as (th & s1 & Hth & Hst & HK1 & F1 & _ & Hw & Hx1 & _ & E).
    exists s1. split; [done|]. split; [exact Hx1|]. by exists th.
Qed.
End Semaphore.

#[local] Existing Instance no_signals.

(** Thread 1 blocks on an empty semaphore for 7 ticks; thread 2 runs. *)
Lemma rt_sem_take_refines_witness :
  let s := kstate_ready <| sems := {[1%positive := RtSem 0]} |> in
  exists s', blocks 1%positive (rt_sem_take 1 7 s) s' (fun th2 s2 => Done (error th2) s2) /\
    queues s' !!! QSuspend (sem_ref 1) = [1%positive] /\ wakes_at 1%positive 7 s'.
Proof.
  intros s. assert (HK : kok s) by (eapply kok_ext; [apply kstate_ready_kok|done..]).
  destruct (rt_sem_take_refines s 1%positive (SemSpec 0 []) (header RT_Object_Class_Semaphore 0) 7 HK)
    as [_ Ht].
  - split; [by eexists|]. by split.
  - done.
  - split; [by vm_compute|done].
  - destruct (Ht 1%positive (thread0 RT_THREAD_RUNNING 10)) as (s' & HB & [_ _ _ _ HT _] & (_ & _ & HQ)).
    + destruct kstate_ready_may_block. by split.
    + done.
    + done.
    + exists s'. split; [exact HB|]. split; [exact HQ|]. apply HT. lia.
Defined.

(** The semaphore goes to thread 2, which waits for it. *)
Lemma rt_sem_release_refines_witness :
  let s := kstate_waiting (QSuspend (sem_ref 1)) <| sems := {[1%positive := RtSem 0]} |> in
  exists s1, rt_sem_release 1 s = (rt_schedule;; mret RT_EOK) s1 /\
    woken 2%positive (thread0 RT_THREAD_SUSPEND 5) s s1 /\ sem_is s1 1 (SemSpec 0 []).
Proof.
  intros s.
  assert (HK : kok s) by (eapply kok_ext; [by apply (kstate_waiting_kok (QSuspend (sem_ref 1)))|done..]).
  destruct (rt_sem_release_refines s 1%positive (SemSpec 0 [2%positive]) HK)
    as (_ & s1 & _ & Hx & th & Hth & _ & Hw & _ & E).
  - split; [by eexists|]. by split.
  - by split; vm_compute.
  - exists s1. split; [exact E|]. split; [|exact Hx]. by injection Hth as <-.
Defined.
