(* ===== verification/MemHeapOps.v ===== *)
(** Memory heaps: the invariant of a heap, and the steps of its operations that
    change its blocks: taking, giving back, growing and shrinking a block. *)

From S2P Require Export SemThm MemHeapInv.
Local Open Scope Z_scope.

(** ** The invariant *)
Definition sizes_ok (bs : hblocks) : Prop := Forall (fun b => RT_MEMHEAP_MINIALLOC <= fst b /\ fst b mod 4 = 0) bs.

(** No two free blocks next to each other. *)
Fixpoint coalesced (bs : hblocks) : Prop :=
  match bs with [] => True | b :: bs => snd b || next_used bs = true /\ coalesced bs end.

Lemma sizes_ok_app b1 b2 : sizes_ok (b1 ++ b2) <-> sizes_ok b1 /\ sizes_ok b2.
Proof. unfold sizes_ok. by rewrite Forall_app. Qed.
Lemma sizes_ok_cons n u bs : sizes_ok ((n, u) :: bs) <-> (12 <= n /\ n mod 4 = 0) /\ sizes_ok bs.
Proof. unfold sizes_ok. by rewrite Forall_cons. Qed.

Lemma prev_used_cons b bs : prev_used (b :: bs) = match bs with [] => snd b | _ => prev_used bs end.
Proof. by destruct bs. Qed.
Lemma coalesced_app b1 b2 :
  coalesced (b1 ++ b2) <-> coalesced b1 /\ coalesced b2 /\ prev_used b1 || next_used b2 = true.
Proof.
  induction b1 as [|b b1 IH]; cbn [app coalesced]; [cbn; tauto|]. rewrite IH, prev_used_cons.
  destruct b1 as [|c b1]; cbn [app next_used]; [|tauto]. cbn. rewrite orb_true_r. tauto.
Qed.
Lemma coalesced_one b1 n u b2 :
  coalesced (b1 ++ (n, u) :: b2) <->
  coalesced b1 /\ coalesced b2 /\ prev_used b1 || u = true /\ u || next_used b2 = true.
Proof. rewrite coalesced_app. cbn. tauto. Qed.

Section Heap.
Context (h a0 P : Z).

(** The heap [h] over the pool of [P] bytes at [a0] has the blocks [bs], with the
    free ones in the list [fl]. *)
Record heap_ok (v : hstate) (bs : hblocks) (fl : list Z) : Prop := {
  ok_laid : laid h a0 P (hm v) bs fl;
  ok_free : fl ≡ₚ free_addrs a0 bs;
  ok_sizes : sizes_ok bs;
  ok_coal : coalesced bs;
  ok_align : a0 mod 4 = 0;
  ok_rec : exists mx, hp v = RtMemheap a0 P (free_total bs) mx a0 (free_header h) /\
                      P - free_total bs <= mx <= P }.

Lemma free_total_bounds bs : nonneg bs -> 0 <= free_total bs <= total bs.
Proof.
  induction bs as [|[n u] bs IH]; cbn; [lia|]. intros [Hn Hb]%nonneg_cons. cbn in Hn.
  specialize (IH Hb). destruct u; lia.
Qed.

Lemma note_used_eq m sa ps av mx bl f :
  0 <= av <= ps -> ps < 2 ^ 32 -> mx <= ps ->
  note_used (HState m (RtMemheap sa ps av mx bl f)) =
  HState m (RtMemheap sa ps av (Z.max mx (ps - av)) bl f).
Proof.
  intros Ha Hp Hm. unfold note_used. cbn. unfold u32, wrap. rewrite Z.mod_small by lia.
  destruct (Z.ltb_spec mx (ps - av)).
  - cbn. by rewrite Z.max_r by lia.
  - by rewrite Z.max_l by lia.
Qed.

(** ** Allocation *)

(** What a free block of [n] bytes becomes when it is taken for [size] bytes. *)
Definition take_block (size n : Z) : hblocks :=
  if size + RT_MEMHEAP_SIZE + RT_MEMHEAP_MINIALLOC <=? n
  then [(size, true); (n - size - RT_MEMHEAP_SIZE, false)] else [(n, true)].
Definition take_free (size n x : Z) (fl : list Z) : list Z :=
  if size + RT_MEMHEAP_SIZE + RT_MEMHEAP_MINIALLOC <=? n then (x + size + RT_MEMHEAP_SIZE) :: fl else fl.

Lemma hdrs_tag b1 n u v b2 : hdrs h a0 P (b1 ++ (n, u) :: b2) = hdrs h a0 P (b1 ++ (n, v) :: b2).
Proof. unfold hdrs. by rewrite !addrs_one. Qed.

(** The bounds that the arithmetic of the operations needs. *)
Lemma placed_bounds bs : placed h a0 P bs -> 0 < a0 /\ a0 + P <= 2 ^ 32 /\ total bs + 24 = P /\ 0 <= total bs.
Proof. intros HP. pose proof (total_nonneg _ (pl_nonneg _ _ _ _ HP)). destruct HP as [_ Hp _ _ Ht]. lia. Qed.

Lemma fl_nodup m bs fl : laid h a0 P m bs fl -> NoDup fl.
Proof. intros HL. destruct (la_free _ _ _ _ _ _ HL) as [Hd _]. by apply NoDup_cons in Hd as [_ Hd]. Qed.

Lemma upd_hm g m r : HState m r <| hm ::= g |> = HState (g m) r.
Proof. done. Qed.
Lemma available_add_eq n m sa ps av mx bl f :
  0 <= av + n < 2 ^ 32 ->
  available_add n (HState m (RtMemheap sa ps av mx bl f)) = HState m (RtMemheap sa ps (av + n) mx bl f).
Proof.
  intros Hn. rewrite <- (u32_small _ Hn). done.
Qed.

(** The two branches. *)
Lemma heap_take_split m av mx bl f size n x :
  0 <= size -> size + 36 <= n -> n <= av <= P -> P < 2 ^ 32 -> 0 <= x -> x + size + 24 < 2 ^ 32 -> mx <= P ->
  heap_take h size x n (HState m (RtMemheap a0 P av mx bl f)) =
  HState (mi_set_magic x (block_magic true) (free_insert f (x + size + 24) (mi_set_prev_free x 0 (mi_set_next_free x 0
           (free_remove x (block_split h x (x + size + 24) m))))))
    (RtMemheap a0 P (av - size - 24) (Z.max mx (P - (av - size - 24))) bl f).
Proof.
  intros. unfold heap_take. change RT_MEMHEAP_SIZE with 24. change RT_MEMHEAP_MINIALLOC with 12.
  rewrite (u32_small (size + 24 + 12)) by lia. rewrite (proj2 (Z.leb_le _ _)) by lia.
  rewrite (u32_small (x + size + 24)) by lia. cbn [hp free_list]. rewrite !upd_hm, available_add_eq by lia.
  rewrite note_used_eq, upd_hm by lia. by replace (av + (- size - 24)) with (av - size - 24) by lia.
Qed.
Lemma heap_take_whole m av mx bl f size n x :
  0 <= size <= n -> n < size + 36 -> n <= av <= P -> P < 2 ^ 32 -> size + 36 < 2 ^ 32 -> mx <= P ->
  heap_take h size x n (HState m (RtMemheap a0 P av mx bl f)) =
  HState (mi_set_magic x (block_magic true) (mi_set_prev_free x 0 (mi_set_next_free x 0 (free_remove x m))))
    (RtMemheap a0 P (av - n) (Z.max mx (P - (av - n))) bl f).
Proof.
  intros. unfold heap_take. change RT_MEMHEAP_SIZE with 24. change RT_MEMHEAP_MINIALLOC with 12.
  rewrite (u32_small (size + 24 + 12)) by lia. rewrite (proj2 (Z.leb_gt _ _)) by lia.
  rewrite available_add_eq by lia. rewrite note_used_eq, !upd_hm by lia.
  by replace (av + - n) with (av - n) by lia.
Qed.

Lemma free_addrs_middle b1 n b2 l1 l2 :
  l1 ++ (a0 + total b1) :: l2 ≡ₚ free_addrs a0 (b1 ++ (n, false) :: b2) ->
  l1 ++ l2 ≡ₚ free_addrs a0 b1 ++ free_addrs (a0 + total b1 + 24 + n) b2.
Proof.
  rewrite free_addrs_app. cbn. rewrite <- !Permutation_middle. by intros H%Permutation_cons_inv.
Qed.

(** What the facts on a block say about the numbers. *)
Lemma heap_numbers v b1 n u b2 fl :
  heap_ok v (b1 ++ (n, u) :: b2) fl ->
  0 < a0 /\ a0 + P <= 2 ^ 32 /\ total b1 + 24 + n + total b2 + 24 = P /\ 0 <= total b2 /\
  0 <= free_total b1 <= total b1 /\ 0 <= free_total b2 <= total b2 /\ 12 <= n /\ n mod 4 = 0 /\
  nonneg b1 /\ nonneg b2 /\ sizes_ok b1 /\ sizes_ok b2 /\ coalesced b1 /\ coalesced b2 /\
  prev_used b1 || u = true /\ u || next_used b2 = true.
Proof.
  intros [HL _ Hs Hc _ _]. pose proof (placed_bounds _ (la_placed _ _ _ _ _ _ HL)) as HB.
  pose proof (pl_nonneg _ _ _ _ (la_placed _ _ _ _ _ _ HL)) as Hn.
  apply sizes_ok_app in Hs as [Hs1 [Hs Hs2]%sizes_ok_cons]. apply coalesced_one in Hc as (Hc1 & Hc2 & Hp & Hq).
  apply nonneg_app in Hn as [Hn1 [_ Hn2]%nonneg_cons].
  rewrite total_app in HB. cbn in HB. pose proof (total_nonneg _ Hn2).
  pose proof (free_total_bounds _ Hn1). pose proof (free_total_bounds _ Hn2). split_and!; (done || lia).
Qed.

Lemma heap_take_ok v b1 n b2 l1 l2 size :
  let x := a0 + total b1 in
  let bs := b1 ++ take_block size n ++ b2 in let v' := heap_take h size x n v in
  heap_ok v (b1 ++ (n, false) :: b2) (l1 ++ x :: l2) -> 12 <= size <= n -> size mod 4 = 0 ->
  heap_ok v' bs (take_free size n x (l1 ++ l2)) /\ same_data (hdrs h a0 P bs) (hm v) (hm v').
Proof.
  intros x bs v' HO Hsz Hs4. subst bs v'.
  destruct (heap_numbers _ _ _ _ _ _ HO) as
    (N1 & N2 & N3 & N4 & N5 & N6 & N7 & N8 & Hn1 & Hn2 & Hs1 & Hs2 & Hc1 & Hc2 & Hp & Hq).
  destruct HO as [HL Hf _ _ Ha (mx & Hr & Hmx)]. destruct v as [m r]. cbn in HL, Hr. subst r.
  pose proof (fl_nodup _ _ _ HL) as Hd. apply free_addrs_middle in Hf. fold x in Hf.
  assert (Hx : x ∉ l1 ++ l2) by (rewrite <- Permutation_middle in Hd; by apply NoDup_cons in Hd as [? _]).
  rewrite orb_false_r in Hp. assert (0 <= total b1) by lia.
  rewrite free_total_app in *. cbn [free_total] in *.
  unfold take_block, take_free in *. change RT_MEMHEAP_SIZE with 24 in *. change RT_MEMHEAP_MINIALLOC with 12 in *.
  replace (size + 24 + 12) with (size + 36) in * by lia. destruct (Z.leb_spec (size + 36) n) as [Hsp|Hsp].
  - rewrite heap_take_split by (unfold x; lia). set (k := n - size - 24) in *.
    replace n with (size + 24 + k) in HL by (unfold k; lia).
    destruct (step_split _ _ _ _ _ _ _ _ _ _ HL) as (L1 & X1 & D1); [lia..|]. fold x in L1, X1, D1.
    replace (x + 24 + size) with (x + size + 24) in L1, X1, D1 by lia.
    destruct (step_remove _ _ _ _ _ _ _ _ L1) as (L2 & D2).
    destruct (step_unlinked _ _ _ _ _ _ x L2) as (L3 & D3); [apply placed_at|done|].
    destruct (step_insert _ _ _ _ _ _ (x + size + 24) L3) as (L4 & D4).
    { pose proof (placed_at a0 (b1 ++ [(size, false)]) (k, false) b2) as Hk.
      rewrite <- app_assoc, total_app in Hk. cbn in Hk. unfold x.
      by replace (a0 + (total b1 + (24 + size + 0))) with (a0 + total b1 + size + 24) in Hk by lia. }
    { set_solver. }
    destruct (step_tag _ _ _ _ _ _ _ _ _ true L4) as (L5 & D5). fold x in L5, D5.
    split.
    2:{ cbn [hm app]. rewrite (hdrs_tag _ size true false). do 4 (etrans; [eassumption|]). exact D5. }
    split; cbn [hm hp]; [done| | | |done|].
    + rewrite Hf, !free_addrs_app. cbn. fold x. rewrite <- Permutation_middle.
      replace (x + (24 + size + (24 + k + 0))) with (x + 24 + n) by (unfold k; lia).
      by replace (x + 24 + size) with (x + size + 24) by lia.
    + apply sizes_ok_app. split; [done|]. apply sizes_ok_cons. split; [by split; [lia|]|].
      apply sizes_ok_cons. split; [|done]. split; [unfold k; lia|]. unfold k. clear -N8 Hs4.
      Z.to_euclidean_division_equations. lia.
    + cbn [app]. rewrite coalesced_app. cbn. rewrite orb_true_r. tauto.
    + eexists. split; [f_equal|]; cbn [app]; rewrite free_total_app; cbn [free_total]; unfold k; lia.
  - rewrite heap_take_whole by lia.
    destruct (step_remove _ _ _ _ _ _ _ _ HL) as (L2 & D2).
    destruct (step_unlinked _ _ _ _ _ _ x L2) as (L3 & D3); [apply placed_at|done|].
    destruct (step_tag _ _ _ _ _ _ _ _ _ true L3) as (L5 & D5). fold x in L5, D5.
    split.
    2:{ cbn [hm app]. rewrite (hdrs_tag _ n true false). do 2 (etrans; [eassumption|]). exact D5. }
    split; cbn [hm hp]; [done| | | |done|].
    + rewrite Hf, !free_addrs_app. cbn. fold x. by replace (x + (24 + n + 0)) with (x + 24 + n) by lia.
    + apply sizes_ok_app. split; [done|]. by apply sizes_ok_cons.
    + cbn [app]. rewrite coalesced_app. cbn. rewrite orb_true_r. tauto.
    + eexists. split; [f_equal|]; cbn [app]; rewrite free_total_app; cbn [free_total]; lia.
Qed.

(** ** Freeing *)

(** A free block of [n] bytes, merged with the block behind it. *)
Definition merge_next (n : Z) (b2 : hblocks) : hblocks :=
  match b2 with (k, false) :: b2 => (n + RT_MEMHEAP_SIZE + k, false) :: b2 | _ => (n, false) :: b2 end.
(** A block of [n] bytes between [b1] and [b2] becomes free. *)
Definition give_block (b1 : hblocks) (n : Z) (b2 : hblocks) : hblocks :=
  match last b1 with
  | Some (k, false) => removelast b1 ++ merge_next (k + RT_MEMHEAP_SIZE + n) b2
  | _ => b1 ++ merge_next n b2
  end.
Definition drop_next (x : Z) (b2 : hblocks) (fl : list Z) : list Z :=
  if next_used b2 then fl else remove Z.eq_dec x fl.
(** The free list then: [y] is the address behind the block. *)
Definition give_free (b1 b2 : hblocks) (x y : Z) (fl : list Z) : list Z :=
  if prev_used b1 then x :: drop_next y b2 fl else drop_next y b2 fl.

Lemma remove_middle (x : Z) l1 l2 : NoDup (l1 ++ x :: l2) -> remove Z.eq_dec x (l1 ++ x :: l2) = l1 ++ l2.
Proof.
  intros Hd. rewrite <- Permutation_middle in Hd. apply NoDup_cons in Hd as [Hx _].
  rewrite remove_app. cbn. destruct (Z.eq_dec x x); [|done].
  rewrite !notin_remove; [done|..]; rewrite <- list_elem_of_In; set_solver.
Qed.
Lemma remove_perm (x : Z) l l' : NoDup l -> l ≡ₚ x :: l' -> remove Z.eq_dec x l ≡ₚ l'.
Proof.
  intros Hd E. assert (x ∈ l) as (l1 & l2 & ->)%list_elem_of_split by (rewrite E; set_solver).
  rewrite remove_middle by done. rewrite <- Permutation_middle in E. by apply Permutation_cons_inv in E.
Qed.

Lemma hdrs_join b1 n u k v b2 :
  hdrs h a0 P (b1 ++ (n + 24 + k, u) :: b2) ⊆ hdrs h a0 P (b1 ++ (n, u) :: (k, v) :: b2).
Proof.
  unfold hdrs. rewrite addrs_one, addrs_two.
  replace (a0 + total b1 + 24 + (n + 24 + k)) with (a0 + total b1 + 24 + n + 24 + k) by lia. set_solver.
Qed.

Lemma laid_used_next m b1 n u b2 fl :
  laid h a0 P m (b1 ++ (n, u) :: b2) fl ->
  RT_MEMHEAP_IS_USED (mi_next (a0 + total b1) m) m = next_used b2.
Proof.
  intros HL. destruct (laid_read _ _ _ _ _ _ _ _ _ HL) as (_ & _ & E & _). unfold RT_MEMHEAP_IS_USED.
  rewrite E, (laid_next _ _ _ _ _ _ _ _ _ HL). apply used_magic.
Qed.
Lemma laid_used_prev m b1 n u b2 fl :
  laid h a0 P m (b1 ++ (n, u) :: b2) fl ->
  RT_MEMHEAP_IS_USED (mi_prev (a0 + total b1) m) m = prev_used b1.
Proof.
  intros HL. destruct (laid_read _ _ _ _ _ _ _ _ _ HL) as (_ & _ & _ & E & _). unfold RT_MEMHEAP_IS_USED.
  rewrite E, (laid_prev _ _ _ _ _ _ _ _ _ HL). apply used_magic.
Qed.

(** The merges. *)
Lemma block_absorb_ok m b1 n u k b2 fl :
  let x := a0 + total b1 in let y := x + 24 + n in let bs := b1 ++ (n, u) :: (k, false) :: b2 in
  laid h a0 P m bs fl -> y ∈ fl ->
  laid h a0 P (block_absorb x y m) (b1 ++ (n + 24 + k, u) :: b2) (remove Z.eq_dec y fl) /\
  same_data (hdrs h a0 P bs) m (block_absorb x y m).
Proof.
  intros x y bs HL Hy. destruct (step_join _ _ _ _ _ _ _ _ _ _ _ HL) as (_ & E1 & _ & _ & _ & E2 & HJ).
  fold x y in E1, E2, HJ. unfold block_absorb. rewrite E1, E2.
  destruct (HJ _ (or_intror eq_refl)) as (_ & _ & _ & _ & HR).
  destruct (list_elem_of_split _ _ Hy) as (l1 & l2 & El). destruct (HR _ _ El) as [HL' SD].
  split; [|done]. rewrite El, remove_middle; [done|]. rewrite <- El. by eapply fl_nodup.
Qed.

Lemma join_next_ok m av mx bl f b1 n b2 fl :
  let x := a0 + total b1 in let bs := b1 ++ (n, false) :: b2 in
  laid h a0 P m bs fl -> (next_used b2 = false -> x + 24 + n ∈ fl) ->
  0 <= av -> av + 24 < 2 ^ 32 ->
  exists m', join_next x (HState m (RtMemheap a0 P av mx bl f)) =
    HState m' (RtMemheap a0 P (av + if next_used b2 then 0 else 24) mx bl f) /\
    laid h a0 P m' (b1 ++ merge_next n b2) (drop_next (x + 24 + n) b2 fl) /\ same_data (hdrs h a0 P bs) m m'.
Proof.
  intros x bs HL Hfl Hav1 Hav2. unfold join_next, drop_next. cbn [hm]. unfold x.
  rewrite (laid_used_next _ _ _ _ _ _ HL). destruct (next_used b2) eqn:E; cbn [negb].
  - exists m. split; [by rewrite Z.add_0_r|]. split; [|done].
    destruct b2 as [|[k []] b2]; [done|done|discriminate].
  - destruct b2 as [|[k w] b2]; [done|]. cbn in E. subst w.
    destruct (laid_read _ _ _ _ _ _ _ _ _ HL) as (_ & _ & En & _).
    destruct (block_absorb_ok _ _ _ _ _ _ _ HL (Hfl eq_refl)) as [HL' SD].
    change RT_MEMHEAP_SIZE with 24. rewrite available_add_eq by lia. cbn [hm]. rewrite En, upd_hm. by eexists.
Qed.

Lemma join_prev_ok m av mx bl f b1 n b2 fl :
  let x := a0 + total b1 in let bs := b1 ++ (n, false) :: b2 in
  laid h a0 P m bs fl -> x ∉ fl -> 0 <= av -> av + 24 < 2 ^ 32 ->
  exists m' c1 n', join_prev x (HState m (RtMemheap a0 P av mx bl f)) =
    (a0 + total c1, prev_used b1, HState m' (RtMemheap a0 P (av + if prev_used b1 then 0 else 24) mx bl f)) /\
    laid h a0 P m' (c1 ++ (n', false) :: b2) fl /\ same_data (hdrs h a0 P bs) m m' /\
    if prev_used b1 then c1 = b1 /\ n' = n else exists k, b1 = c1 ++ [(k, false)] /\ n' = k + 24 + n.
Proof.
  intros x bs HL Hx Hav1 Hav2. unfold join_prev. cbn [hm]. unfold x.
  rewrite (laid_used_prev _ _ _ _ _ _ HL). destruct (prev_used b1) eqn:E; cbn [negb].
  - exists m, b1, n. rewrite Z.add_0_r. done.
  - destruct b1 as [|[k w] c1 _] using rev_ind; [done|]. unfold prev_used in E. rewrite last_snoc in E. cbn in E. subst w.
    assert (Ex : x = a0 + total c1 + 24 + k) by (unfold x; rewrite total_app; cbn; lia).
    unfold bs in HL. rewrite <- app_assoc in HL.
    destruct (step_join _ _ _ _ _ _ _ _ _ _ _ HL) as (E1 & E2 & E3 & E4 & _ & _ & HJ).
    rewrite <- Ex in E1, E2, E3, E4, HJ. fold x.
    change RT_MEMHEAP_SIZE with 24. rewrite available_add_eq by lia. rewrite !upd_hm, E1, E2, E3, E4. cbn [hm].
    destruct (HJ _ (or_introl eq_refl)) as (SD & E5 & _ & HL' & _). rewrite E5.
    eexists _, c1, (k + 24 + n). split; [reflexivity|]. split; [by apply HL'|].
    split; [by unfold bs; rewrite <- app_assoc|]. by exists k.
Qed.

Lemma give_block_eq b1 n b2 c1 n1 :
  (if prev_used b1 then c1 = b1 /\ n1 = n else exists k, b1 = c1 ++ [(k, false)] /\ n1 = k + 24 + n) ->
  give_block b1 n b2 = c1 ++ merge_next n1 b2.
Proof.
  unfold prev_used, give_block. destruct (last b1) as [[k w]|] eqn:E; cbn.
  - destruct w; [by intros [-> ->]|]. intros (j & -> & ->). rewrite last_snoc in E. injection E as ->.
    by rewrite removelast_last.
  - by intros [-> ->].
Qed.

Lemma merge_free_total n b2 : free_total (merge_next n b2) = n + free_total b2 + if next_used b2 then 0 else 24.
Proof. destruct b2 as [|[k []] b2]; cbn; change RT_MEMHEAP_SIZE with 24; lia. Qed.
Lemma merge_free_addrs a n b2 fl :
  NoDup fl -> fl ≡ₚ free_addrs (a + 24 + n) b2 ->
  free_addrs a (merge_next n b2) ≡ₚ a :: drop_next (a + 24 + n) b2 fl.
Proof.
  intros Hd E. destruct b2 as [|[k []] b2]; unfold drop_next; cbn in *; try by rewrite E.
  rewrite (remove_perm _ _ _ Hd E). change RT_MEMHEAP_SIZE with 24.
  by replace (a + 24 + (n + 24 + k)) with (a + 24 + n + 24 + k) by lia.
Qed.
Lemma merge_sizes n b2 : 12 <= n -> n mod 4 = 0 -> sizes_ok b2 -> sizes_ok (merge_next n b2).
Proof.
  intros Hn Hm Hs. destruct b2 as [|[k []] b2]; cbn; try by apply sizes_ok_cons.
  apply sizes_ok_cons in Hs as [[Hk Hkm] Hs]. apply sizes_ok_cons. split; [|done]. change RT_MEMHEAP_SIZE with 24.
  split; [lia|]. clear -Hm Hkm. Z.to_euclidean_division_equations. lia.
Qed.
Lemma merge_coalesced n b2 : coalesced b2 -> coalesced (merge_next n b2).
Proof. destruct b2 as [|[k []] b2]; cbn; tauto. Qed.
Lemma merge_head n b2 : exists k b, merge_next n b2 = (k, false) :: b.
Proof. destruct b2 as [|[k []] b2]; cbn; eauto. Qed.

Lemma drop_next_sub x b2 fl : drop_next x b2 fl ⊆ fl.
Proof.
  unfold drop_next. destruct (next_used b2); [done|]. intros y Hy. apply list_elem_of_In in Hy.
  apply in_remove in Hy as [Hy _]. by apply list_elem_of_In.
Qed.
Lemma drop_next_app x b2 l r fl :
  NoDup fl -> fl ≡ₚ l ++ r -> (next_used b2 = false -> x ∈ r) ->
  drop_next x b2 fl ≡ₚ l ++ drop_next x b2 r.
Proof.
  intros Hd E Hx. unfold drop_next. destruct (next_used b2); [done|].
  destruct (list_elem_of_split _ _ (Hx eq_refl)) as (r1 & r2 & ->). rewrite (remove_perm x fl (l ++ r1 ++ r2)).
  - rewrite remove_middle; [done|]. rewrite E in Hd. by apply NoDup_app in Hd as (_ & _ & ?).
  - done.
  - rewrite E. by rewrite (app_assoc l r1 (x :: r2)), <- Permutation_middle, <- app_assoc.
Qed.

(** [heap_give] frees a used block. *)
Lemma heap_give_ok v b1 n b2 fl :
  let x := a0 + total b1 in let v' := heap_give x v in
  heap_ok v (b1 ++ (n, true) :: b2) fl ->
  heap_ok v' (give_block b1 n b2) (give_free b1 b2 x (x + 24 + n) fl) /\
  same_data (hdrs h a0 P (b1 ++ (n, true) :: b2)) (hm v) (hm v').
Proof.
  intros x v' HO. subst v'.
  destruct (heap_numbers _ _ _ _ _ _ HO) as
    (N1 & N2 & N3 & N4 & N5 & N6 & N7 & N8 & Hn1 & Hn2 & Hs1 & Hs2 & Hc1 & Hc2 & Hp & Hq).
  destruct HO as [HL Hf _ _ Ha (mx & Hr & Hmx)]. destruct v as [m r]. cbn in HL, Hr. subst r.
  pose proof (fl_nodup _ _ _ HL) as Hd. rewrite free_total_app in *. cbn [free_total] in *.
  assert (Hx : x ∉ fl).
  { rewrite Hf. intros Hx. apply free_addrs_at in Hx; [done|]. apply nonneg_app. split; [done|].
    apply nonneg_cons. cbn. split; [lia|done]. }
  rewrite free_addrs_app in Hf. cbn in Hf. fold x in Hf.
  unfold heap_give. cbn [hp hm free_list].
  destruct (step_tag _ _ _ _ _ _ _ _ _ false HL) as (L1 & D1). fold x in L1, D1.
  set (m1 := mi_set_magic x (block_magic false) m) in *. change (Z.lor RT_MEMHEAP_MAGIC RT_MEMHEAP_FREED) with (block_magic false).
  rewrite upd_hm. cbn [hm]. fold m1.
  destruct (laid_read _ _ _ _ _ _ _ _ _ L1) as (_ & _ & _ & _ & Esz). fold x in Esz. rewrite Esz.
  rewrite available_add_eq by lia.
  destruct (join_prev_ok m1 (free_total b1 + free_total b2 + n) mx a0 (free_header h) _ _ _ _ L1 Hx)
    as (m2 & c1 & n1 & E2 & L2 & D2 & C2); [lia..|]. fold x in E2. replace (free_total b1 + (0 + free_total b2) + n)
    with (free_total b1 + free_total b2 + n) by lia. rewrite E2.
  set (av2 := _ + (if prev_used b1 then 0 else 24)) in *.
  assert (Ey : a0 + total c1 + 24 + n1 = x + 24 + n).
  { unfold x. destruct (prev_used b1); [by destruct C2 as [-> ->]|]. destruct C2 as (k & -> & ->).
    rewrite total_app. cbn. lia. }
  assert (Hyf : next_used b2 = false -> x + 24 + n ∈ free_addrs (x + 24 + n) b2).
  { destruct b2 as [|[k []] b2]; try done. intros _. cbn. set_solver. }
  destruct (join_next_ok m2 av2 mx a0 (free_header h) _ _ _ _ L2) as (m3 & E3 & L3 & D3).
  { intros E. rewrite Hf, Ey. apply elem_of_app. right. by apply Hyf. }
  { unfold av2. destruct (prev_used b1); lia. }
  { unfold av2. destruct (prev_used b1); lia. }
  rewrite E3. rewrite Ey in *. rewrite (give_block_eq _ _ _ _ _ C2).
  assert (Hm : free_total (c1 ++ merge_next n1 b2) = av2 + if next_used b2 then 0 else 24).
  { rewrite free_total_app, merge_free_total. unfold av2. destruct (prev_used b1); [destruct C2 as [-> ->]; lia|].
    destruct C2 as (k & -> & ->). rewrite free_total_app. cbn. lia. }
  assert (HD : same_data (hdrs h a0 P (b1 ++ (n, true) :: b2)) m m3).
  { rewrite (hdrs_tag _ n false true) in D2. etrans; [exact D1|]. etrans; [exact D2|].
    eapply same_data_mono; [|exact D3]. destruct (prev_used b1).
    - destruct C2 as [-> ->]. by rewrite (hdrs_tag _ n true false).
    - destruct C2 as (k & -> & ->). rewrite <- app_assoc, (hdrs_join c1 k false n true b2). done. }
  assert (Hdy : NoDup (free_addrs (x + 24 + n) b2)) by (rewrite Hf in Hd; by apply NoDup_app in Hd as (_ & _ & ?)).
  pose proof (merge_free_addrs (a0 + total c1) n1 b2) as HM. rewrite Ey in HM. specialize (HM _ Hdy (Permutation_refl _)).
  pose proof (drop_next_app _ _ _ _ _ Hd Hf Hyf) as HF. unfold give_free.
  assert (HC : 12 <= n1 /\ n1 mod 4 = 0 /\ sizes_ok c1 /\ coalesced c1 /\ prev_used c1 = true).
  { destruct (prev_used b1) eqn:E; [destruct C2 as [-> ->]; done|]. destruct C2 as (k & -> & ->).
    apply sizes_ok_app in Hs1 as [Hs1 [[Hk Hk4] _]%sizes_ok_cons]. apply coalesced_one in Hc1 as (Hc1 & _ & Hu & _).
    rewrite orb_false_r in Hu. split_and!; [lia| |done..]. clear -Hk4 N8. Z.to_euclidean_division_equations. lia. }
  destruct HC as (HC1 & HC2 & HC3 & HC4 & HC5).
  assert (HS : sizes_ok (c1 ++ merge_next n1 b2)) by (apply sizes_ok_app; split; [done|by apply merge_sizes]).
  assert (HCo : coalesced (c1 ++ merge_next n1 b2)).
  { apply coalesced_app. split; [done|]. split; [by apply merge_coalesced|]. by rewrite HC5. }
  set (av3 := av2 + (if next_used b2 then 0 else 24)) in *.
  assert (Hmx3 : P - av3 <= mx <= P) by (unfold av3, av2; destruct (prev_used b1), (next_used b2); lia).
  destruct (prev_used b1).
  - destruct C2 as [-> ->]. fold x in HM |- *. rewrite upd_hm. cbn [hm].
    destruct (merge_head n b2) as (k & r & EM).
    destruct (step_insert _ _ _ _ _ _ x L3) as (L4 & D4).
    { rewrite EM. apply placed_at. } { intros Hxd. apply Hx. by eapply drop_next_sub. }
    assert (HX : hdrs h a0 P (b1 ++ merge_next n b2) ⊆ hdrs h a0 P (b1 ++ (n, true) :: b2)).
    { rewrite (hdrs_tag _ n true false). destruct b2 as [|[j []] b2]; cbn; try done. apply hdrs_join. }
    split; [|etrans; [exact HD|]; by eapply same_data_mono]. split; try done.
    + rewrite HF, free_addrs_app. fold x. rewrite HM. by rewrite <- Permutation_middle.
    + exists mx. cbn [hp]. by rewrite Hm.
  - destruct C2 as (k & -> & ->). split; [|done]. split; try done.
    + rewrite HF, !free_addrs_app. rewrite HM. cbn. by rewrite <- app_assoc.
    + exists mx. cbn [hp]. by rewrite Hm.
Qed.

(** ** Resizing in place *)

(** Facts that the operations on the free list need. *)
Lemma used_not_free v b1 n b2 fl : heap_ok v (b1 ++ (n, true) :: b2) fl -> a0 + total b1 ∉ fl.
Proof.
  intros HO. rewrite (ok_free _ _ _ HO). intros Hx. apply free_addrs_at in Hx; [done|]. apply HO.
Qed.

(** [heap_grow]: a used block of [old] bytes and the free block of [k] bytes
    behind it become a used block of [new] bytes and a free one. *)
Lemma heap_grow_ok v b1 old k b2 fl new :
  let x := a0 + total b1 in let bs := b1 ++ (old, true) :: (k, false) :: b2 in
  let bs' := b1 ++ (new, true) :: (k + old - new, false) :: b2 in
  let v' := heap_grow h (x + 24) x old new v in
  heap_ok v bs fl -> old < new -> new + 12 < k + old -> new mod 4 = 0 ->
  heap_ok v' bs' ((x + 24 + new) :: remove Z.eq_dec (x + 24 + old) fl) /\
  exists m1, same_data (hdrs h a0 P bs) (hm v) m1 /\ same_data (hdrs h a0 P bs') m1 (hm v').
Proof.
  intros x bs bs' v' HO Hold Hnew Hn4. subst v'.
  pose proof (heap_numbers _ _ _ _ _ _ HO) as
    (N1 & N2 & N3 & N4 & N5 & N6 & N7 & N8 & Hn1 & Hn2 & Hs1 & Hs2 & Hc1 & Hc2 & Hp & Hq).
  pose proof (used_not_free _ _ _ _ _ HO) as Hx. fold x in Hx.
  destruct HO as [HL Hf _ _ Ha (mx & Hr & Hmx)]. destruct v as [m r]. cbn in HL, Hr. subst r.
  pose proof (fl_nodup _ _ _ HL) as Hd. cbn in N3, N6, Hc2. apply nonneg_cons in Hn2 as [Hk0 Hn2]. cbn in Hk0.
  pose proof (total_nonneg _ Hn2). pose proof (free_total_bounds _ Hn2). unfold bs in Hmx, Hf. rewrite free_total_app in Hmx.
  cbn [free_total] in Hmx. rewrite free_addrs_app in Hf. cbn in Hf. fold x in Hf. set (y := x + 24 + old) in *.
  assert (Hfy : fl ≡ₚ y :: free_addrs a0 b1 ++ free_addrs (y + 24 + k) b2).
  { rewrite Hf. cbn. by rewrite <- Permutation_middle. }
  assert (Hy : y ∈ fl) by (rewrite Hfy; set_solver). destruct (list_elem_of_split _ _ Hy) as (l1 & l2 & ->).
  rewrite remove_middle by done. rewrite <- Permutation_middle in Hfy. apply Permutation_cons_inv in Hfy.
  unfold heap_grow. cbn [hp hm free_list].
  destruct (laid_read _ _ _ _ _ _ _ _ _ HL) as (_ & _ & En & _). fold x y in En. rewrite En.
  rewrite (u32_small (x + 24 + new)) by (unfold x; lia).
  assert (EF : free_total bs = free_total b1 + (0 + (k + free_total b2))) by (unfold bs; by rewrite free_total_app).
  rewrite EF, available_add_eq, note_used_eq by lia. rewrite !upd_hm.
  destruct (step_remove _ _ _ _ _ _ _ _ HL) as (L1 & D1).
  assert (Hyl : y ∉ l1 ++ l2) by (rewrite <- Permutation_middle in Hd; by apply NoDup_cons in Hd as [? _]).
  destruct (step_join _ _ _ _ _ _ _ _ _ _ _ L1) as (E1 & E2 & _ & _ & E3 & E4 & HJ).
  fold x y in E1, E2, E3, E4, HJ. rewrite E1, E2, E3, E4.
  destruct (HJ _ (or_intror eq_refl)) as (D2 & _ & _ & L2 & _). specialize (L2 Hyl).
  replace (old + 24 + k) with (new + 24 + (k + old - new)) in L2 by lia.
  destruct (step_split _ _ _ _ _ _ _ _ _ _ L2) as (L3 & X3 & D3); [lia..|]. fold x in L3, X3, D3.
  destruct (step_insert _ _ _ _ _ _ (x + 24 + new) L3) as (L4 & D4); [|done|].
  { pose proof (placed_at a0 (b1 ++ [(new, true)]) (k + old - new, false) b2) as Hk.
    rewrite <- app_assoc, total_app in Hk. cbn in Hk. unfold x.
    by replace (a0 + (total b1 + (24 + new + 0))) with (a0 + total b1 + 24 + new) in Hk by lia. }
  split; [|eexists; split; [etrans; [exact D1|exact D2]|etrans; [exact D3|exact D4]]].
  apply sizes_ok_cons in Hs2 as [[Hk Hk4] Hs2]. split; [done| | | |done|].
  - unfold bs'. rewrite free_addrs_app. cbn. fold x. rewrite <- Permutation_middle, Hfy.
    by replace (x + 24 + new + 24 + (k + old - new)) with (y + 24 + k) by (unfold y; lia).
  - apply sizes_ok_app. split; [done|]. apply sizes_ok_cons. split; [by split; [lia|]|].
    apply sizes_ok_cons. split; [|done]. split; [|clear -Hk4 N8 Hn4; Z.to_euclidean_division_equations; lia].
    change RT_MEMHEAP_MINIALLOC with 12. lia.
  - apply coalesced_app. split; [done|]. cbn. rewrite orb_true_r. tauto.
  - eexists. cbn [hp]. unfold bs'. rewrite free_total_app. cbn [free_total]. split; [f_equal|]; lia.
Qed.

(** The merge of [heap_shrink]: unlike [join_next] it takes the bytes of the
    block behind out of the free ones. *)
Lemma shrink_join_ok m av mx c1 n b2 fl :
  let z := a0 + total c1 in let y := z + 24 + n in let bs := c1 ++ (n, false) :: b2 in
  laid h a0 P m bs fl -> (next_used b2 = false -> y ∈ fl) -> 0 <= free_total b2 <= av -> av < 2 ^ 32 ->
  exists m' av' n' r,
    (if negb (RT_MEMHEAP_IS_USED (mi_next z m) m) then
       available_add (- MEMITEM_SIZE (mi_next z m) m) (HState m (RtMemheap a0 P av mx a0 (free_header h)))
         <| hm ::= block_absorb z (mi_next z m) |>
     else HState m (RtMemheap a0 P av mx a0 (free_header h))) = HState m' (RtMemheap a0 P av' mx a0 (free_header h)) /\
    laid h a0 P m' (c1 ++ merge_next n b2) (drop_next y b2 fl) /\ same_data (hdrs h a0 P bs) m m' /\
    merge_next n b2 = (n', false) :: r /\ 0 <= av' /\
    av' + n' = av + n + if next_used b2 then 0 else 24.
Proof.
  intros z y bs HL Hy Hav Hav2. unfold z at 1. rewrite (laid_used_next _ _ _ _ _ _ HL). unfold drop_next.
  destruct (next_used b2) eqn:E; cbn [negb].
  - exists m, av, n, b2. destruct b2 as [|[k []] b2]; try discriminate; cbn; split_and!; (done || lia).
  - destruct b2 as [|[k w] b2]; [done|]. cbn in E. subst w. cbn in Hav.
    destruct (laid_read _ _ _ _ _ _ _ _ _ HL) as (_ & _ & En & _). fold z y in En. rewrite En.
    destruct (block_absorb_ok _ _ _ _ _ _ _ HL (Hy eq_refl)) as [HL' SD]. fold z y in HL', SD.
    assert (Esz : MEMITEM_SIZE y m = k).
    { unfold bs in HL. replace (c1 ++ (n, false) :: (k, false) :: b2) with ((c1 ++ [(n, false)]) ++ (k, false) :: b2) in HL
        by (by rewrite <- app_assoc).
      destruct (laid_read _ _ _ _ _ _ _ _ _ HL) as (_ & _ & _ & _ & Esz). rewrite total_app in Esz. cbn in Esz.
      by replace (a0 + (total c1 + (24 + n + 0))) with y in Esz by (unfold y, z; lia). }
    pose proof (pl_nonneg _ _ _ _ (la_placed _ _ _ _ _ _ HL)) as Hn. apply nonneg_app in Hn as [_ Hn].
    rewrite !nonneg_cons in Hn. cbn in Hn. destruct Hn as (_ & Hk & Hn). pose proof (free_total_bounds _ Hn).
    rewrite Esz, available_add_eq, upd_hm by lia.
    eexists _, _, (n + 24 + k), b2. split; [reflexivity|]. cbn [merge_next]. split_and!; (done || lia).
Qed.

(** [heap_shrink]: the end of a used block becomes a free one, merged with the
    block behind it. *)
Lemma heap_shrink_ok v b1 old b2 fl new :
  let x := a0 + total b1 in let rest := old - new - 24 in
  let bs := b1 ++ (new, true) :: merge_next rest b2 in let v' := heap_shrink h x new v in
  heap_ok v (b1 ++ (old, true) :: b2) fl -> 12 <= new -> new + 36 < old -> new mod 4 = 0 ->
  heap_ok v' bs ((x + 24 + new) :: drop_next (x + 24 + old) b2 fl) /\
  same_data (hdrs h a0 P (b1 ++ (new, true) :: (rest, false) :: b2)) (hm v) (hm v').
Proof.
  intros x rest bs v' HO Hnew Hold Hn4. subst v'.
  pose proof (heap_numbers _ _ _ _ _ _ HO) as
    (N1 & N2 & N3 & N4 & N5 & N6 & N7 & N8 & Hn1 & Hn2 & Hs1 & Hs2 & Hc1 & Hc2 & Hp & Hq).
  destruct HO as [HL Hf _ _ Ha (mx & Hr & Hmx)]. destruct v as [m r]. cbn in HL, Hr. subst r.
  pose proof (fl_nodup _ _ _ HL) as Hd. rewrite free_total_app in Hmx. cbn [free_total] in Hmx.
  rewrite free_addrs_app in Hf. cbn in Hf. fold x in Hf. set (y := x + 24 + old) in *. set (z := x + 24 + new) in *.
  unfold heap_shrink. cbn [hp hm free_list]. change RT_MEMHEAP_SIZE with 24.
  replace (x + new + 24) with z by (unfold z; lia). rewrite (u32_small z) by (unfold z, x; lia). rewrite upd_hm. cbn [hm].
  replace old with (new + 24 + rest) in HL by (unfold rest; lia).
  destruct (step_split _ _ _ _ _ _ _ _ _ _ HL) as (L1 & X1 & D1); [unfold rest; lia..|]. fold x z in L1, X1, D1.
  set (m1 := block_split h x z m) in *.
  assert (Ez : z = a0 + total (b1 ++ [(new, true)])) by (unfold z, x; rewrite total_app; cbn; lia).
  assert (Ey : z + 24 + rest = y) by (unfold z, y, rest; lia).
  set (c1 := b1 ++ [(new, true)]) in *.
  assert (EC : forall r, b1 ++ (new, true) :: r = c1 ++ r) by (intros r; unfold c1; by rewrite <- app_assoc).
  unfold bs. rewrite !EC in *. rewrite Ez in *.
  set (av := free_total (b1 ++ (old, true) :: b2)) in *.
  assert (Eav : av = free_total b1 + free_total b2) by (unfold av; rewrite free_total_app; cbn; lia).
  destruct (shrink_join_ok m1 av mx _ _ _ _ L1) as (m2 & av2 & n & r & -> & L2 & D2 & En & Hav2 & Eav2); [|lia..|].
  { intros E. rewrite Ey, Hf. apply elem_of_app. right. destruct b2 as [|[k []] b2]; try done. cbn. set_solver. }
  rewrite Ey in L2. rewrite upd_hm. cbn [hm].
  destruct (step_insert _ _ _ _ _ _ (a0 + total c1) L2) as (L3 & D3).
  { rewrite En. apply placed_at. } { intros Hz. apply X1. by eapply drop_next_sub. }
  pose proof L3 as L3'. rewrite En in L3'. destruct (laid_read _ _ _ _ _ _ _ _ _ L3') as (_ & _ & _ & _ & Esz).
  assert (EF : free_total (c1 ++ merge_next rest b2) = av2 + n).
  { rewrite free_total_app, merge_free_total. unfold c1. rewrite free_total_app. cbn. lia. }
  assert (Hnn : 0 <= n).
  { pose proof (pl_nonneg _ _ _ _ (la_placed _ _ _ _ _ _ L3')) as Hn. apply nonneg_app in Hn as [_ [Hn _]%nonneg_cons].
    done. }
  rewrite Esz, available_add_eq by (destruct (next_used b2); lia).
  assert (HX : hdrs h a0 P (c1 ++ merge_next rest b2) ⊆ hdrs h a0 P (c1 ++ (rest, false) :: b2)).
  { destruct b2 as [|[j []] b2]; cbn; try done. apply hdrs_join. }
  split; [|etrans; [exact D1|etrans; [exact D2|by eapply same_data_mono]]].
  assert (Hdy : NoDup (free_addrs y b2)) by (rewrite Hf in Hd; by apply NoDup_app in Hd as (_ & _ & ?)).
  split; [done| | | |done|].
  - pose proof (merge_free_addrs (a0 + total c1) rest b2) as HM. rewrite Ey in HM.
    specialize (HM _ Hdy (Permutation_refl _)). rewrite free_addrs_app, HM. 
    replace (free_addrs a0 c1) with (free_addrs a0 b1) by (unfold c1; rewrite free_addrs_app; cbn; by rewrite app_nil_r).
    rewrite <- Permutation_middle. apply perm_skip. apply drop_next_app; [done..|].
    destruct b2 as [|[k []] b2]; try done. intros _. cbn. set_solver.
  - apply sizes_ok_app. split; [apply sizes_ok_app; split; [done|]|].
    { apply sizes_ok_cons. split; [done|constructor]. }
    apply merge_sizes; [lia| |done]. unfold rest. clear -N8 Hn4. Z.to_euclidean_division_equations. lia.
  - unfold c1. rewrite <- EC. apply coalesced_one. split; [done|]. split; [by apply merge_coalesced|].
    by rewrite orb_true_r.
  - eexists. cbn [hp]. split; [f_equal; lia|]. destruct (next_used b2); lia.
Qed.
End Heap.

(** ** Bytes stay bytes *)
Lemma byte_range k v : 0 <= byte k v < 256.
Proof. unfold byte. change 255 with (Z.ones 8). rewrite Z.land_ones by done. by apply Z.mod_pos_bound. Qed.
Lemma bytes_store32 a v m : bytes m -> bytes (store32 a v m).
Proof. intros Hm x. rewrite store32_spec. case_match; [apply byte_range|apply Hm]. Qed.
Lemma bytes_free_remove x m : bytes m -> bytes (free_remove x m).
Proof. intros Hm. by repeat apply bytes_store32. Qed.
Lemma bytes_free_insert fl x m : bytes m -> bytes (free_insert fl x m).
Proof. intros Hm. by repeat apply bytes_store32. Qed.
Lemma bytes_block_split h x y m : bytes m -> bytes (block_split h x y m).
Proof. intros Hm. by repeat apply bytes_store32. Qed.
Lemma bytes_block_absorb x y m : bytes m -> bytes (block_absorb x y m).
Proof. intros Hm. by repeat apply bytes_store32. Qed.
Lemma hm_note_used v : hm (note_used v) = hm v.
Proof. unfold note_used. by case_match. Qed.
Lemma hm_available_add n v : hm (available_add n v) = hm v.
Proof. done. Qed.
Create HintDb heap.
#[export] Hint Resolve bytes_store32 bytes_free_remove bytes_free_insert bytes_block_split bytes_block_absorb : heap.

Ltac bytes_stay :=
  intros Hm; cbv zeta; repeat case_match; simplify_eq/=; rewrite ?hm_note_used, ?hm_available_add;
  unfold upd, F_hm, mi_set_magic, mi_set_next, mi_set_prev, mi_set_next_free, mi_set_prev_free; cbn [hm];
  rewrite ?hm_note_used, ?hm_available_add; cbn [hm]; eauto 12 with heap.

Lemma bytes_take h size x n v : bytes (hm v) -> bytes (hm (heap_take h size x n v)).
Proof. unfold heap_take. bytes_stay. Qed.
Lemma bytes_join_prev x v : bytes (hm v) -> bytes (hm (snd (join_prev x v))).
Proof. unfold join_prev. bytes_stay. Qed.
Lemma bytes_join_next x v : bytes (hm v) -> bytes (hm (join_next x v)).
Proof. unfold join_next. bytes_stay. Qed.
Lemma bytes_give x v : bytes (hm v) -> bytes (hm (heap_give x v)).
Proof.
  intros Hm. unfold heap_give. pose proof (bytes_join_prev x (available_add (MEMITEM_SIZE x
    (hm (v <| hm ::= mi_set_magic x (Z.lor RT_MEMHEAP_MAGIC RT_MEMHEAP_FREED) |>)))
    (v <| hm ::= mi_set_magic x (Z.lor RT_MEMHEAP_MAGIC RT_MEMHEAP_FREED) |>)) ltac:(rewrite hm_available_add; by apply (bytes_store32 x))) as Hj.
  destruct (join_prev _ _) as [[y []] w]; cbn [snd] in Hj; [apply bytes_free_insert|]; by apply bytes_join_next.
Qed.
Lemma bytes_grow h p x old new v : bytes (hm v) -> bytes (hm (heap_grow h p x old new v)).
Proof. unfold heap_grow. bytes_stay. Qed.
Lemma bytes_shrink h x new v : bytes (hm v) -> bytes (hm (heap_shrink h x new v)).
Proof. unfold heap_shrink. bytes_stay. Qed.
