(* ===== verification/MemHeapInit.v ===== *)
(** Memory heaps: a heap in a state of the kernel, and [rt_memheap_init]. *)
From S2P Require Export Calm MemHeapOps.
Local Open Scope Z_scope.

Section Heap.
Context (h a0 P : Z).

(** ** The heap of the kernel *)

(** The heap [h], with nobody holding its semaphore. *)
Record heap_at (s : kstate) (bs : hblocks) (fl : list Z) : Prop := {
  ha_type : typed s (heap_ref h) RT_Object_Class_MemHeap;
  ha_heap : exists x, memheaps s !! h = Some x /\ heap_ok h a0 P (HState (heap_mem s) x) bs fl;
  ha_lock : sem_is s (heap_lock h) (SemSpec 1 []);
  ha_bytes : bytes (heap_mem s) }.

(** The state [s] with the memory and the structure [v]. *)
Definition heap_set (v : hstate) (s : kstate) : kstate :=
  s <| heap_mem := hm v |> <| memheaps ::= <[h := hp v]> |>.

Lemma heap_set_at v s bs fl bs' fl' :
  heap_at s bs fl -> heap_ok h a0 P v bs' fl' -> bytes (hm v) -> heap_at (heap_set v s) bs' fl'.
Proof.
  intros [HT _ HL _] HV HB. split; [done| |done|done]. exists (hp v). split; [apply lookup_insert_eq|].
  by destruct v.
Qed.

(** Between taking and releasing the semaphore. *)
Lemma heap_take_lock `{!SignalOps} s bs fl :
  heap_at s bs fl ->
  rt_sem_take (heap_lock h) RT_WAITING_FOREVER s = Done RT_EOK (sem_set (heap_lock h) 0 s).
Proof. intros [_ _ HL _]. by rewrite (sem_take_now _ _ _ _ HL). Qed.

Lemma heap_release_lock `{!SignalOps} s v bs fl :
  heap_at s bs fl ->
  rt_sem_release (heap_lock h) (heap_set v (sem_set (heap_lock h) 0 s)) = Done RT_EOK (heap_set v s).
Proof.
  intros [_ _ (HT & HS & HQ) _].
  rewrite (sem_release_count _ _ (SemSpec 0 [])); [|split; [done|split; [apply lookup_insert_eq|done]]|done|done].
  cbn [tokens]. change (0 <? RT_SEM_VALUE_MAX) with true. cbn iota. f_equal.
  set (lk := heap_lock h) in *.
  change (heap_set v (s <| sems ::= fun q => <[lk := RtSem 1]> (<[lk := RtSem 0]> q) |>) = heap_set v s).
  f_equal. destruct s. unfold upd, F_sems. cbn in *. by rewrite insert_insert_eq, insert_id.
Qed.

Lemma heap_run_eq s f x :
  memheaps s !! h = Some x -> heap_run h f s = Done tt (heap_set (f (HState (heap_mem s) x)) s).
Proof. intros E. unfold heap_run, get_heap, get, mbind, prog_bind. cbn. by rewrite E. Qed.

Lemma heap_set_id s bs fl :
  heap_at s bs fl -> exists x, heap_set (HState (heap_mem s) x) s = s.
Proof.
  intros [_ (x & Hx & _) _ _]. exists x. unfold heap_set. destruct s. unfold upd, F_heap_mem, F_memheaps. cbn in *.
  by rewrite insert_id.
Qed.

Lemma hstate_eta v : HState (hm v) (hp v) = v.
Proof. by destruct v. Qed.
Lemma heap_set_set v w s : heap_set v (heap_set w s) = heap_set v s.
Proof.
  set (f := fun q : gmap Z rt_memheap => <[h := hp v]> q).
  change (heap_set v (heap_set w s)) with
    (s <| heap_mem := hm v |> <| memheaps := f (<[h := hp w]> (memheaps s)) |>).
  unfold f. by rewrite insert_insert_eq.
Qed.

Lemma heap_release_lock_id `{!SignalOps} s bs fl :
  heap_at s bs fl -> rt_sem_release (heap_lock h) (sem_set (heap_lock h) 0 s) = Done RT_EOK s.
Proof.
  intros HA. destruct (heap_set_id _ _ _ HA) as (x & Hx).
  pose proof (heap_release_lock s (HState (heap_mem s) x) bs fl HA) as E. rewrite Hx in E.
  change (heap_set ?v (sem_set ?l ?n s)) with (sem_set l n (heap_set v s)) in E. by rewrite Hx in E.
Qed.

Lemma get_heap_eq s x : memheaps s !! h = Some x -> get_heap h s = Done x s.
Proof. intros E. unfold get_heap, get, mbind, prog_bind. cbn. by rewrite E. Qed.


(** ** Initialisation *)

(** What a store leaves in a field: the steps of reading through stores. *)
Ltac read_stores :=
  unfold mi_magic, mi_pool_ptr, mi_next, mi_prev, mi_next_free, mi_prev_free,
    mi_set_magic, mi_set_pool_ptr, mi_set_next, mi_set_prev, mi_set_next_free, mi_set_prev_free;
  repeat first [rewrite load32_store32 by (lia || by vm_compute) | rewrite load32_store32_ne by lia]; try done.

(** [heap_format] makes one free block of the pool. *)
Lemma heap_format_ok m r :
  placed h a0 P [(P - 48, false)] -> a0 mod 4 = 0 -> P mod 4 = 0 -> 60 <= P ->
  r = RtMemheap a0 P (P - 48) 48 a0 (free_header h) -> bytes m ->
  heap_ok h a0 P (heap_format h a0 (HState m r)) [(P - 48, false)] [a0] /\
  bytes (hm (heap_format h a0 (HState m r))).
Proof.
  intros HP Ha HP4 HPs -> Hb. pose proof HP as [Hh Hp Hap _ _]. unfold heap_format. cbn [hp hm available_size].
  set (F := free_header h) in *. set (T := tailer a0 P).
  assert (HT : u32 (a0 + (P - 48) + RT_MEMHEAP_SIZE) = T).
  { change RT_MEMHEAP_SIZE with 24. unfold T, tailer. rewrite u32_small; lia. }
  rewrite HT. clear HT. set (m12 := mi_set_prev_free a0 a0 (mi_set_next_free a0 a0 _)).
  assert (TE : T = a0 + P - 24) by done.
  assert (HF : 0 < F /\ h < 2 ^ 32) by (unfold F, free_header, SIZEOF_OBJECT in *; lia).
  set (m13 := mi_set_next a0 T m12). assert (E13 : mi_next a0 m13 = T) by (unfold m13; clearbody m12; read_stores).
  rewrite E13. set (m14 := mi_set_prev a0 T m13).
  assert (E14 : mi_next_free F m14 = F) by (unfold m14, m13, m12; clear E13; read_stores).
  assert (E14' : mi_next a0 m14 = T) by (unfold m14, m13; clearbody m12; read_stores).
  assert (E15 : free_insert F a0 m14 =
    mi_set_next_free F a0 (mi_set_prev_free F a0 (mi_set_prev_free a0 F (mi_set_next_free a0 F m14)))).
  { unfold free_insert. rewrite E14. f_equal. replace (mi_next_free F (mi_set_prev_free a0 F (mi_set_next_free a0 F m14)))
      with F; [done|]. symmetry. etrans; [|exact E14]. clear E13 E14 E14'. clearbody m14. read_stores. }
  rewrite E15. set (m15 := mi_set_next_free F a0 _).
  assert (EN : mi_next a0 m15 = T) by (etrans; [|exact E14']; unfold m15; clear E13 E14 E14' E15; clearbody m14; read_stores).
  rewrite EN. set (mf := mi_set_next_free T 0 _). change (RtMemheap _ _ _ _ _ F) with (RtMemheap a0 P (P - 48) 48 a0 F).
  cbn [hm hp]. clear E13 E14 E14' E15 EN.
  assert (R1 : mi_next a0 mf = T /\ mi_prev a0 mf = T /\ mi_next T mf = a0 /\ mi_prev T mf = a0).
  { split_and!; unfold mf, m15, m14, m13; clearbody m12; read_stores. }
  assert (R2 : mi_next_free F mf = a0 /\ mi_prev_free F mf = a0 /\ mi_next_free a0 mf = F /\ mi_prev_free a0 mf = F).
  { split_and!; unfold mf, m15; clearbody m14; read_stores. }
  assert (R3 : mi_magic T mf = block_magic true /\ mi_pool_ptr T mf = h).
  { split_and!; unfold mf; clearbody m15; read_stores. }
  assert (R4 : mi_magic a0 mf = block_magic false /\ mi_pool_ptr a0 mf = h).
  { split_and!; unfold mf, m15, m14, m13, m12; read_stores. }
  destruct R1 as (R11 & R12 & R13 & R14), R2 as (R21 & R22 & R23 & R24).
  split; [|by repeat apply bytes_store32].
  split; cbn [hm hp]; [|done| |done|done|].
  - split; [done| | |set_solver| |].
    + split; [|done]. fold T. apply NoDup_cons_2; [|apply NoDup_singleton]. apply not_elem_of_cons. split; [lia|]. apply not_elem_of_nil.
    + split; [|done]. fold F. apply NoDup_cons_2; [|apply NoDup_singleton]. apply not_elem_of_cons. split; [lia|]. apply not_elem_of_nil.
    + intros x u. cbn. intros [[= -> ->]|Hx]%elem_of_cons; [|by apply elem_of_nil in Hx].
      unfold tags, item_at. cbn. by destruct R4 as [-> ->].
    + fold T. unfold tags, item_at. cbn. by destruct R3 as [-> ->].
  - apply sizes_ok_cons. split; [|constructor]. split; [lia|]. Z.to_euclidean_division_equations; lia.
  - exists 48. cbn. split; [|lia]. f_equal. lia.
Qed.

Lemma sem_init_boot `{!SignalOps} s x name value flag :
  current_thread s = None -> scheduler_lock_nest s = 0 -> sem_ref x ∉ object_list s RT_Object_Class_Semaphore ->
  valid_flag flag = true -> 0 <= value < 2 ^ 16 ->
  exists s', rt_sem_init x name value flag s = Done RT_EOK s' /\ sem_is s' x (SemSpec value []) /\
    s' = s <| objs := objs s' |> <| containers := containers s' |> <| sems := sems s' |> <| queues := queues s' |> /\
    (forall r, r <> sem_ref x -> objs s' !! r = objs s !! r) /\
    (forall q, q <> QSuspend (sem_ref x) -> queue s' q = queue s q) /\
    forall c, object_list s' c = if decide (c = RT_Object_Class_Semaphore) then sem_ref x :: object_list s c else object_list s c.
Proof.
  intros HC HN Hr Hf Hv. unfold rt_sem_init.
  destruct (object_init_calm s (sem_ref x) RT_Object_Class_Semaphore name (calm_boot s HC HN) eq_refl Hr) as (o & Ho & E).
  eexists. split; [|split].
  - erewrite bind_done by (unfold rt_assert; by rewrite (proj2 (Z.ltb_lt _ _)) by lia).
    erewrite bind_done by (unfold rt_assert; by rewrite Hf). erewrite bind_done by exact E.
    erewrite bind_done by reflexivity. erewrite bind_done by reflexivity.
    erewrite bind_done; [reflexivity|]. unfold set_flag. apply mod_obj_eq. apply lookup_insert_eq.
  - split; [|split].
    + eexists. split; [apply lookup_insert_eq|]. cbn. by rewrite Ho.
    + cbn. rewrite lookup_insert_eq. f_equal. cbn. unfold u16, wrap. by rewrite Z.mod_small.
    + cbn. by rewrite lookup_total_insert_eq.
  - split; [by destruct s|]. split; [|split].
    + intros r Hne. cbn. by rewrite !lookup_insert_ne by done.
    + intros q Hq. unfold queue. cbn. by rewrite lookup_total_insert_ne.
    + intros c. unfold object_list. cbn. case_decide as Ec; [subst c; apply lookup_total_insert_eq|by apply lookup_total_insert_ne].
Qed.

(** What [rt_memheap_init] changes. *)
Record heap_made (s s' : kstate) : Prop := {
  hm_eq : s' = s <| objs := objs s' |> <| containers := containers s' |> <| sems := sems s' |> <| queues := queues s' |>
                 <| memheaps := memheaps s' |> <| heap_mem := heap_mem s' |>;
  hm_heaps h' : h' <> h -> memheaps s' !! h' = memheaps s !! h';
  hm_objs r : r <> heap_ref h -> r <> sem_ref (heap_lock h) -> objs s' !! r = objs s !! r;
  hm_queue q : q <> QSuspend (sem_ref (heap_lock h)) -> queue s' q = queue s q;
  hm_list c : object_list s' c =
    if decide (c = RT_Object_Class_Semaphore) then sem_ref (heap_lock h) :: object_list s c
    else if decide (c = RT_Object_Class_MemHeap) then heap_ref h :: object_list s c else object_list s c }.

(** The structures of the heap are [v], then the semaphore is made. *)
Lemma heap_made_intro s v o r0 s' :
  let s1 := s <| objs ::= <[heap_ref h := o]> |>
    <| containers ::= (fun m => <[RT_Object_Class_MemHeap := heap_ref h :: m !!! RT_Object_Class_MemHeap]> m) |> in
  let s3 := heap_set v (s1 <| memheaps ::= <[h := r0]> |>) in
  s' = s3 <| objs := objs s' |> <| containers := containers s' |> <| sems := sems s' |> <| queues := queues s' |> ->
  (forall r, r <> sem_ref (heap_lock h) -> objs s' !! r = objs s3 !! r) ->
  (forall q, q <> QSuspend (sem_ref (heap_lock h)) -> queue s' q = queue s3 q) ->
  (forall c, object_list s' c = if decide (c = RT_Object_Class_Semaphore) then sem_ref (heap_lock h) :: object_list s3 c
                                else object_list s3 c) ->
  heap_made s s' /\ heap_mem s' = hm v /\ memheaps s' = memheaps s3.
Proof.
  intros s1 s3 EQ EO EU EL. assert (EM : heap_mem s' = hm v) by (by rewrite EQ).
  assert (EH : memheaps s' = memheaps s3) by (by rewrite EQ). split; [|done]. split.
  - rewrite EH, EM. rewrite EQ at 1. by destruct s.
  - intros h' Hne. rewrite EH. etrans; [by apply lookup_insert_ne|]. by apply lookup_insert_ne.
  - intros r Hx Hy. rewrite EO by done. by apply lookup_insert_ne.
  - intros q Hq. by rewrite EU.
  - intros c. rewrite EL. unfold object_list. cbn. case_decide as Ec; [subst c; by rewrite lookup_total_insert_ne|].
    case_decide as Ec'; [subst c; by rewrite lookup_total_insert_eq|by rewrite lookup_total_insert_ne].
Qed.

Lemma memheap_init_ok `{!SignalOps} s name size :
  current_thread s = None -> scheduler_lock_nest s = 0 -> bytes (heap_mem s) ->
  heap_ref h ∉ object_list s RT_Object_Class_MemHeap ->
  sem_ref (heap_lock h) ∉ object_list s RT_Object_Class_Semaphore ->
  P = RT_ALIGN_DOWN size RT_ALIGN_SIZE -> 60 <= P -> a0 mod 4 = 0 -> placed h a0 P [(P - 48, false)] ->
  exists s', rt_memheap_init h name a0 size s = Done RT_EOK s' /\
    heap_at s' [(P - 48, false)] [a0] /\ heap_made s s'.
Proof.
  intros HC HN HB Hr1 Hr2 HP HPs Ha Hpl. pose proof Hpl as [[Hh _] Hp _ _ _].
  assert (HP4 : P mod 4 = 0).
  { rewrite HP. change RT_ALIGN_SIZE with (2 ^ 2). rewrite align_down_eq by done. change (2 ^ 2) with 4. by rewrite Zminus_mod_idemp_r, Z.sub_diag. }
  unfold rt_memheap_init. erewrite bind_done by (unfold rt_assert; by rewrite (proj2 (Z.eqb_neq _ _)) by lia).
  destruct (object_init_calm s (heap_ref h) RT_Object_Class_MemHeap name (calm_boot s HC HN) eq_refl Hr1) as (o & Ho & E).
  erewrite bind_done by exact E. clear E. rewrite <- HP. change (2 * RT_MEMHEAP_SIZE) with 48.
  rewrite (u32_small (P - 48)) by lia. replace (P - (P - 48)) with 48 by lia. change (u32 48) with 48.
  set (s1 := s <| objs ::= _ |> <| containers ::= _ |>). set (r0 := RtMemheap a0 P (P - 48) 48 a0 (free_header h)).
  set (s2 := s1 <| memheaps ::= <[h := r0]> |>). erewrite bind_done by reflexivity. fold s2.
  assert (E2 : memheaps s2 !! h = Some r0) by apply lookup_insert_eq.
  erewrite bind_done by exact (heap_run_eq s2 (heap_format h a0) r0 E2).
  destruct (heap_format_ok (heap_mem s2) r0 Hpl Ha HP4 HPs eq_refl HB) as [HV HVb].
  set (v := heap_format h a0 (HState (heap_mem s2) r0)) in *. set (s3 := heap_set v s2).
  assert (Hr3 : sem_ref (heap_lock h) ∉ object_list s3 RT_Object_Class_Semaphore).
  { unfold object_list. change (containers s3) with (<[RT_Object_Class_MemHeap :=
      heap_ref h :: containers s !!! RT_Object_Class_MemHeap]> (containers s)). by rewrite lookup_total_insert_ne. }
  destruct (sem_init_boot s3 (heap_lock h) name 1 RT_IPC_FLAG_PRIO HC HN Hr3 eq_refl ltac:(done))
    as (s4 & E4 & HL & EQ & EO & EU & EL).
  destruct (heap_made_intro s v o r0 s4 EQ EO EU EL) as (HM & EM & EH).
  exists s4. split; [by erewrite bind_done by exact E4|]. split.
  - split; [|exists (hp v); split|done|by rewrite EM].
    + exists o. rewrite EO by done. split; [apply lookup_insert_eq|by rewrite Ho].
    + rewrite EH. apply lookup_insert_eq.
    + rewrite EM. by destruct v.
  - exact HM.
Qed.

(** C29. [rt_memheap_init] over a pool of 60 bytes or more establishes the
    invariant: the pool, rounded down to a multiple of four, is one free block
    between two headers, the free list holds it, its semaphore is free, and the
    other heaps are as before. *)
Theorem rt_memheap_init_ok `{!SignalOps} s name size :
  current_thread s = None -> scheduler_lock_nest s = 0 -> bytes (heap_mem s) ->
  heap_ref h ∉ object_list s RT_Object_Class_MemHeap ->
  sem_ref (heap_lock h) ∉ object_list s RT_Object_Class_Semaphore ->
  P = RT_ALIGN_DOWN size RT_ALIGN_SIZE -> 60 <= P -> a0 mod 4 = 0 -> placed h a0 P [(P - 48, false)] ->
  exists s', rt_memheap_init h name a0 size s = Done RT_EOK s' /\
    heap_at s' [(P - 48, false)] [a0] /\ forall h', h' <> h -> memheaps s' !! h' = memheaps s !! h'.
Proof.
  intros HC HN HB Hr1 Hr2 HP HPs Ha Hpl.
  destruct (memheap_init_ok s name size HC HN HB Hr1 Hr2 HP HPs Ha Hpl) as (s' & E & HA & HM).
  exists s'. split; [done|]. split; [done|apply HM].
Qed.
End Heap.

(** ** Examples *)
#[local] Existing Instance no_signals.

(** The kernel before it runs, and a heap over the 256 bytes at 0x2000. *)
Definition kstate_boot : kstate := kstate0 <| current_thread := None |>.

Lemma pool0_placed : placed 0x1000 0x2000 256 [(208, false)].
Proof. split; [split; by vm_compute|split; by vm_compute|left; by vm_compute|by repeat constructor|done]. Qed.

Lemma zero_bytes : bytes (fun _ => 0).
Proof. by intros a. Qed.

Lemma rt_memheap_init_ok_witness :
  exists s', rt_memheap_init 0x1000 [104] 0x2000 258 kstate_boot = Done RT_EOK s' /\
    heap_at 0x1000 0x2000 256 s' [(208, false)] [0x2000].
Proof.
  destruct (rt_memheap_init_ok 0x1000 0x2000 256 kstate_boot [104] 258) as (s' & E & HA & _);
    [done|done|exact zero_bytes|by apply not_elem_of_nil|by apply not_elem_of_nil|done|done|done|exact pool0_placed|].
  by exists s'.
Defined.

(** The heap after its initialisation, and with a used block of 16 bytes. *)
Definition heap0_record : rt_memheap := RtMemheap 0x2000 256 208 48 0x2000 (free_header 0x1000).
Definition kstate_objects : kstate :=
  kstate_boot
    <| objs := <[heap_ref 0x1000 := RtObject [] RT_Object_Class_MemHeap 0]>
                 {[sem_ref (heap_lock 0x1000) := RtObject [] RT_Object_Class_Semaphore 0]} |>
    <| sems := {[heap_lock 0x1000 := RtSem 1]} |>.
Definition kstate_heap0 : kstate :=
  heap_set 0x1000 (heap_format 0x1000 0x2000 (HState (fun _ => 0) heap0_record)) kstate_objects.

Lemma kstate_heap0_at : heap_at 0x1000 0x2000 256 kstate_heap0 [(208, false)] [0x2000].
Proof.
  destruct (heap_format_ok 0x1000 0x2000 256 (fun _ => 0) heap0_record pool0_placed) as [HV HB]; [done..|].
  split; [by eexists| |by split; [eexists|]|exact HB].
  eexists. split; [by apply lookup_insert_eq|]. exact HV.
Qed.

Definition kstate_heap1 : kstate :=
  heap_set 0x1000 (heap_take 0x1000 16 0x2000 208 (HState (heap_mem kstate_heap0)
    (hp (heap_format 0x1000 0x2000 (HState (fun _ => 0) heap0_record))))) kstate_heap0.

Lemma kstate_heap1_at :
  heap_at 0x1000 0x2000 256 kstate_heap1 [(16, true); (168, false)] [0x2028].
Proof.
  pose proof kstate_heap0_at as HA. pose proof HA as [_ (r & Hr & HO) _ HB].
  assert (r = hp (heap_format 0x1000 0x2000 (HState (fun _ => 0) heap0_record))) as ->.
  { apply Some_inj. rewrite <- Hr. by apply lookup_insert_eq. }
  destruct (heap_take_ok 0x1000 0x2000 256 _ [] 208 [] [] [] 16 HO) as [HV _]; [done..|].
  eapply heap_set_at; [exact HA|exact HV|]. by apply bytes_take.
Qed.
