(* ===== verification/MemHeapThm.v ===== *)
(** Memory heaps: the operations of memheap.c against an allocator of blocks. *)
From S2P Require Export MemHeapInit.
Local Open Scope Z_scope.

(** ** The allocator *)

(** The block behind the header [x]. *)
Fixpoint block_at (a : Z) (bs : hblocks) (x : Z) : option (Z * bool) :=
  match bs with
  | [] => None
  | (n, u) :: bs => if x =? a then Some (n, u) else block_at (a + RT_MEMHEAP_SIZE + n) bs x
  end.

(** The first block of the free list with room for [size] bytes. *)
Fixpoint first_fit (a : Z) (bs : hblocks) (size : Z) (fl : list Z) : option (Z * Z) :=
  match fl with
  | [] => None
  | x :: fl =>
      '(n, _) ← block_at a bs x;
      if n <? size then first_fit a bs size fl else Some (x, n)
  end.

Fixpoint take_at (a : Z) (bs : hblocks) (size x : Z) : hblocks :=
  match bs with
  | [] => []
  | (n, u) :: bs =>
      if x =? a then take_block size n ++ bs else (n, u) :: take_at (a + RT_MEMHEAP_SIZE + n) bs size x
  end.

(** Allocation: the pointer, the blocks and the free list. A request of all the
    bytes that are free, or more, fails. *)
Definition spec_alloc (a : Z) (bs : hblocks) (fl : list Z) (size : Z) : Z * hblocks * list Z :=
  if size <? free_total bs then
    match first_fit a bs size fl with
    | Some (x, n) => (x + RT_MEMHEAP_SIZE, take_at a bs size x, take_free size n x (remove Z.eq_dec x fl))
    | None => (0, bs, fl)
    end
  else (0, bs, fl).

Lemma block_at_app a b1 b2 x :
  block_at a (b1 ++ b2) x =
  match block_at a b1 x with Some b => Some b | None => block_at (a + total b1) b2 x end.
Proof.
  revert a. induction b1 as [|[n u] b1 IH]; intros a; cbn; [by rewrite Z.add_0_r|].
  destruct (x =? a); [done|]. rewrite IH. change RT_MEMHEAP_SIZE with 24.
  by replace (a + 24 + n + total b1) with (a + (24 + n + total b1)) by lia.
Qed.
Lemma block_at_addr a bs x b : block_at a bs x = Some b -> x ∈ addrs a bs.
Proof.
  revert a. induction bs as [|[n u] bs IH]; intros a; cbn; [done|].
  destruct (Z.eqb_spec x a) as [->|]; [set_solver|]. intros E%IH. set_solver.
Qed.
Lemma block_at_none a bs x : nonneg bs -> a + total bs <= x \/ x < a -> block_at a bs x = None.
Proof.
  intros Hn Hx. destruct (block_at a bs x) eqn:E; [|done]. apply block_at_addr in E.
  apply addrs_range in E; [lia|done].
Qed.
Lemma block_at_here a b1 n u b2 : nonneg b1 -> block_at a (b1 ++ (n, u) :: b2) (a + total b1) = Some (n, u).
Proof. intros Hn. rewrite block_at_app, block_at_none by (done || lia). cbn. by rewrite Z.eqb_refl. Qed.
Lemma block_at_split a bs x n u :
  block_at a bs x = Some (n, u) -> exists b1 b2, bs = b1 ++ (n, u) :: b2 /\ x = a + total b1.
Proof.
  revert a. induction bs as [|[k v] bs IH]; intros a; cbn; [done|].
  destruct (Z.eqb_spec x a) as [->|].
  - intros [= -> ->]. exists [], bs. cbn. split; [done|lia].
  - intros (b1 & b2 & -> & ->)%IH. exists ((k, v) :: b1), b2. cbn. change RT_MEMHEAP_SIZE with 24. split; [done|lia].
Qed.

Lemma take_at_here a b1 n u b2 size :
  nonneg b1 -> take_at a (b1 ++ (n, u) :: b2) size (a + total b1) = b1 ++ take_block size n ++ b2.
Proof.
  revert a. induction b1 as [|[k v] b1 IH]; intros a Hn; cbn.
  - by rewrite Z.add_0_r, Z.eqb_refl.
  - apply nonneg_cons in Hn as [Hk Hn]. cbn in Hk. pose proof (total_nonneg _ Hn).
    rewrite (proj2 (Z.eqb_neq _ _)) by lia. f_equal. change RT_MEMHEAP_SIZE with 24.
    replace (a + (24 + k + total b1)) with (a + 24 + k + total b1) by lia. by apply IH.
Qed.

Lemma free_block a bs x : nonneg bs -> x ∈ free_addrs a bs -> exists n, block_at a bs x = Some (n, false).
Proof.
  intros Hn Hx. pose proof (free_addrs_sub a bs x Hx) as Hx'. apply addrs_elem in Hx' as (b1 & [n u] & b2 & -> & ->).
  apply free_addrs_at in Hx as ->; [|done]. exists n. apply block_at_here. by apply nonneg_app in Hn as [? _].
Qed.

(** ** The search *)
Section Heap.
Context (h a0 P : Z).

Lemma find_fit_ok m bs fl size l1 l2 fs fuel :
  laid h a0 P m bs fl -> fl ⊆ free_addrs a0 bs -> fl = l1 ++ l2 -> fs < size -> (length l2 <= fuel)%nat ->
  match first_fit a0 bs size l2 with
  | Some (x, n) => find_fit fuel m (free_header h) size (hd (free_header h) l2) fs = Some (x, n)
  | None => exists n, n < size /\
      find_fit fuel m (free_header h) size (hd (free_header h) l2) fs = Some (free_header h, n)
  end.
Proof.
  intros HL Hfl. revert l1 fs fuel. induction l2 as [|x l2 IH]; intros l1 fs fuel El Hfs Hfuel; cbn [first_fit hd].
  - exists fs. split; [done|]. unfold find_fit. destruct fuel; by rewrite Z.eqb_refl.
  - destruct fuel as [|fuel]; [cbn in Hfuel; lia|].
    pose proof (la_free _ _ _ _ _ _ HL) as HF. rewrite El in HF.
    destruct (ring_neighbours _ _ _ _ _ HF) as [En _]. cbn in En.
    assert (Hx : x <> free_header h) by (destruct HF as [Hd _]; apply NoDup_cons in Hd as [Hd _]; set_solver).
    destruct (free_block a0 bs x) as (n & En').
    { apply HL. } { apply Hfl. rewrite El. set_solver. }
    rewrite En'. cbn [mbind option_bind find_fit]. rewrite (proj2 (Z.eqb_neq _ _) Hx), (proj2 (Z.ltb_lt _ _) Hfs).
    cbn [negb andb]. apply block_at_split in En' as (b1 & b2 & -> & ->).
    destruct (laid_read _ _ _ _ _ _ _ _ _ HL) as (_ & _ & _ & _ & Esz). rewrite Esz.
    destruct (Z.ltb_spec n size) as [Hn|Hn].
    + unfold mi_next_free in *. cbn in En. rewrite En. apply (IH (l1 ++ [a0 + total b1])); [by rewrite <- app_assoc|done|].
      cbn in Hfuel. lia.
    + destruct fuel; cbn; rewrite (proj2 (Z.ltb_ge _ _) Hn), andb_false_r; done.
Qed.

#[local] Abbreviation heap_at := (heap_at h a0 P).
#[local] Abbreviation heap_set := (heap_set h).

(** The bytes of the used blocks. *)
Definition keeps (bs : hblocks) (m m' : memory) : Prop :=
  forall x n i, block_at a0 bs x = Some (n, true) -> 0 <= i < n ->
    m' (x + RT_MEMHEAP_SIZE + i) = m (x + RT_MEMHEAP_SIZE + i).

Lemma payload_outside bs x n u i :
  placed h a0 P bs -> block_at a0 bs x = Some (n, u) -> 0 <= i < n ->
  outside (hdrs h a0 P bs) (x + RT_MEMHEAP_SIZE + i).
Proof.
  intros HP (b1 & b2 & -> & ->)%block_at_split Hi. change RT_MEMHEAP_SIZE with 24.
  pose proof (pl_nonneg _ _ _ _ HP) as Hn. apply nonneg_app in Hn as [Hn1 [Hn Hn2]%nonneg_cons].
  pose proof (total_nonneg _ Hn1) as T1. pose proof (total_nonneg _ Hn2) as T2. cbn in Hn.
  pose proof (pl_total _ _ _ _ HP) as Ht. rewrite total_app in Ht. cbn in Ht. pose proof (pl_apart _ _ _ _ HP) as Ha.
  intros y Hy. unfold hdrs in Hy. rewrite !elem_of_cons, addrs_one, elem_of_app, elem_of_cons in Hy.
  unfold in_range. apply andb_false_iff. rewrite Z.leb_gt, Z.ltb_ge.
  destruct Hy as [->|[->|[Hy|[->|Hy]]]].
  - clear -Ha Ht Hi T1 T2. lia.
  - unfold tailer. clear -Ht Hi T1 T2. lia.
  - apply addrs_range in Hy; [|done]. clear -Hy Hi. lia.
  - clear -Hi. lia.
  - apply addrs_range in Hy; [|done]. clear -Hy Hi. lia.
Qed.

Lemma same_data_keeps bs m m' : placed h a0 P bs -> same_data (hdrs h a0 P bs) m m' -> keeps bs m m'.
Proof. intros HP HD x n i Hx Hi. apply HD. by eapply payload_outside. Qed.

Lemma block_at_take b1 n b2 size x k :
  nonneg (b1 ++ (n, false) :: b2) -> 0 <= size <= n ->
  block_at a0 (b1 ++ (n, false) :: b2) x = Some (k, true) ->
  block_at a0 (b1 ++ take_block size n ++ b2) x = Some (k, true).
Proof.
  intros Hn Hs Hx. rewrite block_at_app in Hx |- *. destruct (block_at a0 b1 x) as [b|]; [done|].
  set (a := a0 + total b1) in *. cbn in Hx. destruct (Z.eqb_spec x a) as [->|Hne]; [done|].
  pose proof Hx as Hr%block_at_addr%addrs_range.
  2:{ apply nonneg_app in Hn as [_ [_ Hn]%nonneg_cons]. done. }
  unfold take_block. change RT_MEMHEAP_SIZE with 24 in *. change RT_MEMHEAP_MINIALLOC with 12.
  destruct (Z.leb_spec (size + 24 + 12) n) as [Hl|Hl]; cbn.
  - change RT_MEMHEAP_SIZE with 24. rewrite (proj2 (Z.eqb_neq _ _) Hne), (proj2 (Z.eqb_neq _ _)) by lia.
    by replace (a + 24 + size + 24 + (n - size - 24)) with (a + 24 + n) by lia.
  - by rewrite (proj2 (Z.eqb_neq _ _) Hne).
Qed.

Lemma keeps_take b1 n b2 size m m' :
  let bs := b1 ++ take_block size n ++ b2 in
  placed h a0 P bs -> nonneg (b1 ++ (n, false) :: b2) -> 0 <= size <= n ->
  same_data (hdrs h a0 P bs) m m' -> keeps (b1 ++ (n, false) :: b2) m m'.
Proof.
  intros bs HP Hn Hs HD x k i Hx Hi. apply (same_data_keeps bs _ _ HP HD x k); [|done]. by apply block_at_take.
Qed.

Lemma first_fit_ok bs size fl x n :
  first_fit a0 bs size fl = Some (x, n) ->
  exists l1 l2 u, fl = l1 ++ x :: l2 /\ block_at a0 bs x = Some (n, u) /\ size <= n.
Proof.
  induction fl as [|y fl IH]; cbn; [done|]. destruct (block_at a0 bs y) as [[k u]|] eqn:E; cbn; [|done].
  destruct (Z.ltb_spec k size) as [Hk|Hk].
  - intros (l1 & l2 & u' & -> & Ex & Hn)%IH. exists (y :: l1), l2, u'. done.
  - intros [= -> ->]. exists [], fl, u. done.
Qed.

Lemma free_addrs_length a bs : nonneg bs -> Z.of_nat (length (free_addrs a bs)) <= total bs.
Proof.
  revert a. induction bs as [|[n u] bs IH]; intros a; cbn; [lia|]. intros [Hn Hb]%nonneg_cons. cbn in Hn.
  specialize (IH (a + 24 + n) Hb). rewrite length_app. destruct u; cbn; lia.
Qed.

Lemma RT_ALIGN_eq n : RT_ALIGN n RT_ALIGN_SIZE = u32 (n + 3) / 4 * 4.
Proof.
  unfold RT_ALIGN. change (RT_ALIGN_SIZE - 1) with (Z.ones 2). rewrite <- Z.ldiff_land, Z.ldiff_ones_r by done.
  rewrite Z.shiftl_mul_pow2, Z.shiftr_div_pow2 by done. change RT_ALIGN_SIZE with 4. by replace (n + 4 - 1) with (n + 3) by lia.
Qed.

Lemma alloc_size_ok size : RT_MEMHEAP_MINIALLOC <= alloc_size size /\ alloc_size size mod 4 = 0.
Proof.
  unfold alloc_size. destruct (Z.ltb_spec (RT_ALIGN size RT_ALIGN_SIZE) RT_MEMHEAP_MINIALLOC) as [Hl|Hl]; [done|].
  split; [done|]. rewrite RT_ALIGN_eq. by rewrite Z.mod_mul.
Qed.

(** What [rt_memheap_alloc] does: nothing, or [heap_take] at the block that the
    allocator chooses. *)
Lemma heap_alloc_cases `{!SignalOps} s bs fl size :
  heap_at s bs fl ->
  let n := alloc_size size in
  spec_alloc a0 bs fl n = (0, bs, fl) /\ rt_memheap_alloc h size s = Done 0 s \/
  exists b1 k b2 l1 l2 r, let x := a0 + total b1 in
    bs = b1 ++ (k, false) :: b2 /\ fl = l1 ++ x :: l2 /\ n <= k /\ memheaps s !! h = Some r /\
    heap_ok h a0 P (HState (heap_mem s) r) bs fl /\ 0 < x /\
    spec_alloc a0 bs fl n = (x + RT_MEMHEAP_SIZE, b1 ++ take_block n k ++ b2, take_free n k x (l1 ++ l2)) /\
    rt_memheap_alloc h size s =
      Done (x + RT_MEMHEAP_SIZE) (heap_set (heap_take h n x k (HState (heap_mem s) r)) s).
Proof.
  intros HA n. destruct (alloc_size_ok size) as [Hz1 Hz2]. fold n in Hz1, Hz2.
  pose proof HA as [HT (x & Hx & HO) HL _]. pose proof HO as [LA OF OS OC OA (mx & Ex & OM)]. cbn in LA, Ex. subst x.
  unfold rt_memheap_alloc, spec_alloc. fold n.
  erewrite bind_done by exact (assert_type_eq _ _ _ HT). erewrite bind_done by exact (get_heap_eq _ _ _ Hx).
  cbn [available_size]. destruct (n <? free_total bs); [|by left].
  erewrite bind_done by exact (heap_take_lock _ _ _ _ _ _ HA). change (negb (RT_EOK =? RT_EOK)) with false. cbn iota.
  erewrite bind_done by exact (get_heap_eq _ (sem_set (heap_lock h) 0 s) _ Hx). rewrite bind_gets.
  cbn [pool_size free_list]. change (heap_mem (sem_set _ _ s)) with (heap_mem s).
  pose proof (find_fit_ok (heap_mem s) bs fl n [] fl 0 (Z.to_nat P) LA) as HF.
  assert (Hn : nonneg bs) by apply LA.
  destruct (Ptr.ring_ends _ _ _ (la_free _ _ _ _ _ _ LA)) as [En _]. cbn in En. unfold mi_next_free in *. cbn in En.
  rewrite <- En in HF. assert (Hlen : (length fl <= Z.to_nat P)%nat).
  { rewrite OF. pose proof (free_addrs_length a0 _ Hn). pose proof (pl_total _ _ _ _ (la_placed _ _ _ _ _ _ LA)). lia. }
  unfold RT_MEMHEAP_MINIALLOC in Hz1. specialize (HF ltac:(by rewrite OF) eq_refl ltac:(lia) Hlen).
  destruct (first_fit a0 bs n fl) as [[x1 n1]|] eqn:EF; [right|left].
  - rewrite HF. destruct (first_fit_ok _ _ _ _ _ EF) as (l1 & l2 & u & -> & Eb & Hle).
    assert (Hin : x1 ∈ free_addrs a0 bs) by (rewrite <- OF; set_solver).
    destruct (free_block _ _ _ Hn Hin) as (k & E). rewrite E in Eb. injection Eb as -> <-.
    apply block_at_split in E as (b1 & b2 & -> & ->).
    pose proof (heap_numbers _ _ _ _ _ _ _ _ _ HO) as (N1 & N2 & N3 & N4 & N5 & N6 & N7 & _).
    pose proof (proj1 (proj1 (nonneg_app _ _) Hn)) as Hn1.
    eexists b1, n1, b2, l1, l2, _. rewrite take_at_here, remove_middle by (done || by eapply fl_nodup).
    split_and!; try done; [lia|]. erewrite bind_done by reflexivity. cbn iota beta. rewrite (proj2 (Z.leb_le _ _) Hle).
    erewrite bind_done by exact (heap_run_eq _ (sem_set (heap_lock h) 0 s) _ _ Hx).
    erewrite bind_done by exact (heap_release_lock _ _ _ _ _ _ _ HA).
    f_equal. change RT_MEMHEAP_SIZE with 24. apply u32_small. lia.
  - destruct HF as (n1 & Hn1 & ->). erewrite bind_done by reflexivity. cbn iota beta.
    rewrite (proj2 (Z.leb_gt _ _) Hn1). by erewrite bind_done by exact (heap_release_lock_id _ _ _ _ _ _ HA).
Qed.

(** C19. [rt_memheap_alloc] refines the allocator of blocks: it returns the
    first block of the free list that has room for the rounded size, splits it
    when the rest is worth a block, and returns [RT_NULL], with no effect, when
    there is none or when the size is not below the number of free bytes. The
    search ends, the heap is well-formed again, and the bytes of the used blocks
    and everything else in the kernel are as before. *)
Theorem rt_memheap_alloc_refines `{!SignalOps} s bs fl size :
  heap_at s bs fl ->
  let '(p, bs', fl') := spec_alloc a0 bs fl (alloc_size size) in
  exists v, rt_memheap_alloc h size s = Done p (heap_set v s) /\
    heap_at (heap_set v s) bs' fl' /\ keeps bs (heap_mem s) (hm v).
Proof.
  intros HA. destruct (alloc_size_ok size) as [Hz1 Hz2]. unfold RT_MEMHEAP_MINIALLOC in Hz1.
  destruct (heap_alloc_cases _ _ _ size HA) as [[-> E]|(b1 & k & b2 & l1 & l2 & r & -> & -> & Hk & Hr & HO & _ & -> & E)].
  - destruct (heap_set_id _ _ _ _ _ _ HA) as (y & Hy). exists (HState (heap_mem s) y). by rewrite E, Hy.
  - destruct (heap_take_ok h a0 P _ _ _ _ _ _ (alloc_size size) HO) as [HV HD]; [lia|done|].
    eexists. split; [exact E|]. split; [eapply heap_set_at; [done..|by apply bytes_take, HA]|].
    eapply keeps_take; [apply HV| |lia|exact HD]. apply (ok_laid _ _ _ _ _ _ HO).
Qed.

(** The facts on a block that an operation reads before it takes the semaphore. *)
Lemma heap_at_block s b1 n u b2 fl :
  heap_at s (b1 ++ (n, u) :: b2) fl ->
  let x := a0 + total b1 in
  exists r, memheaps s !! h = Some r /\ heap_ok h a0 P (HState (heap_mem s) r) (b1 ++ (n, u) :: b2) fl /\
    MEMITEM (x + RT_MEMHEAP_SIZE) = x /\ (x + RT_MEMHEAP_SIZE =? 0) = false /\
    MEMITEM_SIZE x (heap_mem s) = n /\ mi_magic x (heap_mem s) = block_magic u /\
    mi_pool_ptr x (heap_mem s) = h /\ mi_next x (heap_mem s) = x + 24 + n /\
    mi_magic (x + 24 + n) (heap_mem s) = block_magic (next_used b2) /\ 0 < x /\ x + 24 + n < 2 ^ 32 /\ 12 <= n.
Proof.
  intros HA x. pose proof HA as [_ (r & Hr & HO) _ _]. exists r.
  destruct (laid_read _ _ _ _ _ _ _ _ _ (ok_laid _ _ _ _ _ _ HO)) as (E1 & E2 & E3 & _ & E4).
  pose proof (laid_next _ _ _ _ _ _ _ _ _ (ok_laid _ _ _ _ _ _ HO)) as E5.
  pose proof (heap_numbers _ _ _ _ _ _ _ _ _ HO) as (N1 & N2 & N3 & N4 & N5 & N6 & N7 & _).
  cbn [hm] in *. fold x in E1, E2, E3, E4, E5. unfold MEMITEM. change RT_MEMHEAP_SIZE with 24.
  split_and!; try done; try (unfold x; lia).
  rewrite u32_small; unfold x; lia.
Qed.

(** What [rt_memheap_free] does with a used block. *)
Lemma heap_free_eq `{!SignalOps} s b1 n b2 fl :
  heap_at s (b1 ++ (n, true) :: b2) fl ->
  let x := a0 + total b1 in
  exists r, heap_ok h a0 P (HState (heap_mem s) r) (b1 ++ (n, true) :: b2) fl /\
    rt_memheap_free (x + RT_MEMHEAP_SIZE) s = Done tt (heap_set (heap_give x (HState (heap_mem s) r)) s).
Proof.
  intros HA x. destruct (heap_at_block _ _ _ _ _ _ HA)
    as (r & Hr & HO & E1 & E2 & E3 & E4 & E5 & E6 & E7 & E8 & E9 & E10). fold x in E1, E2, E3, E4, E5, E6, E7.
  exists r. split; [done|].
  unfold rt_memheap_free. rewrite E2, E1. rewrite bind_gets, E4.
  erewrite bind_done by reflexivity. rewrite E6, E7.
  erewrite bind_done by (unfold rt_assert; by destruct (next_used b2)). rewrite E5.
  assert (Hh : 0 < h) by apply (pl_heap _ _ _ _ (la_placed _ _ _ _ _ _ (ok_laid _ _ _ _ _ _ HO))).
  erewrite bind_done by (unfold rt_assert; by rewrite (proj2 (Z.eqb_neq _ _)) by lia).
  erewrite bind_done by exact (assert_type_eq _ _ _ (ha_type _ _ _ _ _ _ HA)).
  erewrite bind_done by exact (heap_take_lock _ _ _ _ _ _ HA). change (negb (RT_EOK =? RT_EOK)) with false. cbn iota.
  erewrite bind_done by exact (heap_run_eq _ (sem_set (heap_lock h) 0 s) _ _ Hr).
  by erewrite bind_done by exact (heap_release_lock _ _ _ _ _ _ _ HA).
Qed.

(** C20. [rt_memheap_free] refines the allocator of blocks: the block at the
    pointer becomes free and is merged with the free blocks before and behind
    it, so that there are never two free blocks next to each other; the merged
    block is in the free list once; the bytes of the used blocks are as before. *)
Theorem rt_memheap_free_refines `{!SignalOps} s b1 n b2 fl :
  heap_at s (b1 ++ (n, true) :: b2) fl ->
  let x := a0 + total b1 in let y := x + RT_MEMHEAP_SIZE + n in
  exists v, rt_memheap_free (x + RT_MEMHEAP_SIZE) s = Done tt (heap_set v s) /\
    heap_at (heap_set v s) (give_block b1 n b2) (give_free b1 b2 x y fl) /\
    keeps (b1 ++ (n, true) :: b2) (heap_mem s) (hm v).
Proof.
  intros HA x y. destruct (heap_free_eq _ _ _ _ _ HA) as (r & HO & E).
  destruct (heap_give_ok _ _ _ _ _ _ _ _ HO) as [HV HD]. eexists. split; [exact E|].
  split; [eapply heap_set_at; [done..|by apply bytes_give, HA]|eapply same_data_keeps; [apply HO|exact HD]].
Qed.

(** ** Resizing *)

(** The used blocks other than the one at [x] stay. *)
Definition stay (x : Z) (bs bs' : hblocks) : Prop :=
  forall y n, y <> x -> block_at a0 bs y = Some (n, true) -> block_at a0 bs' y = Some (n, true).

Lemma merge_at a n b2 y k :
  0 <= n -> nonneg b2 -> block_at (a + 24 + n) b2 y = Some (k, true) ->
  block_at a (merge_next n b2) y = Some (k, true).
Proof.
  intros Hn Hb Hy. pose proof Hy as Hr%block_at_addr%addrs_range; [|done].
  destruct b2 as [|[j []] b2]; cbn in *; change RT_MEMHEAP_SIZE with 24 in *;
    rewrite (proj2 (Z.eqb_neq y a)) by lia; try done.
  destruct (Z.eqb_spec y (a + 24 + n)) as [->|]; [done|].
  by replace (a + 24 + (n + 24 + j)) with (a + 24 + n + 24 + j) by lia.
Qed.

Lemma give_stay b1 n b2 :
  nonneg (b1 ++ (n, true) :: b2) -> stay (a0 + total b1) (b1 ++ (n, true) :: b2) (give_block b1 n b2).
Proof.
  intros Hn y k Hne Hy. apply nonneg_app in Hn as [Hn1 [Hn Hn2]%nonneg_cons]. cbn in Hn.
  rewrite block_at_app in Hy. cbn in Hy. rewrite (proj2 (Z.eqb_neq _ _) Hne) in Hy. change RT_MEMHEAP_SIZE with 24 in Hy.
  unfold give_block. destruct b1 as [|[j w] b1 _] using rev_ind.
  - cbn in *. rewrite Z.add_0_r in Hy. by apply merge_at.
  - rewrite last_snoc, removelast_last. apply nonneg_app in Hn1 as [Hn1 [Hj _]%nonneg_cons]. cbn in Hj.
    rewrite total_app in Hy. cbn in Hy.
    replace (a0 + (total b1 + (24 + j + 0)) + 24 + n) with (a0 + total b1 + 24 + (j + 24 + n)) in Hy by lia.
    rewrite block_at_app in Hy. cbn in Hy. destruct w; rewrite !block_at_app.
    + rewrite total_app. cbn. destruct (block_at a0 b1 y); [done|].
      destruct (y =? a0 + total b1); [done|]. apply merge_at; [done..|].
      by replace (a0 + (total b1 + (24 + j + 0)) + 24 + n) with (a0 + total b1 + 24 + (j + 24 + n)) by lia.
    + destruct (block_at a0 b1 y); [done|]. destruct (y =? a0 + total b1); [done|].
      change RT_MEMHEAP_SIZE with 24. apply merge_at; [lia|done..].
Qed.

Lemma block_at_range a bs x n u : nonneg bs -> block_at a bs x = Some (n, u) -> a <= x /\ 0 <= n /\ x + 24 + n <= a + total bs.
Proof.
  intros Hn (b1 & b2 & -> & ->)%block_at_split. apply nonneg_app in Hn as [Hn1 [Hn Hn2]%nonneg_cons].
  pose proof (total_nonneg _ Hn1). pose proof (total_nonneg _ Hn2). rewrite total_app. cbn in *. lia.
Qed.

(** The block is not used any more. *)
Lemma give_free_at b1 n b2 k :
  nonneg (b1 ++ (n, true) :: b2) -> block_at a0 (give_block b1 n b2) (a0 + total b1) <> Some (k, true).
Proof.
  intros Hn E. apply nonneg_app in Hn as [Hn1 [Hn Hn2]%nonneg_cons]. cbn in Hn.
  assert (HG : forall b i, nonneg b -> block_at a0 (b ++ merge_next i b2) (a0 + total b) <> Some (k, true)).
  { intros b i Hb. destruct (merge_head i b2) as (j & r & ->). by rewrite block_at_here. }
  unfold give_block in E. destruct b1 as [|[j w] b1 _] using rev_ind; [exact (HG [] n Hn1 E)|].
  rewrite last_snoc, removelast_last in E. destruct w; [exact (HG _ n Hn1 E)|].
  apply nonneg_app in Hn1 as [Hn1 [Hj _]%nonneg_cons]. cbn in Hj.
  rewrite block_at_app, total_app, block_at_none in E by (done || (cbn; lia)). cbn in E. change RT_MEMHEAP_SIZE with 24 in E.
  destruct b2 as [|[i []] b2]; cbn in E; change RT_MEMHEAP_SIZE with 24 in E;
    repeat rewrite (proj2 (Z.eqb_neq _ _)) in E by lia; [done|..]; apply block_at_range in E;
    rewrite ?nonneg_cons in *; cbn in *; (lia || tauto).
Qed.

Lemma item_at_same m m' a : (forall y, in_range a 24 y = true -> m' y = m y) -> item_at m' a = item_at m a.
Proof.
  intros Hy. unfold item_at, mi_magic, mi_pool_ptr, mi_next, mi_prev, mi_next_free, mi_prev_free, load32.
  repeat rewrite Hy; [done|..]; unfold in_range; apply andb_true_iff; rewrite Z.leb_le, Z.ltb_lt; lia.
Qed.

(** Writing to the bytes of a block. *)
Lemma heap_ok_write m r bs fl x n u m' :
  heap_ok h a0 P (HState m r) bs fl -> block_at a0 bs x = Some (n, u) ->
  (forall y, in_range (x + 24) n y = false -> m' y = m y) ->
  heap_ok h a0 P (HState m' r) bs fl.
Proof.
  intros [HL OF OS OC OA OR] Hx Hm. split; try done. cbn [hm] in *.
  assert (HI : forall a, a ∈ hdrs h a0 P bs -> item_at m' a = item_at m a).
  { intros a Ha. apply item_at_same. intros y Hy. apply Hm. destruct (in_range (x + 24) n y) eqn:E; [|done].
    unfold in_range in E. apply andb_true_iff in E as [E1%Z.leb_le E2%Z.ltb_lt].
    pose proof (payload_outside bs x n u (y - (x + 24)) (la_placed _ _ _ _ _ _ HL) Hx ltac:(lia) a Ha) as Ho.
    change RT_MEMHEAP_SIZE with 24 in Ho. replace (x + 24 + (y - (x + 24))) with y in Ho by lia. congruence. }
  eapply laid_frees; [exact HL| | | |apply HL].
  - intros a Ha. by rewrite HI.
  - intros a Ha. by rewrite HI.
  - eapply free_ring_same; [|reflexivity|apply HL]. intros a Ha. rewrite HI; [done|]. by eapply laid_free_sub.
Qed.

(** What a caller gets for the block at [x], of [old] bytes, when the result is
    the pointer [q]: a used block of [new] bytes or more with the bytes of the old
    one as far as both go, and the other used blocks as they were; the old block
    is free if it is not the result. *)
Record resized (bs : hblocks) (m : memory) (x old new q : Z) (bs' : hblocks) (m' : memory) : Prop := {
  rs_stay : stay x bs bs';
  rs_keep y n i : y <> x -> block_at a0 bs y = Some (n, true) -> 0 <= i < n ->
    m' (y + RT_MEMHEAP_SIZE + i) = m (y + RT_MEMHEAP_SIZE + i);
  rs_block : exists n, block_at a0 bs' (q - RT_MEMHEAP_SIZE) = Some (n, true) /\ new <= n;
  rs_old n : q <> x + RT_MEMHEAP_SIZE -> block_at a0 bs' x <> Some (n, true);
  rs_bytes i : 0 <= i < Z.min old new -> m' (q + i) = m (x + RT_MEMHEAP_SIZE + i) }.

(** In place: the block at [x] has [n] bytes now. *)
Lemma resized_in_place b1 old b2 r n new m m1 m' :
  let x := a0 + total b1 in let bs := b1 ++ (old, true) :: b2 in let bs' := b1 ++ (n, true) :: r in
  placed h a0 P bs -> placed h a0 P bs' -> new <= n ->
  (forall y k, block_at (x + 24 + old) b2 y = Some (k, true) -> y <> x -> block_at (x + 24 + n) r y = Some (k, true)) ->
  same_data (hdrs h a0 P bs) m m1 -> same_data (hdrs h a0 P bs') m1 m' ->
  resized bs m x old new (x + RT_MEMHEAP_SIZE) bs' m'.
Proof.
  intros x bs bs' HP HP' Hn Hr D1 D2.
  assert (Hn1 : nonneg b1) by (pose proof (pl_nonneg _ _ _ _ HP) as Hb; by apply nonneg_app in Hb as [? _]).
  pose proof (block_at_here a0 b1 old true b2 Hn1) as B1. pose proof (block_at_here a0 b1 n true r Hn1) as B2.
  fold x in B1, B2. assert (HS : stay x bs bs').
  { intros y k Hne. unfold bs, bs'. rewrite !block_at_app. destruct (block_at a0 b1 y); [done|]. cbn. fold x.
    rewrite (proj2 (Z.eqb_neq _ _) Hne). intros Hy. by apply Hr. }
  pose proof (same_data_keeps _ _ _ HP D1) as K1. pose proof (same_data_keeps _ _ _ HP' D2) as K2. split; [done| | |done|].
  - intros y k i Hne Hy Hi. rewrite (K2 y k) by (by apply HS || done). by apply (K1 y k).
  - exists n. by replace (x + RT_MEMHEAP_SIZE - RT_MEMHEAP_SIZE) with x by lia.
  - intros i Hi. rewrite (K2 x n) by (done || lia). apply (K1 x old); [done|lia].
Qed.

Lemma shrink_resized b1 old b2 new m m' :
  let x := a0 + total b1 in let rest := old - new - 24 in
  placed h a0 P (b1 ++ (old, true) :: b2) -> 0 <= new -> 0 <= rest ->
  same_data (hdrs h a0 P (b1 ++ (new, true) :: (rest, false) :: b2)) m m' ->
  resized (b1 ++ (old, true) :: b2) m x old new (x + RT_MEMHEAP_SIZE) (b1 ++ (new, true) :: merge_next rest b2) m'.
Proof.
  intros x rest HP Hnew Hrest HD. pose proof (pl_nonneg _ _ _ _ HP) as Hn.
  assert (HP' : placed h a0 P (b1 ++ (new, true) :: (rest, false) :: b2)).
  { apply placed_two; [done..|]. by replace (new + 24 + rest) with old by (unfold rest; lia). }
  assert (HM : resized (b1 ++ (old, true) :: b2) m x old new (x + RT_MEMHEAP_SIZE)
                 (b1 ++ (new, true) :: (rest, false) :: b2) m').
  { eapply resized_in_place; [done|done|lia| |reflexivity|exact HD]. intros y k Hy _. cbn.
    assert (Ex : a0 + total b1 + 24 + new + 24 + rest = a0 + total b1 + 24 + old) by (unfold rest; lia).
    pose proof Hy as Hr%block_at_addr%addrs_range.
    2:{ apply nonneg_app in Hn as [_ [_ Hn]%nonneg_cons]. done. }
    rewrite (proj2 (Z.eqb_neq _ _)) by lia. change RT_MEMHEAP_SIZE with 24. by rewrite Ex. }
  destruct HM as [M1 M2 M3 _ M4]. split; try done.
  - intros y k Hne Hy. specialize (M1 y k Hne Hy). revert M1. rewrite !block_at_app. destruct (block_at a0 b1 y); [done|].
    cbn. destruct (y =? a0 + total b1); [done|]. destruct (y =? _); [done|]. apply merge_at; [done|].
    apply nonneg_app in Hn as [_ [_ Hn]%nonneg_cons]. done.
  - exists new. split; [|lia]. replace (x + RT_MEMHEAP_SIZE - RT_MEMHEAP_SIZE) with x by lia. apply block_at_here.
    by apply nonneg_app in Hn as [? _].
Qed.

Lemma grow_resized b1 old k b2 new m m1 m' :
  let x := a0 + total b1 in
  let bs := b1 ++ (old, true) :: (k, false) :: b2 in let bs' := b1 ++ (new, true) :: (k + old - new, false) :: b2 in
  placed h a0 P bs -> placed h a0 P bs' -> 0 <= old <= new -> 0 <= k + old - new ->
  same_data (hdrs h a0 P bs) m m1 -> same_data (hdrs h a0 P bs') m1 m' ->
  resized bs m x old new (x + RT_MEMHEAP_SIZE) bs' m'.
Proof.
  intros x bs bs' HP HP' Hold Hk D1 D2. eapply resized_in_place; [done|done|lia| |done..].
  intros y j Hy _. cbn in Hy |- *. change RT_MEMHEAP_SIZE with 24 in *. fold x in Hy |- *.
  destruct (y =? x + 24 + old); [done|]. pose proof Hy as Hr%block_at_addr%addrs_range.
  2:{ pose proof (pl_nonneg _ _ _ _ HP) as Hn. unfold bs in Hn. apply nonneg_app in Hn as [_ Hn].
      rewrite !nonneg_cons in Hn. tauto. }
  rewrite (proj2 (Z.eqb_neq _ _)) by lia.
  by replace (x + 24 + new + 24 + (k + old - new)) with (x + 24 + old + 24 + k) by lia.
Qed.

Lemma block_at_disjoint bs x n u y k v :
  nonneg bs -> block_at a0 bs x = Some (n, u) -> block_at a0 bs y = Some (k, v) -> x <> y ->
  x + 24 + n <= y \/ y + 24 + k <= x.
Proof.
  intros Hn (b1 & b2 & -> & ->)%block_at_split Hy Hne. rewrite block_at_app in Hy.
  apply nonneg_app in Hn as [Hn1 [Hn Hn2]%nonneg_cons]. destruct (block_at a0 b1 y) as [[k' v']|] eqn:E.
  - injection Hy as -> ->. apply block_at_range in E; [lia|done].
  - cbn in Hy. rewrite (proj2 (Z.eqb_neq _ _)) in Hy by congruence. apply block_at_range in Hy; [|done].
    change RT_MEMHEAP_SIZE with 24 in Hy. lia.
Qed.

Lemma alloc_size_idem size : alloc_size size < 2 ^ 32 - 3 -> alloc_size (alloc_size size) = alloc_size size.
Proof.
  destruct (alloc_size_ok size) as [H1 H2]. generalize dependent (alloc_size size). intros n H1 H2 H3.
  unfold RT_MEMHEAP_MINIALLOC in H1. unfold alloc_size. rewrite RT_ALIGN_eq, u32_small by lia.
  replace ((n + 3) / 4 * 4) with n by (Z.to_euclidean_division_equations; lia).
  by rewrite (proj2 (Z.ltb_ge _ _)) by (unfold RT_MEMHEAP_MINIALLOC; lia).
Qed.

Lemma take_block_head n k b2 : n <= k -> exists j r, take_block n k ++ b2 = (j, true) :: r /\ n <= j.
Proof. intros Hn. unfold take_block. case_match; eexists _, _; (split; [reflexivity|lia]). Qed.

(** The way of a block that cannot grow in place: allocate, copy, free. What the
    copy writes. *)
Lemma moved_copy b1 k b2 x old new m1 :
  let bs := b1 ++ (k, false) :: b2 in let y := a0 + total b1 in let bs1 := b1 ++ take_block new k ++ b2 in
  let m2 := rt_memcpy (y + RT_MEMHEAP_SIZE) (x + RT_MEMHEAP_SIZE) old m1 in
  nonneg bs -> nonneg bs1 -> bytes m1 -> 0 <= old < new -> new <= k -> block_at a0 bs x = Some (old, true) ->
  exists j, new <= j /\ block_at a0 bs1 y = Some (j, true) /\ y <> x /\
    (forall z, m2 z = if in_range (y + 24) old z then m1 (x + 24 + (z - (y + 24))) else m1 z) /\ bytes m2.
Proof.
  intros bs y bs1 m2 Hn Hn1 Hb Hold Hk Hx.
  pose proof (block_at_take _ _ _ new _ _ Hn ltac:(lia) Hx) as Hx1. fold bs1 in Hx1.
  destruct (take_block_head new k b2 Hk) as (j & r & Ej & Hj). exists j.
  assert (Hy1 : block_at a0 bs1 y = Some (j, true)).
  { unfold bs1. rewrite Ej. apply block_at_here. by apply nonneg_app in Hn as [? _]. }
  assert (Hyx : y <> x).
  { intros <-. unfold bs, y in Hx. rewrite block_at_here in Hx by (by apply nonneg_app in Hn as [? _]). done. }
  pose proof (block_at_disjoint bs1 y j true x old true Hn1 Hy1 Hx1 Hyx) as Hdj.
  assert (Em : forall z, m2 z = if in_range (y + 24) old z then m1 (x + 24 + (z - (y + 24))) else m1 z).
  { intros z. unfold m2. change RT_MEMHEAP_SIZE with 24. rewrite rt_memcpy_correct; [done|lia|unfold disjoint; lia|done]. }
  do 4 (split; [done|]). intros z. rewrite Em. case_match; apply Hb.
Qed.

Lemma moved_resized b1 k b2 x old new m m1 m3 bs3 :
  let bs := b1 ++ (k, false) :: b2 in let y := a0 + total b1 in let bs1 := b1 ++ take_block new k ++ b2 in
  let m2 := rt_memcpy (y + RT_MEMHEAP_SIZE) (x + RT_MEMHEAP_SIZE) old m1 in
  nonneg bs -> nonneg bs1 -> bytes m1 -> 0 <= old < new -> new <= k -> block_at a0 bs x = Some (old, true) ->
  keeps bs m m1 -> keeps bs1 m2 m3 -> stay x bs1 bs3 -> (forall n, block_at a0 bs3 x <> Some (n, true)) ->
  resized bs m x old new (y + RT_MEMHEAP_SIZE) bs3 m3.
Proof.
  intros bs y bs1 m2 Hn Hn1 Hb Hold Hk Hx K1 K2 HS HO.
  destruct (moved_copy b1 k b2 x old new m1 Hn Hn1 Hb Hold Hk Hx) as (j & Hj & Hy1 & Hyx & Em & _).
  fold y bs1 in Hy1, Hyx, Em. change RT_MEMHEAP_SIZE with 24 in *. fold m2 in Em. split.
  - intros z i Hne Hz. apply HS; [done|]. by apply block_at_take; [..|lia|].
  - intros z n i Hne Hz Hi. change RT_MEMHEAP_SIZE with 24.
    pose proof (block_at_take _ _ _ new _ _ Hn ltac:(lia) Hz) as Hz1. fold bs1 in Hz1.
    assert (Hyz : y <> z).
    { intros <-. unfold bs, y in Hz. rewrite block_at_here in Hz by (by apply nonneg_app in Hn as [? _]). done. }
    pose proof (block_at_disjoint bs1 y j true z n true Hn1 Hy1 Hz1 Hyz) as Hd2.
    pose proof (K2 z n i Hz1 Hi) as EK. change RT_MEMHEAP_SIZE with 24 in EK. rewrite EK, Em.
    unfold in_range. rewrite (proj2 (andb_false_iff _ _)) by (rewrite Z.leb_gt, Z.ltb_ge; lia). by apply (K1 z n).
  - exists j. replace (y + 24 - RT_MEMHEAP_SIZE) with y by (change RT_MEMHEAP_SIZE with 24; lia). split; [|done].
    by apply HS.
  - intros n _. apply HO.
  - intros i Hi. pose proof (K2 y j i Hy1 ltac:(lia)) as EK. change RT_MEMHEAP_SIZE with 24 in EK. rewrite EK, Em.
    unfold in_range. rewrite (proj2 (Z.leb_le _ _)), (proj2 (Z.ltb_lt _ _)) by lia. cbn [andb].
    replace (x + 24 + (y + 24 + i - (y + 24))) with (x + 24 + i) by lia. apply (K1 x old); [done|lia].
Qed.

(** The result of resizing the block at [x]: a state, and the blocks in it. *)
Definition realloc_result (s : kstate) (bs : hblocks) (fl : list Z) (x old new q : Z) (s' : kstate) : Prop :=
  exists v bs' fl', s' = heap_set v s /\ heap_at s' bs' fl' /\
    if q =? 0 then s' = s /\ bs' = bs /\ fl' = fl else resized bs (heap_mem s) x old new q bs' (hm v).

Lemma heap_move_ok `{!SignalOps} s b1 old b2 fl new :
  let bs := b1 ++ (old, true) :: b2 in let x := a0 + total b1 in let p := x + RT_MEMHEAP_SIZE in
  heap_at s bs fl -> 0 <= old < new -> alloc_size new = new ->
  exists q s', (q ← rt_memheap_alloc h new;
      when (negb (q =? 0))
        (modify (fun s => s <| heap_mem ::= rt_memcpy q p (if old <? new then old else new) |>);;
         rt_memheap_free p);;
      mret q) s = Done q s' /\ realloc_result s bs fl x old new q s'.
Proof.
  intros bs x p HA Hold Hnew. destruct (alloc_size_ok new) as [_ Hn4]. rewrite Hnew in Hn4.
  assert (Hx : block_at a0 bs x = Some (old, true)).
  { apply block_at_here. pose proof HA as [_ (r & _ & HO) _ _].
    pose proof (pl_nonneg _ _ _ _ (la_placed _ _ _ _ _ _ (ok_laid _ _ _ _ _ _ HO))) as Hn. by apply nonneg_app in Hn as [? _]. }
  destruct (heap_alloc_cases _ _ _ new HA) as [[_ E]|(c1 & k & c2 & l1 & l2 & r & Ebs & Efl & Hk & Hr & HO & Hy & _ & E)].
  - destruct (heap_set_id _ _ _ _ _ _ HA) as (r & Hr). exists 0, s. erewrite bind_done by exact E. split; [done|].
    exists (HState (heap_mem s) r), bs, fl. by rewrite Hr.
  - rewrite Hnew in *. cbv zeta in *. set (y := a0 + total c1) in *.
    destruct (alloc_size_ok new) as [Hn12 _]. rewrite Hnew in Hn12. unfold RT_MEMHEAP_MINIALLOC in Hn12.
    rewrite Ebs, Efl in HO. destruct (heap_take_ok h a0 P _ _ _ _ _ _ new HO) as [HV HD]; [lia|done|]. fold y in HV, HD.
    set (v1 := heap_take h new y k (HState (heap_mem s) r)) in *.
    assert (Hb1 : bytes (hm v1)) by apply bytes_take, HA.
    set (bs1 := c1 ++ take_block new k ++ c2) in *. set (fl1 := take_free _ _ _ _) in HV.
    assert (HP1 : placed h a0 P bs1) by (apply (la_placed _ _ _ _ _ _ (ok_laid _ _ _ _ _ _ HV))).
    assert (Hn : nonneg (c1 ++ (k, false) :: c2)) by apply (ok_laid _ _ _ _ _ _ HO).
    assert (Hn1 : nonneg bs1) by apply HP1.
    set (q := y + RT_MEMHEAP_SIZE) in *. set (m2 := rt_memcpy q p old (hm v1)).
    assert (K1 : keeps bs (heap_mem s) (hm v1)) by (rewrite Ebs; eapply keeps_take; [done|done|lia|done]).
    destruct (moved_copy c1 k c2 x old new (hm v1)) as (j & Hj & Hyj & _ & Em & Hb2);
      [done|done|done|lia|done|by rewrite <- Ebs|]. fold y q bs1 m2 in Hyj, Em, Hb2.
    assert (HA2 : heap_at (heap_set (HState m2 (hp v1)) s) bs1 fl1).
    { eapply heap_set_at; [done| |done]. eapply (heap_ok_write (hm v1)); [by rewrite hstate_eta|exact Hyj|].
      intros z Hz. rewrite Em, (in_range_narrow _ j) by (done || lia). done. }
    assert (Hx1 : block_at a0 bs1 x = Some (old, true)).
    { apply block_at_take; [done|lia|]. by rewrite <- Ebs. }
    destruct (block_at_split _ _ _ _ _ Hx1) as (d1 & d2 & Ed & Exd). rewrite Ed in HA2.
    destruct (heap_free_eq _ _ _ _ _ HA2) as (r2 & HO2 & E2). rewrite <- Exd in E2.
    destruct (heap_give_ok _ _ _ _ _ _ _ _ HO2) as [HV3 HD3]. rewrite <- Exd in HV3, HD3.
    set (v3 := heap_give x _) in *. rewrite heap_set_set in E2.
    exists q, (heap_set v3 s). assert (Hq0 : (q =? 0) = false) by (apply Z.eqb_neq; unfold q; change RT_MEMHEAP_SIZE with 24; lia).
    split.
    + erewrite bind_done by exact E. rewrite Hq0, (proj2 (Z.ltb_lt _ _)) by lia. cbn [negb when].
      erewrite bind_done; [reflexivity|]. etrans; [|exact E2]. done.
    + eexists v3, _, _. split; [done|]. split.
      * eapply heap_set_at; [exact HA|exact HV3|]. by apply bytes_give.
      * rewrite Hq0, Ebs. eapply moved_resized; [done|done|exact Hb1|lia|done|by rewrite <- Ebs|by rewrite <- Ebs| | |].
        -- fold bs1 q m2. rewrite Ed. eapply same_data_keeps; [apply HO2|exact HD3].
        -- fold bs1. rewrite Ed, Exd. apply give_stay. by rewrite <- Ed.
        -- intros i. rewrite Exd. apply give_free_at. rewrite <- Ed. exact Hn1.
Qed.

(** Whether the code grows the block in place. *)
Definition can_grow (b2 : hblocks) (old new : Z) : bool :=
  match b2 with (k, false) :: _ => u32 (new + RT_MEMHEAP_MINIALLOC) <? k + old | _ => false end.

Lemma grow_test s b1 old b2 fl new :
  heap_at s (b1 ++ (old, true) :: b2) fl ->
  let next := a0 + total b1 + 24 + old in
  negb (RT_MEMHEAP_IS_USED next (heap_mem s)) &&
    (u32 (new + RT_MEMHEAP_MINIALLOC) <? u32 (MEMITEM_SIZE next (heap_mem s) + old)) = can_grow b2 old new.
Proof.
  intros HA next. destruct (heap_at_block _ _ _ _ _ _ HA)
    as (r & Hr & HO & _ & _ & _ & _ & _ & _ & E7 & E8 & E9 & E10). fold next in E7.
  unfold RT_MEMHEAP_IS_USED. rewrite E7, used_magic. destruct b2 as [|[k []] b2]; [done|done|]. cbn [next_used snd negb andb can_grow].
  assert (E : b1 ++ (old, true) :: (k, false) :: b2 = (b1 ++ [(old, true)]) ++ (k, false) :: b2) by (by rewrite <- app_assoc).
  rewrite E in HA, HO. destruct (heap_at_block _ _ _ _ _ _ HA) as (_ & _ & _ & _ & _ & E3 & _).
  pose proof (heap_numbers _ _ _ _ _ _ _ _ _ HO) as (N1 & N2 & N3 & N4 & N5 & N6 & N7 & _).
  rewrite total_app in *. cbn in E3, N3. unfold next.
  replace (a0 + (total b1 + (24 + old + 0))) with (a0 + total b1 + 24 + old) in E3 by lia. rewrite E3.
  by rewrite (u32_small (k + old)) by lia.
Qed.

(** C21. [rt_memheap_realloc] keeps the contents: it returns a used block with
    room for the rounded size that starts with the bytes of the old block, as many
    as both have, whether the block stays, shrinks, grows into the free block
    behind it or moves; the other used blocks stay as they are. When there is no
    room it returns [RT_NULL] with no effect, so that the old block is still
    good. *)
Theorem rt_memheap_realloc_correct `{!SignalOps} s b1 old b2 fl size :
  let bs := b1 ++ (old, true) :: b2 in let x := a0 + total b1 in let new := alloc_size size in
  heap_at s bs fl -> size <> 0 -> new + RT_MEMHEAP_MINIALLOC < 2 ^ 32 ->
  exists q s', rt_memheap_realloc h (x + RT_MEMHEAP_SIZE) size s = Done q s' /\
    realloc_result s bs fl x old new q s'.
Proof.
  intros bs x new HA Hsz Hnew. destruct (alloc_size_ok size) as [Hn12 Hn4]. fold new in Hn12, Hn4.
  change RT_MEMHEAP_MINIALLOC with 12 in *.
  destruct (heap_at_block _ _ _ _ _ _ HA)
    as (r & Hr & HO & E1 & E2 & E3 & E4 & E5 & E6 & E7 & E8 & E9 & E10). fold x in E1, E2, E3, E4, E5, E6, E7, E8, E9.
  assert (HP : placed h a0 P bs) by apply (la_placed _ _ _ _ _ _ (ok_laid _ _ _ _ _ _ HO)).
  assert (Hp0 : (x + RT_MEMHEAP_SIZE =? 0) = false) by done.
  unfold rt_memheap_realloc. erewrite bind_done by exact (assert_type_eq _ _ _ (ha_type _ _ _ _ _ _ HA)).
  rewrite (proj2 (Z.eqb_neq _ _) Hsz). fold new. rewrite Hp0, E1, bind_gets, E3.
  destruct (Z.ltb_spec old new) as [Hlt|Hge].
  - erewrite bind_done by exact (heap_take_lock _ _ _ _ _ _ HA). change (negb (RT_EOK =? RT_EOK)) with false. cbn iota.
    rewrite bind_gets. change (heap_mem (sem_set _ _ s)) with (heap_mem s). rewrite E6.
    erewrite bind_done by (unfold rt_assert; by rewrite (proj2 (Z.ltb_lt _ _)) by lia).
    pose proof (grow_test _ _ _ _ _ new HA) as EG. fold x in EG. rewrite EG. clear EG.
    destruct (can_grow b2 old new) eqn:EG.
    + destruct b2 as [|[k []] b2]; [done|done|]. cbn [can_grow] in EG. apply Z.ltb_lt in EG.
      change RT_MEMHEAP_MINIALLOC with 12 in EG. rewrite u32_small in EG by lia.
      destruct (heap_grow_ok h a0 P _ _ _ _ _ _ new HO) as (HV & m1 & D1 & D2); [lia..|]. fold x in HV, D2.
      eexists _, _. split.
      { erewrite bind_done by exact (heap_run_eq _ (sem_set (heap_lock h) 0 s) _ _ Hr).
        by erewrite bind_done by exact (heap_release_lock _ _ _ _ _ _ _ HA). }
      eexists _, _, _. split; [done|]. split.
      { eapply heap_set_at; [exact HA|exact HV|]. apply bytes_grow, HA. }
      rewrite Hp0. eapply grow_resized; [exact HP|by apply HV|lia|lia|exact D1|exact D2].
    + erewrite bind_done by exact (heap_release_lock_id _ _ _ _ _ _ HA).
      destruct (heap_move_ok _ _ _ _ _ new HA) as (q & s' & E & R); [lia|apply alloc_size_idem; fold new; lia|].
      exists q, s'. split; [|exact R]. by rewrite (proj2 (Z.ltb_lt _ _) Hlt) in E.
  - change RT_MEMHEAP_MINIALLOC with 12. destruct (Z.leb_spec old (u32 (new + RT_MEMHEAP_SIZE + 12))) as [Hle|Hgt].
    + exists (x + RT_MEMHEAP_SIZE), s. split; [done|]. destruct (heap_set_id _ _ _ _ _ _ HA) as (r' & Hr').
      exists (HState (heap_mem s) r'), bs, fl. rewrite Hr', Hp0. split; [done|]. split; [done|]. cbn [hm].
      split; [by intros ???|done| |done|].
      * exists old. split; [|lia]. replace (x + RT_MEMHEAP_SIZE - RT_MEMHEAP_SIZE) with x by lia.
        apply block_at_here. pose proof (pl_nonneg _ _ _ _ HP) as Hn. by apply nonneg_app in Hn as [? _].
      * intros i Hi. done.
    + pose proof (heap_numbers _ _ _ _ _ _ _ _ _ HO) as (N1 & N2 & N3 & N4 & N5 & N6 & N7 & N8 & _).
      change (RT_MEMHEAP_SIZE) with 24 in Hgt. rewrite u32_small in Hgt by lia.
      destruct (heap_shrink_ok h a0 P _ _ _ _ _ new HO) as (HV & D); [lia..|]. fold x in HV, D.
      erewrite bind_done by exact (heap_take_lock _ _ _ _ _ _ HA). change (negb (RT_EOK =? RT_EOK)) with false. cbn iota.
      eexists _, _. split.
      { erewrite bind_done by exact (heap_run_eq _ (sem_set (heap_lock h) 0 s) _ _ Hr).
        by erewrite bind_done by exact (heap_release_lock _ _ _ _ _ _ _ HA). }
      eexists _, _, _. split; [done|]. split.
      { eapply heap_set_at; [exact HA|exact HV|]. apply bytes_shrink, HA. }
      rewrite Hp0. eapply shrink_resized; [exact HP|lia|lia|exact D].
Qed.

(** ** A block and back *)
Lemma give_take b1 k b2 n :
  coalesced (b1 ++ (k, false) :: b2) -> 0 <= n <= k ->
  exists j r, take_block n k ++ b2 = (j, true) :: r /\ n <= j /\ give_block b1 j r = b1 ++ (k, false) :: b2.
Proof.
  intros Hc Hn. apply coalesced_one in Hc as (_ & _ & Hp & Hq). cbn in Hq. rewrite orb_false_r in Hp.
  assert (HG : forall j r, give_block b1 j r = b1 ++ merge_next j r).
  { intros j r. unfold give_block. unfold prev_used in Hp. destruct (last b1) as [[i []]|]; done. }
  unfold take_block. change RT_MEMHEAP_SIZE with 24. change RT_MEMHEAP_MINIALLOC with 12.
  destruct (Z.leb_spec (n + 24 + 12) k) as [Hl|Hl]; eexists _, _; (split; [reflexivity|]); (split; [lia|]); rewrite HG; cbn.
  - change RT_MEMHEAP_SIZE with 24. by replace (n + 24 + (k - n - 24)) with k by lia.
  - destruct b2 as [|[j []] b2]; done.
Qed.

(** Allocating a block and freeing it gives the heap its blocks back: the
    same blocks with the same sizes, and the same bytes in the used ones. So the
    pair leaves no fragments behind. *)
Theorem rt_memheap_alloc_free `{!SignalOps} s bs fl size :
  heap_at s bs fl ->
  exists p v fl', (p ← rt_memheap_alloc h size; rt_memheap_free p;; mret p) s = Done p (heap_set v s) /\
    heap_at (heap_set v s) bs fl' /\ fl' ≡ₚ fl /\ keeps bs (heap_mem s) (hm v).
Proof.
  intros HA. destruct (alloc_size_ok size) as [Hn12 Hn4]. unfold RT_MEMHEAP_MINIALLOC in Hn12.
  pose proof HA as [_ (r0 & _ & HO0) _ _].
  destruct (heap_alloc_cases _ _ _ size HA) as [[_ E]|(b1 & k & b2 & l1 & l2 & r & -> & -> & Hk & Hr & HO & Hx & _ & E)].
  - destruct (heap_set_id _ _ _ _ _ _ HA) as (y & Hy). exists 0, (HState (heap_mem s) y), fl. rewrite Hy.
    split; [by erewrite bind_done by exact E|done].
  - set (n := alloc_size size) in *. set (x := a0 + total b1) in *.
    destruct (heap_take_ok h a0 P _ _ _ _ _ _ n HO) as [HV HD]; [lia|done|]. fold x in HV, HD. cbn [hm] in HD.
    pose proof (keeps_take b1 k b2 n _ _ (la_placed _ _ _ _ _ _ (ok_laid _ _ _ _ _ _ HV))
      ltac:(apply (ok_laid _ _ _ _ _ _ HO)) ltac:(lia) HD) as K1.
    destruct (give_take b1 k b2 n (ok_coal _ _ _ _ _ _ HO) ltac:(lia)) as (j & rest & Et & Hj & EG).
    assert (HA1 : heap_at (heap_set (heap_take h n x k (HState (heap_mem s) r)) s) (b1 ++ take_block n k ++ b2)
                    (take_free n k x (l1 ++ l2))) by (eapply heap_set_at; [done..|by apply bytes_take, HA]).
    pose proof (la_placed _ _ _ _ _ _ (ok_laid _ _ _ _ _ _ HV)) as HP1.
    assert (Hstay : forall y i, block_at a0 (b1 ++ (k, false) :: b2) y = Some (i, true) ->
                      block_at a0 (b1 ++ take_block n k ++ b2) y = Some (i, true)).
    { intros y i. apply block_at_take; [apply (ok_laid _ _ _ _ _ _ HO)|lia]. }
    rewrite Et in *. destruct (heap_free_eq _ _ _ _ _ HA1) as (r2 & HO2 & E2). fold x in E2.
    destruct (heap_give_ok _ _ _ _ _ _ _ _ HO2) as [HV3 HD3]. fold x in HV3, HD3. rewrite EG in HV3.
    set (v3 := heap_give x _) in *. rewrite heap_set_set in E2.
    eexists _, v3, _. split; [erewrite bind_done by exact E; by erewrite bind_done by exact E2|].
    split; [eapply heap_set_at; [exact HA|exact HV3|by apply bytes_give, HA1]|].
    split; [by rewrite (ok_free _ _ _ _ _ _ HV3), (ok_free _ _ _ _ _ _ HO)|].
    intros y i o Hy Ho. rewrite (same_data_keeps _ _ _ HP1 HD3 y i o) by (by apply Hstay || done). by apply (K1 y i).
Qed.

(** ** Sizes near 2^32 *)
Lemma alloc_size_wraps size : 2 ^ 32 - 4 < size < 2 ^ 32 -> alloc_size size = RT_MEMHEAP_MINIALLOC.
Proof.
  intros Hs. unfold alloc_size. rewrite RT_ALIGN_eq. replace (u32 (size + 3)) with (size + 3 - 2 ^ 32).
  - rewrite (proj2 (Z.ltb_lt _ _)); [done|]. unfold RT_MEMHEAP_MINIALLOC. Z.to_euclidean_division_equations. lia.
  - unfold u32, wrap. rewrite <- (Z.mod_small (size + 3 - 2 ^ 32) (2 ^ 32)) by lia.
    replace (size + 3 - 2 ^ 32) with (size + 3 + (-1) * 2 ^ 32) by lia. by rewrite Z.mod_add.
Qed.
Lemma alloc_size_enough size : 0 <= size <= 2 ^ 32 - 4 -> size <= alloc_size size < 2 ^ 32.
Proof.
  intros Hs. unfold alloc_size. rewrite RT_ALIGN_eq, u32_small by lia. unfold RT_MEMHEAP_MINIALLOC.
  case_match; Z.to_euclidean_division_equations; lia.
Qed.

(** C30. The sizes wrap. A request of more than 2^32 - 4 bytes is rounded up to
    nothing and gets a block of less than 48 bytes; and [rt_memheap_realloc] to
    2^32 - 15 bytes or more "grows" a block that has a free block behind it in
    place, since its test for the room adds 12 to the rounded size. *)
Theorem rt_memheap_size_wraps `{!SignalOps} s b1 old k b2 fl size :
  let bs := b1 ++ (old, true) :: (k, false) :: b2 in let p := a0 + total b1 + RT_MEMHEAP_SIZE in
  heap_at s bs fl -> 2 ^ 32 - 16 < size < 2 ^ 32 ->
  if size <=? 2 ^ 32 - 4 then exists v, rt_memheap_realloc h p size s = Done p (heap_set v s)
  else forall q bs' fl', spec_alloc a0 bs fl RT_MEMHEAP_MINIALLOC = (q, bs', fl') -> q <> 0 ->
    exists v n, rt_memheap_alloc h size s = Done q (heap_set v s) /\ heap_at (heap_set v s) bs' fl' /\
      block_at a0 bs' (q - RT_MEMHEAP_SIZE) = Some (n, true) /\ n < 48.
Proof.
  intros bs p HA Hs. destruct (Z.leb_spec size (2 ^ 32 - 4)) as [Hle|Hgt].
  - destruct (alloc_size_ok size) as [_ Hn4]. pose proof (alloc_size_enough size ltac:(lia)) as Hn.
    destruct (heap_at_block _ _ _ _ _ _ HA) as (r & Hr & HO & E1 & E2 & E3 & _ & _ & E6 & E7 & E8 & E9 & E10).
    pose proof (heap_numbers _ _ _ _ _ _ _ _ _ HO) as (N1 & N2 & N3 & N4 & N5 & _).
    unfold rt_memheap_realloc, p. erewrite bind_done by exact (assert_type_eq _ _ _ (ha_type _ _ _ _ _ _ HA)).
    rewrite (proj2 (Z.eqb_neq size 0)) by lia. rewrite E1, E2, bind_gets, E3.
    generalize dependent (alloc_size size). intros new Hn4 Hn.
    assert (2 ^ 32 - 12 <= new <= 2 ^ 32 - 4) by (clear -Hn Hn4 Hs; Z.to_euclidean_division_equations; lia).
    rewrite (proj2 (Z.ltb_lt _ _)) by lia.
    erewrite bind_done by exact (heap_take_lock _ _ _ _ _ _ HA). change (negb (RT_EOK =? RT_EOK)) with false. cbn iota.
    rewrite bind_gets. change (heap_mem (sem_set _ _ s)) with (heap_mem s). rewrite E6.
    erewrite bind_done by (unfold rt_assert; by rewrite (proj2 (Z.ltb_lt _ _)) by lia).
    rewrite (grow_test _ _ _ _ _ new HA). cbn [can_grow]. replace (u32 (new + RT_MEMHEAP_MINIALLOC)) with (new + 12 - 2 ^ 32).
    2:{ unfold u32, wrap. change RT_MEMHEAP_MINIALLOC with 12. rewrite <- (Z.mod_small (new + 12 - 2 ^ 32) (2 ^ 32)) by lia.
        replace (new + 12 - 2 ^ 32) with (new + 12 + (-1) * 2 ^ 32) by lia. by rewrite Z.mod_add. }
    assert (Hk : 12 <= k).
    { pose proof (ok_sizes _ _ _ _ _ _ HO) as Hz. apply sizes_ok_app in Hz as [_ [_ [[Hk _] _]%sizes_ok_cons]%sizes_ok_cons]. done. }
    
    rewrite (proj2 (Z.ltb_lt _ _)) by lia. eexists.
    erewrite bind_done by exact (heap_run_eq _ (sem_set (heap_lock h) 0 s) _ _ Hr).
    by erewrite bind_done by exact (heap_release_lock _ _ _ _ _ _ _ HA).
  - intros q bs' fl' EQ Hq. rewrite <- (alloc_size_wraps size) in EQ by lia. pose proof (alloc_size_wraps size ltac:(lia)) as En.
    destruct (heap_alloc_cases _ _ _ size HA) as [[E _]|(c1 & j & c2 & l1 & l2 & r & Eb & Ef & Hj & Hr & HO & Hx & ES & E)];
      [congruence|]. rewrite ES in EQ. injection EQ as <- <- <-. rewrite En in *. rewrite Eb, Ef in HO.
    destruct (heap_take_ok h a0 P _ _ _ _ _ _ RT_MEMHEAP_MINIALLOC HO) as [HV _]; [by split|done|].
    pose proof (pl_nonneg _ _ _ _ (la_placed _ _ _ _ _ _ (ok_laid _ _ _ _ _ _ HV))) as Hn.
    apply nonneg_app in Hn as [Hn _].
    eexists. exists (if 48 <=? j then 12 else j). split; [exact E|].
    split; [eapply heap_set_at; [exact HA|exact HV|by apply bytes_take, HA]|].
    replace (_ + RT_MEMHEAP_SIZE - RT_MEMHEAP_SIZE) with (a0 + total c1) by lia.
    unfold take_block. change (RT_MEMHEAP_MINIALLOC + RT_MEMHEAP_SIZE + RT_MEMHEAP_MINIALLOC) with 48.
    destruct (Z.leb_spec 48 j); (split; [by apply block_at_here|lia]).
Qed.
End Heap.

(** ** Examples *)
#[local] Existing Instance no_signals.

(** 13 bytes out of the free 208: the block is rounded up to 16 and split. *)
Lemma rt_memheap_alloc_refines_witness :
  exists v, rt_memheap_alloc 0x1000 13 kstate_heap0 = Done 0x2018 (heap_set 0x1000 v kstate_heap0) /\
    heap_at 0x1000 0x2000 256 (heap_set 0x1000 v kstate_heap0) [(16, true); (168, false)] [0x2028].
Proof.
  destruct (rt_memheap_alloc_refines 0x1000 0x2000 256 kstate_heap0 [(208, false)] [0x2000] 13 kstate_heap0_at)
    as (v & E & HA & _).
  exists v. split; [exact E|exact HA].
Defined.

(** Freeing it leaves the one block. *)
Lemma rt_memheap_free_refines_witness :
  exists v, rt_memheap_free 0x2018 kstate_heap1 = Done tt (heap_set 0x1000 v kstate_heap1) /\
    heap_at 0x1000 0x2000 256 (heap_set 0x1000 v kstate_heap1) [(208, false)] [0x2000].
Proof.
  destruct (rt_memheap_free_refines 0x1000 0x2000 256 kstate_heap1 [] 16 [(168, false)] [0x2028] kstate_heap1_at)
    as (v & E & HA & _).
  exists v. split; [exact E|exact HA].
Defined.

(** It grows in place to 20 bytes or moves. *)
Lemma rt_memheap_realloc_correct_witness :
  exists q s', rt_memheap_realloc 0x1000 0x2018 20 kstate_heap1 = Done q s' /\
    realloc_result 0x1000 0x2000 256 kstate_heap1 [(16, true); (168, false)] [0x2028] 0x2000 16 20 q s'.
Proof.
  exact (rt_memheap_realloc_correct 0x1000 0x2000 256 kstate_heap1 [] 16 [(168, false)] [0x2028] 20
           kstate_heap1_at ltac:(discriminate) eq_refl).
Defined.

Lemma rt_memheap_alloc_free_witness :
  exists p v fl, (p ← rt_memheap_alloc 0x1000 40; rt_memheap_free p;; mret p) kstate_heap1 =
      Done p (heap_set 0x1000 v kstate_heap1) /\
    heap_at 0x1000 0x2000 256 (heap_set 0x1000 v kstate_heap1) [(16, true); (168, false)] fl.
Proof.
  destruct (rt_memheap_alloc_free 0x1000 0x2000 256 kstate_heap1 _ _ 40 kstate_heap1_at) as (p & v & fl & E & HA & _).
  exists p, v, fl. split; [exact E|exact HA].
Defined.

(** 4 GiB - 8 bytes out of 256. *)
Lemma rt_memheap_size_wraps_witness :
  (exists v, rt_memheap_realloc 0x1000 0x2018 0xfffffff8 kstate_heap1 = Done 0x2018 (heap_set 0x1000 v kstate_heap1)) /\
  (exists v n, rt_memheap_alloc 0x1000 0xffffffff kstate_heap1 = Done 0x2040 (heap_set 0x1000 v kstate_heap1) /\ n < 48).
Proof.
  split.
  - exact (rt_memheap_size_wraps 0x1000 0x2000 256 kstate_heap1 [] 16 168 [] [0x2028] 0xfffffff8 kstate_heap1_at
             (conj eq_refl eq_refl)).
  - destruct (rt_memheap_size_wraps 0x1000 0x2000 256 kstate_heap1 [] 16 168 [] [0x2028] 0xffffffff kstate_heap1_at
      (conj eq_refl eq_refl) 0x2040 _ _ eq_refl ltac:(discriminate)) as (v & n & E & _ & _ & Hn).
    exists v, n. split; [exact E|exact Hn].
Defined.
