(* ===== verification/HeapImpl.v ===== *)
(** The memory heap of memheap.c keeps what HeapSpec.v promises: [rt_malloc] and
    [rt_free] implement the interface. *)
From S2P Require Export Dynamic MemHeapThm.
Local Open Scope Z_scope.

(** ** The blocks in use *)

(** The pointers that the callers have, and the sizes behind them. *)
Fixpoint used_list (a : Z) (bs : hblocks) : list (Z * Z) :=
  match bs with
  | [] => []
  | (n, u) :: bs => (if u : bool then [(a + RT_MEMHEAP_SIZE, n)] else []) ++
                    used_list (a + RT_MEMHEAP_SIZE + n) bs
  end.
Definition used_map (a : Z) (bs : hblocks) : gmap Z Z := list_to_map (used_list a bs).

Lemma used_list_app a b1 b2 : used_list a (b1 ++ b2) = used_list a b1 ++ used_list (a + total b1) b2.
Proof.
  revert a. induction b1 as [|[n u] b1 IH]; intros a; cbn; [by rewrite Z.add_0_r|].
  rewrite IH, <- app_assoc. change RT_MEMHEAP_SIZE with 24.
  by replace (a + 24 + n + total b1) with (a + (24 + n + total b1)) by lia.
Qed.

Lemma used_list_range a bs p n : nonneg bs -> (p, n) ∈ used_list a bs -> a + 24 <= p /\ 0 <= n /\ p + n <= a + total bs.
Proof.
  revert a. induction bs as [|[k u] bs IH]; intros a; [by intros _ ?%elem_of_nil|].
  intros [Hk Hb]%nonneg_cons. pose proof (total_nonneg _ Hb) as Ht. cbn in *. change RT_MEMHEAP_SIZE with 24.
  rewrite elem_of_app. intros [Hp|Hp%IH]; [|lia|done].
  destruct u; [|by apply elem_of_nil in Hp]. apply list_elem_of_singleton in Hp as [= -> ->]. lia.
Qed.

Lemma used_list_elem a bs p n :
  (p, n) ∈ used_list a bs -> exists b1 b2, bs = b1 ++ (n, true) :: b2 /\ p = a + total b1 + RT_MEMHEAP_SIZE.
Proof.
  revert a. induction bs as [|[k u] bs IH]; intros a; cbn; [by intros ?%elem_of_nil|].
  rewrite elem_of_app. intros [Hp|(b1 & b2 & -> & ->)%IH].
  - destruct u; [|by apply elem_of_nil in Hp]. apply list_elem_of_singleton in Hp as [= -> ->].
    exists [], bs. cbn. split; [done|lia].
  - exists ((k, u) :: b1), b2. cbn. change RT_MEMHEAP_SIZE with 24. split; [done|lia].
Qed.

Lemma used_list_nodup a bs : nonneg bs -> NoDup (used_list a bs).*1.
Proof.
  revert a. induction bs as [|[k u] bs IH]; intros a; cbn; [by constructor|]. intros [Hk Hb]%nonneg_cons. cbn in Hk.
  destruct u; cbn; [|by apply IH]. apply NoDup_cons. split; [|by apply IH].
  intros ([p n] & E & Hp)%list_elem_of_fmap. cbn in E. apply used_list_range in Hp; [|done]. change RT_MEMHEAP_SIZE with 24 in *. lia.
Qed.

Lemma used_map_lookup a bs p n : nonneg bs -> used_map a bs !! p = Some n <-> (p, n) ∈ used_list a bs.
Proof. intros Hb. symmetry. apply elem_of_list_to_map. by apply used_list_nodup. Qed.

Lemma used_map_apart a bs p n q k :
  nonneg bs -> used_map a bs !! p = Some n -> used_map a bs !! q = Some k -> p <> q -> p + n <= q \/ q + k <= p.
Proof.
  intros Hb. rewrite !used_map_lookup by done. revert a. induction bs as [|[j u] bs IH]; intros a; cbn.
  { by intros ?%elem_of_nil. }
  apply nonneg_cons in Hb as [Hj Hb]. cbn in Hj. rewrite !elem_of_app. change RT_MEMHEAP_SIZE with 24.
  assert (HH : forall y i, (y, i) ∈ (if u : bool then [(a + 24, j)] else []) -> y = a + 24 /\ i = j).
  { intros y i. destruct u; [by intros [= -> ->]%list_elem_of_singleton|by intros ?%elem_of_nil]. }
  intros [Hp|Hp] [Hq|Hq] Hne; [|..|by eapply IH].
  - apply HH in Hp as [-> ->]. apply HH in Hq as [-> ->]. done.
  - apply HH in Hp as [-> ->]. apply used_list_range in Hq; [lia|done].
  - apply HH in Hq as [-> ->]. apply used_list_range in Hp; [lia|done].
Qed.

(** The map of a list with one more pair. *)
Lemma list_to_map_middle (l1 l2 : list (Z * Z)) p n :
  NoDup (l1 ++ (p, n) :: l2).*1 ->
  (list_to_map (l1 ++ (p, n) :: l2) : gmap Z Z) = <[p := n]> (list_to_map (l1 ++ l2)) /\
  (list_to_map (l1 ++ l2) : gmap Z Z) = delete p (list_to_map (l1 ++ (p, n) :: l2)).
Proof.
  intros Hd. assert (E : (list_to_map (l1 ++ (p, n) :: l2) : gmap Z Z) = <[p := n]> (list_to_map (l1 ++ l2))).
  { change (<[p := n]> (list_to_map (l1 ++ l2) : gmap Z Z)) with (list_to_map ((p, n) :: l1 ++ l2) : gmap Z Z). apply list_to_map_proper; [done|].
    symmetry. apply Permutation_middle. }
  split; [done|]. rewrite E, delete_insert_id; [done|]. apply not_elem_of_list_to_map_1.
  rewrite fmap_app, fmap_cons in Hd. rewrite <- Permutation_middle in Hd. apply NoDup_cons in Hd as [Hd _].
  by rewrite fmap_app.
Qed.

(** Taking and giving back a block. *)
Lemma used_map_take a b1 k b2 n :
  nonneg (b1 ++ take_block n k ++ b2) -> n <= k ->
  let p := a + total b1 + RT_MEMHEAP_SIZE in
  used_map a (b1 ++ (k, false) :: b2) !! p = None /\
  exists j, n <= j /\ used_map a (b1 ++ take_block n k ++ b2) = <[p := j]> (used_map a (b1 ++ (k, false) :: b2)).
Proof.
  intros Hn Hk p. pose proof (used_list_nodup a _ Hn) as Hd. change RT_MEMHEAP_SIZE with 24 in *.
  assert (HT : exists j, n <= j /\ used_list a (b1 ++ take_block n k ++ b2) =
    used_list a b1 ++ (p, j) :: used_list (a + total b1 + 24 + k) b2).
  { rewrite used_list_app. unfold take_block. change RT_MEMHEAP_SIZE with 24. change RT_MEMHEAP_MINIALLOC with 12.
    case_match; cbn; change RT_MEMHEAP_SIZE with 24; [exists n|by exists k].
    split; [lia|]. by replace (a + total b1 + 24 + n + 24 + (k - n - 24)) with (a + total b1 + 24 + k) by lia. }
  destruct HT as (j & Hj & E). rewrite E in Hd.
  assert (EF : used_list a (b1 ++ (k, false) :: b2) = used_list a b1 ++ used_list (a + total b1 + 24 + k) b2).
  { rewrite used_list_app. done. }
  destruct (list_to_map_middle _ _ _ _ Hd) as [M1 M2]. unfold used_map. rewrite E, EF. split; [|by exists j].
  rewrite M2. apply lookup_delete_eq.
Qed.

Lemma used_merge a n b2 : used_list a (merge_next n b2) = used_list (a + 24 + n) b2.
Proof.
  destruct b2 as [|[k []] b2]; cbn; change RT_MEMHEAP_SIZE with 24; [done|done|].
  by replace (a + 24 + (n + 24 + k)) with (a + 24 + n + 24 + k) by lia.
Qed.

Lemma used_map_give a b1 n b2 :
  nonneg (b1 ++ (n, true) :: b2) ->
  used_map a (give_block b1 n b2) = delete (a + total b1 + RT_MEMHEAP_SIZE) (used_map a (b1 ++ (n, true) :: b2)).
Proof.
  intros Hn. pose proof (used_list_nodup a _ Hn) as Hd. unfold used_map. change RT_MEMHEAP_SIZE with 24 in *.
  rewrite used_list_app in *. cbn [used_list app] in *. change RT_MEMHEAP_SIZE with 24 in *.
  destruct (list_to_map_middle _ _ _ _ Hd) as [_ <-]. f_equal. unfold give_block.
  destruct b1 as [|[j w] b1 _] using rev_ind; [cbn; by rewrite used_merge, Z.add_0_r|].
  rewrite last_snoc, removelast_last. destruct w; rewrite !used_list_app, ?total_app, used_merge; cbn [used_list app total fst].
  - done.
  - rewrite app_nil_r. f_equal. change RT_MEMHEAP_SIZE with 24. f_equal. lia.
Qed.

(** ** The heap of the system *)
Section Impl.
Context `{!SignalOps, !SystemHeap} (a0 P : Z).
#[local] Abbreviation h := addr_heap.

(** The structure [_heap] and the memory that it manages lie apart. *)
Context (Hh : 0 < h) (Ha0 : 0 < a0) (Hapart : h + 100 <= a0 \/ a0 + P <= h).

Definition memheap_private (r : ref) : Prop := r = heap_ref h \/ r = sem_ref (heap_lock h).
Definition memheap_region (a : Z) : Prop := a0 + RT_MEMHEAP_SIZE <= a < a0 + P.
(** The heap is the only one, and [B] are the blocks in use. *)
Definition memheap_owns (B : gmap Z Z) (s : kstate) : Prop :=
  object_list s RT_Object_Class_MemHeap = [heap_ref h] /\
  exists bs fl, heap_at h a0 P s bs fl /\ B = used_map a0 bs.

Lemma heap_at_nonneg s bs fl : heap_at h a0 P s bs fl -> nonneg bs /\ total bs + 24 = P.
Proof.
  intros [_ (x & _ & HO) _ _]. pose proof (la_placed _ _ _ _ _ _ (ok_laid _ _ _ _ _ _ HO)) as HP. split; apply HP.
Qed.

Lemma memheap_private_region r : memheap_private r -> ~ memheap_region (object_addr r).
Proof.
  unfold memheap_region, heap_ref, sem_ref, heap_lock, free_header, SIZEOF_OBJECT, SIZEOF_MEMHEAP_ITEM.
  change RT_MEMHEAP_SIZE with 24. intros [->| ->]; unfold heap_ref, sem_ref, object_addr.
  - rewrite Z2Pos.id by done. clear -Hh Hapart. lia.
  - unfold heap_lock, free_header, SIZEOF_OBJECT, SIZEOF_MEMHEAP_ITEM.
    rewrite Z2Pos.id by (clear -Hh; lia). clear -Hh Hapart. lia.
Qed.

Lemma memheap_owns_same B s s' : heap_same memheap_private s s' -> memheap_owns B s -> memheap_owns B s'.
Proof.
  intros [E1 E2 E3 E4 E5 E6] [HL (bs & fl & [HT HH (L1 & L2 & L3) HB] & ->)].
  split; [by rewrite E6|]. exists bs, fl. split; [|done]. split.
  - unfold typed. rewrite E3 by (by left). done.
  - by rewrite E1, E2.
  - split; [unfold typed; rewrite E3 by (by right); done|]. split; [rewrite E4 by (by right); done|].
    specialize (E5 (heap_lock h) (or_intror eq_refl)). unfold queue in E5. by rewrite E5.
  - by rewrite E1.
Qed.

Lemma memheap_owns_range B s a n : memheap_owns B s -> B !! a = Some n -> a0 + 24 <= a /\ 0 <= n /\ a + n + 24 <= a0 + P.
Proof.
  intros [_ (bs & fl & HA & ->)] Hl. destruct (heap_at_nonneg _ _ _ HA) as [Hn Ht].
  apply used_map_lookup, used_list_range in Hl; [lia|done..].
Qed.

Lemma memheap_owns_write B s a n m :
  memheap_owns B s -> B !! a = Some n -> bytes m ->
  (forall x, in_range a n x = false -> m x = heap_mem s x) -> memheap_owns B (s <| heap_mem := m |>).
Proof.
  intros [HL (bs & fl & HA & ->)] Hl Hb Hm. destruct (heap_at_nonneg _ _ _ HA) as [Hn _].
  split; [done|]. exists bs, fl. split; [|done]. pose proof HA as [HT (x & Hx & HO) HK _]. split; [done| |done|done].
  exists x. split; [done|]. apply used_map_lookup, used_list_elem in Hl as (b1 & b2 & -> & ->); [|done].
  eapply heap_ok_write; [exact HO|apply block_at_here; by apply nonneg_app in Hn as [? _]|]. exact Hm.
Qed.

Lemma heap_set_step v s : heap_step s (heap_set h v s).
Proof. by destruct s. Qed.

Lemma heap_set_owns v s bs fl bs' fl' :
  object_list s RT_Object_Class_MemHeap = [heap_ref h] -> heap_at h a0 P (heap_set h v s) bs' fl' ->
  heap_at h a0 P s bs fl -> memheap_owns (used_map a0 bs') (heap_set h v s).
Proof. intros HL HA _. split; [done|]. by exists bs', fl'. Qed.

(** With one heap there is nowhere else to look. *)
Lemma rt_malloc_eq s size :
  object_list s RT_Object_Class_MemHeap = [heap_ref h] -> typed s (heap_ref h) RT_Object_Class_MemHeap ->
  rt_memheap_alloc h size s = Done 0 s -> rt_malloc size s = Done 0 s.
Proof.
  intros HL HT E. unfold rt_malloc. erewrite bind_done by exact E. change (0 =? 0) with true. cbn iota. rewrite bind_gets, HL. cbn [length head malloc_others].
  erewrite bind_done by (by apply assert_type_eq). assert (Er : Z.pos (heap_ref h).2 = h) by (by apply Z2Pos.id). rewrite Er.
  rewrite Z.eqb_refl. erewrite bind_done by reflexivity. cbn [negb Z.eqb]. rewrite bind_gets, HL.
  cbn [next_node]. rewrite decide_True by done. by erewrite bind_done by reflexivity.
Qed.

Lemma rt_malloc_ok B s n :
  memheap_owns B s -> 0 <= n <= 2 ^ 32 - 4 ->
  exists r s', heap_malloc n s = Done r s' /\
    match r with
    | None => s' = s
    | Some a => B !! a = None /\ heap_step s s' /\ exists k, n <= k /\ memheap_owns (<[a := k]> B) s'
    end.
Proof.
  intros [HL (bs & fl & HA & ->)] Hn. destruct (alloc_size_ok n) as [Hz _]. unfold RT_MEMHEAP_MINIALLOC in Hz.
  pose proof (alloc_size_enough n Hn) as Hen. cbn [heap_malloc memheap_ops].
  destruct (heap_alloc_cases h a0 P s bs fl n HA) as [[_ E]|(b1 & k & b2 & l1 & l2 & r & -> & -> & Hk & Hr & HO & Hx & _ & E)].
  - exists None, s. split; [|done]. by erewrite bind_done by (apply rt_malloc_eq; [done|apply HA|exact E]).
  - destruct (heap_take_ok h a0 P _ _ _ _ _ _ (alloc_size n) HO) as [HV _]; [lia|apply alloc_size_ok|].
    set (x := a0 + total b1) in *. set (v := heap_take h (alloc_size n) x k (HState (heap_mem s) r)) in *.
    assert (HA' : heap_at h a0 P (heap_set h v s) (b1 ++ take_block (alloc_size n) k ++ b2)
      (take_free (alloc_size n) k x (l1 ++ l2))) by (eapply heap_set_at; [done..|by apply bytes_take, HA]).
    destruct (heap_at_nonneg _ _ _ HA') as [Hn' _].
    destruct (used_map_take a0 b1 k b2 (alloc_size n) Hn' Hk) as (U1 & j & Hj & U2).
    assert (Hne : (x + RT_MEMHEAP_SIZE =? 0) = false) by (change RT_MEMHEAP_SIZE with 24; clear -Hx; clearbody x; lia).
    exists (Some (x + RT_MEMHEAP_SIZE)), (heap_set h v s). split.
    { erewrite (bind_done _ _ s (x + RT_MEMHEAP_SIZE) (heap_set h v s)).
      2:{ unfold rt_malloc. erewrite bind_done by exact E. by rewrite Hne. }
      cbv beta. by rewrite Hne. }
    split; [done|]. split; [apply heap_set_step|]. exists j. split; [lia|]. split; [done|].
    eexists _, _. split; [exact HA'|done].
Qed.

Lemma rt_free_ok B s a n :
  memheap_owns B s -> B !! a = Some n ->
  exists s', heap_free a s = Done tt s' /\ heap_step s s' /\ memheap_owns (delete a B) s'.
Proof.
  intros [HL (bs & fl & HA & ->)] Ha. destruct (heap_at_nonneg _ _ _ HA) as [Hn _].
  apply used_map_lookup, used_list_elem in Ha as (b1 & b2 & -> & ->); [|done].
  destruct (heap_free_eq h a0 P s b1 n b2 fl HA) as (r & HO & E).
  destruct (heap_give_ok _ _ _ _ _ _ _ _ HO) as [HV _]. eexists. split; [exact E|]. split; [apply heap_set_step|].
  split; [done|]. eexists _, _. split; [eapply heap_set_at; [exact HA|exact HV|by apply bytes_give, HA]|].
  by rewrite used_map_give.
Qed.

(** C22. [rt_malloc] and [rt_free] on the heap of the system implement an
    allocator of blocks: the state of the heap stands for the blocks [B] that
    were given out. Allocation finds no room and changes nothing, or adds a block
    of at least the size, apart from all the others and inside the memory of the
    heap; freeing a block takes out that block. Nothing but the heap's own memory
    and structure changes. *)
Theorem system_heap_refines B s n :
  memheap_owns B s -> 0 <= n <= 2 ^ 32 - 4 ->
  (exists r s', rt_malloc n s = Done r s' /\ heap_step s s' /\
     (r = 0 /\ s' = s \/
      exists k, n <= k /\ a0 < r /\ r + k < a0 + P /\ B !! r = None /\ memheap_owns (<[r := k]> B) s' /\
        forall b j, B !! b = Some j -> r + k <= b \/ b + j <= r)) /\
  (forall a k, B !! a = Some k ->
     exists s', rt_free a s = Done tt s' /\ heap_step s s' /\ memheap_owns (delete a B) s').
Proof.
  intros HO Hn. split; [|intros a k Ha; by eapply rt_free_ok].
  destruct (rt_malloc_ok B s n HO Hn) as (r & s' & E & HR). cbn [heap_malloc memheap_ops] in E.
  unfold mbind, prog_bind in E. destruct (rt_malloc n s) as [p s1| |] eqn:Ep; [|done..]. cbn in E.
  destruct (Z.eqb_spec p 0) as [->|Hp]; injection E as <- <-.
  { exists 0, s1. subst s1. split; [done|]. split; [by destruct s|by left]. }
  destruct HR as (Hb & HS & k & Hk & HO'). exists p, s1. do 2 (split; [done|]). right. exists k. split; [done|].
  pose proof (memheap_owns_range _ _ _ _ HO' (lookup_insert_eq _ _ _)) as Hr.
  split; [lia|]. split; [lia|]. do 2 (split; [done|]). intros b j Hbj.
  assert (Hne : p <> b) by congruence. destruct HO' as [_ (bs & fl & HA & EB)].
  eapply (used_map_apart a0 bs p k b j); [eapply heap_at_nonneg, HA|rewrite <- EB..|done].
  - apply lookup_insert_eq.
  - by rewrite lookup_insert_ne.
Qed.

Definition memheap_spec : HeapSpec.
Proof.
  refine {| heap_private := memheap_private; heap_region := memheap_region; heap_owns := memheap_owns |}.
  - intros r [->| ->]; [by left|by right].
  - exact memheap_private_region.
  - unfold memheap_region. change RT_MEMHEAP_SIZE with 24. lia.
  - exact memheap_owns_same.
  - intros B s a n HO Ha. pose proof (memheap_owns_range _ _ _ _ HO Ha). unfold memheap_region. change RT_MEMHEAP_SIZE with 24. lia.
  - intros B s r [-> _] ->%list_elem_of_singleton. apply memheap_private_region. by left.
  - intros B s a n b k [_ (bs & fl & HA & ->)]. eapply used_map_apart. eapply heap_at_nonneg, HA.
  - intros B s x [_ (bs & fl & HA & _)] [[=]|[= ->]]. apply HA.
  - intros B s [_ (bs & fl & HA & _)]. apply HA.
  - exact memheap_owns_write.
  - exact rt_malloc_ok.
  - exact rt_free_ok.
Defined.
End Impl.

(** ** A kernel with a heap *)
#[local] Existing Instance no_signals.

(** Two threads, and a heap of 4 KiB in which nothing is allocated. *)
#[export] Instance heap_1000 : SystemHeap := {| addr_heap := 0x1000 |}.
Definition heap4k : rt_memheap := RtMemheap 0x4000 4096 4048 48 0x4000 (free_header 0x1000).
Definition kstate_dyn0 : kstate :=
  kstate_idle
    <| objs ::= <[heap_ref 0x1000 := header RT_Object_Class_MemHeap 0]> |>
    <| objs ::= <[sem_ref (heap_lock 0x1000) := header RT_Object_Class_Semaphore 0]> |>
    <| sems := {[heap_lock 0x1000 := RtSem 1]} |>
    <| containers := {[RT_Object_Class_MemHeap := [heap_ref 0x1000]]} |>.
Definition kstate_dyn : kstate :=
  heap_set 0x1000 (heap_format 0x1000 0x4000 (HState (fun _ => 0) heap4k)) kstate_dyn0.

Lemma kstate_dyn_owns : memheap_owns 0x4000 4096 ∅ kstate_dyn.
Proof.
  split; [done|]. exists [(4048, false)], [0x4000]. split; [|done].
  destruct (heap_format_ok 0x1000 0x4000 4096 (fun _ => 0) heap4k) as [HV HB]; [|done..|].
  { split; [split; by vm_compute|split; by vm_compute|left; by vm_compute|by repeat constructor|done]. }
  split; [by eexists| |by split; [eexists|]|exact HB].
  eexists. split; [by apply lookup_insert_eq|]. exact HV.
Qed.

Lemma kstate_dyn_kok : kok kstate_dyn.
Proof.
  eapply (kok_object (kstate_idle <| objs ::= <[heap_ref 0x1000 := header RT_Object_Class_MemHeap 0]> |>) _
            (sem_ref (heap_lock 0x1000))); [eapply (kok_object kstate_idle _ (heap_ref 0x1000)); [apply kstate_idle_kok|..]|..]; try done.
  - intros r Hr. by apply lookup_insert_ne.
  - intros r Hr. by apply lookup_insert_ne.
Qed.

Lemma system_heap_refines_witness :
  exists r s' s'', rt_malloc 100 kstate_dyn = Done r s' /\ rt_free r s' = Done tt s'' /\
    memheap_owns 0x4000 4096 ∅ s''.
Proof.
  assert (Hp : 0 < addr_heap) by done.
  destruct (system_heap_refines 0x4000 4096 Hp ∅ kstate_dyn 100 kstate_dyn_owns ltac:(done)) as [(r & s' & E & _ & [[-> ->]|(k & Hk & _ & _ & _ & HO & _)]) _].
  { assert (Hz : match rt_malloc 100 kstate_dyn with Done p _ => p =? 0 | _ => true end = false) by (by vm_compute).
    rewrite E in Hz. discriminate Hz. }
  destruct (system_heap_refines 0x4000 4096 Hp _ s' 0 HO ltac:(clear; lia)) as [_ HF].
  destruct (HF r k) as (s'' & E' & _ & HO'); [apply lookup_insert_eq|]. exists r, s', s''.
  split; [exact E|]. split; [exact E'|]. rewrite delete_insert_id in HO' by reflexivity. exact HO'.
Defined.

Definition heap_spec_4k : HeapSpec.
Proof. exact (memheap_spec 0x4000 4096 eq_refl eq_refl (or_introl (ltac:(discriminate) : 0x1000 + 100 <= 0x4000))). Defined.
#[local] Existing Instance heap_spec_4k.

Lemma kstate_dyn_ok : dyn_ok ∅ kstate_dyn.
Proof.
  split; [rewrite fmap_empty; exact kstate_dyn_owns|]. intros r Hr. left.
  assert (Hc : forall c, object_list kstate_dyn c = if decide (c = RT_Object_Class_MemHeap) then [heap_ref 0x1000] else []).
  { intros c. change (object_list kstate_dyn c) with (({[RT_Object_Class_MemHeap := [heap_ref 0x1000]]} : gmap Z (list ref)) !!! c).
    rewrite lookup_total_singleton. repeat case_decide; by try congruence. }
  split.
  - intros c. rewrite Hc. case_decide; [|by apply not_elem_of_nil]. intros ->%list_elem_of_singleton.
    by destruct Hr as [Hr _].
  - split; [done|]. split; [done|]. destruct r as [[] t]; try done.
    + intros th Ht. change (({[1%positive := thread0 RT_THREAD_RUNNING 10; 2%positive := thread0 RT_THREAD_SUSPEND 5]}
        : gmap tid rt_thread) !! t = Some th) in Ht. exfalso. destruct Hr as [Hr _].
      apply lookup_insert_Some in Ht as [[<- _]|[_ [<- _]%lookup_singleton_Some]]; by apply Hr.
    + by apply not_elem_of_nil.
Qed.
