(* ===== verification/HeapRoom.v ===== *)
(** Room on the heap: how much can still be allocated. While there is room,
    [rt_malloc] succeeds, whatever the blocks given out before. *)
From S2P Require Export HeapImpl.
Local Open Scope Z_scope.

(** What an allocation of [n] bytes takes away at most: its header, its rounding
    and the rest that is too small to be a block. *)
Definition block_cost (n : Z) : Z := n + 48.

(** [heap_room N s]: requests that cost [N] bytes together succeed. *)
Class HeapRoom `{!HeapOps, !HeapSpec} := {
  heap_room : Z -> kstate -> Prop;
  room_less N N' s : N' <= N -> heap_room N s -> heap_room N' s;
  room_same N s s' : heap_same heap_private s s' -> heap_room N s -> heap_room N s';
  room_write B N s a n m : heap_owns B s -> B !! a = Some n -> bytes m ->
    (forall x, in_range a n x = false -> m x = heap_mem s x) -> heap_room N s -> heap_room N (s <| heap_mem := m |>);
  room_malloc B N s n : heap_owns B s -> heap_room N s -> 0 <= n -> block_cost n <= N ->
    exists a s', heap_malloc n s = Done (Some a) s' /\ heap_room (N - block_cost n) s' }.

(** ** Objects *)
Section Objects.
Context `{!HeapOps, !HeapSpec, !HeapRoom}.

Lemma dyn_room_malloc D N s n r s' :
  dyn_ok D s -> heap_room N s -> 0 <= n -> block_cost n <= N -> heap_malloc n s = Done r s' ->
  is_Some r /\ heap_room (N - block_cost n) s'.
Proof.
  intros HD HR Hn Hc E. destruct (room_malloc _ N s n (dy_heap _ _ HD) HR Hn Hc) as (a & s1 & E1 & HR1).
  rewrite E1 in E. injection E as <- <-. by split.
Qed.

Lemma dyn_room_memset D N s a k o n :
  dyn_ok D s -> D !! a = Some (k, o) -> 0 <= n <= k -> heap_room N s -> heap_room N (s <| heap_mem ::= rt_memset a 0 n |>).
Proof.
  intros HD Ha Hn HR. pose proof (owns_bytes _ _ (dy_heap _ _ HD)) as Hb.
  apply (room_write _ N s a k _ (dy_heap _ _ HD)); [by rewrite lookup_fmap, Ha|..|done].
  - intros y. rewrite rt_memset_correct by lia. case_match; [done|apply Hb].
  - intros y Hy. rewrite rt_memset_correct by lia. by rewrite (in_range_narrow a k) by (done || lia).
Qed.

Lemma room_allocate D N s c name r s' :
  dyn_ok D s -> interrupt_nest s = 0 -> c ∈ object_classes -> c <> RT_Object_Class_MemHeap ->
  heap_room N s -> block_cost (object_size c) <= N -> rt_object_allocate c name s = Done r s' ->
  is_Some r /\ heap_room (N - block_cost (object_size c)) s'.
Proof.
  intros HD HN Hc Hm HR Hle E. destruct (get_information_in c Hc) as [Ei Hsz].
  unfold rt_object_allocate in E. erewrite bind_done in E by exact (not_in_interrupt_eq s HN). rewrite Ei in E.
  erewrite bind_done in E by reflexivity.
  destruct (dyn_malloc_ok D s (object_size c) HD Hsz) as (q & s1 & E1 & HQ).
  destruct (dyn_room_malloc D N s _ q s1 HD HR (proj1 Hsz) Hle E1) as [[a ->] HR1].
  destruct HQ as (Ha & Hreg & _ & k & Hk & HD1). pose proof (object_at_home c a (region_pos _ Hreg)) as [Eh Eo].
  erewrite bind_done in E by exact E1. injection E as <- <-. split; [done|].
  eapply room_same; [|eapply (dyn_room_memset _ _ s1 a k None (object_size c) HD1); [apply lookup_insert_eq|lia|exact HR1]].
  apply (heap_same_header _ (object_at c a)); [|done]. intros Hp. apply (private_region _ Hp).
  unfold home in Eh. by rewrite <- Eo, Eh.
Qed.
End Objects.

(** ** The heap of memheap.c *)

(** The blocks are in the memory. *)
Lemma laid_unique h a0 P m c b b' fl fl' :
  laid h a0 P m (c ++ b) fl -> laid h a0 P m (c ++ b') fl' -> b = b'.
Proof.
  revert c b'. induction b as [|[n u] b IH]; intros c b' L1 L2.
  - destruct b' as [|[n u] b']; [done|]. exfalso.
    pose proof (la_placed _ _ _ _ _ _ L1) as [_ _ _ _ T1]. pose proof (la_placed _ _ _ _ _ _ L2) as [_ _ _ N2 T2].
    rewrite total_app in T1, T2. apply nonneg_app in N2 as [_ [Hn Hb]%nonneg_cons]. pose proof (total_nonneg _ Hb).
    cbn in *. lia.
  - destruct b' as [|[n' u'] b']; [exfalso|].
    + pose proof (la_placed _ _ _ _ _ _ L1) as [_ _ _ N1 T1]. pose proof (la_placed _ _ _ _ _ _ L2) as [_ _ _ _ T2].
      rewrite total_app in T1, T2. apply nonneg_app in N1 as [_ [Hn Hb]%nonneg_cons]. pose proof (total_nonneg _ Hb).
      cbn in *. lia.
    + destruct (laid_read _ _ _ _ _ _ _ _ _ L1) as (M1 & _ & X1 & _). destruct (laid_read _ _ _ _ _ _ _ _ _ L2) as (M2 & _ & X2 & _).
      assert (n' = n) as -> by (rewrite X1 in X2; lia).
      assert (u' = u) as -> by (rewrite M1 in M2; by destruct u, u').
      f_equal. apply (IH (c ++ [(n, u)])); by rewrite <- app_assoc.
Qed.

(** A block of the free list that is large enough is found. *)
Lemma first_fit_some a bs size fl b1 k b2 :
  nonneg bs -> fl ⊆ free_addrs a bs -> bs = b1 ++ (k, false) :: b2 -> a + total b1 ∈ fl -> size <= k ->
  is_Some (first_fit a bs size fl).
Proof.
  intros Hn Hfl -> Hin Hk. induction fl as [|x fl IH]; [by apply elem_of_nil in Hin|]. cbn [first_fit].
  assert (Hx : x ∈ free_addrs a (b1 ++ (k, false) :: b2)) by (apply Hfl; by left).
  destruct (free_block _ _ _ Hn Hx) as (n & En). rewrite En. cbn.
  destruct (Z.ltb_spec n size) as [Hlt|]; [|done]. apply IH; [set_solver|].
  apply elem_of_cons in Hin as [<-|]; [|done]. rewrite block_at_here in En by (by apply nonneg_app in Hn as [? _]).
  injection En as <-. lia.
Qed.

Section Room.
Context `{!SignalOps, !SystemHeap} (a0 P : Z).
#[local] Abbreviation h := addr_heap.
Context (Hh : 0 < h) (Ha0 : 0 < a0) (Hapart : h + 100 <= a0 \/ a0 + P <= h).
#[local] Instance room_spec : HeapSpec := memheap_spec a0 P Hh Ha0 Hapart.

(** One of the free blocks is that large. *)
Definition memheap_room (N : Z) (s : kstate) : Prop :=
  N < 48 \/ exists bs fl k, heap_at h a0 P s bs fl /\ (k, false) ∈ bs /\ N - 36 < k.

Lemma alloc_size_cost n : 0 <= n <= 2 ^ 32 - 4 -> alloc_size n <= n + 12.
Proof.
  intros Hs. unfold alloc_size. rewrite RT_ALIGN_eq, u32_small by lia. unfold RT_MEMHEAP_MINIALLOC.
  case_match; Z.to_euclidean_division_equations; lia.
Qed.

Lemma free_total_elem bs k : nonneg bs -> (k, false) ∈ bs -> k <= free_total bs.
Proof.
  intros Hn Hk. apply list_elem_of_split in Hk as (b1 & b2 & ->). apply nonneg_app in Hn as [H1' [_ H2']%nonneg_cons].
  rewrite free_total_app. cbn. pose proof (free_total_bounds _ H1'). pose proof (free_total_bounds _ H2'). lia.
Qed.

Lemma memheap_room_malloc B N s n :
  memheap_owns a0 P B s -> memheap_room N s -> 0 <= n -> block_cost n <= N ->
  exists a s', heap_malloc n s = Done (Some a) s' /\ memheap_room (N - block_cost n) s'.
Proof.
  unfold block_cost. intros _ [?|(bs & fl & k & HA & Hk & HN)] Hn Hc; [lia|].
  destruct (heap_at_nonneg a0 P _ _ _ HA) as [Hb Ht]. pose proof (free_total_elem _ _ Hb Hk) as Hf.
  pose proof HA as [_ (x & _ & HO) _ _]. pose proof (free_total_bounds _ Hb) as Hft.
  assert (HP : P <= 2 ^ 32) by (destruct (la_placed _ _ _ _ _ _ (ok_laid _ _ _ _ _ _ HO)) as [_ ? _ _ _]; lia).
  pose proof (alloc_size_cost n ltac:(lia)) as Hsz.
  destruct (heap_alloc_cases h a0 P s bs fl n HA) as [[ES _]|(b1 & j & b2 & l1 & l2 & r & -> & -> & Hj & Hr & HO' & Hx & _ & E)].
  - exfalso. unfold spec_alloc in ES. rewrite (proj2 (Z.ltb_lt _ _)) in ES by lia.
    apply list_elem_of_split in Hk as (b1 & b2 & ->).
    destruct (first_fit_some a0 (b1 ++ (k, false) :: b2) (alloc_size n) fl b1 k b2) as [[x1 n1] EF]; [done| |done| |lia|].
    + intros y Hy. by rewrite <- (ok_free _ _ _ _ _ _ HO).
    + rewrite (ok_free _ _ _ _ _ _ HO). by apply free_addrs_at.
    + rewrite EF in ES. injection ES as Ex _ _. apply first_fit_ok in EF as (l1 & l2 & u & -> & Eb & _).
      apply block_at_split in Eb as (c1 & c2 & Ec & ->). rewrite Ec in Hb. apply nonneg_app in Hb as [Hb _].
      pose proof (total_nonneg _ Hb). change RT_MEMHEAP_SIZE with 24 in Ex. lia.
  - destruct (alloc_size_ok n) as [Hz1 Hz2]. unfold RT_MEMHEAP_MINIALLOC in Hz1.
    destruct (heap_take_ok h a0 P _ _ _ _ _ _ (alloc_size n) HO') as [HV _]; [lia|apply alloc_size_ok|].
    set (y := a0 + total b1) in *. set (v := heap_take h (alloc_size n) y j (HState (heap_mem s) r)) in *.
    assert (HA' : heap_at h a0 P (heap_set h v s) (b1 ++ take_block (alloc_size n) j ++ b2)
      (take_free (alloc_size n) j y (l1 ++ l2))) by (eapply heap_set_at; [done..|by apply bytes_take, HA]).
    assert (Hne : (y + RT_MEMHEAP_SIZE =? 0) = false) by (change RT_MEMHEAP_SIZE with 24; clear -Hx; clearbody y; lia).
    exists (y + RT_MEMHEAP_SIZE), (heap_set h v s). split.
    { cbn [heap_malloc memheap_ops]. erewrite (bind_done _ _ s (y + RT_MEMHEAP_SIZE) (heap_set h v s)).
      2:{ unfold rt_malloc. erewrite bind_done by exact E. by rewrite Hne. }
      cbv beta. by rewrite Hne. }
    assert (HC : N - (n + 48) < 48 \/ exists k', (k', false) ∈ b1 ++ take_block (alloc_size n) j ++ b2 /\ N - (n + 48) - 36 < k').
    { rewrite elem_of_app, elem_of_cons in Hk. destruct Hk as [Hk|[[= ->]|Hk]].
      - right. exists k. split; [set_solver|lia].
      - unfold take_block. change RT_MEMHEAP_SIZE with 24. change RT_MEMHEAP_MINIALLOC with 12.
        destruct (Z.leb_spec (alloc_size n + 24 + 12) j) as [Hl|Hl]; [right|left; lia].
        exists (j - alloc_size n - 24). split; [set_solver|lia].
      - right. exists k. split; [set_solver|lia]. }
    destruct HC as [?|(k' & Hk' & HN')]; [by left|right]. by eexists _, _, k'.
Qed.

Lemma memheap_room_write B N s a n m :
  memheap_owns a0 P B s -> B !! a = Some n -> bytes m -> (forall x, in_range a n x = false -> m x = heap_mem s x) ->
  memheap_room N s -> memheap_room N (s <| heap_mem := m |>).
Proof.
  intros [_ (bs & fl & HA & ->)] Hl Hb Hm [?|(bs' & fl' & k & HA' & Hk & HN)]; [by left|right]. exists bs', fl', k.
  split; [|done]. destruct (heap_at_nonneg a0 P _ _ _ HA) as [Hn _]. pose proof HA' as [HT (x & Hx & HO) HK _].
  pose proof HA as [_ (x0 & Hx0 & HO0) _ _]. rewrite Hx in Hx0. injection Hx0 as <-.
  assert (bs' = bs) as -> by exact (laid_unique _ _ _ _ [] _ _ _ _ (ok_laid _ _ _ _ _ _ HO) (ok_laid _ _ _ _ _ _ HO0)).
  split; [done| |done|done]. exists x. split; [done|]. apply used_map_lookup, used_list_elem in Hl as (b1 & b2 & -> & ->); [|done].
  eapply heap_ok_write; [exact HO|apply block_at_here; by apply nonneg_app in Hn as [? _]|]. exact Hm.
Qed.

Lemma memheap_room_same N s s' : heap_same (memheap_private) s s' -> memheap_room N s -> memheap_room N s'.
Proof.
  intros HS [?|(bs & fl & k & HA & Hk & HN)]; [by left|right]. exists bs, fl, k. split; [|done].
  destruct HS as [E1 E2 E3 E4 E5 E6], HA as [HT HH (L1 & L2 & L3) HB]. split.
  - unfold typed. rewrite E3 by (by left). done.
  - by rewrite E1, E2.
  - split; [unfold typed; rewrite E3 by (by right); done|]. split; [rewrite E4 by (by right); done|].
    specialize (E5 (heap_lock h) (or_intror eq_refl)). unfold queue in E5. by rewrite E5.
  - by rewrite E1.
Qed.

#[export] Instance memheap_has_room : HeapRoom.
Proof.
  refine {| heap_room := memheap_room |}.
  - intros N N' s Hle [?|(bs & fl & k & HA & Hk & HN)]; [left; lia|right]. exists bs, fl, k. split; [done|]. split; [done|lia].
  - exact memheap_room_same.
  - exact memheap_room_write.
  - exact memheap_room_malloc.
Defined.
End Room.
