(* ===== verification/Timeouts.v ===== *)
(** Timed waiting: sleeping, the timeout of a thread, and the expiry of the
    timers of threads by [rt_timer_check]. *)
From S2P Require Export IpcWait.
Local Open Scope Z_scope.

(** [rt_schedule] in an interrupt: the switch is left pending. *)
Definition sched_only (s s' : kstate) : Prop :=
  s' = s <| threads := threads s' |> <| queues := queues s' |>
         <| ready_priority_group := ready_priority_group s' |>
         <| current_thread := current_thread s' |>
         <| rt_current_priority := rt_current_priority s' |>.

#[export] Instance sched_only_preorder : PreOrder sched_only.
Proof.
  split; [by intros []|]. unfold sched_only. intros s1 s2 s3 E1 E2. rewrite E2, E1. by destruct s1.
Qed.

Section Timeout.
Context `{!SignalOps}.

Lemma rt_schedule_isr s me :
  kok s -> current_thread s = Some me -> interrupt_nest s <> 0 ->
  exists s', rt_schedule s = Done tt s' /\ kok s' /\ sched_frame s s' /\ keeps_runnable s s' /\
    is_Some (current_thread s') /\ (dispatched s -> dispatched s') /\
    forall h, is_wait h = true -> queues s' !!! h = queues s !!! h.
Proof.
  intros HK Hc Hn. pose proof (ko_kinv _ HK) as HI.
  destruct (ci_cur _ _ _ _ _ HI me Hc) as [c Hme].
  destruct (may_schedule s c) eqn:E.
  - destruct (rt_schedule_yes s me c HI Hc Hme E)
      as (first & p & s' & (_ & Hh & _) & HI' & HF & Hc' & HQ & HS & Er).
    exists s'. split; [|split; [by apply (kok_sched s)|split; [done|split; [done|split; [by eexists|]]]]].
    + rewrite Er, (proj2 (Z.eqb_neq _ _) Hn). by rewrite andb_false_r.
    + assert (Hin : first ∈ queues s !!! QReady p).
      { unfold queue in Hh. destruct (queues s !!! QReady p); [done|]. injection Hh as ->. set_solver. }
      destruct (sched_next_runnable s me c first p HI Hme Hin) as (th & Hth & Hr). split.
      * intros _. by eapply (dispatched_sched s).
      * intros h Hw. by eapply (lists_from_wait s me).
  - exists s. rewrite (rt_schedule_no s) by (right; eauto).
    by split_and!.
Qed.

(** ** The timeout of a thread *)
Lemma wake_ok s t th :
  kok s -> threads s !! t = Some th -> stat_of th = RT_THREAD_SUSPEND ->
  thread_timer t ∉ timer_list s ->
  exists s1, (tlist_remove t;; rt_schedule_insert_thread t) s = Done tt s1 /\ kok s1 /\
    sched_only s s1 /\ current_thread s1 = current_thread s /\ woken t th s s1.
Proof.
  intros HK Hth Hst Hl.
  destruct (kinv_wake s t th (ko_kinv _ HK) Hth Hst) as [HI1 Hun].
  set (s1 := s <| queues ::= q_remove t |>) in *.
  assert (Hth1 : threads s1 !! t = Some th) by done.
  destruct (kinv_insert {[t]} t th s1 HI1 Hth1) as (s2 & E2 & HI2 & HC2 & HF2 & _ & v & Hv & HT2);
    [by rewrite Hst|done|].
  pose proof HF2 as [EF2 _].
  assert (Hw : woken t th s s2).
  { pose proof E2 as E3. rewrite (insert_thread_eq _ _ th _ HI1 Hth1) in E3 by (by rewrite Hst).
    unfold woken. change (current_thread s1) with (current_thread s) in E3.
    destruct (decide _); by injection E3 as <-. }
  assert (HO : sched_only s s2).
  { etrans; [|exact EF2]. by destruct s. }
  exists s2. split; [by erewrite bind_done by done|].
  split; [|split; [done|split; [by rewrite HC2|done]]].
  assert (Etm : timers s2 = timers s) by (by rewrite HO).
  apply (kok_frame s); [done| | | | |].
  - eapply kinv_ex_empty; [|exact HI2]. set_solver.
  - apply kframe_sched_data. assert (E : expired_list s2 = expired_list s) by (by rewrite HO).
    rewrite E. etrans; [exact HO|]. by destruct s.
  - intros u uh Hu. rewrite HT2 in Hu. simpl in Hu. destruct (decide (u = t)) as [->|Hne].
    + exists th. split; [done|]. by rewrite Hst.
    + rewrite lookup_insert_ne in Hu by done. eauto.
  - intros u. by apply thread_timer_ok_eq.
  - intros tm. rewrite HO. simpl. intros Hin. apply (timer_active_frame s);
      [by apply (ko_timers _ HK)|done|by rewrite HO|].
    intros u uh -> Hu Hs. exists uh. rewrite HT2. simpl.
    rewrite lookup_insert_ne by (by intros ->). done.
Qed.

Definition timed_out (th : rt_thread) : rt_thread := th <| error := - RT_ETIMEOUT |>.

Lemma thread_timeout_eq s t th :
  kok s -> threads s !! t = Some th -> stat_of th = RT_THREAD_SUSPEND ->
  thread_timer t ∉ timer_list s ->
  exists s1, rt_thread_timeout t s = rt_schedule s1 /\ kok s1 /\ sched_only s s1 /\
    current_thread s1 = current_thread s /\ woken t (timed_out th) s s1.
Proof.
  intros HK Hth Hst Hl. destruct (ko_live _ HK t th Hth) as (T1 & _ & _); [by rewrite Hst|].
  destruct (kok_set_thread s t th (timed_out th) HK Hth) as [HK0 F0]; [done..|].
  set (s0 := s <| threads ::= <[t := timed_out th]> |>) in *.
  assert (Hth0 : threads s0 !! t = Some (timed_out th)) by apply lookup_insert_eq.
  destruct (wake_ok s0 t (timed_out th) HK0 Hth0) as (s1 & E1 & HK1 & HO1 & HC1 & Hw); [done|done|].
  exists s1. split; [|split; [done|split; [|split; [done|]]]].
  - unfold rt_thread_timeout. erewrite bind_done by (by apply get_thread_eq). rewrite Hst.
    erewrite bind_done by done. erewrite bind_done by (by apply assert_type_eq).
    erewrite bind_done by (by apply mod_thread_eq). fold (timed_out th). fold s0.
    unfold tlist_remove in *. erewrite bind_done in E1 by done.
    erewrite bind_done by done. by erewrite bind_done by exact E1.
  - etrans; [|exact HO1]. by destruct s.
  - unfold woken in *. change (current_thread s0) with (current_thread s) in Hw.
    change (threads s0) with (<[t := timed_out th]> (threads s)) in Hw.
    change (queues s0) with (queues s) in Hw.
    destruct (decide _); by rewrite insert_insert_eq in Hw.
Qed.

(** The timeout of a waiting thread, run after its timer has left the list
    of active timers, takes the thread out of whatever list it waits in, leaves
    [-RT_ETIMEOUT] in its [error], which the interrupted call returns, makes
    it ready, and runs the scheduler; nothing else changes, and the invariant of
    the kernel is kept. *)
Theorem rt_thread_timeout_correct s t th :
  kok s -> threads s !! t = Some th -> stat_of th = RT_THREAD_SUSPEND ->
  thread_timer t ∉ timer_list s ->
  exists s1, rt_thread_timeout t s = rt_schedule s1 /\ kok s1 /\ sched_only s s1 /\
    current_thread s1 = current_thread s /\ woken t (timed_out th) s s1.
Proof. intros. by apply thread_timeout_eq. Qed.
End Timeout.

(** ** The expiry of the timers of threads *)

(** The function that the timer of a thread calls. *)
Class ThreadTimeout `{!SignalOps, !Callbacks} : Prop :=
  call_thread_timeout : forall t, call_timeout F_rt_thread_timeout t = rt_thread_timeout t.

(** The timers of threads are one-shot ([_thread_init]). *)
Definition one_shot (s : kstate) (tm : positive) : Prop :=
  exists o, objs s !! timer_ref tm = Some o /\ has_bits (o_flag o) RT_TIMER_FLAG_PERIODIC = false.

(** Thread [u] is not affected: it may only have lost or got the processor. *)
Definition unaffected (s s' : kstate) (u : tid) : Prop :=
  forall uh, threads s !! u = Some uh -> exists uh', threads s' !! u = Some uh' /\
    (uh' = uh \/ runnable uh /\ runnable uh' /\ same_signals uh uh').

(** From [s] to [s'] exactly the threads [due] have timed out. *)
Record expired (due : list tid) (rest : list positive) (s s' : kstate) : Prop := {
  ex_kok : kok s';
  ex_list : timer_list s' = rest;
  ex_none : expired_list s' = [];
  ex_timers : timers s' = timers s;
  ex_tick : rt_tick s' = rt_tick s;
  ex_frame : kframe s s';
  ex_dom : dom (threads s') = dom (threads s);
  ex_dispatched : dispatched s -> dispatched s';
  ex_cur : is_Some (current_thread s');
  ex_objs tm : tm ∉ thread_timer <$> due -> objs s' !! timer_ref tm = objs s !! timer_ref tm;
  ex_due t : t ∈ due -> exists th0 th, threads s !! t = Some th0 /\ threads s' !! t = Some th /\
    same_signals (timed_out th0) th /\ runnable th;
  ex_others t : t ∉ due -> unaffected s s' t;
  ex_queues h : is_wait h = true -> queues s' !!! h = filter (fun t => t ∉ due) (queues s !!! h) }.

Lemma unaffected_trans s1 s2 s3 u : unaffected s1 s2 u -> unaffected s2 s3 u -> unaffected s1 s3 u.
Proof.
  intros H1 H2 uh Hu. destruct (H1 uh Hu) as (u2 & Hu2 & R2). destruct (H2 u2 Hu2) as (u3 & Hu3 & R3).
  exists u3. split; [done|]. destruct R2 as [->|(?&?&E2)]; [done|].
  destruct R3 as [->|(?&?&E3)]; right; [done|]. split_and!; [done..|by etrans].
Qed.

Lemma unaffected_signals s s' u uh uh' :
  unaffected s s' u -> threads s !! u = Some uh -> threads s' !! u = Some uh' ->
  same_signals uh uh' /\ (runnable uh -> runnable uh').
Proof.
  intros H Hu Hu'. destruct (H uh Hu) as (v & Hv & R). simplify_eq.
  destruct R as [->|(_ & ? & ?)]; by split.
Qed.

Lemma timed_out_signals x y : same_signals x y -> same_signals (timed_out x) (timed_out y).
Proof. intros [E1 E2]. split; [|done]. exact (f_equal timed_out E1). Qed.

Lemma timed_out_error x y : same_signals (timed_out x) y -> error y = - RT_ETIMEOUT.
Proof. intros [E _]. exact (f_equal error E). Qed.

Lemma sched_unaffected s s' u : keeps_runnable s s' -> unaffected s s' u.
Proof.
  intros HS uh Hu. destruct (HS u uh Hu) as (u' & Hu' & R). exists u'. split; [done|].
  destruct R as [->|(?&?&?)]; [by left|by right].
Qed.

Section Expiry.
Context `{!SignalOps, !Callbacks, !ThreadTimeout}.

(** The state in which the timeout function is called. *)
Definition expiring (tm : positive) (o : rt_object) (s : kstate) : kstate :=
  timer_off tm o s <| expired_list ::= (fun l => tm :: l) |>.

Lemma kframe_expired s f : kframe s (s <| expired_list ::= f |>).
Proof. apply kframe_sched_data. by destruct s. Qed.

Lemma expiring_kok tm o s : kok s -> objs s !! timer_ref tm = Some o -> kok (expiring tm o s).
Proof.
  intros HK Ho. apply (kok_frame s _ HK); [eapply kinv_same_data; [exact (ko_kinv _ HK)|done..]| |by eauto|by auto|].
  - etrans; [by apply timer_off_frame|]. apply kframe_expired.
  - intros tm'. simpl. intros [Hne Hin]%list_elem_of_filter.
    apply (timer_active_frame s); [by apply (ko_timers _ HK)|done| |by eauto].
    simpl. by rewrite lookup_insert_ne by (by intros [= ?]).
Qed.

(** The steps of one round on the timer of [t]: [s2] after the timeout of the
    thread, [s3] after the scheduling. *)
Lemma timer_expire_run t l s :
  kok s -> is_Some (current_thread s) -> interrupt_nest s <> 0 ->
  timer_list s = thread_timer t :: l -> NoDup (timer_list s) -> expired_list s = [] ->
  one_shot s (thread_timer t) ->
  exists th o s2 s3, threads s !! t = Some th /\ objs s !! timer_ref (thread_timer t) = Some o /\
    kok (expiring (thread_timer t) o s) /\
    woken t (timed_out th) (expiring (thread_timer t) o s) s2 /\
    sched_only (expiring (thread_timer t) o s) s2 /\ current_thread s2 = current_thread s /\
    stat_of th = RT_THREAD_SUSPEND /\
    kok s3 /\ sched_frame s2 s3 /\ keeps_runnable s2 s3 /\ is_Some (current_thread s3) /\
    (dispatched s2 -> dispatched s3) /\
    (forall h, is_wait h = true -> queues s3 !!! h = queues s2 !!! h) /\
    timer_list s3 = l /\ expired_list s3 = [thread_timer t] /\
    timer_expire (thread_timer t) s = Done tt (s3 <| timer_list ::= filter (fun x => x <> thread_timer t) |>
                <| expired_list ::= filter (fun x => x <> thread_timer t) |>).
Proof.
  intros HK [me Hc] Hn El Hd Ee (o & Ho & Hp).
  assert (Hin : thread_timer t ∈ timer_list s) by (rewrite El; set_solver).
  destruct (ko_timers _ HK _ Hin) as (_ & _ & Hs). destruct (Hs t eq_refl) as (th & Hth & Hst).
  destruct (ko_live _ HK t th Hth) as (_ & _ & (x & Hx & Hf & Hpar)); [by rewrite Hst|].
  set (tm := thread_timer t) in *. set (s1 := expiring tm o s).
  assert (HK1 : kok s1) by (by apply expiring_kok).
  rewrite El in Hd. apply NoDup_cons in Hd as [Hd _].
  assert (Hl1 : timer_list s1 = l).
  { simpl. rewrite El, filter_cons, decide_False by tauto. by apply filter_alone. }
  destruct (thread_timeout_eq s1 t th HK1 Hth Hst) as (s2 & E2 & HK2 & HO2 & HC2 & Hw2); [by rewrite Hl1|].
  destruct (rt_schedule_isr s2 me HK2) as (s3 & E3 & HK3 & HF3 & HS3 & Hc3 & HD3 & HQ3);
    [by rewrite HC2|by rewrite HO2|].
  pose proof HF3 as [EF3 _].
  assert (Hee : expired_list s3 = [tm]) by (rewrite EF3, HO2; simpl; by rewrite Ee).
  assert (Ho3 : exists o3, objs s3 !! timer_ref tm = Some o3 /\
      has_bits (o_flag o3) RT_TIMER_FLAG_PERIODIC = false).
  { rewrite EF3, HO2. eexists. split; [exact (lookup_insert_eq _ _ _)|].
    rewrite <- Hp. apply activated_periodic. }
  destruct Ho3 as (o3 & Ho3 & Hp3).
  assert (Hl3 : timer_list s3 = l) by (by rewrite EF3, HO2, <- Hl1).
  exists th, o, s2, s3. do 15 (split; [done|]).
  pose proof (timer_off_eq tm o s Ho) as E. unfold timer_remove in *. erewrite bind_done in E by done.
  unfold timer_expire, timer_remove. erewrite bind_done by (by apply get_timer_eq).
  erewrite bind_done by done.
  match goal with |- (get_obj _ ≫= _) ?sa = _ =>
    erewrite bind_done by exact (get_obj_eq sa (timer_ref tm) o Ho) end.
  rewrite Hp. cbn [negb when]. erewrite bind_done by exact E.
  erewrite bind_done by done. fold (expiring tm o s). fold s1. rewrite Hf, Hpar, call_thread_timeout.
  erewrite bind_done by exact (eq_trans E2 E3). rewrite bind_gets, Hee.
  rewrite bool_decide_false by done. erewrite bind_done by done.
  match goal with |- (get_obj _ ≫= _) ?sa = _ =>
    erewrite bind_done by exact (get_obj_eq sa (timer_ref tm) o3 Ho3) end. by rewrite Hp3.
Qed.

Lemma woken_put t th s s' :
  woken t th s s' -> exists v, (v = RT_THREAD_READY \/ v = RT_THREAD_RUNNING) /\
    threads s' = <[t := put_stat v th]> (threads s).
Proof. unfold woken. destruct (decide _); intros [-> _]; eauto. Qed.

(** Waking a thread up leaves the running one running. *)
Lemma woken_dispatched t th s s' :
  woken t th s s' -> current_thread s' = current_thread s -> is_Some (threads s !! t) ->
  dispatched s -> dispatched s'.
Proof.
  intros Hw Hc Ht (u & uh & Hcu & Hu & Hs). unfold woken in Hw.
  destruct (decide _) as [Ec|Ec]; destruct Hw as [ET _].
  - exists t, (put_stat RT_THREAD_RUNNING th). split; [congruence|].
    rewrite ET, lookup_insert_eq. split; [done|by apply stat_of_put_stat].
  - exists u, uh. split; [congruence|]. split; [|done]. rewrite ET, lookup_insert_ne; [done|congruence].
Qed.

Lemma timer_expire_thread t l s :
  kok s -> is_Some (current_thread s) -> interrupt_nest s <> 0 ->
  timer_list s = thread_timer t :: l -> NoDup (timer_list s) -> expired_list s = [] ->
  one_shot s (thread_timer t) ->
  exists s', timer_expire (thread_timer t) s = Done tt s' /\ expired [t] l s s'.
Proof.
  intros HK Hc Hn El Hd Ee Hone.
  destruct (timer_expire_run t l s HK Hc Hn El Hd Ee Hone)
    as (th & o & s2 & s3 & Hth & Ho & HK1 & Hw & HO2 & HC2 & Hst & HK3 & HF3 & HS3 & Hc3 & HD3 & HQ3 & Hl3 & He3 & E).
  eexists. split; [exact E|]. set (tm := thread_timer t) in *. set (s1 := expiring tm o s) in *.
  match goal with |- expired _ _ _ ?s' => set (s4 := s') in * end. pose proof HF3 as [EF3 _].
  assert (Hfin : timer_list s4 = l).
  { simpl. rewrite Hl3. apply filter_alone. rewrite El in Hd. by apply NoDup_cons in Hd as [? _]. }
  destruct (woken_put t (timed_out th) s1 s2 Hw) as (v & Hv & HT2). change (threads s1) with (threads s) in HT2.
  assert (HD : dom (threads s2) = dom (threads s)).
  { rewrite HT2, dom_insert_L. apply elem_of_dom_2 in Hth. set_solver. }
  split; try done.
  - eapply kok_ext; [exact HK3|done..|]. by rewrite Hfin, Hl3.
  - simpl. rewrite He3, filter_cons, decide_False by tauto. done.
  - simpl. by rewrite EF3, HO2.
  - simpl. by rewrite EF3, HO2.
  - etrans; [by apply (timer_off_frame tm o)|]. etrans; [apply (kframe_expired _ (fun l => tm :: l))|].
    fold (expiring tm o s). fold s1. etrans; [|etrans; [by apply sched_kframe|]].
    + apply kframe_sched_data. assert (Ex : expired_list s2 = expired_list s1) by (by rewrite HO2).
      rewrite Ex. etrans; [exact HO2|]. by destruct s1.
    + split; [by destruct s3|done|done|done|apply clock_data_filter].
  - simpl. by rewrite (sched_dom _ _ HF3).
  - intros HDs. apply HD3. by apply (woken_dispatched t (timed_out th) s1 s2).
  - intros tm' Hn'. simpl. rewrite EF3, HO2. simpl.
    rewrite lookup_insert_ne by (intros [= <-]; apply Hn'; set_solver). done.
  - intros t' ->%list_elem_of_singleton.
    assert (Ht2 : threads s2 !! t = Some (put_stat v (timed_out th))) by (rewrite HT2; apply lookup_insert_eq).
    destruct (HS3 _ _ Ht2) as (th3 & Ht3 & Hr3). exists th, th3. do 2 (split; [done|]).
    assert (Hsame : same_signals (timed_out th) (put_stat v (timed_out th))).
    { apply same_signals_put_stat. destruct Hv as [-> | ->]; done. }
    destruct Hr3 as [->|(_ & ? & ?)]; [split; [done|by apply runnable_put_stat]|].
    split; [by etrans|done].
  - intros u Hu. apply (unaffected_trans s s2); [|by apply (sched_unaffected s2 s3)].
    intros uh Huh. exists uh. rewrite HT2, lookup_insert_ne by set_solver. split; [done|by left].
  - intros h Hh. simpl. rewrite HQ3 by done.
    rewrite (woken_wait_queues s1 s2 t (timed_out th) h (ko_kinv _ HK1) Hw Hh).
    apply list_filter_iff. intros u. set_solver.
Qed.
Lemma expired_refl s :
  kok s -> is_Some (current_thread s) -> expired_list s = [] -> expired [] (timer_list s) s s.
Proof.
  intros HK Hc He. split; try done; [by intros t ?%elem_of_nil|..].
  - intros t _ uh Hu. eauto.
  - intros h _. symmetry. induction (queues s !!! h) as [|u l IH]; [done|].
    rewrite filter_cons, decide_True by set_solver. by rewrite IH.
Qed.

Lemma expired_cons t due l rest s s1 s2 :
  t ∉ due -> expired [t] l s s1 -> expired due rest s1 s2 -> expired (t :: due) rest s s2.
Proof.
  intros Hn [] []. split; try done; try congruence.
  - by etrans.
  - auto.
  - intros tm Htm. rewrite ex_objs1 by set_solver. apply ex_objs0. set_solver.
  - intros u Hu. destruct (decide (u = t)) as [->|Hne].
    + destruct (ex_due0 t) as (th0 & th & Hth0 & Hth & He & Hr); [set_solver|].
      destruct (ex_others1 t Hn th Hth) as (th' & Hth' & R). exists th0, th'. do 2 (split; [done|]).
      destruct R as [->|(_ & ? & E)]; [done|]. split; [by etrans|done].
    + destruct (ex_due1 u) as (th1 & th2 & Hth1 & Hth2 & Hs & Hr); [set_solver|].
      assert (is_Some (threads s !! u)) as [th0 Hth0].
      { apply elem_of_dom. rewrite <- ex_dom0. by apply elem_of_dom_2 in Hth1. }
      destruct (unaffected_signals s s1 u th0 th1) as [Hs0 _]; [apply ex_others0; set_solver|done..|].
      exists th0, th2. do 2 (split; [done|]). split; [|done]. etrans; [by apply timed_out_signals|done].
  - intros u Hu. apply (unaffected_trans s s1); [apply ex_others0|apply ex_others1]; set_solver.
  - intros h Hh. rewrite ex_queues1, ex_queues0, list_filter_filter by done.
    apply list_filter_iff. intros u. set_solver.
Qed.

(** Whether the timer is due, as [rt_timer_check] tests it. *)
Definition due_now (s : kstate) (tm : positive) : Prop :=
  exists x, timers s !! tm = Some x /\ u32 (rt_tick s - timeout_tick x) < RT_TICK_MAX / 2.
Definition later (s : kstate) (tm : positive) : Prop :=
  exists x, timers s !! tm = Some x /\ RT_TICK_MAX / 2 <= u32 (rt_tick s - timeout_tick x).

Lemma timer_check_loop_threads due rest fuel s :
  kok s -> is_Some (current_thread s) -> interrupt_nest s <> 0 -> expired_list s = [] ->
  timer_list s = (thread_timer <$> due) ++ rest -> NoDup (timer_list s) ->
  Forall (one_shot s) (thread_timer <$> due) -> Forall (due_now s) (thread_timer <$> due) ->
  Forall (later s) rest -> (length due <= fuel)%nat ->
  exists s', timer_check_loop fuel (rt_tick s) s = Done tt s' /\ expired due rest s s'.
Proof.
  revert fuel s. induction due as [|t due IH]; intros fuel s HK Hc Hn He El Hd Ho Hdue Hr Hf.
  - exists s. simpl in El. split; [|rewrite <- El; by apply expired_refl].
    destruct fuel as [|fuel]; simpl; rewrite bind_gets, El; (destruct rest as [|tm rest]; [done|]);
      apply Forall_cons in Hr as [(x & Hx & Hl) _];
      (erewrite bind_done by (by apply get_timer_eq)); by rewrite (proj2 (Z.ltb_ge _ _) Hl).
  - rewrite fmap_cons in *. apply Forall_cons in Ho as [Ho1 Ho]. apply Forall_cons in Hdue as [(x & Hx & Hl) Hdue].
    destruct fuel as [|fuel]; [simpl in Hf; lia|]. cbn [app] in El.
    destruct (timer_expire_thread t ((thread_timer <$> due) ++ rest) s HK Hc Hn El Hd He Ho1)
      as (s1 & E1 & X1).
    assert (Hnt : (t ∉ due) /\ NoDup (timer_list s1)).
    { rewrite (ex_list _ _ _ _ X1). rewrite El in Hd. apply NoDup_cons in Hd as [Hd ?]. split; [|done].
      intros Hin. apply Hd, elem_of_app. left. by apply list_elem_of_fmap_2. }
    destruct Hnt as [Hnt Hd1].
    assert (Etick : rt_tick s1 = rt_tick s) by apply X1.
    assert (Etm : timers s1 = timers s) by apply X1.
    destruct (IH fuel s1) as (s2 & E2 & X2).
    1,2: apply X1.
    + by rewrite (kf_nest _ _ (ex_frame _ _ _ _ X1)).
    + apply X1.
    + apply X1.
    + done.
    + apply Forall_forall. intros tm Htm. rewrite Forall_forall in Ho. unfold one_shot.
      rewrite (ex_objs _ _ _ _ X1); [by apply Ho|]. intros [->|Hx']%elem_of_cons; [|by apply elem_of_nil in Hx'].
      rewrite El in Hd. apply NoDup_cons in Hd as [Hd _]. apply Hd, elem_of_app. by left.
    + unfold due_now. by rewrite Etick, Etm.
    + unfold later. by rewrite Etick, Etm.
    + simpl in Hf. lia.
    + exists s2. split; [|by eapply expired_cons].
      cbn [timer_check_loop]. rewrite bind_gets, El.
      erewrite bind_done by (by apply get_timer_eq). rewrite (proj2 (Z.ltb_lt _ _) Hl).
      erewrite bind_done by exact E1. unfold rt_tick_get. by rewrite bind_gets.
Qed.
Lemma due_now_eq s b tm x :
  timers s !! tm = Some x -> in_window b (timeout_tick x) -> in_window b (rt_tick s) ->
  (deadline (timers s) b tm <= ticks_from b (rt_tick s) <-> due_now s tm) /\
  (ticks_from b (rt_tick s) < deadline (timers s) b tm <-> later s tm).
Proof.
  intros Hx. unfold deadline, due_now, later. rewrite Hx.
  unfold in_window, ticks_from, RT_TICK_MAX, u32, wrap.
  change (2 ^ 32) with 4294967296. change (0xffffffff / 2) with 2147483647. intros Y1 Y2.
  set (now := rt_tick s) in *. set (t := timeout_tick x) in *.
  assert (E : (now - t) mod 4294967296 =
    ((now - b) mod 4294967296 - (t - b) mod 4294967296) mod 4294967296).
  { rewrite <- Zminus_mod. f_equal. lia. }
  pose proof (Z.mod_pos_bound (now - b) 4294967296 ltac:(lia)).
  pose proof (Z.mod_pos_bound (t - b) 4294967296 ltac:(lia)).
  set (p := (now - b) mod 4294967296) in *. set (q := (t - b) mod 4294967296) in *.
  assert (E' : (now - t) mod 4294967296 = if q <=? p then p - q else p - q + 4294967296).
  { rewrite E. destruct (Z.leb_spec q p); [apply Z.mod_small; lia|].
    rewrite <- (Z.mod_add (p - q) 1), Z.mod_small by lia. lia. }
  split; split.
  - intros Hle. exists x. split; [done|]. fold t. rewrite E'. destruct (Z.leb_spec q p); lia.
  - intros (y & [= <-] & Hlt). fold t in Hlt. rewrite E' in Hlt. destruct (Z.leb_spec q p); lia.
  - intros Hle. exists x. split; [done|]. fold t. rewrite E'. destruct (Z.leb_spec q p); lia.
  - intros (y & [= <-] & Hlt). fold t in Hlt. rewrite E' in Hlt. destruct (Z.leb_spec q p); lia.
Qed.

Lemma timer_check_ok b s fuel :
  kok s -> is_Some (current_thread s) -> interrupt_nest s <> 0 ->
  timers_ok (timers s) b (timer_list s) -> in_window b (rt_tick s) ->
  (forall tm, tm ∈ timer_list s -> deadline (timers s) b tm <= ticks_from b (rt_tick s) ->
     one_shot s tm /\ exists t, tm = thread_timer t) ->
  (length (timer_list s) <= fuel)%nat ->
  exists due rest s', rt_timer_check fuel s = Done tt s' /\ expired due rest s s' /\
    timer_list s = (thread_timer <$> due) ++ rest /\
    Forall (fun tm => ticks_from b (rt_tick s) < deadline (timers s) b tm) rest /\
    (forall t, t ∈ due <-> thread_timer t ∈ timer_list s /\
       deadline (timers s) b (thread_timer t) <= ticks_from b (rt_tick s)).
Proof.
  intros HK Hc Hn Hok Hw Hth Hf.
  destruct (timer_split_eq (timers s) b (rt_tick s) (timer_list s) Hok Hw) as (l & rest & _ & El & Hl & Hr).
  assert (Harm : forall tm, tm ∈ timer_list s -> exists x, timers s !! tm = Some x /\ in_window b (timeout_tick x)).
  { intros tm Htm. exact (proj1 (Forall_forall _ _) (to_armed _ _ _ Hok) tm Htm). }
  assert (Hdue : exists due, l = thread_timer <$> due).
  { assert (Hl' : Forall (fun tm => exists t, tm = thread_timer t) l).
    { apply Forall_forall. intros tm Htm. rewrite Forall_forall in Hl.
      apply (Hth tm); [rewrite El; set_solver|by apply Hl]. }
    clear -Hl'. induction Hl' as [|tm l [t ->] _ [due ->]]; [by exists []|by exists (t :: due)]. }
  destruct Hdue as [due ->].
  set (s0 := s <| expired_list := [] |>).
  assert (HK0 : kok s0) by (by eapply kok_ext).
  pose proof Hr as Hlater. rewrite Forall_forall in Hl. rewrite Forall_forall in Hr.
  destruct (timer_check_loop_threads due rest fuel s0 HK0) as (s' & E & Hex); try done.
  - apply Hok.
  - apply Forall_forall. intros tm Htm. apply (Hth tm); [rewrite El; set_solver|by apply Hl].
  - apply Forall_forall. intros tm Htm. destruct (Harm tm) as (x & Hx & Hw'); [rewrite El; set_solver|].
    by apply (due_now_eq s0 b tm x Hx Hw' Hw), Hl.
  - apply Forall_forall. intros tm Htm. destruct (Harm tm) as (x & Hx & Hw'); [rewrite El; set_solver|].
    by apply (due_now_eq s0 b tm x Hx Hw' Hw), Hr.
  - rewrite El, length_app, length_fmap in Hf. lia.
  - exists due, rest, s'. split; [|split; [|split; [done|split; [exact Hlater|]]]].
    + unfold rt_timer_check. by erewrite bind_done by done.
    + assert (F0 : kframe s s0) by apply kframe_expired.
      destruct Hex. split; try done. by etrans.
    + intros t. split.
      * intros Ht. assert (thread_timer t ∈ thread_timer <$> due) by (by apply list_elem_of_fmap_2).
        split; [rewrite El; set_solver|by apply Hl].
      * intros [Hin Hle]. rewrite El, elem_of_app in Hin. destruct Hin as [Hin|Hin].
        -- by apply (list_elem_of_fmap_inj thread_timer).
        -- specialize (Hr _ Hin). simpl in Hr. lia.
Qed.

(** C34. [rt_timer_check], in the tick interrupt, with the list of active timers
    sorted from some tick [b] on and the due ones being timers of threads:
    exactly the threads whose deadline has been reached time out, all of them
    in one call, whatever the wrap-around of the ticks. They leave the lists
    they wait in and are ready or running, with the error [-RT_ETIMEOUT] and no
    other change; the other threads keep everything but the processor, the other
    timers stay active and in order, and so do the other waiting threads. One
    round per active timer is fuel enough. *)
Theorem rt_timer_check_correct b s fuel :
  kok s -> is_Some (current_thread s) -> interrupt_nest s <> 0 ->
  timers_ok (timers s) b (timer_list s) -> in_window b (rt_tick s) ->
  (forall tm, tm ∈ timer_list s -> deadline (timers s) b tm <= ticks_from b (rt_tick s) ->
     one_shot s tm /\ exists t, tm = thread_timer t) ->
  (length (timer_list s) <= fuel)%nat ->
  exists due rest s', rt_timer_check fuel s = Done tt s' /\ expired due rest s s' /\
    timer_list s = (thread_timer <$> due) ++ rest /\
    (forall t, t ∈ due <-> thread_timer t ∈ timer_list s /\
       deadline (timers s) b (thread_timer t) <= ticks_from b (rt_tick s)).
Proof.
  intros. destruct (timer_check_ok b s fuel) as (due & rest & s' & E & Hex & El & _ & Hdue); try done.
  by exists due, rest, s'.
Qed.
End Expiry.

(** ** Sleeping *)
Section Sleep.
Context `{!SignalOps}.

Lemma suspend_timer_blocks s me th time :
  may_block s me th -> 0 <= time < RT_TICK_MAX / 2 ->
  exists s1 s2 s3, rt_thread_suspend me s = Done RT_EOK s1 /\
    start_thread_timer me time s1 = Done tt s2 /\
    blocks me (rt_schedule s2) s3 (fun _ s4 => Done tt s4) /\
    kok s3 /\ kframe s s3 /\ unlinked me (queues s3) /\
    threads s3 !! me = Some (put_stat RT_THREAD_SUSPEND th) /\
    wakes_at me (u32 (rt_tick s + time)) s3 /\
    (forall h, is_wait h = true -> queues s3 !!! h = queues s !!! h) /\
    others (s <| threads ::= <[me := put_stat RT_THREAD_SUSPEND th]> |>) s3.
Proof.
  intros [HK Hc Hth Hst Hp Hn Hl (p & u & Hu)] Ht.
  destruct (rt_thread_suspend_ok s me th HK Hc Hth Hst)
    as (s1 & E1 & HK1 & F1 & Hc1 & Hun1 & HT1 & HQ1 & _).
  set (th1 := put_stat RT_THREAD_SUSPEND th) in *.
  assert (Hth1 : threads s1 !! me = Some th1) by (rewrite HT1; apply lookup_insert_eq).
  assert (Hst1 : stat_of th1 = RT_THREAD_SUSPEND) by (by apply stat_of_put_stat).
  destruct (start_thread_timer_ok s1 me th1 time HK1 Hth1 Hst1 Ht)
    as (s2 & E2 & HK2 & F2 & HT2 & HQ2 & HC2 & HG2 & HW2).
  assert (F12 : kframe s s2) by (by etrans).
  destruct (rt_schedule_blocks s2 me th1 HK2) as (s3 & HB & HK3 & HF3 & Hth3 & HQ3 & HO3).
  { congruence. } { by rewrite HT2. } { done. } { done. }
  { by rewrite (kf_nest _ _ F12). } { by rewrite (kf_lock _ _ F12). }
  { eapply (ready_group _ p u (ko_kinv _ HK2)). by rewrite HQ2, HQ1. }
  exists s1, s2, s3. split_and!; try done.
  - etrans; [exact F12|]. by apply sched_kframe.
  - intros h Hin. pose proof (linked_stat _ _ _ _ _ _ _ _ (ko_kinv _ HK3) Hin Hth3) as E.
    rewrite Hst1 in E. assert (is_wait h = true) as Hh by (by destruct h).
    rewrite HQ3, HQ2 in Hin by done. by apply (Hun1 h).
  - destruct HW2 as (Hin & x & Hx & Htk). destruct HF3 as [EF _].
    unfold wakes_at. rewrite EF. simpl. split; [done|]. exists x. split; [done|].
    by rewrite Htk, (kf_tick _ _ F1).
  - intros h Hh. by rewrite HQ3, HQ2, HQ1.
  - eapply others_eq; [|exact HO3]. by rewrite HT2, HT1.
Qed.

(** Sleeping, with what becomes of the other threads. *)
Lemma sleep_blocks s me th tick :
  may_block s me th -> 0 <= tick < RT_TICK_MAX / 2 ->
  exists s', kok s' /\ kframe s s' /\ unlinked me (queues s') /\
    threads s' !! me = Some (put_stat RT_THREAD_SUSPEND th) /\
    wakes_at me (u32 (rt_tick s + tick)) s' /\
    (forall h, is_wait h = true -> queues s' !!! h = queues s !!! h) /\
    others (s <| threads ::= <[me := put_stat RT_THREAD_SUSPEND th]> |>) s' /\
    blocks me (rt_thread_sleep tick s) s' (fun th2 s2 =>
      Done RT_EOK (if error th2 =? - RT_ETIMEOUT then no_error me th2 s2 else s2)).
Proof.
  intros Hm Ht. destruct (suspend_timer_blocks s me th tick Hm Ht)
    as (s1 & s2 & s3 & E1 & E2 & (k & E3 & Hc & Hk) & HK & F & Hun & Hth & Hw & HQ & HO).
  destruct Hm as [HK0 Hc0 Hth0 Hst0 _ _ _ _].
  exists s3. split_and!; try done.
  destruct (ko_live _ HK0 me th Hth0) as (T1 & _ & _); [by rewrite Hst0|].
  unfold rt_thread_sleep. erewrite bind_done by (by apply self_eq).
  erewrite bind_done by (by apply assert_type_eq). erewrite bind_done by exact E1.
  erewrite bind_done by exact E2. unfold mbind at 1, prog_bind at 1. rewrite E3. cbn [outcome_bind].
  eexists. split; [done|]. split; [done|]. intros s4 th4 Hc4 Hth4 Hp4. cbn beta.
  rewrite (Hk _ _ Hc4 Hth4 Hp4). cbn [outcome_bind]. unfold forget_timeout.
  assert (E : forall B (f : rt_thread -> prog kstate B), (get_thread me ≫= f) s4 = f th4 s4).
  { intros B f. by erewrite bind_done by (by apply get_thread_eq). }
  unfold mbind at 1, prog_bind at 1. rewrite E. destruct (error th4 =? - RT_ETIMEOUT); [|done].
  cbn [when]. by rewrite (mod_thread_eq _ _ _ _ Hth4).
Qed.

(** [rt_thread_sleep] suspends the caller, in no list, with its timer set to
    [tick] ticks from now (modulo 2^32) and nothing else changed, gives the
    processor to another thread, and returns [RT_EOK] when the thread is
    resumed; the error of a timeout is erased. *)
Theorem rt_thread_sleep_correct s me th tick :
  may_block s me th -> 0 <= tick < RT_TICK_MAX / 2 ->
  exists s', kok s' /\ kframe s s' /\ unlinked me (queues s') /\
    threads s' !! me = Some (put_stat RT_THREAD_SUSPEND th) /\
    wakes_at me (u32 (rt_tick s + tick)) s' /\
    blocks me (rt_thread_sleep tick s) s' (fun th2 s2 =>
      Done RT_EOK (if error th2 =? - RT_ETIMEOUT then no_error me th2 s2 else s2)).
Proof.
  intros Hm Ht. destruct (sleep_blocks s me th tick Hm Ht)
    as (s' & HK & F & Hun & Hth & Hw & _ & _ & HB). by exists s'.
Qed.
End Sleep.

(** ** Examples *)
#[local] Existing Instance no_signals.
#[local] Instance timeout_callbacks : Callbacks :=
  {| call_timeout f t := match f with F_rt_thread_timeout => rt_thread_timeout t | _ => fault end;
     call_cleanup _ _ := fault |}.
#[local] Instance timeout_callbacks_ok : ThreadTimeout.
Proof. by intros t. Qed.

Lemma rt_thread_timeout_correct_witness :
  exists s1, rt_thread_timeout 2 (kstate_waiting (QSuspend (sem_ref 1))) = rt_schedule s1 /\
    threads s1 !! 2%positive = Some (put_stat RT_THREAD_READY (timed_out (thread0 RT_THREAD_SUSPEND 5))).
Proof.
  destruct (rt_thread_timeout_correct (kstate_waiting (QSuspend (sem_ref 1))) 2%positive
    (thread0 RT_THREAD_SUSPEND 5)) as (s1 & E & _ & _ & _ & Hw).
  - by apply kstate_waiting_kok.
  - done.
  - done.
  - apply not_elem_of_nil.
  - exists s1. split; [exact E|]. destruct Hw as [-> _]. apply lookup_insert_eq.
Defined.

Lemma rt_thread_sleep_correct_witness :
  exists s', blocks 1%positive (rt_thread_sleep 50 (kstate_ready <| rt_tick := 0xfffffff0 |>)) s'
      (fun th2 s2 => Done RT_EOK (if error th2 =? - RT_ETIMEOUT then no_error 1%positive th2 s2 else s2)) /\
    wakes_at 1%positive 34 s'.
Proof.
  destruct (rt_thread_sleep_correct (kstate_ready <| rt_tick := 0xfffffff0 |>) 1%positive
    (thread0 RT_THREAD_RUNNING 10) 50) as (s' & _ & _ & _ & _ & Hw & HB).
  - destruct kstate_ready_may_block. split; try done. by eapply kok_ext.
  - by vm_compute.
  - exists s'. split; [exact HB|exact Hw].
Defined.

(** Thread 2 waits for a semaphore until tick 34; a timer is to fire at tick 60. *)
Definition kstate_late : kstate :=
  kstate_waiting (QSuspend (sem_ref 1))
    <| objs ::= <[timer_ref (thread_timer 2) := header RT_Object_Class_Timer RT_TIMER_FLAG_ACTIVATED]> |>
    <| objs ::= <[timer_ref (app_timer 1) := header RT_Object_Class_Timer 3]> |>
    <| timers ::= <[thread_timer 2 := RtTimer F_rt_thread_timeout 2 50 34]> |>
    <| timers ::= <[app_timer 1 := RtTimer (F_user 1) 1 60 60]> |>
    <| timer_list := [thread_timer 2; app_timer 1] |> <| rt_tick := 35 |> <| interrupt_nest := 1 |>.

Lemma kstate_late_kok : kok kstate_late.
Proof.
  pose proof (kstate_waiting_kok (QSuspend (sem_ref 1)) eq_refl) as HK.
  split.
  - by eapply kinv_same_data; [apply HK|..].
  - intros t th Ht _.
    change ((<[1%positive := thread0 RT_THREAD_RUNNING 10]>
              {[2%positive := thread0 RT_THREAD_SUSPEND 5]} : gmap tid rt_thread) !! t = Some th) in Ht.
    apply lookup_insert_Some in Ht as [[<- <-]|[_ [<- <-]%lookup_singleton_Some]];
      (split; [by eexists|split; by eexists]).
  - intros tm [->|[->|[]%elem_of_nil]%elem_of_cons]%elem_of_cons.
    + split; [by eexists|]. split; [by eexists|]. intros t [= <-]. by eexists.
    + split; [by eexists|]. split; [by eexists|]. by intros t [=].
Qed.

Lemma rt_timer_check_correct_witness :
  exists s', rt_timer_check 2 kstate_late = Done tt s' /\ timer_list s' = [app_timer 1] /\
    exists th, threads s' !! 2%positive = Some th /\ error th = - RT_ETIMEOUT.
Proof.
  destruct (rt_timer_check_correct 10 kstate_late 2) as (due & rest & s' & E & Hex & El & Hdue).
  - apply kstate_late_kok.
  - by eexists.
  - done.
  - split.
    + by apply (bool_decide_unpack (NoDup _)); vm_compute.
    + repeat constructor; eexists; (split; [done|by vm_compute]).
    + repeat constructor; by vm_compute.
  - by vm_compute.
  - intros tm [->|[->|[]%elem_of_nil]%elem_of_cons]%elem_of_cons; [|by vm_compute].
    intros _. split; [by eexists|by eexists].
  - done.
  - assert (H2 : 2%positive ∈ due) by (apply Hdue; split; [left|by vm_compute]).
    exists s'. split; [exact E|]. split.
    + rewrite (ex_list _ _ _ _ Hex). destruct due as [|t due]; [by apply elem_of_nil in H2|].
      injection El as <- El. destruct due as [|t due]; [done|]. by injection El.
    + destruct (ex_due _ _ _ _ Hex 2%positive H2) as (th0 & th & _ & ? & Hs & _).
      exists th. split; [done|]. exact (timed_out_error _ _ Hs).
Defined.
