(* ===== verification/Mutex.v ===== *)
(** Mutexes with priority inheritance: rt-thread/src/ipc.c.

    [rt_thread_control] gets the address of a field as its [int] argument
    (thread.c declares [arg] as an [int] and stores it): the two addresses are
    those of [Layout]. *)
From S2P Require Export Ipc.
Local Open Scope Z_scope.

Definition mutex_ref (x : positive) : ref := (KMutex, x).
Definition get_mutex (x : positive) : K rt_mutex := s ← get; deref (mutexes s !! x).
Definition mod_mutex (x : positive) (f : rt_mutex -> rt_mutex) : K unit :=
  m ← get_mutex x; modify (fun s => s <| mutexes ::= <[x := f m]> |>).

Section Mutex.
Context `{!SignalOps, !Callbacks, !HeapOps, !Layout}.

Definition rt_mutex_init (x : positive) (name : list Z) (flag : Z) : K Z :=
  rt_object_init (mutex_ref x) RT_Object_Class_Mutex name;;
  ipc_object_init (mutex_ref x);;
  modify (fun s => s <| mutexes ::= <[x := RtMutex 1 0xff 0 None]> |>);;
  set_flag (mutex_ref x) RT_IPC_FLAG_PRIO;;
  mret RT_EOK.

Definition rt_mutex_detach (x : positive) : K Z :=
  assert_type (mutex_ref x) RT_Object_Class_Mutex;;
  assert_static (mutex_ref x);;
  ipc_list_resume_all (QSuspend (mutex_ref x));;
  rt_object_detach (mutex_ref x);;
  mret RT_EOK.

Definition rt_mutex_create (name : list Z) (flag : Z) : K (option positive) :=
  RT_DEBUG_NOT_IN_INTERRUPT;;
  p ← rt_object_allocate RT_Object_Class_Mutex name;
  match p with
  | None => mret None
  | Some a =>
      let x := Z.to_pos a in
      ipc_object_init (mutex_ref x);;
      modify (fun s => s <| mutexes ::= <[x := RtMutex 1 0xff 0 None]> |>);;
      set_flag (mutex_ref x) RT_IPC_FLAG_PRIO;;
      mret (Some x)
  end.

Definition rt_mutex_delete (x : positive) : K Z :=
  assert_type (mutex_ref x) RT_Object_Class_Mutex;;
  assert_dynamic (mutex_ref x);;
  RT_DEBUG_NOT_IN_INTERRUPT;;
  ipc_list_resume_all (QSuspend (mutex_ref x));;
  rt_object_delete (mutex_ref x);;
  mret RT_EOK.

(** [mutex->hold ++] up to its maximum. *)
Definition mutex_hold (x : positive) : K Z :=
  m ← get_mutex x;
  if hold m <? RT_MUTEX_HOLD_MAX
  then mod_mutex x (fun m => m <| hold := u8 (hold m + 1) |>);; mret RT_EOK
  else mret (- RT_EFULL).

(** Lending the priority of [me] to the owner. *)
Definition mutex_inherit (x : positive) (me : tid) : K unit :=
  m ← get_mutex x;
  o ← deref (owner m);
  oh ← get_thread o;
  th ← get_thread me;
  when (current_priority th <? current_priority oh)
    (rt_thread_control o RT_THREAD_CTRL_CHANGE_PRIORITY (addr_current_priority me);; mret tt).

(** From the label [__again]; [fuel] bounds the wake-ups by a signal. *)
Fixpoint mutex_again (fuel : nat) (x : positive) (me : tid) (time : Z) : K Z :=
  m ← get_mutex x;
  th ← get_thread me;
  if 0 <? mx_value m then
    mod_mutex x (fun m => m <| mx_value := u16 (mx_value m - 1) |> <| owner := Some me |>
                            <| original_priority := current_priority th |>);;
    mutex_hold x
  else if time =? 0 then
    mod_thread me (fun th => th <| error := - RT_ETIMEOUT |>);;
    mret (- RT_ETIMEOUT)
  else
    mutex_inherit x me;;
    o ← get_obj (mutex_ref x);
    ipc_list_suspend (QSuspend (mutex_ref x)) me (o_flag o);;
    when (0 <? time) (start_thread_timer me time);;
    e ← wait_result me;
    if e =? RT_EOK then mret RT_EOK
    else if e =? - RT_EINTR then
      match fuel with O => fault | S fuel => mutex_again fuel x me time end
    else mret e.

Definition rt_mutex_take (fuel : nat) (x : positive) (time : Z) : K Z :=
  RT_DEBUG_IN_THREAD_CONTEXT;;
  assert_type (mutex_ref x) RT_Object_Class_Mutex;;
  me ← self;
  mod_thread me (fun th => th <| error := RT_EOK |>);;
  m ← get_mutex x;
  if bool_decide (owner m = Some me) then mutex_hold x
  else mutex_again fuel x me time.

Definition rt_mutex_trytake (x : positive) : K Z := rt_mutex_take 0 x RT_WAITING_NO.

(** Giving the inherited priority back. *)
Definition mutex_restore (x : positive) : K unit :=
  m ← get_mutex x;
  o ← deref (owner m);
  oh ← get_thread o;
  when (negb (original_priority m =? current_priority oh))
    (rt_thread_control o RT_THREAD_CTRL_CHANGE_PRIORITY (addr_original_priority x);; mret tt).

Definition rt_mutex_release (x : positive) : K Z :=
  assert_type (mutex_ref x) RT_Object_Class_Mutex;;
  RT_DEBUG_IN_THREAD_CONTEXT;;
  me ← self;
  m ← get_mutex x;
  if negb (bool_decide (owner m = Some me)) then
    mod_thread me (fun th => th <| error := - RT_ERROR |>);;
    mret (- RT_ERROR)
  else
    mod_mutex x (fun m => m <| hold := u8 (hold m - 1) |>);;
    m ← get_mutex x;
    if hold m =? 0 then
      mutex_restore x;;
      l ← gets (fun s => queue s (QSuspend (mutex_ref x)));
      match l with
      | t :: _ =>
          th ← get_thread t;
          mod_mutex x (fun m => m <| owner := Some t |>
                                  <| original_priority := current_priority th |>);;
          e ← mutex_hold x;
          if e =? RT_EOK then
            ipc_list_resume (QSuspend (mutex_ref x));;
            rt_schedule;;
            mret RT_EOK
          else mret e
      | [] =>
          m ← get_mutex x;
          if mx_value m <? RT_MUTEX_VALUE_MAX then
            mod_mutex x (fun m => m <| mx_value := u16 (mx_value m + 1) |> <| owner := None |>
                                    <| original_priority := 0xff |>);;
            mret RT_EOK
          else mret (- RT_EFULL)
      end
    else mret RT_EOK.

Definition rt_mutex_control (x : positive) (cmd : Z) : K Z :=
  assert_type (mutex_ref x) RT_Object_Class_Mutex;;
  mret (- RT_ERROR).
End Mutex.
