(* ===== verification/MutexThm.v ===== *)
(** Mutexes refine locks that are free or held by a thread. *)
From S2P Require Export Mutex IpcWait.
Local Open Scope Z_scope.

(** ** The abstract mutex *)
Inductive mutex_spec :=
| MFree
| MHeld (holder : tid) (holds : Z) (prio : Z) (waiting : list tid).

(** Taking by [me], of priority [p]: the result, or none when [me] has to wait. *)
Definition spec_mutex_take (me : tid) (p : Z) (a : mutex_spec) : mutex_spec * option Z :=
  match a with
  | MFree => (MHeld me 1 p [], Some RT_EOK)
  | MHeld o n p' q =>
      if decide (o = me) then
        if n <? RT_MUTEX_HOLD_MAX then (MHeld me (n + 1) p' q, Some RT_EOK) else (a, Some (- RT_EFULL))
      else (a, None)
  end.

(** Releasing by [me]; [prio] gives the priorities of the waiting threads. The
    second component is the thread that becomes the holder. *)
Definition spec_mutex_release (me : tid) (prio : tid -> Z) (a : mutex_spec) :
    mutex_spec * option tid * Z :=
  match a with
  | MFree => (a, None, - RT_ERROR)
  | MHeld o n p q =>
      if decide (o = me) then
        if n =? 1 then
          match q with
          | [] => (MFree, None, RT_EOK)
          | t :: q => (MHeld t 1 (prio t) q, Some t, RT_EOK)
          end
        else (MHeld o (n - 1) p q, None, RT_EOK)
      else (a, None, - RT_ERROR)
  end.

(** ** The mutex of the kernel *)
Definition mutex_is (s : kstate) (x : positive) (a : mutex_spec) : Prop :=
  typed s (mutex_ref x) RT_Object_Class_Mutex /\
  match a with
  | MFree => (exists p, mutexes s !! x = Some (RtMutex 1 p 0 None)) /\
      queues s !!! QSuspend (mutex_ref x) = []
  | MHeld o n p q => mutexes s !! x = Some (RtMutex 0 p n (Some o)) /\
      1 <= n <= RT_MUTEX_HOLD_MAX /\ queues s !!! QSuspend (mutex_ref x) = q
  end.

Definition mutex_set (x : positive) (m : rt_mutex) (s : kstate) : kstate :=
  s <| mutexes ::= <[x := m]> |>.

Lemma mutex_set_ok x m s : kok s -> kok (mutex_set x m s).
Proof. intros HK. by eapply kok_ext. Qed.

Lemma mutex_set_set x m m' s : mutex_set x m' (mutex_set x m s) = mutex_set x m' s.
Proof. destruct s. unfold mutex_set, upd, F_mutexes. simpl. by rewrite insert_insert_eq. Qed.

Section Mutex.
Context `{!SignalOps, !Callbacks, !HeapOps, !Layout}.

Lemma get_mutex_eq s x m : mutexes s !! x = Some m -> get_mutex x s = Done m s.
Proof. intros E. unfold get_mutex, get, mbind, prog_bind. simpl. by rewrite E. Qed.
Lemma mod_mutex_eq s x m f :
  mutexes s !! x = Some m -> mod_mutex x f s = Done tt (mutex_set x (f m) s).
Proof. intros E. unfold mod_mutex. by erewrite bind_done by (by apply get_mutex_eq). Qed.

Lemma mutex_hold_eq s x m :
  mutexes s !! x = Some m -> 0 <= hold m ->
  mutex_hold x s =
    if hold m <? RT_MUTEX_HOLD_MAX
    then Done RT_EOK (mutex_set x (m <| hold := hold m + 1 |>) s) else Done (- RT_EFULL) s.
Proof.
  intros E H0'. unfold mutex_hold. erewrite bind_done by (by apply get_mutex_eq).
  destruct (Z.ltb_spec (hold m) RT_MUTEX_HOLD_MAX) as [Hlt|]; [|done].
  erewrite bind_done by (by apply mod_mutex_eq). unfold u8, wrap, RT_MUTEX_HOLD_MAX in *.
  by rewrite Z.mod_small by lia.
Qed.

Lemma mutex_take_start fuel x time s me th m :
  thread_context s me th -> typed s (mutex_ref x) RT_Object_Class_Mutex ->
  mutexes s !! x = Some m ->
  rt_mutex_take fuel x time s =
    (if bool_decide (owner m = Some me) then mutex_hold x else mutex_again fuel x me time)
      (no_error me th s).
Proof.
  intros [HK Hc Hth Hn] Ht Hm. unfold rt_mutex_take.
  erewrite bind_done by (by eapply in_thread_context_eq).
  erewrite bind_done by (by apply assert_type_eq). erewrite bind_done by (by apply self_eq).
  erewrite bind_done by (by apply mod_thread_eq). fold (no_error me th s).
  by erewrite bind_done by exact (get_mutex_eq (no_error me th s) x m Hm).
Qed.

(** What a thread that waited for a mutex does with the error it finds. *)
Definition mutex_wait_end (fuel : nat) (x : positive) (me : tid) (time : Z) (e : Z) : K Z :=
  if e =? RT_EOK then mret RT_EOK
  else if e =? - RT_EINTR then
    match fuel with O => fault | S fuel => mutex_again fuel x me time end
  else mret e.

Lemma mutex_again_block fuel x me time s th o oh n p q oo :
  current_thread s = Some me -> threads s !! me = Some th -> threads s !! o = Some oh ->
  mutexes s !! x = Some (RtMutex 0 p n (Some o)) -> queues s !!! QSuspend (mutex_ref x) = q ->
  objs s !! mutex_ref x = Some oo -> time <> 0 -> current_priority oh <= current_priority th ->
  mutex_again fuel x me time s =
    block_then (QSuspend (mutex_ref x)) me (o_flag oo) time (mutex_wait_end fuel x me time) s.
Proof.
  intros Hc Hth Hoh Hm Hq Hoo Ht Hp.
  assert (E : mutex_inherit x me s = Done tt s).
  { unfold mutex_inherit. erewrite bind_done by (by apply get_mutex_eq).
    erewrite bind_done by done. erewrite bind_done by (by apply get_thread_eq).
    erewrite bind_done by (by apply get_thread_eq). by rewrite (proj2 (Z.ltb_ge _ _) Hp). }
  destruct fuel; cbn [mutex_again]; (erewrite bind_done by (by apply get_mutex_eq));
    (erewrite bind_done by (by apply get_thread_eq)); cbn [mx_value];
    change (0 <? 0) with false; rewrite (proj2 (Z.eqb_neq time 0)) by done; cbn iota;
    (erewrite bind_done by exact E); by (erewrite bind_done by (by apply get_obj_eq)).
Qed.

(** Taking a free mutex. *)
Lemma mutex_take_free fuel s x p me th time :
  thread_context s me th -> typed s (mutex_ref x) RT_Object_Class_Mutex ->
  mutexes s !! x = Some (RtMutex 1 p 0 None) ->
  rt_mutex_take fuel x time s =
    Done RT_EOK (mutex_set x (RtMutex 0 (current_priority th) 1 (Some me)) (no_error me th s)).
Proof.
  intros HC Ht Hm. destruct (no_error_context s me th HC) as [HC0 _].
  set (s0 := no_error me th s) in *. set (th0 := th <| error := RT_EOK |>) in *.
  rewrite (mutex_take_start fuel x time s me th _ HC Ht Hm). fold s0. cbn [owner].
  rewrite bool_decide_false by done.
  assert (Hm0 : mutexes s0 !! x = Some (RtMutex 1 p 0 None)) by done.
  assert (Hth0 : threads s0 !! me = Some th0) by apply HC0.
  destruct fuel; cbn [mutex_again]; (erewrite bind_done by (by apply get_mutex_eq));
    (erewrite bind_done by (by apply get_thread_eq)); cbn [mx_value]; change (0 <? 1) with true; cbn iota;
    (erewrite bind_done by (by apply mod_mutex_eq));
    (erewrite mutex_hold_eq by (exact (lookup_insert_eq _ _ _) || done)); by rewrite mutex_set_set.
Qed.

(** C10. [rt_mutex_take] by a thread: a free mutex becomes held once by the
    caller, which records its priority; the holder takes it again, counting up
    to 255 ([-RT_EFULL] beyond, with no effect). When another thread holds it
    the call fails with [-RT_ETIMEOUT] if the caller does not wait, and
    otherwise, the holder having at least the caller's priority, suspends
    the caller on the mutex with a timer for a positive [time]; resumed without
    an error it returns [RT_EOK] without touching the mutex, which the releasing
    thread has passed to it. The invariant of the kernel is kept, and nothing
    but the caller's [error] and the mutex changes in the calls that return. *)
Theorem rt_mutex_take_refines fuel s x a me th time :
  thread_context s me th -> mutex_is s x a ->
  match spec_mutex_take me (current_priority th) a with
  | (a', Some e) => exists s', rt_mutex_take fuel x time s = Done e s' /\ kok s' /\
      mutex_is s' x a' /\ s' = no_error me th s <| mutexes := mutexes s' |>
  | (_, None) => forall o n p q, a = MHeld o n p q ->
      if time =? 0 then exists s', rt_mutex_take fuel x time s = Done (- RT_ETIMEOUT) s' /\
        kok s' /\ mutex_is s' x a /\ s' = s <| threads ::= <[me := th <| error := - RT_ETIMEOUT |>]> |>
      else forall oh oo, may_block s me th -> threads s !! o = Some oh ->
        current_priority oh <= current_priority th ->
        objs s !! mutex_ref x = Some oo -> valid_flag (o_flag oo) = true -> time < RT_TICK_MAX / 2 ->
        exists s', blocks me (rt_mutex_take fuel x time s) s'
            (fun th2 s2 => mutex_wait_end fuel x me time (error th2) s2) /\
          blocked (no_error me th s) s' me (th <| error := RT_EOK |>)
            (QSuspend (mutex_ref x)) (o_flag oo) time /\
          mutex_is s' x (MHeld o n p
            (wait_insert (o_flag oo) (threads s) (current_priority th) me q))
  end.
Proof.
  intros HC [Ht Hx]. destruct (no_error_context s me th HC) as [HC0 F0].
  set (s0 := no_error me th s) in *. set (th0 := th <| error := RT_EOK |>) in *.
  assert (HK0 : kok s0) by apply HC0.
  destruct a as [|o n p q]; cbn [spec_mutex_take].
  - destruct Hx as [[p Hm] Hq].
    exists (mutex_set x (RtMutex 0 (current_priority th) 1 (Some me)) s0).
    split; [|split; [by apply mutex_set_ok|split; [|by destruct s]]].
    + by apply (mutex_take_free fuel s x p).
    + split; [done|]. split; [apply lookup_insert_eq|]. split; [by vm_compute|done].
  - destruct Hx as (Hm & Hn & Hq). destruct (decide (o = me)) as [->|Hne].
    + pose proof (mutex_take_start fuel x time s me th _ HC Ht Hm) as E. cbn [owner] in E.
      rewrite bool_decide_true in E by done. fold s0 in E.
      rewrite (mutex_hold_eq s0 x _ Hm) in E by (cbn [hold]; lia). cbn [hold] in E.
      destruct (Z.ltb_spec n RT_MUTEX_HOLD_MAX) as [Hlt|Hge].
      * eexists. split; [exact E|]. split; [by apply mutex_set_ok|]. split; [|by destruct s].
        split; [done|]. split; [apply lookup_insert_eq|]. split; [lia|done].
      * exists s0. split; [exact E|]. split; [done|]. split; [by split|by destruct s].
    + intros o' n' p' q' [= <- <- <- <-].
      assert (E : rt_mutex_take fuel x time s = mutex_again fuel x me time s0).
      { rewrite (mutex_take_start fuel x time s me th _ HC Ht Hm). cbn [owner].
        by rewrite bool_decide_false by congruence. }
      assert (Hth0 : threads s0 !! me = Some th0) by apply HC0.
      destruct (Z.eqb_spec time 0) as [->|Hnz].
      * destruct HC as [HK Hc Hth Hi].
        destruct (kok_set_thread s me th (th <| error := - RT_ETIMEOUT |>) HK Hth) as [HK1 F1]; [done..|].
        eexists. split; [|split; [exact HK1|split; [by split|done]]].
        rewrite E. assert (Hm0 : mutexes s0 !! x = Some (RtMutex 0 p n (Some o))) by done.
        destruct fuel; cbn [mutex_again]; (erewrite bind_done by exact (get_mutex_eq _ _ _ Hm0));
          (erewrite bind_done by (by apply get_thread_eq)); cbn [mx_value]; change (0 <? 0) with false;
          change (0 =? 0) with true; cbn iota; (erewrite bind_done by (by apply mod_thread_eq));
          exact (f_equal (Done (- RT_ETIMEOUT)) (no_error_put s me th _)).
      * intros oh oo HM Hoh Hp Hoo Hfl Htm. destruct (no_error_ok s me th HM) as [HM0 _].
        assert (E2 : mutex_again fuel x me time s0 =
          block_then (QSuspend (mutex_ref x)) me (o_flag oo) time (mutex_wait_end fuel x me time) s0).
        { apply (mutex_again_block fuel x me time s0 th0 o oh n p q oo); try done; [apply HC0|].
          simpl. by rewrite lookup_insert_ne. }
        destruct (block_then_ok s0 me th0 (QSuspend (mutex_ref x)) (o_flag oo) time
          (mutex_wait_end fuel x me time) HM0) as (s' & HB & Hb); [done..|].
        exists s'. rewrite E, E2. split; [exact HB|]. split; [exact Hb|].
        destruct Hb as [HK' F' _ HQ' _ _]. split; [by apply (kf_typed _ _ F')|]. split; [|split; [done|]].
        -- by rewrite (kf_mutexes _ _ F').
        -- rewrite HQ' by done. rewrite decide_True by done.
           change (queues s0) with (queues s). rewrite Hq. apply wait_insert_no_error. apply HC.
Qed.

Lemma mutex_restore_none s x n p me th :
  mutexes s !! x = Some (RtMutex 0 p n (Some me)) -> threads s !! me = Some th ->
  p = current_priority th -> mutex_restore x s = Done tt s.
Proof.
  intros Hm Hth ->. unfold mutex_restore. erewrite bind_done by (by apply get_mutex_eq).
  erewrite bind_done by done. erewrite bind_done by (by apply get_thread_eq).
  cbn [original_priority]. by rewrite Z.eqb_refl.
Qed.

(** The start of a release by the holder. *)
Lemma mutex_release_start s x n p me th :
  thread_context s me th -> mutex_is s x (MHeld me n p (queues s !!! QSuspend (mutex_ref x))) ->
  rt_mutex_release x s =
    (if n =? 1 then
       mutex_restore x;;
       l ← gets (fun s => queue s (QSuspend (mutex_ref x)));
       match l with
       | t :: _ =>
           th ← get_thread t;
           mod_mutex x (fun m => m <| owner := Some t |> <| original_priority := current_priority th |>);;
           e ← mutex_hold x;
           if e =? RT_EOK then ipc_list_resume (QSuspend (mutex_ref x));; rt_schedule;; mret RT_EOK
           else mret e
       | [] =>
           m ← get_mutex x;
           if mx_value m <? RT_MUTEX_VALUE_MAX then
             mod_mutex x (fun m => m <| mx_value := u16 (mx_value m + 1) |> <| owner := None |>
                                     <| original_priority := 0xff |>);;
             mret RT_EOK
           else mret (- RT_EFULL)
       end
     else mret RT_EOK) (mutex_set x (RtMutex 0 p (n - 1) (Some me)) s).
Proof.
  intros [HK Hc Hth Hi] (Ht & Hm & Hn & _). unfold rt_mutex_release.
  erewrite bind_done by (by apply assert_type_eq).
  erewrite bind_done by (by eapply in_thread_context_eq). erewrite bind_done by (by apply self_eq).
  erewrite bind_done by (by apply get_mutex_eq). cbn [owner]. rewrite bool_decide_true by done.
  cbn [negb].
  assert (E : u8 (n - 1) = n - 1).
  { unfold u8, wrap, RT_MUTEX_HOLD_MAX in *. apply Z.mod_small. lia. }
  set (s1 := mutex_set x (RtMutex 0 p (n - 1) (Some me)) s).
  assert (E1 : mod_mutex x (fun m => m <| hold := u8 (hold m - 1) |>) s = Done tt s1).
  { unfold s1. rewrite <- E. exact (mod_mutex_eq s x _ _ Hm). }
  erewrite bind_done by exact E1.
  erewrite bind_done by (apply get_mutex_eq; exact (lookup_insert_eq _ _ _)). cbn [hold].
  by assert ((n - 1 =? 0) = (n =? 1)) as -> by lia.
Qed.

(** Releasing a mutex that is held once and that nobody waits for. *)
Lemma mutex_release_alone s x me th :
  thread_context s me th -> mutex_is s x (MHeld me 1 (current_priority th) []) ->
  rt_mutex_release x s = Done RT_EOK (mutex_set x (RtMutex 1 0xff 0 None) s).
Proof.
  intros HC Hx. pose proof Hx as (_ & _ & _ & Hq).
  rewrite (mutex_release_start s x 1 (current_priority th) me th HC) by (by rewrite Hq).
  change (1 =? 1) with true. cbv iota. set (s1 := mutex_set x _ s).
  assert (Hm1 : mutexes s1 !! x = Some (RtMutex 0 (current_priority th) 0 (Some me))) by apply lookup_insert_eq.
  erewrite bind_done by (eapply (mutex_restore_none s1); [exact Hm1|apply HC|done]).
  rewrite bind_gets. unfold queue. change (queues s1) with (queues s). rewrite Hq.
  erewrite bind_done by exact (get_mutex_eq s1 _ _ Hm1). cbn [mx_value].
  change (0 <? RT_MUTEX_VALUE_MAX) with true. cbv iota.
  erewrite bind_done by exact (mod_mutex_eq s1 x _ _ Hm1). unfold s1. by rewrite mutex_set_set.
Qed.

(** C11. [rt_mutex_release] by a thread that does not hold the mutex fails with
    [-RT_ERROR], left in its [error]. The holder gives up one of its holds; with
    the last one, its priority being the one recorded, the mutex gets free
    when no thread waits, and otherwise passes to the first waiting thread,
    held once, with that thread's priority recorded, before that thread gets
    ready and the scheduler runs. So the mutex has one holder at any time. The
    invariant of the kernel is kept. *)
Theorem rt_mutex_release_refines s x a me th :
  thread_context s me th -> mutex_is s x a ->
  (forall p q, a = MHeld me 1 p q -> p = current_priority th) ->
  let prio t := from_option current_priority 0 (threads s !! t) in
  exists s1, kok s1 /\ mutex_is s1 x (fst (fst (spec_mutex_release me prio a))) /\
    match snd (fst (spec_mutex_release me prio a)) with
    | Some t => exists uh, threads s !! t = Some uh /\ stat_of uh = RT_THREAD_SUSPEND /\ woken t uh s s1 /\
        rt_mutex_release x s = (rt_schedule;; mret (snd (spec_mutex_release me prio a))) s1
    | None => rt_mutex_release x s = Done (snd (spec_mutex_release me prio a)) s1 /\
        s1 = s <| mutexes := mutexes s1 |> <| threads := threads s1 |>
    end.
Proof.
  intros HC Hx Hprio prio. pose proof HC as [HK Hc Hth Hi].
  assert (Hno : (forall n p q, a <> MHeld me n p q) ->
    rt_mutex_release x s = Done (- RT_ERROR) (s <| threads ::= <[me := th <| error := - RT_ERROR |>]> |>)).
  { intros Hne. destruct Hx as [Ht Hm]. unfold rt_mutex_release.
    erewrite bind_done by (by apply assert_type_eq).
    erewrite bind_done by (by eapply in_thread_context_eq). erewrite bind_done by (by apply self_eq).
    destruct a as [|o n p q]; [destruct Hm as [[p Hm] _]|destruct Hm as [Hm _]];
      (erewrite bind_done by (by apply get_mutex_eq)); cbn [owner];
      rewrite bool_decide_false by (try done; intros [= ->]; by apply (Hne n p q));
      cbn [negb]; by (erewrite bind_done by (by apply mod_thread_eq)). }
  destruct (kok_set_thread s me th (th <| error := - RT_ERROR |>) HK Hth) as [HKe _]; [done..|].
  destruct a as [|o n p q]; cbn [spec_mutex_release fst snd].
  { eexists. split; [exact HKe|]. split; [exact Hx|]. split; [by apply Hno|by destruct s]. }
  destruct (decide (o = me)) as [->|Hne]; cbn [fst snd]; [clear Hno|
    eexists; split; [exact HKe|]; split; [exact Hx|]; split; [apply Hno; congruence|by destruct s]].
  pose proof Hx as (Ht & Hm & Hn & Hq). set (s1 := mutex_set x (RtMutex 0 p (n - 1) (Some me)) s).
  assert (HK1 : kok s1) by (by apply mutex_set_ok).
  rewrite (mutex_release_start s x n p me th HC) by (by rewrite Hq). fold s1.
  destruct (Z.eqb_spec n 1) as [->|Hn1]; cbn [fst snd].
  2:{ exists s1. split; [done|]. split; [|split; [done|by destruct s]].
      split; [done|]. split; [apply lookup_insert_eq|]. split; [lia|done]. }
  assert (Hm1 : mutexes s1 !! x = Some (RtMutex 0 p 0 (Some me))) by apply lookup_insert_eq.
  erewrite bind_done by (by eapply mutex_restore_none; [done|done|by eapply Hprio]).
  rewrite bind_gets. unfold queue. change (queues s1) with (queues s). rewrite Hq.
  destruct q as [|t q]; cbn [fst snd].
  - eexists. split; [|split; [|split]].
    3:{ erewrite bind_done by (by apply get_mutex_eq). cbn [mx_value]. change (0 <? RT_MUTEX_VALUE_MAX) with true.
        cbn iota. by erewrite bind_done by (by apply mod_mutex_eq). }
    + by apply mutex_set_ok.
    + split; [done|]. split; [|done]. exists 0xff. apply lookup_insert_eq.
    + by destruct s.
  - destruct (ci_wait _ _ _ _ _ (ko_kinv _ HK) (QSuspend (mutex_ref x)) t eq_refl) as (uh & Hu & Hus);
      [rewrite Hq; set_solver|].
    set (s3 := mutex_set x (RtMutex 0 (current_priority uh) 1 (Some t)) s).
    assert (HK3 : kok s3) by (by apply mutex_set_ok).
    destruct (ipc_list_resume_ok s3 (QSuspend (mutex_ref x)) t q HK3 eq_refl Hq)
      as (uh' & s4 & Hu' & _ & E4 & HK4 & F4 & _ & Hw & HQ4).
    assert (uh' = uh) as -> by (change (threads s3) with (threads s) in Hu'; congruence).
    exists s4. split; [done|]. split.
    + split; [by apply (kf_typed _ _ F4)|]. rewrite (kf_mutexes _ _ F4). unfold prio. rewrite Hu.
      split; [apply lookup_insert_eq|]. split; [by vm_compute|]. by rewrite HQ4, decide_True.
    + exists uh. split; [done|]. split; [done|]. split; [exact Hw|].
      assert (Hu1 : threads s1 !! t = Some uh) by done.
      erewrite bind_done by exact (get_thread_eq _ _ _ Hu1).
      erewrite bind_done by exact (mod_mutex_eq s1 x _ _ Hm1).
      assert (Eh : mutex_hold x (mutex_set x (RtMutex 0 (current_priority uh) 0 (Some t)) s1) = Done RT_EOK s3).
      { erewrite mutex_hold_eq; [|exact (lookup_insert_eq _ _ _)|done]. cbn [hold].
        change (0 <? RT_MUTEX_HOLD_MAX) with true. unfold s1. by rewrite !mutex_set_set. }
      erewrite bind_done by exact Eh. change (RT_EOK =? RT_EOK) with true. cbn iota.
      by erewrite bind_done by exact E4.
Qed.

(** Changing the priority of a thread that is not ready. *)
Lemma change_priority_eq s t th arg :
  threads s !! t = Some th -> stat_of th <> RT_THREAD_READY ->
  change_priority t arg s =
    if in_priority_table (u8 arg)
    then Done tt (s <| threads ::= <[t := th <| current_priority := u8 arg |>]> |>
                    <| threads ::= <[t := th <| current_priority := u8 arg |> <| number_mask := 2 ^ u8 arg |>]> |>)
    else Fault.
Proof.
  intros Hth Hs. unfold change_priority. erewrite bind_done by (by apply get_thread_eq).
  rewrite (proj2 (Z.eqb_neq _ _) Hs). erewrite bind_done by (by apply mod_thread_eq).
  unfold priority_mask. destruct (in_priority_table (u8 arg)); [|done].
  erewrite bind_done by done. by erewrite mod_thread_eq by exact (lookup_insert_eq _ _ _).
Qed.

(** Changing the priority of a ready thread: it goes to the end of the list of
    the new priority. *)
Lemma change_priority_ready s t th arg :
  threads s !! t = Some th -> stat_of th = RT_THREAD_READY -> current_thread s <> Some t ->
  in_priority_table (current_priority th) = true ->
  let p := u8 arg in
  if in_priority_table p
  then exists s', change_priority t arg s = Done tt s' /\
    threads s' = <[t := put_stat RT_THREAD_READY (th <| current_priority := p |> <| number_mask := 2 ^ p |>)]> (threads s) /\
    queues s' = q_push_back (QReady p) t (q_remove t (queues s))
  else change_priority t arg s = Fault.
Proof.
  intros Hth Hs Hc Ht p. unfold change_priority. rewrite (bind_done _ _ _ _ _ (get_thread_eq _ _ _ Hth)), Hs.
  change (RT_THREAD_READY =? RT_THREAD_READY) with true. cbv iota.
  assert (HR : exists g, rt_schedule_remove_thread t s = Done tt (s <| queues ::= q_remove t |> <| ready_priority_group := g |>)).
  { unfold rt_schedule_remove_thread. erewrite bind_done by (by apply get_thread_eq). erewrite bind_done by reflexivity.
    erewrite bind_done by (unfold rt_assert; by rewrite Ht). erewrite bind_done by reflexivity.
    case_bool_decide; eexists; [reflexivity|]. by destruct s. }
  destruct HR as [g E1]. set (s1 := s <| queues ::= q_remove t |> <| ready_priority_group := g |>) in *.
  rewrite (bind_done _ _ _ _ _ E1). assert (Hth1 : threads s1 !! t = Some th) by done.
  rewrite (bind_done _ _ _ _ _ (mod_thread_eq _ _ _ _ Hth1)). fold p. unfold priority_mask.
  destruct (in_priority_table p) eqn:Ep; [|done]. erewrite bind_done by done.
  erewrite bind_done by (apply mod_thread_eq, lookup_insert_eq).
  unfold rt_schedule_insert_thread. erewrite bind_done by reflexivity. cbn [current_thread].
  rewrite bool_decide_eq_false_2 by done.
  erewrite bind_done by (apply mod_thread_eq, lookup_insert_eq). erewrite bind_done by (apply get_thread_eq, lookup_insert_eq).
  change (current_priority (put_stat _ _)) with p. erewrite bind_done by (unfold rt_assert; by rewrite Ep).
  erewrite bind_done by reflexivity. eexists. split; [reflexivity|]. split; [|done]. cbn. by rewrite !insert_insert_eq.
Qed.

(** C40. Priority inheritance goes wrong: when a thread of a better priority
    waits for a mutex, the holder does not get that
    priority but the low byte of the address of the field that holds it
    ([rt_thread_control] takes an [int] and is given a pointer), whatever the
    two priorities are; and unless that byte is below 32 the shift
    [1 << priority] that follows is undefined. A holder that is ready, and not
    the current thread, is moved to the end of the ready list of that wrong priority; a
    holder in another state stays in its lists. *)
Theorem mutex_inherit_address s x m me th o oh :
  mutexes s !! x = Some m -> owner m = Some o -> threads s !! me = Some th ->
  threads s !! o = Some oh -> typed s (thread_ref o) RT_Object_Class_Thread ->
  (stat_of oh = RT_THREAD_READY -> current_thread s <> Some o /\ in_priority_table (current_priority oh) = true) ->
  current_priority th < current_priority oh ->
  let p := u8 (addr_current_priority me) in
  if in_priority_table p
  then exists s' oh', mutex_inherit x me s = Done tt s' /\ threads s' = <[o := oh']> (threads s) /\
    current_priority oh' = p /\ number_mask oh' = 2 ^ p /\
    queues s' = if stat_of oh =? RT_THREAD_READY
                then q_push_back (QReady p) o (q_remove o (queues s)) else queues s
  else mutex_inherit x me s = Fault.
Proof.
  intros Hm Ho Hth Hoh Ht Hrd Hp p.
  assert (E : mutex_inherit x me s =
    (rt_thread_control o RT_THREAD_CTRL_CHANGE_PRIORITY (addr_current_priority me);; mret tt) s).
  { unfold mutex_inherit. erewrite bind_done by (by apply get_mutex_eq). rewrite Ho.
    erewrite bind_done by done. erewrite bind_done by (by apply get_thread_eq).
    erewrite bind_done by (by apply get_thread_eq). by rewrite (proj2 (Z.ltb_lt _ _) Hp). }
  assert (E2 : forall r, change_priority o (addr_current_priority me) s = r ->
    match r with Switch _ _ => True | _ => mutex_inherit x me s = r end).
  { intros r Er. destruct r as [[] s'| |]; [|done|]; rewrite E; unfold rt_thread_control, mbind at 1, prog_bind at 1;
      erewrite bind_done by (by apply assert_type_eq);
      change (RT_THREAD_CTRL_CHANGE_PRIORITY =? RT_THREAD_CTRL_CHANGE_PRIORITY) with true; cbn iota;
      unfold mbind, prog_bind; by rewrite Er. }
  destruct (Z.eqb_spec (stat_of oh) RT_THREAD_READY) as [Hs|Hs].
  - destruct (Hrd Hs) as [Hc Hi]. pose proof (change_priority_ready s o oh (addr_current_priority me) Hoh Hs Hc Hi) as HR.
    cbv zeta in HR. fold p in HR. destruct (in_priority_table p); [|exact (E2 _ HR)].
    destruct HR as (s' & HR & HT & HQ). eexists s', _. split; [exact (E2 _ HR)|]. by split; [exact HT|].
  - pose proof (change_priority_eq s o oh (addr_current_priority me) Hoh Hs) as HR. fold p in HR.
    destruct (in_priority_table p); [|exact (E2 _ HR)].
    eexists _, _. split; [exact (E2 _ HR)|]. split; [cbn; by rewrite insert_insert_eq|]. done.
Qed.
End Mutex.

(** ** Examples *)
#[local] Existing Instance no_signals.
#[local] Instance example_callbacks : Callbacks :=
  {| call_timeout _ _ := fault; call_cleanup _ _ := fault |}.
#[local] Instance example_heap : HeapOps := {| heap_malloc _ := fault; heap_free _ := fault |}.
(** The threads of the application start at 0x20000108. *)
#[local] Instance example_layout : Layout :=
  {| addr_current_priority t := 0x20000108 + 144 * Z.pos t; addr_stack _ := 0;
     addr_original_priority _ := 0; addr_string _ := 0; addr_mb_pool _ := 0 |}.

(** Thread 1 takes a free mutex; thread 1 waits for one that thread 2 holds. *)
Lemma rt_mutex_take_refines_witness :
  (exists s', rt_mutex_take 0 1 7 (mutex_set 1 (RtMutex 1 0xff 0 None) kstate_ready) = Done RT_EOK s' /\
     mutex_is s' 1 (MHeld 1%positive 1 10 [])) /\
  exists s', blocks 1%positive (rt_mutex_take 0 1 7
      (mutex_set 1 (RtMutex 0 5 1 (Some 2%positive)) kstate_ready)) s'
      (fun th2 s2 => mutex_wait_end 0 1 1%positive 7 (error th2) s2) /\
    mutex_is s' 1 (MHeld 2%positive 1 5 [1%positive]).
Proof.
  assert (HC : forall m, thread_context (mutex_set 1 m kstate_ready) 1%positive (thread0 RT_THREAD_RUNNING 10)).
  { intros m. split; try done. apply mutex_set_ok, kstate_ready_kok. }
  split.
  - destruct (rt_mutex_take_refines 0 _ 1%positive MFree 1%positive _ 7 (HC (RtMutex 1 0xff 0 None)))
      as (s' & E & _ & Hx & _).
    + split; [by eexists|]. split; [by eexists|done].
    + exists s'. split; [exact E|exact Hx].
  - pose proof (rt_mutex_take_refines 0 _ 1%positive (MHeld 2%positive 1 5 []) 1%positive _ 7
      (HC (RtMutex 0 5 1 (Some 2%positive)))) as X.
    destruct (X ltac:(split; [by eexists|by vm_compute]) 2%positive 1 5 [] eq_refl
      (thread0 RT_THREAD_READY 5) (header RT_Object_Class_Mutex 1)) as (s' & HB & _ & Hx);
      [|by vm_compute..|].
    + destruct kstate_ready_may_block. split; try done. by eapply kok_ext.
    + exists s'. split; [exact HB|exact Hx].
Defined.

(** Thread 1 passes the mutex to thread 2. *)
Lemma rt_mutex_release_refines_witness :
  let s := mutex_set 1 (RtMutex 0 10 1 (Some 1%positive)) (kstate_waiting (QSuspend (mutex_ref 1))) in
  exists s1, rt_mutex_release 1 s = (rt_schedule;; mret RT_EOK) s1 /\
    woken 2%positive (thread0 RT_THREAD_SUSPEND 5) s s1 /\ mutex_is s1 1 (MHeld 2%positive 1 5 []).
Proof.
  intros s.
  destruct (rt_mutex_release_refines s 1%positive (MHeld 1%positive 1 10 [2%positive]) 1%positive
    (thread0 RT_THREAD_RUNNING 10)) as (s1 & _ & Hx & uh & Hu & _ & Hw & E).
  - split; try done. by apply mutex_set_ok, kstate_waiting_kok.
  - split; [by eexists|by vm_compute].
  - by intros p q [= <- _].
  - exists s1. split; [exact E|]. split; [|exact Hx]. by injection Hu as <-.
Defined.

(** Thread 1, of priority 3, lends its priority to thread 2, of priority 5 and
    ready: with the address 0x20000110 thread 2 gets the priority 16, and with
    0x20000198 the shift is undefined. *)
Definition kstate_lend : kstate :=
  mutex_set 1 (RtMutex 0 5 1 (Some 2%positive)) kstate_ready <| threads ::= <[1%positive := thread0 RT_THREAD_RUNNING 3]> |>.
Definition layout_at (a : Z) : Layout :=
  {| addr_current_priority _ := a; addr_stack _ := 0; addr_original_priority _ := 0; addr_string _ := 0; addr_mb_pool _ := 0 |}.

Lemma mutex_inherit_address_witness :
  (exists s' oh', @mutex_inherit no_signals example_callbacks example_heap (layout_at 0x20000110) 1 1 kstate_lend = Done tt s' /\
     threads s' !! 2%positive = Some oh' /\ current_priority oh' = 16 /\ queue s' (QReady 16) = [2%positive] /\
     queue s' (QReady 5) = []) /\
  @mutex_inherit no_signals example_callbacks example_heap (layout_at 0x20000198) 1 1 kstate_lend = Fault.
Proof.
  split.
  - destruct (@mutex_inherit_address no_signals example_callbacks example_heap (layout_at 0x20000110) kstate_lend 1%positive
      (RtMutex 0 5 1 (Some 2%positive)) 1%positive (thread0 RT_THREAD_RUNNING 3) 2%positive (thread0 RT_THREAD_READY 5))
      as (s' & oh' & E & HT & Hp & _ & HQ); try done; [by eexists|].
    exists s', oh'. split; [exact E|]. rewrite HT. split; [by vm_compute|]. unfold queue. rewrite HQ.
    by repeat split.
  - exact (@mutex_inherit_address no_signals example_callbacks example_heap (layout_at 0x20000198) kstate_lend 1%positive
      (RtMutex 0 5 1 (Some 2%positive)) 1%positive (thread0 RT_THREAD_RUNNING 3) 2%positive (thread0 RT_THREAD_READY 5)
      eq_refl eq_refl eq_refl eq_refl ltac:(by eexists) ltac:(by split) eq_refl).
Defined.
