(* ===== verification/Event.v ===== *)
(** Event sets: rt-thread/src/ipc.c. *)
From S2P Require Export Ipc.
Local Open Scope Z_scope.

Definition event_ref (x : positive) : ref := (KEvent, x).
Definition get_event (x : positive) : K Z := s ← get; e ← deref (events s !! x); mret (ev_set e).
Definition put_event (x : positive) (set : Z) : K unit :=
  modify (fun s => s <| events ::= <[x := RtEvent set]> |>).

(** Whether the set [have] satisfies a wait for [want]; [None] when [opt]
    is neither AND nor OR. *)
Definition event_match (opt want have : Z) : option bool :=
  if has_bits opt RT_EVENT_FLAG_AND then Some (Z.land want have =? want)
  else if has_bits opt RT_EVENT_FLAG_OR then Some (has_bits want have)
  else None.

Section Event.
Context `{!SignalOps}.

Definition rt_event_init (x : positive) (name : list Z) (flag : Z) : K Z :=
  rt_assert (valid_flag flag);;
  rt_object_init (event_ref x) RT_Object_Class_Event name;;
  set_flag (event_ref x) flag;;
  ipc_object_init (event_ref x);;
  put_event x 0;;
  mret RT_EOK.

Definition rt_event_detach (x : positive) : K Z :=
  assert_type (event_ref x) RT_Object_Class_Event;;
  assert_static (event_ref x);;
  ipc_list_resume_all (QSuspend (event_ref x));;
  rt_object_detach (event_ref x);;
  mret RT_EOK.

Definition rt_event_create `{!HeapOps} (name : list Z) (flag : Z) : K (option positive) :=
  rt_assert (valid_flag flag);;
  RT_DEBUG_NOT_IN_INTERRUPT;;
  p ← rt_object_allocate RT_Object_Class_Event name;
  match p with
  | None => mret None
  | Some a =>
      let x := Z.to_pos a in
      set_flag (event_ref x) flag;;
      ipc_object_init (event_ref x);;
      put_event x 0;;
      mret (Some x)
  end.

Definition rt_event_delete `{!HeapOps} (x : positive) : K Z :=
  assert_type (event_ref x) RT_Object_Class_Event;;
  assert_dynamic (event_ref x);;
  RT_DEBUG_NOT_IN_INTERRUPT;;
  ipc_list_resume_all (QSuspend (event_ref x));;
  rt_object_delete (event_ref x);;
  mret RT_EOK.

(** The loop of [rt_event_send] over the waiting threads; [None] is the
    return with [-RT_EINVAL]. *)
Fixpoint event_send_loop (x : positive) (l : list tid) (need_schedule : bool) : K (option bool) :=
  match l with
  | [] => mret (Some need_schedule)
  | t :: l =>
      th ← get_thread t;
      set ← get_event x;
      match event_match (event_info th) (event_set th) set with
      | None => mret None
      | Some false => event_send_loop x l need_schedule
      | Some true =>
          when (negb (has_bits (event_info th) RT_EVENT_FLAG_AND))
            (mod_thread t (fun th => th <| event_set := Z.land (event_set th) set |>));;
          th ← get_thread t;
          when (has_bits (event_info th) RT_EVENT_FLAG_CLEAR)
            (put_event x (clear_bits set (event_set th)));;
          rt_thread_resume t;;
          event_send_loop x l true
      end
  end.

Definition rt_event_send (x : positive) (set : Z) : K Z :=
  assert_type (event_ref x) RT_Object_Class_Event;;
  if set =? 0 then mret (- RT_ERROR)
  else
    old ← get_event x;
    put_event x (Z.lor old set);;
    l ← gets (fun s => queue s (QSuspend (event_ref x)));
    r ← event_send_loop x l false;
    match r with
    | None => mret (- RT_EINVAL)
    | Some need_schedule => when need_schedule rt_schedule;; mret RT_EOK
    end.

(** The result and what is stored in [*recved]. *)
Definition rt_event_recv (x : positive) (set opt timeout : Z) : K (Z * option Z) :=
  RT_DEBUG_IN_THREAD_CONTEXT;;
  assert_type (event_ref x) RT_Object_Class_Event;;
  if set =? 0 then mret (- RT_ERROR, None)
  else
    me ← self;
    mod_thread me (fun th => th <| error := RT_EOK |>);;
    have ← get_event x;
    ok ← deref (event_match opt set have);
    if (ok : bool) then
      mod_thread me (fun th => th <| event_set := Z.land have set |> <| event_info := u8 opt |>);;
      when (has_bits opt RT_EVENT_FLAG_CLEAR) (put_event x (clear_bits have set));;
      th ← get_thread me;
      mret (error th, Some (Z.land have set))
    else if timeout =? 0 then
      mod_thread me (fun th => th <| error := - RT_ETIMEOUT |>);;
      mret (- RT_ETIMEOUT, None)
    else
      mod_thread me (fun th => th <| event_set := set |> <| event_info := u8 opt |>);;
      o ← get_obj (event_ref x);
      ipc_list_suspend (QSuspend (event_ref x)) me (o_flag o);;
      when (0 <? timeout) (start_thread_timer me timeout);;
      e ← wait_result me;
      if negb (e =? RT_EOK) then mret (e, None)
      else
        th ← get_thread me;
        mret (error th, Some (event_set th)).

Definition rt_event_control (x : positive) (cmd : Z) : K Z :=
  assert_type (event_ref x) RT_Object_Class_Event;;
  if cmd =? RT_IPC_CMD_RESET then
    ipc_list_resume_all (QSuspend (event_ref x));;
    put_event x 0;;
    rt_schedule;;
    mret RT_EOK
  else mret (- RT_ERROR).
End Event.
