(* ===== verification/EventThm.v ===== *)
(** Event sets: who is woken up by a send, and the order of clearing. *)
From S2P Require Export Event IpcWait.
Local Open Scope Z_scope.

(** ** The waiting threads that a set of events wakes up

    The threads are tried in the order of the list; a thread that asked for it
    clears the events it gets before the next one is tried. *)
Definition event_got (th : rt_thread) (set : Z) : Z :=
  if has_bits (event_info th) RT_EVENT_FLAG_AND then event_set th else Z.land (event_set th) set.
Definition event_left (th : rt_thread) (set : Z) : Z :=
  if has_bits (event_info th) RT_EVENT_FLAG_CLEAR then clear_bits set (event_got th set) else set.

(** The set that is left, and the threads woken up with what they get. *)
Fixpoint event_walk (ts : gmap tid rt_thread) (set : Z) (l : list tid) : option (Z * list (tid * Z)) :=
  match l with
  | [] => Some (set, [])
  | t :: l =>
      th ← ts !! t;
      ok ← event_match (event_info th) (event_set th) set;
      if (ok : bool) then
        '(set', w) ← event_walk ts (event_left th set) l;
        Some (set', (t, event_got th set) :: w)
      else event_walk ts set l
  end.

(** A thread waits in vain for [set]. *)
Definition unsatisfied (set : Z) (th : rt_thread) : Prop :=
  event_match (event_info th) (event_set th) set = Some false.

Lemma land_sub_zero a b c : Z.land b c = b -> Z.land a c = 0 -> Z.land a b = 0.
Proof. intros Hb Ha. rewrite <- Hb, Z.land_assoc, (Z.land_comm a b), <- Z.land_assoc, Ha. apply Z.land_0_r. Qed.

(** Taking events away satisfies nobody. *)
Lemma unsatisfied_sub set set' th :
  Z.land set' set = set' -> unsatisfied set th -> unsatisfied set' th.
Proof.
  intros Hs. unfold unsatisfied, event_match. destruct (has_bits _ RT_EVENT_FLAG_AND).
  - intros [= E]. f_equal. apply Z.eqb_neq. apply Z.eqb_neq in E. intros E'. apply E.
    rewrite <- E' at 2. rewrite <- E' at 1. by rewrite <- Z.land_assoc, Hs.
  - destruct (has_bits _ RT_EVENT_FLAG_OR); [|done]. unfold has_bits, nz. intros [= E]. f_equal.
    apply negb_false_iff, Z.eqb_eq. apply negb_false_iff, Z.eqb_eq in E. by eapply land_sub_zero.
Qed.

Lemma event_left_sub th set : Z.land (event_left th set) set = event_left th set.
Proof.
  unfold event_left, clear_bits. destruct (has_bits _ _); [|apply Z.land_diag].
  rewrite <- Z.land_assoc, (Z.land_comm _ set), Z.land_assoc, Z.land_diag. done.
Qed.

Lemma event_walk_sub ts l set set' w : event_walk ts set l = Some (set', w) -> Z.land set' set = set'.
Proof.
  revert set set' w. induction l as [|t l IH]; intros set set' w; simpl.
  - intros [= <- _]. apply Z.land_diag.
  - destruct (ts !! t) as [th|]; simpl; [|done]. destruct (event_match _ _ _) as [[]|]; simpl; [| |done].
    + destruct (event_walk ts (event_left th set) l) as [[set2 w2]|] eqn:E; simpl; [|done].
      intros [= <- _]. apply IH in E. rewrite <- E at 1. rewrite <- Z.land_assoc, event_left_sub. done.
    + apply IH.
Qed.

Lemma event_walk_unsatisfied ts l set set' w t th :
  event_walk ts set l = Some (set', w) -> t ∈ l -> t ∉ w.*1 -> ts !! t = Some th -> unsatisfied set' th.
Proof.
  revert set set' w. induction l as [|u l IH]; intros set set' w; simpl; [by intros _ ?%elem_of_nil|].
  destruct (ts !! u) as [uh|] eqn:Hu; simpl; [|done].
  destruct (event_match _ _ _) as [[]|] eqn:Em; simpl; [| |done].
  - destruct (event_walk ts (event_left uh set) l) as [[set2 w2]|] eqn:E; simpl; [|done].
    intros [= <- <-]. rewrite fmap_cons, !elem_of_cons. simpl. intros [->|Ht] Hn Hth; [tauto|].
    eapply IH; [exact E|done|tauto|done].
  - intros E [->|Ht]%elem_of_cons Hn Hth; [|by eapply IH]. simplify_eq.
    eapply unsatisfied_sub; [|exact Em]. by eapply event_walk_sub.
Qed.

(** Every option of a waiting thread asks for AND or OR. *)
Definition event_option (th : rt_thread) : bool :=
  has_bits (event_info th) RT_EVENT_FLAG_AND || has_bits (event_info th) RT_EVENT_FLAG_OR.

Lemma event_walk_total ts l set :
  (forall t, t ∈ l -> exists th, ts !! t = Some th /\ event_option th = true) ->
  exists set' w, event_walk ts set l = Some (set', w).
Proof.
  revert set. induction l as [|t l IH]; intros set Hl; simpl; [eauto|].
  destruct (Hl t) as (th & Hth & Ho); [set_solver|]. rewrite Hth. simpl.
  assert (Hm : exists b, event_match (event_info th) (event_set th) set = Some b).
  { unfold event_match. unfold event_option in Ho. destruct (has_bits _ RT_EVENT_FLAG_AND); [eauto|].
    simpl in Ho. rewrite Ho. eauto. }
  destruct Hm as [[] ->]; simpl.
  - destruct (IH (event_left th set)) as (set' & w & ->); [set_solver|]. simpl. eauto.
  - apply IH. set_solver.
Qed.

(** ** The loop of [rt_event_send] *)
Definition event_set_to (x : positive) (set : Z) (s : kstate) : kstate :=
  s <| events ::= <[x := RtEvent set]> |>.

(** From [s] to [s'] the threads of [w] have been woken up by the event [x],
    and nobody else. *)
Record event_woken (x : positive) (set' : Z) (w : list (tid * Z)) (s s' : kstate) : Prop := {
  ew_kok : kok s';
  ew_event : events s' !! x = Some (RtEvent set');
  ew_frame : kframe (event_set_to x set' s) s';
  ew_current : current_thread s' = current_thread s;
  ew_queues h : is_wait h = true -> queues s' !!! h = filter (fun t => t ∉ w.*1) (queues s !!! h);
  ew_woken t got : (t, got) ∈ w -> exists th v, threads s !! t = Some th /\
    (v = RT_THREAD_READY \/ v = RT_THREAD_RUNNING) /\
    threads s' !! t = Some (put_stat v (th <| event_set := got |>));
  ew_others t : t ∉ w.*1 -> threads s' !! t = threads s !! t }.

Lemma event_set_same x set s : events s !! x = Some (RtEvent set) -> event_set_to x set s = s.
Proof. intros E. destruct s. unfold event_set_to, upd, F_events. simpl in *. by rewrite insert_id. Qed.

Section Event.
Context `{!SignalOps}.

Lemma get_event_eq s x set : events s !! x = Some (RtEvent set) -> get_event x s = Done set s.
Proof. intros E. unfold get_event, get, mbind, prog_bind. simpl. by rewrite E. Qed.

Lemma kok_event s x set : kok s -> kok (event_set_to x set s).
Proof. intros HK. by eapply kok_ext. Qed.

Lemma filter_true (l : list tid) : filter (fun t => t ∉ (@nil (tid * Z)).*1) l = l.
Proof.
  induction l as [|u l IH]; [done|]. rewrite filter_cons, decide_True by set_solver. by rewrite IH.
Qed.

(** One thread that the set satisfies. *)
Lemma event_wake_one x set s t th :
  kok s -> threads s !! t = Some th -> stat_of th = RT_THREAD_SUSPEND ->
  events s !! x = Some (RtEvent set) ->
  exists s', (forall b l, event_match (event_info th) (event_set th) set = Some true ->
      event_send_loop x (t :: l) b s = event_send_loop x l true s') /\
    event_woken x (event_left th set) [(t, event_got th set)] s s'.
Proof.
  intros HK Hth Hst He. set (th1 := th <| event_set := event_got th set |>).
  destruct (kok_set_thread s t th th1 HK Hth) as [HK1 F1]; [done..|].
  set (s1 := s <| threads ::= <[t := th1]> |>) in *.
  assert (Hth1 : threads s1 !! t = Some th1) by apply lookup_insert_eq.
  set (s2 := event_set_to x (event_left th set) s1).
  assert (HK2 : kok s2) by (by apply kok_event).
  destruct (rt_thread_resume_ok s2 t th1 HK2 Hth1 Hst) as (s3 & E3 & HK3 & F3 & HC3 & Hw3 & _).
  exists s3. split.
  - intros b l Hm. cbn [event_send_loop]. erewrite bind_done by (by apply get_thread_eq).
    erewrite bind_done by (by apply get_event_eq). rewrite Hm.
    assert (E1 : when (negb (has_bits (event_info th) RT_EVENT_FLAG_AND))
      (mod_thread t (fun th => th <| event_set := Z.land (event_set th) set |>)) s = Done tt s1).
    { unfold s1, th1, event_got. destruct (has_bits _ RT_EVENT_FLAG_AND); cbn [negb when].
      - assert (th <| event_set := event_set th |> = th) as -> by (by destruct th).
        by rewrite thread_same.
      - exact (mod_thread_eq _ _ _ _ Hth). }
    erewrite bind_done by exact E1. erewrite bind_done by (by apply get_thread_eq).
    assert (E2 : when (has_bits (event_info th1) RT_EVENT_FLAG_CLEAR)
      (put_event x (clear_bits set (event_set th1))) s1 = Done tt s2).
    { unfold s2, event_left. change (event_info th1) with (event_info th).
      destruct (has_bits _ RT_EVENT_FLAG_CLEAR); [done|]. cbn [when].
      by rewrite event_set_same. }
    erewrite bind_done by exact E2. by erewrite bind_done by exact E3.
  - assert (Hw' : exists v, (v = RT_THREAD_READY \/ v = RT_THREAD_RUNNING) /\
      threads s3 = <[t := put_stat v th1]> (threads s)).
    { unfold woken in Hw3. change (threads s2) with (<[t := th1]> (threads s)) in Hw3.
      rewrite !insert_insert_eq in Hw3. destruct (decide _); destruct Hw3 as [-> _]; eauto. }
    destruct Hw' as (v & Hv & HT3). split.
    + done.
    + rewrite (kf_events _ _ F3). apply lookup_insert_eq.
    + etrans; [|exact F3]. apply kframe_sched_data. by destruct s.
    + done.
    + intros h Hh. rewrite (woken_wait_queues s2 s3 t th1 h (ko_kinv _ HK2) Hw3 Hh).
      apply list_filter_iff. intros u. set_solver.
    + intros u got Hin. apply list_elem_of_singleton in Hin as [= -> ->]. exists th, v.
      rewrite HT3, lookup_insert_eq. done.
    + intros u Hu. rewrite HT3, lookup_insert_ne; [done|]. set_solver.
Qed.

Lemma kframe_event x v s s' : kframe s s' -> kframe (event_set_to x v s) (event_set_to x v s').
Proof.
  intros [E O T P C]. split; [|exact O|exact T|exact P|exact C].
  rewrite E at 1. unfold event_set_to. simpl. rewrite E. by destruct s.
Qed.
Lemma event_set_twice x u v s : event_set_to x v (event_set_to x u s) = event_set_to x v s.
Proof. destruct s. unfold event_set_to, upd, F_events. simpl. by rewrite insert_insert_eq. Qed.

Lemma event_woken_nil x set s : kok s -> events s !! x = Some (RtEvent set) -> event_woken x set [] s s.
Proof.
  intros HK He. split; try done.
  - by rewrite event_set_same.
  - intros h _. by rewrite filter_true.
  - by intros t got ?%elem_of_nil.
Qed.

Lemma event_woken_cons x set1 set' t g w s s1 s2 :
  t ∉ w.*1 -> event_woken x set1 [(t, g)] s s1 -> event_woken x set' w s1 s2 ->
  event_woken x set' ((t, g) :: w) s s2.
Proof.
  intros Hn A B. split; try apply B.
  - etrans; [|apply B]. rewrite <- (event_set_twice x set1 set' s). apply kframe_event, A.
  - rewrite (ew_current _ _ _ _ _ B). apply A.
  - intros h Hh. rewrite (ew_queues _ _ _ _ _ B), (ew_queues _ _ _ _ _ A), list_filter_filter by done.
    apply list_filter_iff. intros u. simpl. set_solver.
  - intros u got [[= -> ->]|Hin]%elem_of_cons.
    + destruct (ew_woken _ _ _ _ _ A t g) as (th & v & H1 & Hv & H2); [set_solver|].
      exists th, v. by rewrite (ew_others _ _ _ _ _ B t Hn).
    + destruct (ew_woken _ _ _ _ _ B u got Hin) as (th & v & H1 & Hv & H2). exists th, v.
      rewrite (ew_others _ _ _ _ _ A) in H1; [done|].
      assert (u ∈ w.*1) by (apply list_elem_of_fmap; by exists (u, got)). set_solver.
  - intros u Hu. rewrite (ew_others _ _ _ _ _ B), (ew_others _ _ _ _ _ A); set_solver.
Qed.

Lemma event_walk_in ts l set set' w : event_walk ts set l = Some (set', w) -> forall t, t ∈ w.*1 -> t ∈ l.
Proof.
  revert set set' w. induction l as [|u l IH]; intros set set' w; simpl; [by intros [= _ <-]|].
  destruct (ts !! u) as [uh|]; simpl; [|done]. destruct (event_match _ _ _) as [[]|]; simpl; [| |done].
  - destruct (event_walk ts (event_left uh set) l) as [[set2 w2]|] eqn:E; simpl; [|done].
    intros [= _ <-] t. rewrite fmap_cons, elem_of_cons. intros [->|Ht]; [by left|right]. by eapply IH.
  - intros E t Ht. right. by eapply IH.
Qed.

Lemma event_loop_ok x ts l s set set' w b :
  kok s -> events s !! x = Some (RtEvent set) -> NoDup l ->
  (forall t, t ∈ l -> exists th, ts !! t = Some th /\ threads s !! t = Some th /\
     stat_of th = RT_THREAD_SUSPEND) ->
  event_walk ts set l = Some (set', w) ->
  exists s', event_send_loop x l b s = Done (Some (b || bool_decide (w <> []))) s' /\
    event_woken x set' w s s'.
Proof.
  revert s set w b. induction l as [|t l IH]; intros s set w b HK He Hd Hl; cbn [event_walk].
  - intros [= <- <-]. exists s. split; [|by apply event_woken_nil]. simpl. by rewrite orb_false_r.
  - apply NoDup_cons in Hd as [Ht Hd]. destruct (Hl t) as (th & Hts & Hth & Hst); [set_solver|].
    rewrite Hts. simpl. destruct (event_match _ _ _) as [[]|] eqn:Em; simpl; [| |done].
    + destruct (event_walk ts (event_left th set) l) as [[set2 w2]|] eqn:E; simpl; [|done].
      intros [= <- <-].
      destruct (event_wake_one x set s t th HK Hth Hst He) as (s1 & E1 & A).
      destruct (IH s1 (event_left th set) w2 true) as (s2 & E2 & B); [apply A|apply A|done| |done|].
      * intros u Hu. destruct (Hl u) as (uh & ? & ? & ?); [set_solver|]. exists uh.
        rewrite (ew_others _ _ _ _ _ A); [done|]. set_solver.
      * exists s2. split.
        -- refine (eq_trans (E1 b l Em) _). rewrite E2. rewrite (bool_decide_true (_ :: _ <> [])) by done. by rewrite orb_true_r.
        -- eapply event_woken_cons; [|exact A|exact B]. intros Hin. by eapply Ht, event_walk_in.
    + intros E. destruct (IH s set w b) as (s2 & E2 & B); [done|done|done| |done|].
      * intros u Hu. apply Hl. set_solver.
      * exists s2. split; [|done]. cbn [event_send_loop].
        erewrite bind_done by (by apply get_thread_eq). erewrite bind_done by (by apply get_event_eq).
        by rewrite Em.
Qed.

(** C12. [rt_event_send] of a non-empty set: the waiting threads are tried in the
    order of the list against the events present, the new ones included; those
    that are satisfied leave the list, get ready and find in [event_set]
    what they get, and a thread that asked for clearing takes its events
    away before the next one is tried. The others stay, in order, and none of
    them is satisfied by the events that are left: no thread sleeps on events
    that it could have. The scheduler runs if a thread was woken up; nothing
    else changes, and the invariant of the kernel is kept. *)
Theorem rt_event_send_correct s x old set :
  kok s -> typed s (event_ref x) RT_Object_Class_Event ->
  events s !! x = Some (RtEvent old) -> set <> 0 ->
  (forall t, t ∈ queues s !!! QSuspend (event_ref x) ->
     exists th, threads s !! t = Some th /\ event_option th = true) ->
  exists set' w s1,
    event_walk (threads s) (Z.lor old set) (queues s !!! QSuspend (event_ref x)) = Some (set', w) /\
    event_woken x set' w (event_set_to x (Z.lor old set) s) s1 /\
    rt_event_send x set s = (when (bool_decide (w <> [])) rt_schedule;; mret RT_EOK) s1 /\
    forall t th, t ∈ queues s1 !!! QSuspend (event_ref x) -> threads s1 !! t = Some th ->
      unsatisfied set' th.
Proof.
  intros HK Ht He Hs Hq. set (q := QSuspend (event_ref x)) in *.
  destruct (event_walk_total (threads s) (queues s !!! q) (Z.lor old set) Hq) as (set' & w & Ew).
  set (s0 := event_set_to x (Z.lor old set) s).
  destruct (event_loop_ok x (threads s) (queues s !!! q) s0 (Z.lor old set) set' w false)
    as (s1 & E1 & A); [by apply kok_event|apply lookup_insert_eq|apply HK| |done|].
  { intros t Hin. destruct (ci_wait _ _ _ _ _ (ko_kinv _ HK) q t eq_refl Hin) as (th & ? & ?). eauto. }
  exists set', w, s1. split; [done|]. split; [done|]. split.
  - unfold rt_event_send. erewrite bind_done by (by apply assert_type_eq).
    rewrite (proj2 (Z.eqb_neq set 0)) by done. erewrite bind_done by (by apply get_event_eq).
    erewrite bind_done by done. fold s0. rewrite bind_gets. by erewrite bind_done by exact E1.
  - intros t th Hin Hth. rewrite (ew_queues _ _ _ _ _ A) in Hin by done.
    apply list_elem_of_filter in Hin as [Hn Hin]. rewrite (ew_others _ _ _ _ _ A) in Hth by done.
    by eapply event_walk_unsatisfied.
Qed.

(** What a waiting thread asks for is kept in its record. *)
Definition asks (set opt : Z) (th : rt_thread) : rt_thread :=
  th <| event_set := set |> <| event_info := opt |>.

Lemma event_recv_start s me th x have set opt timeout ok :
  thread_context s me th -> typed s (event_ref x) RT_Object_Class_Event ->
  events s !! x = Some (RtEvent have) -> set <> 0 -> event_match opt set have = Some ok ->
  rt_event_recv x set opt timeout s =
    (if ok : bool then
       mod_thread me (fun th => th <| event_set := Z.land have set |> <| event_info := u8 opt |>);;
       when (has_bits opt RT_EVENT_FLAG_CLEAR) (put_event x (clear_bits have set));;
       th ← get_thread me;
       mret (error th, Some (Z.land have set))
     else if timeout =? 0 then
       mod_thread me (fun th => th <| error := - RT_ETIMEOUT |>);;
       mret (- RT_ETIMEOUT, None)
     else
       mod_thread me (fun th => th <| event_set := set |> <| event_info := u8 opt |>);;
       o ← get_obj (event_ref x);
       block_then (QSuspend (event_ref x)) me (o_flag o) timeout (fun e =>
         if negb (e =? RT_EOK) then mret (e, None)
         else th ← get_thread me; mret (error th, Some (event_set th))))
      (no_error me th s).
Proof.
  intros [HK Hc Hth Hi] Ht He Hs Hm. unfold rt_event_recv.
  erewrite bind_done by (by eapply in_thread_context_eq). erewrite bind_done by (by apply assert_type_eq).
  rewrite (proj2 (Z.eqb_neq set 0)) by done. erewrite bind_done by (by apply self_eq).
  erewrite bind_done by (by apply mod_thread_eq). fold (no_error me th s).
  erewrite bind_done by exact (get_event_eq (no_error me th s) x have He). rewrite Hm.
  by erewrite bind_done by done.
Qed.

(** Receiving events that are present. *)
Lemma event_recv_now s me th x have set opt timeout :
  thread_context s me th -> typed s (event_ref x) RT_Object_Class_Event ->
  events s !! x = Some (RtEvent have) -> set <> 0 -> 0 <= opt < 256 ->
  event_match opt set have = Some true ->
  rt_event_recv x set opt timeout s = Done (RT_EOK, Some (Z.land have set))
    (event_set_to x (if has_bits opt RT_EVENT_FLAG_CLEAR then clear_bits have set else have)
      (s <| threads ::= <[me := asks (Z.land have set) opt (th <| error := RT_EOK |>)]> |>)).
Proof.
  intros HC Ht He Hs Ho Hm. rewrite (event_recv_start s me th x have set opt timeout true HC Ht He Hs Hm).
  assert (Eo : u8 opt = opt) by (unfold u8, wrap; apply Z.mod_small; lia).
  destruct (no_error_context s me th HC) as [HC0 _].
  assert (Hth0 : threads (no_error me th s) !! me = Some (th <| error := RT_EOK |>)) by apply HC0.
  erewrite bind_done by exact (mod_thread_eq _ _ _ _ Hth0). rewrite Eo.
  change (_ <| event_set := _ |> <| event_info := _ |>) with
    (asks (Z.land have set) opt (th <| error := RT_EOK |>)).
  rewrite no_error_put. set (s1 := s <| threads ::= _ |>).
  assert (Hth1 : threads s1 !! me = Some (asks (Z.land have set) opt (th <| error := RT_EOK |>)))
    by apply lookup_insert_eq.
  assert (E2 : when (has_bits opt RT_EVENT_FLAG_CLEAR) (put_event x (clear_bits have set)) s1 =
    Done tt (event_set_to x (if has_bits opt RT_EVENT_FLAG_CLEAR then clear_bits have set else have) s1)).
  { destruct (has_bits _ _); [done|]. by rewrite event_set_same. }
  erewrite bind_done by exact E2. by erewrite bind_done by (by apply get_thread_eq).
Qed.

Lemma asks_ok s me th set opt :
  may_block s me th ->
  let th0 := asks set opt (th <| error := RT_EOK |>) in
  may_block (s <| threads ::= <[me := th0]> |>) me th0.
Proof.
  intros [HK Hc Hth Hst Hp Hn Hl Hu] th0.
  destruct (kok_set_thread s me th th0 HK Hth) as [HK' F]; [done..|].
  split; try done. apply lookup_insert_eq.
Qed.

(** Waiting for events that are not there. *)
Lemma event_recv_waits s me th x have set opt timeout o :
  thread_context s me th -> typed s (event_ref x) RT_Object_Class_Event ->
  events s !! x = Some (RtEvent have) -> set <> 0 -> 0 <= opt < 256 ->
  event_match opt set have = Some false -> timeout <> 0 ->
  may_block s me th -> objs s !! event_ref x = Some o -> valid_flag (o_flag o) = true -> timeout < RT_TICK_MAX / 2 ->
  let th0 := asks set opt (th <| error := RT_EOK |>) in
  let s0 := s <| threads ::= <[me := th0]> |> in
  exists s', blocked s0 s' me th0 (QSuspend (event_ref x)) (o_flag o) timeout /\
    blocks me (rt_event_recv x set opt timeout s) s' (fun th2 s2 =>
      Done (if error th2 =? RT_EOK then (error th2, Some (event_set th2)) else (error th2, None)) s2).
Proof.
  intros HC Ht He Hs Ho Hm Hnz HM Hoo Hfl Htm th0 s0.
  pose proof (event_recv_start s me th x have set opt timeout false HC Ht He Hs Hm) as E.
  assert (Eo : u8 opt = opt) by (unfold u8, wrap; apply Z.mod_small; lia).
  destruct (no_error_context s me th HC) as [HC0 _].
  assert (Hth0 : threads (no_error me th s) !! me = Some (th <| error := RT_EOK |>)) by apply HC0.
  rewrite E. clear E. rewrite (proj2 (Z.eqb_neq _ _) Hnz).
  pose proof (asks_ok s me th set opt HM) as HM0. cbv zeta in HM0. fold th0 s0 in HM0.
  destruct (block_then_ok s0 me th0 (QSuspend (event_ref x)) (o_flag o) timeout (fun e =>
    if negb (e =? RT_EOK) then mret (e, None)
    else th ← get_thread me; mret (error th, Some (event_set th))) HM0) as (s' & HB & Hb); [done..|].
  exists s'. split; [exact Hb|].
  erewrite bind_done by exact (mod_thread_eq _ _ _ _ Hth0). rewrite Eo.
  change (_ <| event_set := set |> <| event_info := opt |>) with th0. rewrite no_error_put. fold s0.
  assert (Hoo0 : objs s0 !! event_ref x = Some o) by done.
  erewrite bind_done by exact (get_obj_eq s0 _ _ Hoo0).
  eapply blocks_ext; [exact HB|]. intros s2 th2 Hth2. cbn beta.
  destruct (error th2 =? RT_EOK); cbn [negb]; [|done].
  by erewrite bind_done by (by apply get_thread_eq).
Qed.

(** Asking for nothing, or with neither AND nor OR. *)
Lemma event_recv_refuses s me th x have set opt timeout :
  thread_context s me th -> typed s (event_ref x) RT_Object_Class_Event -> events s !! x = Some (RtEvent have) ->
  (set = 0 -> rt_event_recv x set opt timeout s = Done (- RT_ERROR, None) s) /\
  (set <> 0 -> event_match opt set have = None -> rt_event_recv x set opt timeout s = Fault).
Proof.
  intros HC Ht He. unfold rt_event_recv. split.
  - intros ->. destruct HC as [HK Hc Hth Hi]. erewrite bind_done by (by eapply in_thread_context_eq). by erewrite bind_done by (by apply assert_type_eq).
  - intros Hs Hm. destruct HC as [HK Hc Hth Hi].
    erewrite bind_done by (by eapply in_thread_context_eq). erewrite bind_done by (by apply assert_type_eq).
    rewrite (proj2 (Z.eqb_neq set 0)) by done. erewrite bind_done by (by apply self_eq).
    erewrite bind_done by (by apply mod_thread_eq). fold (no_error me th s).
    erewrite bind_done by exact (get_event_eq (no_error me th s) x have He). by rewrite Hm.
Qed.

(** C13. [rt_event_recv], on every branch. It refuses an empty set with
    [-RT_ERROR] and no effect, and an option with neither AND nor OR fails the
    assertion. Otherwise, when the events
    present satisfy the caller it gets those it asked for, taken away if it
    asks for clearing, and [RT_EOK]; when they do not, it gets [-RT_ETIMEOUT] if it
    does not wait, and is suspended on the event if it does, with what it
    asks for in its record, unsatisfied by the events present, and a timer for
    a positive [timeout]; resumed without error, it returns the events that the
    sender left in its record. *)
Theorem rt_event_recv_correct s me th x have set opt timeout :
  thread_context s me th -> typed s (event_ref x) RT_Object_Class_Event ->
  events s !! x = Some (RtEvent have) -> 0 <= opt < 256 ->
  if set =? 0 then rt_event_recv x set opt timeout s = Done (- RT_ERROR, None) s
  else match event_match opt set have with
  | None => rt_event_recv x set opt timeout s = Fault
  | Some true =>
      rt_event_recv x set opt timeout s = Done (RT_EOK, Some (Z.land have set))
        (event_set_to x (if has_bits opt RT_EVENT_FLAG_CLEAR then clear_bits have set else have)
          (s <| threads ::= <[me := asks (Z.land have set) opt (th <| error := RT_EOK |>)]> |>))
  | Some false =>
      if timeout =? 0 then
        rt_event_recv x set opt timeout s = Done (- RT_ETIMEOUT, None)
          (s <| threads ::= <[me := th <| error := - RT_ETIMEOUT |>]> |>)
      else forall o, may_block s me th -> objs s !! event_ref x = Some o -> valid_flag (o_flag o) = true ->
        timeout < RT_TICK_MAX / 2 ->
        let th0 := asks set opt (th <| error := RT_EOK |>) in
        let s0 := s <| threads ::= <[me := th0]> |> in
        unsatisfied have th0 /\
        exists s', blocked s0 s' me th0 (QSuspend (event_ref x)) (o_flag o) timeout /\
          blocks me (rt_event_recv x set opt timeout s) s' (fun th2 s2 =>
            Done (if error th2 =? RT_EOK then (error th2, Some (event_set th2)) else (error th2, None)) s2)
  end.
Proof.
  intros HC Ht He Ho. destruct (event_recv_refuses s me th x have set opt timeout HC Ht He) as [R1 R2].
  destruct (Z.eqb_spec set 0) as [Hs|Hs]; [by apply R1|].
  destruct (event_match opt set have) as [[]|] eqn:Hm; [|destruct (Z.eqb_spec timeout 0) as [->|Hnz]|by apply R2].
  - by apply event_recv_now.
  - rewrite (event_recv_start s me th x have set opt 0 false HC Ht He Hs Hm).
    destruct (no_error_context s me th HC) as [HC0 _].
    change (0 =? 0) with true. cbv iota. erewrite bind_done by (apply mod_thread_eq, HC0). by rewrite no_error_put.
  - intros o HM Hoo Hfl Htm th0 s0. split; [exact Hm|]. by apply (event_recv_waits s me th x have).
Qed.
End Event.

(** ** Examples *)
#[local] Existing Instance no_signals.

(** Thread 2 waits for events 1 or 4, and is to clear what it gets. *)
Definition waiting_event : kstate :=
  kstate_waiting (QSuspend (event_ref 1)) <| events := {[1%positive := RtEvent 0]} |>
    <| threads ::= <[2%positive := asks 5 6 (thread0 RT_THREAD_SUSPEND 5)]> |>.

Lemma rt_event_send_correct_witness :
  exists s1, rt_event_send 1 0xc waiting_event = (rt_schedule;; mret RT_EOK) s1 /\
    events s1 !! 1%positive = Some (RtEvent 8) /\
    exists v, threads s1 !! 2%positive = Some (put_stat v (asks 4 6 (thread0 RT_THREAD_SUSPEND 5))).
Proof.
  destruct (rt_event_send_correct waiting_event 1%positive 0 0xc) as (set' & w & s1 & Ew & A & E & _).
  - assert (HK : kok (kstate_waiting (QSuspend (event_ref 1)) <| events := {[1%positive := RtEvent 0]} |>))
      by (eapply kok_ext; [by apply (kstate_waiting_kok (QSuspend (event_ref 1)))|done..]).
    by apply (kok_set_thread _ 2%positive (thread0 RT_THREAD_SUSPEND 5) _ HK).
  - by eexists.
  - done.
  - done.
  - intros t [->|[]%elem_of_nil]%elem_of_cons. by eexists.
  - assert (Ew' : Some (8, [(2%positive, 4)]) = Some (set', w)) by exact Ew. injection Ew' as <- <-.
    exists s1. split; [exact E|]. split; [apply A|].
    destruct (ew_woken _ _ _ _ _ A 2%positive 4) as (th & v & Hth & _ & Hv); [set_solver|].
    exists v. rewrite Hv. by injection Hth as <-.
Defined.

(** Thread 1 finds event 1 present, and waits for event 2. *)
Lemma rt_event_recv_correct_witness :
  (exists s', rt_event_recv 1 3 2 0 (event_set_to 1 1 kstate_ready) = Done (RT_EOK, Some 1) s') /\
  exists s', wakes_at 1%positive 7 s' /\ queues s' !!! QSuspend (event_ref 1) = [1%positive].
Proof.
  assert (HC : thread_context (event_set_to 1 1 kstate_ready) 1%positive (thread0 RT_THREAD_RUNNING 10)).
  { split; try done. apply kok_event, kstate_ready_kok. }
  assert (HT : typed (event_set_to 1 1 kstate_ready) (event_ref 1) RT_Object_Class_Event) by by eexists.
  split.
  - eexists. exact (rt_event_recv_correct _ _ _ _ 1 3 2 0 HC HT eq_refl ltac:(lia)).
  - destruct (rt_event_recv_correct _ _ _ _ 1 2 2 7 HC HT eq_refl ltac:(lia)
      (header RT_Object_Class_Event 1)) as (_ & s' & Hb & _).
    + destruct kstate_ready_may_block. split; try done. apply HC.
    + done.
    + done.
    + done.
    + exists s'. split; [by apply (bl_timer _ _ _ _ _ _ _ Hb)|].
      by rewrite (bl_queue _ _ _ _ _ _ _ Hb).
Defined.
