(* ===== verification/Mailbox.v ===== *)
(** Mailboxes: rt-thread/src/ipc.c. A mailbox is a ring of words. *)
From S2P Require Export Ipc.
Local Open Scope Z_scope.

Definition mb_ref (x : positive) : ref := (KMailBox, x).
Definition get_mb (x : positive) : K rt_mailbox := s ← get; deref (mailboxes s !! x).
Definition put_mb (x : positive) (v : rt_mailbox) : K unit :=
  modify (fun s => s <| mailboxes ::= <[x := v]> |>).

(** *** The ring *)

(** The value is stored and [in_offset] advances; [entry] counts up to its
    maximum. [None]: the slot is outside of the pool. *)
Definition mb_put (value : Z) (m : rt_mailbox) : option (Z * rt_mailbox) :=
  _ ← msg_pool m !! Z.to_nat (in_offset m);
  let m := m <| msg_pool ::= <[Z.to_nat (in_offset m) := value]> |>
             <| in_offset ::= (fun i => u16 (i + 1)) |> in
  let m := if mb_size m <=? in_offset m then m <| in_offset := 0 |> else m in
  if mb_entry m <? RT_MB_ENTRY_MAX
  then Some (RT_EOK, m <| mb_entry ::= (fun n => u16 (n + 1)) |>)
  else Some (- RT_EFULL, m).

Definition mb_put_front (value : Z) (m : rt_mailbox) : option rt_mailbox :=
  let m := if 0 <? out_offset m then m <| out_offset ::= (fun i => u16 (i - 1)) |>
           else m <| out_offset := u16 (mb_size m - 1) |> in
  _ ← msg_pool m !! Z.to_nat (out_offset m);
  Some (m <| msg_pool ::= <[Z.to_nat (out_offset m) := value]> |>
          <| mb_entry ::= (fun n => u16 (n + 1)) |>).

Definition mb_get (m : rt_mailbox) : option (Z * rt_mailbox) :=
  v ← msg_pool m !! Z.to_nat (out_offset m);
  let m := m <| out_offset ::= (fun i => u16 (i + 1)) |> in
  let m := if mb_size m <=? out_offset m then m <| out_offset := 0 |> else m in
  Some (v, if 0 <? mb_entry m then m <| mb_entry ::= (fun n => u16 (n - 1)) |> else m).

(** What is left of a timeout after a wait that began at [start]. *)
Definition time_left (timeout start now : Z) : Z :=
  if 0 <? timeout then
    let rest := s32 (timeout - u32 (now - start)) in if rest <? 0 then 0 else rest
  else timeout.

Section Mailbox.
Context `{!SignalOps}.

(** [if (!rt_list_isempty(q)) { _ipc_list_resume(q); rt_schedule(); }] *)
Definition wake_first (q : qhead) : K unit :=
  e ← list_isempty q;
  if negb e then ipc_list_resume q;; rt_schedule else mret tt.

(** One round of waiting: the error it ends with and the time left. *)
Definition wait_round (q : qhead) (r : ref) (me : tid) (timeout : Z) : K (Z * Z) :=
  o ← get_obj r;
  ipc_list_suspend q me (o_flag o);;
  start ← rt_tick_get;
  when (0 <? timeout) (start_thread_timer me timeout);;
  e ← wait_result me;
  now ← rt_tick_get;
  mret (e, time_left timeout start now).

(** [words]: the words at [msgpool]. *)
Definition rt_mb_init (x : positive) (name : list Z) (msgpool : Z) (words : list Z) (size flag : Z) : K Z :=
  rt_assert (valid_flag flag);;
  rt_object_init (mb_ref x) RT_Object_Class_MailBox name;;
  set_flag (mb_ref x) flag;;
  ipc_object_init (mb_ref x);;
  put_mb x (RtMailbox words (u16 size) 0 0 0 msgpool);;
  modify (fun s => s <| queues ::= <[QSender (mb_ref x) := []]> |>);;
  mret RT_EOK.

Definition rt_mb_detach (x : positive) : K Z :=
  assert_type (mb_ref x) RT_Object_Class_MailBox;;
  assert_static (mb_ref x);;
  ipc_list_resume_all (QSuspend (mb_ref x));;
  ipc_list_resume_all (QSender (mb_ref x));;
  rt_object_detach (mb_ref x);;
  mret RT_EOK.

(** The words at [a]. *)
Definition words_at (m : memory) (a : Z) (n : nat) : list Z :=
  map (fun i => load32 (a + 4 * Z.of_nat i) m) (seq 0 n).

Definition rt_mb_create `{!HeapOps} (name : list Z) (size flag : Z) : K (option positive) :=
  rt_assert (valid_flag flag);;
  RT_DEBUG_NOT_IN_INTERRUPT;;
  p ← rt_object_allocate RT_Object_Class_MailBox name;
  match p with
  | None => mret None
  | Some a =>
      let x := Z.to_pos a in
      set_flag (mb_ref x) flag;;
      ipc_object_init (mb_ref x);;
      let size := u16 size in
      pool ← heap_malloc (size * 4);
      match pool with
      | None => rt_object_delete (mb_ref x);; mret None
      | Some msgpool =>
          m ← gets heap_mem;
          put_mb x (RtMailbox (words_at m msgpool (Z.to_nat size)) size 0 0 0 msgpool);;
          modify (fun s => s <| queues ::= <[QSender (mb_ref x) := []]> |>);;
          mret (Some x)
      end
  end.

Definition rt_mb_delete `{!HeapOps} (x : positive) : K Z :=
  assert_type (mb_ref x) RT_Object_Class_MailBox;;
  assert_dynamic (mb_ref x);;
  RT_DEBUG_NOT_IN_INTERRUPT;;
  ipc_list_resume_all (QSuspend (mb_ref x));;
  ipc_list_resume_all (QSender (mb_ref x));;
  m ← get_mb x;
  heap_free (mb_pool m);;
  rt_object_delete (mb_ref x);;
  mret RT_EOK.

(** The rest of [rt_mb_send_wait] when there is room. *)
Definition mb_send_now (x : positive) (value : Z) : K Z :=
  m ← get_mb x;
  '(e, m) ← deref (mb_put value m);
  put_mb x m;;
  if e =? RT_EOK then wake_first (QSuspend (mb_ref x));; mret RT_EOK else mret e.

(** The loops are bounded by [fuel]: the number of wake-ups in vain. *)
Fixpoint mb_send_loop (fuel : nat) (x : positive) (value timeout : Z) : K Z :=
  m ← get_mb x;
  if mb_entry m =? mb_size m then
    me ← self;
    mod_thread me (fun th => th <| error := RT_EOK |>);;
    if timeout =? 0 then mret (- RT_EFULL)
    else
      RT_DEBUG_IN_THREAD_CONTEXT;;
      '(e, rest) ← wait_round (QSender (mb_ref x)) (mb_ref x) me timeout;
      if negb (e =? RT_EOK) then mret e
      else match fuel with O => fault | S fuel => mb_send_loop fuel x value rest end
  else mb_send_now x value.

Definition rt_mb_send_wait (fuel : nat) (x : positive) (value timeout : Z) : K Z :=
  assert_type (mb_ref x) RT_Object_Class_MailBox;;
  m ← get_mb x;
  if (mb_entry m =? mb_size m) && (timeout =? 0) then mret (- RT_EFULL)
  else mb_send_loop fuel x value timeout.

Definition rt_mb_send (x : positive) (value : Z) : K Z := rt_mb_send_wait 0 x value 0.

Definition rt_mb_urgent (x : positive) (value : Z) : K Z :=
  assert_type (mb_ref x) RT_Object_Class_MailBox;;
  m ← get_mb x;
  if mb_entry m =? mb_size m then mret (- RT_EFULL)
  else
    m ← deref (mb_put_front value m);
    put_mb x m;;
    wake_first (QSuspend (mb_ref x));;
    mret RT_EOK.

Definition mb_recv_now (x : positive) : K (Z * option Z) :=
  m ← get_mb x;
  '(v, m) ← deref (mb_get m);
  put_mb x m;;
  wake_first (QSender (mb_ref x));;
  mret (RT_EOK, Some v).

Fixpoint mb_recv_loop (fuel : nat) (x : positive) (timeout : Z) : K (Z * option Z) :=
  m ← get_mb x;
  if mb_entry m =? 0 then
    me ← self;
    mod_thread me (fun th => th <| error := RT_EOK |>);;
    if timeout =? 0 then
      mod_thread me (fun th => th <| error := - RT_ETIMEOUT |>);;
      mret (- RT_ETIMEOUT, None)
    else
      RT_DEBUG_IN_THREAD_CONTEXT;;
      '(e, rest) ← wait_round (QSuspend (mb_ref x)) (mb_ref x) me timeout;
      if negb (e =? RT_EOK) then mret (e, None)
      else match fuel with O => fault | S fuel => mb_recv_loop fuel x rest end
  else mb_recv_now x.

(** The result and what is stored in [*value]. *)
Definition rt_mb_recv (fuel : nat) (x : positive) (timeout : Z) : K (Z * option Z) :=
  assert_type (mb_ref x) RT_Object_Class_MailBox;;
  m ← get_mb x;
  if (mb_entry m =? 0) && (timeout =? 0) then mret (- RT_ETIMEOUT, None)
  else mb_recv_loop fuel x timeout.

Definition rt_mb_control (x : positive) (cmd : Z) : K Z :=
  assert_type (mb_ref x) RT_Object_Class_MailBox;;
  if cmd =? RT_IPC_CMD_RESET then
    ipc_list_resume_all (QSuspend (mb_ref x));;
    ipc_list_resume_all (QSender (mb_ref x));;
    m ← get_mb x;
    put_mb x (m <| mb_entry := 0 |> <| in_offset := 0 |> <| out_offset := 0 |>);;
    rt_schedule;;
    mret RT_EOK
  else mret (- RT_ERROR).
End Mailbox.
