(* ===== verification/MailboxThm.v ===== *)
(** Mailboxes refine bounded queues of words. *)
From S2P Require Export Mailbox IpcWait.
Local Open Scope Z_scope.

(** ** The ring *)

(** The position [i] steps after [o] in a ring of [n]. *)
Definition ring_pos (n o i : Z) : Z := (o + i) mod n.

(** The mailbox [m] of [cap] words holds [q], the oldest first. *)
Record mb_holds (m : rt_mailbox) (cap : Z) (q : list Z) : Prop := {
  mh_cap : 0 < cap < 65536;
  mh_size : mb_size m = cap;
  mh_pool : Z.of_nat (length (msg_pool m)) = cap;
  mh_out : 0 <= out_offset m < cap;
  mh_entry : mb_entry m = Z.of_nat (length q);
  mh_room : Z.of_nat (length q) <= cap;
  mh_in : in_offset m = ring_pos cap (out_offset m) (mb_entry m);
  mh_words (i : nat) : (i < length q)%nat ->
    msg_pool m !! Z.to_nat (ring_pos cap (out_offset m) (Z.of_nat i)) = q !! i }.

Lemma ring_pos_range n o i : 0 < n -> 0 <= ring_pos n o i < n.
Proof. intros. apply Z.mod_pos_bound. lia. Qed.

Lemma ring_pos_eq n o i : 0 < n -> 0 <= o < n -> 0 <= i <= n ->
  ring_pos n o i = if o + i <? n then o + i else o + i - n.
Proof.
  intros Hn Ho Hi. unfold ring_pos. destruct (Z.ltb_spec (o + i) n).
  - apply Z.mod_small. lia.
  - rewrite <- (Z.mod_add (o + i) (-1)) by lia. rewrite Z.mod_small; lia.
Qed.

Lemma ring_pos_inj n o i j : 0 < n -> 0 <= o < n -> 0 <= i < n -> 0 <= j < n ->
  ring_pos n o i = ring_pos n o j -> i = j.
Proof.
  intros Hn Ho Hi Hj. rewrite !ring_pos_eq by lia.
  destruct (Z.ltb_spec (o + i) n), (Z.ltb_spec (o + j) n); lia.
Qed.

Lemma mb_holds_slot m cap q i : mb_holds m cap q ->
  is_Some (msg_pool m !! Z.to_nat (ring_pos cap (out_offset m) i)).
Proof.
  intros []. apply lookup_lt_is_Some. pose proof (ring_pos_range cap (out_offset m) i). lia.
Qed.

(** The next position, as the code computes it. *)
Lemma ring_next cap o : 0 < cap < 65536 -> 0 <= o < cap ->
  (if cap <=? u16 (o + 1) then 0 else u16 (o + 1)) = ring_pos cap o 1.
Proof.
  intros. rewrite u16_small, ring_pos_eq by lia.
  destruct (Z.leb_spec cap (o + 1)), (Z.ltb_spec (o + 1) cap); lia.
Qed.

Lemma ring_pos_add n o i j : 0 < n -> ring_pos n (ring_pos n o i) j = ring_pos n o (i + j).
Proof. intros. unfold ring_pos. rewrite Zplus_mod_idemp_l. f_equal. lia. Qed.

Lemma ring_pos_0 n o : 0 <= o < n -> ring_pos n o 0 = o.
Proof. intros. unfold ring_pos. rewrite Z.add_0_r. by apply Z.mod_small. Qed.

(** What the operations of the ring compute, step by step. *)
Lemma mb_put_eq v pool size entry i o a w :
  pool !! Z.to_nat i = Some w -> 0 <= entry < 65535 ->
  mb_put v (RtMailbox pool size entry i o a) =
    Some (RT_EOK, RtMailbox (<[Z.to_nat i := v]> pool) size (entry + 1)
                    (if size <=? u16 (i + 1) then 0 else u16 (i + 1)) o a).
Proof.
  intros Hw He. rewrite <- (u16_small (entry + 1)) by lia. unfold mb_put. cbn. rewrite Hw. cbn.
  unfold RT_MB_ENTRY_MAX. destruct (size <=? u16 (i + 1)); cbn;
    by rewrite (proj2 (Z.ltb_lt entry 65535)) by lia.
Qed.

Lemma mb_put_front_eq v pool size entry i o a o' :
  0 < size < 65536 -> 0 <= entry < 65535 -> 0 <= o < size ->
  o' = (if 0 <? o then o - 1 else size - 1) -> is_Some (pool !! Z.to_nat o') ->
  mb_put_front v (RtMailbox pool size entry i o a) =
    Some (RtMailbox (<[Z.to_nat o' := v]> pool) size (entry + 1) i o' a).
Proof.
  intros Hs He Ho -> [w Hw]. rewrite <- (u16_small (entry + 1)) by lia.
  unfold mb_put_front. cbn. destruct (Z.ltb_spec 0 o).
  - unfold upd; cbn. rewrite (u16_small (o - 1)), Hw by lia.
    unfold F_out_offset, F_msg_pool, F_mb_entry. cbn -[u16]. by rewrite (u16_small (o - 1)) by lia.
  - unfold upd; cbn. rewrite (u16_small (size - 1)), Hw by lia. done.
Qed.

Lemma mb_get_eq pool size entry i o a v :
  pool !! Z.to_nat o = Some v -> 0 < entry < 65536 ->
  mb_get (RtMailbox pool size entry i o a) =
    Some (v, RtMailbox pool size (entry - 1) i (if size <=? u16 (o + 1) then 0 else u16 (o + 1)) a).
Proof.
  intros Hv He. rewrite <- (u16_small (entry - 1)) by lia. unfold mb_get. cbn. rewrite Hv. cbn.
  destruct (size <=? u16 (o + 1)); cbn; by rewrite (proj2 (Z.ltb_lt 0 entry)) by lia.
Qed.

Lemma mb_put_ok v m cap q :
  mb_holds m cap q -> Z.of_nat (length q) < cap ->
  exists m', mb_put v m = Some (RT_EOK, m') /\ mb_holds m' cap (q ++ [v]).
Proof.
  intros HM Hl. destruct (mb_holds_slot m cap q (mb_entry m) HM) as [w Hw].
  destruct m as [pool size entry inn out adr]. destruct HM as [Hc Hs Hp Ho He Hr Hi Hq]. cbn in *. subst size inn.
  pose proof (ring_pos_range cap out entry ltac:(lia)) as Rin.
  eexists. split; [apply (mb_put_eq _ _ _ _ _ _ _ w); [done|lia]|].
  rewrite (ring_next cap) by lia. split; cbn; [done|done|by rewrite length_insert|done| | | |].
  1,2: rewrite length_app; cbn; lia.
  - rewrite ring_pos_add by lia. done.
  - intros i. rewrite length_app. cbn. intros Hlt. destruct (decide (i = length q)) as [->|Hne].
    + rewrite He, list_lookup_insert_eq, lookup_app_r, Nat.sub_diag by (rewrite <- ?He; lia). done.
    + rewrite lookup_app_l, <- Hq by lia. apply list_lookup_insert_ne.
      intros E. apply Hne. assert (entry = Z.of_nat i); [|lia].
      pose proof (ring_pos_range cap out (Z.of_nat i) ltac:(lia)).
      apply (ring_pos_inj cap out); lia.
Qed.

Lemma mb_put_front_ok v m cap q :
  mb_holds m cap q -> Z.of_nat (length q) < cap ->
  exists m', mb_put_front v m = Some m' /\ mb_holds m' cap (v :: q).
Proof.
  intros HM Hl. destruct m as [pool size entry inn out adr].
  destruct HM as [Hc Hs Hp Ho He Hr Hi Hq]. cbn in *. subst size inn.
  set (out' := if 0 <? out then out - 1 else cap - 1).
  assert (Ho' : 0 <= out' < cap) by (unfold out'; destruct (Z.ltb_spec 0 out); lia).
  assert (Eo : ring_pos cap out' 1 = out).
  { rewrite ring_pos_eq by lia. destruct (Z.ltb_spec (out' + 1) cap); unfold out' in *;
      destruct (Z.ltb_spec 0 out); lia. }
  eexists. split; [apply (mb_put_front_eq _ _ _ _ _ _ _ out'); [done|lia|done|done|apply lookup_lt_is_Some; lia]|].
  split; cbn; [done|done|by rewrite length_insert|done|lia|lia| |].
  - rewrite <- Eo, ring_pos_add by lia. f_equal. lia.
  - intros [|i] Hlt.
    + rewrite ring_pos_0, list_lookup_insert_eq by lia. done.
    + assert (E : ring_pos cap out' (Z.of_nat (S i)) = ring_pos cap out (Z.of_nat i)).
      { rewrite <- Eo, ring_pos_add by lia. f_equal. lia. }
      pose proof (ring_pos_range cap out (Z.of_nat i) ltac:(lia)).
      rewrite E. cbn. rewrite <- Hq by lia. apply list_lookup_insert_ne. intros E'.
      assert (0 = Z.of_nat (S i)); [|lia]. apply (ring_pos_inj cap out'); [lia..|].
      rewrite ring_pos_0, E by lia. lia.
Qed.

Lemma mb_get_ok m cap v q :
  mb_holds m cap (v :: q) -> exists m', mb_get m = Some (v, m') /\ mb_holds m' cap q.
Proof.
  intros HM. destruct m as [pool size entry inn out adr].
  destruct HM as [Hc Hs Hp Ho He Hr Hi Hq]. cbn [length mb_size mb_entry out_offset in_offset msg_pool] in *.
  subst size inn.
  eexists. split; [apply mb_get_eq; [|lia]|].
  { rewrite <- (ring_pos_0 cap out) by done. apply (Hq 0%nat). lia. }
  rewrite (ring_next cap) by lia. pose proof (ring_pos_range cap out 1 ltac:(lia)).
  split; cbn; [done|done|done|done|lia|lia| |].
  - rewrite ring_pos_add by lia. f_equal. lia.
  - intros i Hlt. rewrite ring_pos_add by lia.
    replace (1 + Z.of_nat i) with (Z.of_nat (S i)) by lia. apply (Hq (S i)). lia.
Qed.

Lemma mb_init_holds pool cap a : 0 < cap < 65536 -> Z.of_nat (length pool) = cap ->
  mb_holds (RtMailbox pool cap 0 0 0 a) cap [].
Proof.
  intros Hc Hp. split; cbn; try lia. by rewrite ring_pos_0 by lia.
Qed.

(** ** Waiting for the ring, and waking who waits *)

(** [o] is the rest of a call that wakes the first thread of the list of [q]:
    with no thread it returns [e] at once, otherwise that thread alone leaves
    the list and gets ready, its [error] unchanged, and the scheduler runs. *)
Definition hands_over `{!SignalOps} {A} (q : qhead) (s : kstate) (o : outcome kstate A) (e : A) : Prop :=
  match queues s !!! q with
  | [] => o = Done e s
  | t :: l => exists th s1, threads s !! t = Some th /\ stat_of th = RT_THREAD_SUSPEND /\
      kok s1 /\ kframe s s1 /\ woken t th s s1 /\
      (forall h, is_wait h = true -> queues s1 !!! h = if decide (h = q) then l else queues s !!! h) /\
      o = (rt_schedule;; mret e) s1
  end.

Section Waiting.
Context `{!SignalOps}.

Lemma wake_first_ok {A} s q (e : A) :
  kok s -> is_wait q = true -> hands_over q s ((wake_first q;; mret e) s) e.
Proof.
  intros HK Hq. unfold hands_over. destruct (queues s !!! q) as [|t l] eqn:El.
  - unfold wake_first, list_isempty, queue, gets, mbind, prog_bind. cbn. rewrite El. done.
  - destruct (ipc_list_resume_ok s q t l HK Hq El) as (th & s1 & Hth & Hst & E & HK1 & F1 & _ & Hw & HQ).
    exists th, s1. do 6 (split; [done|]).
    unfold wake_first, list_isempty, queue, gets, mbind, prog_bind. cbn. rewrite El. cbn.
    unfold mbind, prog_bind. by rewrite E.
Qed.

(** A round of waiting: what [block_on_ok] says, with the time left. *)
Lemma wait_round_ok s me th q r o timeout :
  may_block s me th -> is_wait q = true -> objs s !! r = Some o -> valid_flag (o_flag o) = true ->
  timeout < RT_TICK_MAX / 2 ->
  exists s', blocks me (wait_round q r me timeout s) s'
      (fun th2 s2 => Done (error th2, time_left timeout (rt_tick s) (rt_tick s2)) s2) /\
    blocked s s' me th q (o_flag o) timeout.
Proof.
  intros HM Hq Ho Hfl Ht.
  destruct (block_steps s me th q (o_flag o) timeout) as (s1 & s2 & s' & E1 & E2 & HB & Hb); [done..|].
  exists s'. split; [|done]. unfold wait_round. erewrite bind_done by exact (get_obj_eq s _ _ Ho).
  erewrite bind_done by exact E1. erewrite (bind_done rt_tick_get) by done.
  erewrite bind_done by exact E2.
  assert (rt_tick s1 = rt_tick s) as ->.
  { destruct (ipc_list_suspend_ok s me th q (o_flag o)) as (s1' & E1' & _ & F1 & _); try apply HM; [done..|].
    rewrite E1 in E1'. injection E1' as <-. by rewrite (kf_eq _ _ F1). }
  eapply blocks_ext; [exact (blocks_bind _ _ _ _ _ HB)|]. done.
Qed.
End Waiting.

(** ** The mailbox of the kernel *)
Definition mailbox_is (s : kstate) (x : positive) (cap : Z) (q : list Z) : Prop :=
  typed s (mb_ref x) RT_Object_Class_MailBox /\
  exists m, mailboxes s !! x = Some m /\ mb_holds m cap q.

(** The states that differ in mailbox [x] only. *)
Definition mb_set (x : positive) (m : rt_mailbox) (s : kstate) : kstate :=
  s <| mailboxes ::= <[x := m]> |>.

Lemma mb_set_ok x m s : kok s -> kok (mb_set x m s).
Proof. intros HK. by eapply kok_ext. Qed.
Lemma mb_set_frame x m s : mb_set x m s = s <| mailboxes := mailboxes (mb_set x m s) |>.
Proof. by destruct s. Qed.
Lemma mailbox_is_set s x m cap q q' :
  mailbox_is s x cap q -> mb_holds m cap q' -> mailbox_is (mb_set x m s) x cap q'.
Proof. intros [H1 _] Hm. split; [done|]. exists m. split; [apply lookup_insert_eq|done]. Qed.

Lemma mailbox_is_frame s s' x cap q : kframe s s' -> mailbox_is s x cap q -> mailbox_is s' x cap q.
Proof. intros F [H1 (m & Hm & Hh)]. split; [by apply (kf_typed _ _ F)|]. exists m. by rewrite (kf_eq _ _ F). Qed.

Lemma mb_entry_full m cap q : mb_holds m cap q -> (mb_entry m =? mb_size m) = (Z.of_nat (length q) =? cap).
Proof. intros []. congruence. Qed.
Lemma mb_entry_empty m cap q : mb_holds m cap q -> (mb_entry m =? 0) = bool_decide (q = []).
Proof. intros []. case_bool_decide; [subst|destruct q; [done|]]; simpl in *; lia. Qed.

Section Mailbox.
Context `{!SignalOps}.

Lemma get_mb_eq s x m : mailboxes s !! x = Some m -> get_mb x s = Done m s.
Proof. intros E. unfold get_mb, get, mbind, prog_bind. simpl. by rewrite E. Qed.

Lemma mb_send_loop_room fuel x v timeout s m m' :
  mailboxes s !! x = Some m -> (mb_entry m =? mb_size m) = false -> mb_put v m = Some (RT_EOK, m') ->
  mb_send_loop fuel x v timeout s = (wake_first (QSuspend (mb_ref x));; mret RT_EOK) (mb_set x m' s).
Proof.
  intros Hm Hf Ep. transitivity (mb_send_now x v s).
  - destruct fuel; cbn [mb_send_loop]; erewrite bind_done by exact (get_mb_eq _ _ _ Hm); by rewrite Hf.
  - unfold mb_send_now. erewrite bind_done by exact (get_mb_eq _ _ _ Hm). rewrite Ep. reflexivity.
Qed.

Definition send_again (fuel : nat) (x : positive) (v timeout start : Z) (th : rt_thread) (s : kstate) :=
  if error th =? RT_EOK
  then mb_send_loop fuel x v (time_left timeout start (rt_tick s)) s else Done (error th) s.
Definition recv_again (fuel : nat) (x : positive) (timeout start : Z) (th : rt_thread) (s : kstate) :=
  if error th =? RT_EOK
  then mb_recv_loop fuel x (time_left timeout start (rt_tick s)) s else Done (error th, None) s.

(** C14. [rt_mb_send_wait] on a mailbox that holds the words [q]: with room, the
    word goes behind the others, nothing else changes, and the first thread
    that waits to receive is woken; a full mailbox fails with [-RT_EFULL] and
    no effect when the caller does not wait; otherwise the caller joins the
    senders that wait, with its timer set, the processor goes to another
    thread, and once resumed the call returns the error left in the thread or,
    without one, tries again for the time that is left. *)
Theorem rt_mb_send_wait_refines fuel s x cap q v timeout :
  kok s -> mailbox_is s x cap q ->
  Z.of_nat (length q) <= cap /\
  (Z.of_nat (length q) < cap ->
    exists s0, s0 = s <| mailboxes := mailboxes s0 |> /\ kok s0 /\ mailbox_is s0 x cap (q ++ [v]) /\
      hands_over (QSuspend (mb_ref x)) s0 (rt_mb_send_wait fuel x v timeout s) RT_EOK) /\
  (Z.of_nat (length q) = cap ->
    (timeout = 0 -> rt_mb_send_wait fuel x v timeout s = Done (- RT_EFULL) s) /\
    forall fuel' me th o, fuel = S fuel' -> timeout <> 0 -> may_block s me th ->
      objs s !! mb_ref x = Some o -> valid_flag (o_flag o) = true -> timeout < RT_TICK_MAX / 2 ->
      exists s', blocks me (rt_mb_send_wait fuel x v timeout s) s'
          (send_again fuel' x v timeout (rt_tick s)) /\
        blocked (no_error me th s) s' me (th <| error := RT_EOK |>)
          (QSender (mb_ref x)) (o_flag o) timeout /\
        mailbox_is s' x cap q).
Proof.
  intros HK Hx. pose proof Hx as (Ht & m & Hm & Hh). split; [by apply mh_room in Hh|].
  assert (Eb : forall b, (Z.of_nat (length q) =? cap) = b ->
    rt_mb_send_wait fuel x v timeout s =
      if b && (timeout =? 0) then Done (- RT_EFULL) s else mb_send_loop fuel x v timeout s).
  { intros b Eb. unfold rt_mb_send_wait. erewrite bind_done by (by apply assert_type_eq).
    erewrite bind_done by (by apply get_mb_eq). rewrite (mb_entry_full _ _ _ Hh), Eb.
    by destruct (b && _). }
  split.
  - intros Hl. rewrite (Eb false) by lia. destruct (mb_put_ok v m cap q Hh Hl) as (m' & Ep & Hh').
    exists (mb_set x m' s). split; [apply mb_set_frame|]. split; [by apply mb_set_ok|].
    split; [by eapply mailbox_is_set|].
    cbn [andb]. erewrite mb_send_loop_room by (try done; rewrite (mb_entry_full _ _ _ Hh); lia).
    apply wake_first_ok; [by apply mb_set_ok|done].
  - intros Hl. split; [intros ->; by rewrite (Eb true) by lia|].
    intros fuel' me th o -> Hto HM Ho Hfl Htm. rewrite (Eb true) by lia.
    rewrite (proj2 (Z.eqb_neq timeout 0) Hto). cbn [andb]. unfold mb_send_loop. fold mb_send_loop.
    erewrite bind_done by (by apply get_mb_eq). rewrite (mb_entry_full _ _ _ Hh), (proj2 (Z.eqb_eq _ _) Hl).
    pose proof HM as [_ Hc Hth _ _ Hn _ _].
    erewrite bind_done by (by apply self_eq). erewrite bind_done by exact (mod_thread_eq _ _ _ _ Hth).
    fold (no_error me th s). destruct (no_error_ok s me th HM) as [HM0 F0].
    rewrite (proj2 (Z.eqb_neq timeout 0) Hto).
    erewrite bind_done by exact (in_thread_context_eq (no_error me th s) me Hc Hn).
    destruct (wait_round_ok _ me _ (QSender (mb_ref x)) (mb_ref x) o timeout HM0) as (s' & HB & Hb); [done..|].
    exists s'. split; [|split; [done|]].
    + eapply blocks_ext; [exact (blocks_bind _ _ _ _ _ HB)|]. intros s2 th2 _. unfold send_again.
      cbn [outcome_bind]. by destruct (error th2 =? RT_EOK).
    + apply (mailbox_is_frame s); [|done]. etrans; [exact F0|apply Hb].
Qed.

Lemma mb_recv_loop_some fuel x timeout s m v m' :
  mailboxes s !! x = Some m -> (mb_entry m =? 0) = false -> mb_get m = Some (v, m') ->
  mb_recv_loop fuel x timeout s =
    (wake_first (QSender (mb_ref x));; mret (RT_EOK, Some v)) (mb_set x m' s).
Proof.
  intros Hm Hf Eg. transitivity (mb_recv_now x s).
  - destruct fuel; cbn [mb_recv_loop]; erewrite bind_done by exact (get_mb_eq _ _ _ Hm); by rewrite Hf.
  - unfold mb_recv_now. erewrite bind_done by exact (get_mb_eq _ _ _ Hm). rewrite Eg. reflexivity.
Qed.

(** C15. [rt_mb_recv] on a mailbox that holds the words [q]: the oldest word is
    returned and leaves the mailbox, nothing else changes, and the first thread
    that waits to send is woken; an empty mailbox fails with [-RT_ETIMEOUT] and
    no effect when the caller does not wait; otherwise the caller joins the
    receivers that wait, and once resumed returns the error left in the thread
    or, without one, tries again for the time that is left. So the words come
    out in the order they went in. *)
Theorem rt_mb_recv_refines fuel s x cap q timeout :
  kok s -> mailbox_is s x cap q ->
  match q with
  | v :: q' => exists s0, s0 = s <| mailboxes := mailboxes s0 |> /\ kok s0 /\ mailbox_is s0 x cap q' /\
      hands_over (QSender (mb_ref x)) s0 (rt_mb_recv fuel x timeout s) (RT_EOK, Some v)
  | [] =>
      (timeout = 0 -> rt_mb_recv fuel x timeout s = Done (- RT_ETIMEOUT, None) s) /\
      forall fuel' me th o, fuel = S fuel' -> timeout <> 0 -> may_block s me th ->
        objs s !! mb_ref x = Some o -> valid_flag (o_flag o) = true -> timeout < RT_TICK_MAX / 2 ->
        exists s', blocks me (rt_mb_recv fuel x timeout s) s'
            (recv_again fuel' x timeout (rt_tick s)) /\
          blocked (no_error me th s) s' me (th <| error := RT_EOK |>)
            (QSuspend (mb_ref x)) (o_flag o) timeout /\
          mailbox_is s' x cap []
  end.
Proof.
  intros HK Hx. pose proof Hx as (Ht & m & Hm & Hh).
  assert (Eb : forall b, bool_decide (q = []) = b ->
    rt_mb_recv fuel x timeout s =
      if b && (timeout =? 0) then Done (- RT_ETIMEOUT, None) s else mb_recv_loop fuel x timeout s).
  { intros b Eb. unfold rt_mb_recv. erewrite bind_done by (by apply assert_type_eq).
    erewrite bind_done by (by apply get_mb_eq). rewrite (mb_entry_empty _ _ _ Hh), Eb.
    by destruct (b && _). }
  destruct q as [|v q'].
  - split; [intros ->; by rewrite (Eb true)|].
    intros fuel' me th o -> Hto HM Ho Hfl Htm. rewrite (Eb true) by done.
    rewrite (proj2 (Z.eqb_neq timeout 0) Hto). cbn [andb mb_recv_loop].
    erewrite bind_done by (by apply get_mb_eq). rewrite (mb_entry_empty _ _ _ Hh), bool_decide_true by done.
    pose proof HM as [_ Hc Hth _ _ Hn _ _].
    erewrite bind_done by (by apply self_eq). erewrite bind_done by exact (mod_thread_eq _ _ _ _ Hth).
    fold (no_error me th s). destruct (no_error_ok s me th HM) as [HM0 F0].
    rewrite (proj2 (Z.eqb_neq timeout 0) Hto).
    erewrite bind_done by exact (in_thread_context_eq (no_error me th s) me Hc Hn).
    destruct (wait_round_ok _ me _ (QSuspend (mb_ref x)) (mb_ref x) o timeout HM0) as (s' & HB & Hb); [done..|].
    exists s'. split; [|split; [done|]].
    + eapply blocks_ext; [exact (blocks_bind _ _ _ _ _ HB)|]. intros s2 th2 _. unfold recv_again.
      cbn [outcome_bind]. by destruct (error th2 =? RT_EOK).
    + apply (mailbox_is_frame s); [|done]. etrans; [exact F0|apply Hb].
  - rewrite (Eb false) by done. destruct (mb_get_ok m cap v q' Hh) as (m' & Ep & Hh').
    exists (mb_set x m' s). split; [apply mb_set_frame|]. split; [by apply mb_set_ok|].
    split; [by eapply mailbox_is_set|].
    cbn [andb]. erewrite mb_recv_loop_some by (try done; by rewrite (mb_entry_empty _ _ _ Hh)).
    apply wake_first_ok; [by apply mb_set_ok|done].
Qed.

(** [rt_mb_urgent] puts its word before the words of the mailbox and wakes
    the first thread that waits to receive, or fails with [-RT_EFULL] and no
    effect when the mailbox is full: the ring wraps around on both sides. *)
Theorem rt_mb_urgent_refines s x cap q v :
  kok s -> mailbox_is s x cap q ->
  if Z.of_nat (length q) =? cap then rt_mb_urgent x v s = Done (- RT_EFULL) s
  else exists s0, s0 = s <| mailboxes := mailboxes s0 |> /\ kok s0 /\ mailbox_is s0 x cap (v :: q) /\
    hands_over (QSuspend (mb_ref x)) s0 (rt_mb_urgent x v s) RT_EOK.
Proof.
  intros HK Hx. pose proof Hx as (Ht & m & Hm & Hh). unfold rt_mb_urgent.
  erewrite bind_done by (by apply assert_type_eq). erewrite bind_done by (by apply get_mb_eq).
  rewrite (mb_entry_full _ _ _ Hh). destruct (Z.eqb_spec (Z.of_nat (length q)) cap) as [|Hl]; [done|].
  destruct (mb_put_front_ok v m cap q Hh) as (m' & Ep & Hh'); [apply mh_room in Hh; lia|].
  exists (mb_set x m' s). split; [apply mb_set_frame|]. split; [by apply mb_set_ok|].
  split; [by eapply mailbox_is_set|]. rewrite Ep. erewrite bind_done by done.
  erewrite (bind_done (put_mb x m')) by done. apply wake_first_ok; [by apply mb_set_ok|done].
Qed.
End Mailbox.

(** ** Examples: a mailbox of two words *)
#[local] Existing Instance no_signals.

Definition with_mailbox (m : rt_mailbox) (s : kstate) : kstate := mb_set 1 m s.
Definition mailbox_of (q : list Z) : rt_mailbox :=
  RtMailbox (q ++ replicate (2 - length q) 0) 2 (Z.of_nat (length q)) (Z.of_nat (length q) mod 2) 0 0x20001000.

Lemma mailbox_of_is s q :
  (length q <= 2)%nat -> typed s (mb_ref 1) RT_Object_Class_MailBox ->
  mailbox_is (with_mailbox (mailbox_of q) s) 1 2 q.
Proof.
  intros Hl Ht. split; [done|]. exists (mailbox_of q). split; [apply lookup_insert_eq|].
  destruct q as [|a [|b [|]]]; [..|simpl in Hl; lia]; split; try done; simpl;
    intros [|[|]] Hlt; try done; lia.
Qed.

(** Thread 1 sends 8 to a full mailbox and blocks for 7 ticks. *)
Lemma rt_mb_send_wait_refines_witness :
  let s := with_mailbox (mailbox_of [4; 5]) kstate_ready in
  exists s', blocks 1%positive (rt_mb_send_wait 1 1 8 7 s) s' (send_again 0 1 8 7 0) /\
    mailbox_is s' 1 2 [4; 5] /\ queues s' !!! QSender (mb_ref 1) = [1%positive].
Proof.
  intros s. destruct (rt_mb_send_wait_refines 1 s 1 2 [4; 5] 8 7) as (_ & _ & Hf).
  - apply mb_set_ok, kstate_ready_kok.
  - apply mailbox_of_is; [simpl; lia|by eexists].
  - destruct Hf as [_ Hf]; [done|].
    destruct (Hf 0%nat 1%positive (thread0 RT_THREAD_RUNNING 10) (header RT_Object_Class_MailBox 0))
      as (s' & HB & Hb & Hx); try done.
    + destruct kstate_ready_may_block. split; try done. by apply mb_set_ok.
    + exists s'. split; [exact HB|]. split; [exact Hx|]. by rewrite (bl_queue _ _ _ _ _ _ _ Hb).
Defined.

(** The word 4 is received, and thread 2, that waits to send, is woken. *)
Lemma rt_mb_recv_refines_witness :
  let s := with_mailbox (mailbox_of [4; 5]) (kstate_waiting (QSender (mb_ref 1))) in
  exists s1, rt_mb_recv 0 1 0 s = (rt_schedule;; mret (RT_EOK, Some 4)) s1 /\ mailbox_is s1 1 2 [5] /\
    stat_of <$> threads s1 !! 2%positive = Some RT_THREAD_READY.
Proof.
  intros s. destruct (rt_mb_recv_refines 0 s 1 2 [4; 5] 0) as (s0 & E0 & HK0 & Hx & Hw).
  - by apply mb_set_ok, (kstate_waiting_kok (QSender (mb_ref 1))).
  - apply mailbox_of_is; [simpl; lia|by eexists].
  - assert (EQ : queues s0 !!! QSender (mb_ref 1) = [2%positive]) by (by rewrite E0).
    unfold hands_over in Hw. rewrite EQ in Hw.
    destruct Hw as (th & s1 & Hth & Hst & HK1 & F1 & Hwk & _ & E). exists s1. split; [exact E|].
    split; [by apply (mailbox_is_frame s0)|].
    unfold woken in Hwk. rewrite decide_False in Hwk by (by rewrite E0).
    destruct Hwk as [-> _]. rewrite lookup_insert_eq. simpl. f_equal. by apply stat_of_put_stat.
Defined.

(** The word 8 goes to the front of the mailbox. *)
Lemma rt_mb_urgent_refines_witness :
  let s := with_mailbox (mailbox_of [4]) (kstate_waiting (QSuspend (mb_ref 1))) in
  exists s1, rt_mb_urgent 1 8 s = (rt_schedule;; mret RT_EOK) s1 /\ mailbox_is s1 1 2 [8; 4].
Proof.
  intros s. pose proof (rt_mb_urgent_refines s 1 2 [4] 8) as Hu.
  destruct Hu as (s0 & E0 & HK0 & Hx & Hw).
  - by apply mb_set_ok, (kstate_waiting_kok (QSuspend (mb_ref 1))).
  - apply mailbox_of_is; [simpl; lia|by eexists].
  - assert (EQ : queues s0 !!! QSuspend (mb_ref 1) = [2%positive]) by (by rewrite E0).
    unfold hands_over in Hw. rewrite EQ in Hw.
    destruct Hw as (th & s1 & Hth & Hst & HK1 & F1 & Hwk & _ & E). exists s1. split; [exact E|].
    by apply (mailbox_is_frame s0).
Defined.
