(* ===== verification/DynIpc.v ===== *)
(** Mailboxes on the heap: what [rt_mb_create] and [rt_mb_delete] of ipc.c do
    with the memory, the waiting threads and the other objects. *)
From S2P Require Export HeapImpl MailboxThm.
Local Open Scope Z_scope.

Section DynIpc.
Context `{!SignalOps, !HeapOps, !HeapSpec}.

(** ** Waking all the threads of a list *)
Lemma dyn_ok_resumed D s s' q l e :
  kok s -> dyn_ok D s -> is_wait q = true -> queues s !!! q = l -> (forall r, q = QSuspend r -> ~ heap_private r) ->
  all_resumed q l e s s' -> dyn_ok D s'.
Proof.
  intros HK HD Hq El Hp [A1 A2 A3 A4 A5 A6 A7 A8]. apply (dyn_ok_step D s s' HD).
  - split.
    + by rewrite (kf_eq _ _ A2).
    + by rewrite (kf_eq _ _ A2).
    + intros r Hr. apply (kf_objs _ _ A2). by destruct (private_kind r Hr) as [-> | ->].
    + intros y _. by rewrite (kf_eq _ _ A2).
    + intros x Hr. unfold queue. rewrite A5 by done. rewrite decide_False; [done|]. intros <-. by apply (Hp (sem_ref x)).
    + unfold object_list. by rewrite (kf_eq _ _ A2).
  - intros r _ [Hl (U1 & U2 & U3)]. left. split; [|split; [|split]].
    + intros c. unfold object_list. rewrite (kf_eq _ _ A2). apply Hl.
    + unfold queue in *. rewrite A5 by done. by case_decide.
    + unfold queue in *. rewrite A5 by done. by case_decide.
    + destruct r as [[] t]; try done.
      * intros th. rewrite A4. unfold queue. rewrite A6. case_decide as Hin; [|apply U3]. intros _. exfalso. subst l.
        destruct (ci_wait _ _ _ _ _ (ko_kinv _ HK) q t Hq Hin) as (u & Hu & Hs).
        destruct (U3 u Hu) as [Hc _]. by rewrite Hs in Hc.
      * intros Hin. by apply U3, A8.
Qed.

(** The lists of an object, one after the other. *)
Lemma resume_all_dyn D s q :
  kok s -> dyn_ok D s -> is_wait q = true -> (forall r, q = QSuspend r -> ~ heap_private r) -> dispatched s ->
  exists s', ipc_list_resume_all q s = Done RT_EOK s' /\ all_resumed q (queues s !!! q) (- RT_ERROR) s s' /\
    dyn_ok D s' /\ dispatched s'.
Proof.
  intros HK HD Hq Hp (me & mh & Hc & Hm & Hr).
  assert (Hme : me ∉ queues s !!! q).
  { intros Hin. destruct (ci_wait _ _ _ _ _ (ko_kinv _ HK) q me Hq Hin) as (u & Hu & Hs). simplify_eq.
    by rewrite Hs in Hr. }
  destruct (resume_all_ok s q (queues s !!! q) (- RT_ERROR) HK Hq eq_refl) as (s' & E & HA).
  { intros t. rewrite Hc. by intros [= <-]. }
  exists s'. split; [unfold ipc_list_resume_all; by erewrite bind_done by exact E|]. split; [done|].
  split; [by eapply dyn_ok_resumed|]. exists me, mh. rewrite (ar_current _ _ _ _ _ HA), (ar_threads _ _ _ _ _ HA).
  by rewrite decide_False.
Qed.

(** ** Objects of ipc.c *)

(** A step that changes only [x] and lists of threads waiting for it that were
    empty. *)
Lemma object_step_queue x q s : queue s q = [] -> object_step x s (s <| queues ::= <[q := []]> |>).
Proof. intros Hq. split; try done. split; try done. by apply queue_init. Qed.

Lemma object_step_obj x o s : object_step x s (s <| objs ::= <[x := o]> |>).
Proof. split; try done. intros r Hr. by apply lookup_insert_ne. Qed.

(** What an object step keeps. *)
Lemma object_step_ok D s s' x n :
  dyn_ok D s -> kok s -> owner_of x = x -> D !! home x = Some (n, Some x) -> unused x s -> object_step x s s' ->
  dyn_ok D s' /\ kok s' /\ unused x s'.
Proof.
  intros HD HK Hx HB Hu HS. split; [by eapply dyn_ok_object|]. split.
  - eapply (kok_object s s' x HK); [apply HS|done|done|apply HS].
  - eapply unused_same; [apply HS|done].
Qed.

(** [set_flag] and [_ipc_object_init]. *)
Lemma ipc_start_ok x s o flag :
  objs s !! x = Some o -> queue s (QSuspend x) = [] ->
  exists s1 s', set_flag x flag s = Done tt s1 /\ ipc_object_init x s1 = Done tt s' /\ object_step x s s' /\
    objs s' !! x = Some (o <| o_flag := flag |>) /\
    s' = s <| objs := objs s' |> <| queues := queues s' |>.
Proof.
  intros Ho Hq. set (s1 := s <| objs ::= <[x := o <| o_flag := flag |>]> |>).
  exists s1, (s1 <| queues ::= <[QSuspend x := []]> |>).
  split; [by apply mod_obj_eq|]. split; [done|]. split; [|split; [apply lookup_insert_eq|by destruct s]].
  etrans; [apply object_step_obj|]. by apply object_step_queue.
Qed.

(** ** Mailboxes *)

(** The mailbox [x] of [size] words has been made, of two blocks that nobody had:
    [D'] are the blocks given out now. *)
Definition mb_made (D D' : gmap Z (Z * option ref)) (s s' : kstate) (x : positive) (size : Z) : Prop :=
  created RT_Object_Class_MailBox (mb_ref x) s s' /\ mailbox_is s' x size [] /\
  dyn_object D' RT_Object_Class_MailBox (mb_ref x) s' /\ dyn_ok D' s' /\
  exists m k n, mailboxes s' !! x = Some m /\ size * 4 <= n /\
    D !! Z.pos x = None /\ D !! mb_pool m = None /\ Z.pos x <> mb_pool m /\
    D' = <[mb_pool m := (n, None)]> (<[Z.pos x := (k, Some (mb_ref x))]> D).

(** [rt_mb_create] returns a new mailbox, empty and of the size asked for, in
    two blocks of the heap that nobody had; the rest of the kernel is as it was.
    When there is no room for the object nothing happens, and when there is no
    room for its words the object is deleted again: the blocks given out are the
    same as before. *)
Lemma mb_create_ok D s name size flag :
  dyn_ok D s -> kok s -> interrupt_nest s = 0 -> valid_flag flag = true -> 0 < size < 65536 ->
  exists r s', rt_mb_create name size flag s = Done r s' /\ kok s' /\
    match r with
    | Some x => exists D', mb_made D D' s s' x size
    | None => dyn_ok D s' /\ (s' = s \/ exists x, no_effect (mb_ref x) s s')
    end.
Proof.
  intros HD HK HN Hf Hs. unfold rt_mb_create. unfold rt_assert. rewrite Hf. erewrite bind_done by reflexivity.
  erewrite bind_done by exact (not_in_interrupt_eq s HN).
  destruct (object_create_ok D s RT_Object_Class_MailBox name HD HK HN ltac:(set_solver) ltac:(done))
    as ([a|] & s1 & E1 & HR); erewrite bind_done by exact E1.
  2:{ exists None, s1. subst s1. split; [done|]. split; [done|]. split; [done|]. by left. }
  destruct HR as (k & Ha & Hpos & Hk & Hx & Hh & Hcl & Hu & HC & HK1 & Ho & Es1 & HD1). cbv zeta.
  set (x := Z.to_pos a) in *. change (object_at RT_Object_Class_MailBox a) with (mb_ref x) in *.
  rewrite u16_small by lia.
  destruct (ipc_start_ok (mb_ref x) s1 _ flag Ho (proj1 Hu)) as (s1' & s2 & E2 & E2' & HS2 & Ho2 & Es2).
  erewrite bind_done by exact E2. erewrite bind_done by exact E2'.
  assert (HBx : <[a := (k, Some (mb_ref x))]> D !! home (mb_ref x) = Some (k, Some (mb_ref x))) by (rewrite Hh; apply lookup_insert_eq).
  destruct (object_step_ok _ s1 s2 (mb_ref x) k HD1 HK1 Hx HBx Hu HS2) as (HD2 & HK2 & Hu2).
  destruct (dyn_malloc_ok _ s2 (size * 4) HD2 ltac:(lia)) as ([pool|] & s3 & E3 & HR3); erewrite bind_done by exact E3.
  2:{ subst s3. destruct (create_undo D s s1 s2 RT_Object_Class_MailBox (mb_ref x) k) as (s4 & E4 & HNE & HK4 & HD4);
        [rewrite Hh; by apply not_elem_of_dom|done..|by rewrite Hh|done|done|by eexists|].
      exists None, s4. split; [by erewrite bind_done by exact E4|]. split; [done|]. split; [done|]. right. by exists x. }
  destruct HR3 as (Hp & Hreg & HS3 & n & Hn & HD3). unfold heap_step in HS3.
  cbv beta iota. rewrite bind_gets. unfold put_mb. erewrite bind_done by reflexivity. erewrite bind_done by reflexivity.
  set (m := RtMailbox (words_at (heap_mem s3) pool (Z.to_nat size)) size 0 0 0 pool).
  set (s4 := s3 <| mailboxes ::= <[x := m]> |>). set (s5 := s4 <| queues ::= <[QSender (mb_ref x) := []]> |>).
  assert (Hneq : pool <> a). { intros ->. by rewrite lookup_insert_eq in Hp. }
  rewrite lookup_insert_ne in Hp by done.
  assert (S23 : same_kernel s2 s3) by (split; by rewrite HS3).
  assert (O23 : forall r, objs s3 !! r = objs s2 !! r) by (intros r; by rewrite HS3).
  assert (L23 : containers s3 = containers s2) by (by rewrite HS3).
  assert (HK3 : kok s3) by (by apply (kok_object s2 s3 (mb_ref x) HK2)).
  assert (Hu3 : unused (mb_ref x) s3) by (by eapply unused_same).
  assert (HS5 : object_step (mb_ref x) s3 s5).
  { transitivity s4; [by split|]. apply (object_step_queue (mb_ref x) (QSender (mb_ref x))). apply Hu3. }
  assert (HBx3 : <[pool := (n, None)]> (<[a := (k, Some (mb_ref x))]> D) !! home (mb_ref x) = Some (k, Some (mb_ref x))).
  { rewrite lookup_insert_ne; [done|]. by rewrite Hh. }
  destruct (object_step_ok _ s3 s5 (mb_ref x) k HD3 HK3 Hx HBx3 Hu3 HS5) as (HD5 & HK5 & _).
  assert (Ea : Z.pos x = a) by (by apply Z2Pos.id).
  assert (Ho5 : objs s5 !! mb_ref x = objs s2 !! mb_ref x) by exact (O23 _). rewrite Ho2 in Ho5.
  exists (Some x), s5. split; [done|]. split; [done|]. eexists. split; [|split; [|split]].
  - destruct HC as [C1 C2 C3]. split.
    + etrans; [exact C1|]. etrans; [apply HS2|]. etrans; [exact S23|apply HS5].
    + intros r Hr. rewrite (os_objs _ _ _ HS5) by done. rewrite O23, (os_objs _ _ _ HS2) by done. by apply C2.
    + intros c. unfold object_list. rewrite (os_lists _ _ _ HS5), L23, (os_lists _ _ _ HS2). apply C3.
  - split; [by eexists; split; [exact Ho5|]|]. exists m. split; [apply lookup_insert_eq|]. apply mb_init_holds; [done|].
    unfold words_at. rewrite length_map, length_seq. lia.
  - split; [done|]. split; [by eexists; split; [exact Ho5|]|by exists k].
  - split; [done|]. exists m, k, n. rewrite Ea. split; [apply lookup_insert_eq|].
    do 3 (split; [done|]). split; [by intros E|done].
Qed.

Lemma owner_simple r x : owner_of r = x -> fst x <> KThread -> fst x <> KTimer -> r = x.
Proof. intros <-. destruct r as [[] t]; try done. by destruct t. Qed.

Lemma assert_dynamic_eq s x o :
  objs s !! x = Some o -> has_bits (o_type o) RT_Object_Class_Static = false -> assert_dynamic x s = Done tt s.
Proof.
  intros Ho Hs. unfold assert_dynamic, rt_object_is_systemobject. erewrite (bind_done _ _ s false s); [done|].
  erewrite bind_done by (by apply get_obj_eq). by rewrite Hs.
Qed.

(** Freeing a block that belongs to an object, and then the object. *)
Lemma free_and_delete D s c x a n :
  dyn_ok D s -> kok s -> dyn_object D c x s -> has_bits c RT_Object_Class_Static = false ->
  (forall r, owner_of r = x -> unused r s /\ (r <> x -> unlisted r s)) -> D !! a = Some (n, None) ->
  exists s1 s', heap_free a s = Done tt s1 /\ rt_object_delete x s1 = Done tt s' /\ deleted x s s' /\ kok s' /\
    dyn_ok (delete (home x) (delete a D)) s'.
Proof.
  intros HD HK (Hx & (o & Ho & Ht) & k & HB) Hc Hu Ha.
  destruct (dyn_free_ok _ _ _ _ HD Ha) as (s1 & E1 & HS & HD1). pose proof (heap_step_data _ _ HS) as HSd.
  assert (Hob : objs s1 = objs s) by (unfold heap_step in HS; by rewrite HS).
  assert (Hne : a <> home x) by (intros ->; congruence).
  assert (HK1 : kok s1) by (apply (kok_object s s1 x HK); [done|done|by apply Hu|intros r _; by rewrite Hob]).
  destruct (object_delete_ok _ s1 c x HD1 HK1) as (s' & E & [D1 D2 D3 D4] & HK' & HD').
  { split; [done|]. split; [by exists o; rewrite Hob|]. exists k. by rewrite lookup_delete_ne. } { done. }
  { intros r Hr. destruct (Hu r Hr) as [Hu1 Hu2]. split; [by eapply unused_same|]. intros Hrx c'.
    unfold object_list. unfold heap_step in HS. rewrite HS. by apply (Hu2 Hrx). }
  exists s1, s'. split; [done|]. split; [done|]. split; [|done]. unfold heap_step in HS. split.
  - rewrite D1. rewrite HS. by destruct s.
  - intros r Hr. by rewrite D2, Hob.
  - done.
  - intros c'. rewrite D4. unfold object_list. by rewrite HS.
Qed.

(** C26. [rt_mb_delete] of a mailbox on the heap wakes all the threads that wait to
    receive and then all that wait to send, in their order and with the error
    [-RT_ERROR], leaves both lists empty, takes the object out of its list and
    gives both of its blocks back to the heap. *)
Theorem rt_mb_delete_correct D s x m n :
  dyn_ok D s -> kok s -> interrupt_nest s = 0 -> dispatched s ->
  dyn_object D RT_Object_Class_MailBox (mb_ref x) s -> mailboxes s !! x = Some m -> D !! mb_pool m = Some (n, None) ->
  exists s1 s2 s', rt_mb_delete x s = Done RT_EOK s' /\
    all_resumed (QSuspend (mb_ref x)) (queue s (QSuspend (mb_ref x))) (- RT_ERROR) s s1 /\
    all_resumed (QSender (mb_ref x)) (queue s (QSender (mb_ref x))) (- RT_ERROR) s1 s2 /\
    deleted (mb_ref x) s2 s' /\ kok s' /\ dyn_ok (delete (Z.pos x) (delete (mb_pool m) D)) s'.
Proof.
  intros HD HK HN Hd (Hx & (o & Ho & Ht) & k & HB) Hm Hp. unfold rt_mb_delete.
  erewrite bind_done by (apply assert_type_eq; exists o; by rewrite Ht).   erewrite bind_done by (apply (assert_dynamic_eq _ _ o Ho); by rewrite Ht).
  erewrite bind_done by exact (not_in_interrupt_eq s HN).
  destruct (resume_all_dyn D s (QSuspend (mb_ref x)) HK HD eq_refl) as (s1 & E1 & A1 & HD1 & Hd1);
    [by intros r [= <-]; eapply not_private|done|]. pose proof (ar_kok _ _ _ _ _ A1) as HK1.
  destruct (resume_all_dyn D s1 (QSender (mb_ref x)) HK1 HD1 eq_refl) as (s2 & E2 & A2 & HD2 & Hd2); [done..|].
  pose proof (ar_kok _ _ _ _ _ A2) as HK2. assert (F : kframe s s2) by (etrans; [apply A1|apply A2]).
  erewrite bind_done by exact E1. erewrite bind_done by exact E2. unfold queue.
  erewrite (bind_done (get_mb x)) by (apply get_mb_eq; rewrite (kf_mailboxes _ _ F); exact Hm).
  destruct (free_and_delete D s2 RT_Object_Class_MailBox (mb_ref x) (mb_pool m) n HD2 HK2) as (s3 & s' & E3 & E4 & HDe & HK' & HD').
  { split; [done|]. split; [|by exists k]. exists o. by rewrite (kf_objs _ _ F). } { done. }
  { intros r Hr. apply owner_simple in Hr as ->; [|done..]. split; [|done]. split; [|split; [|done]]; unfold queue.
    - rewrite (ar_wait _ _ _ _ _ A2), decide_False, (ar_wait _ _ _ _ _ A1), decide_True by done. done.
    - by rewrite (ar_wait _ _ _ _ _ A2), decide_True by done. } { done. }
  exists s1, s2, s'. split; [erewrite bind_done by exact E3; by erewrite bind_done by exact E4|].
  split; [exact A1|]. split; [|done].
  rewrite (ar_wait _ _ _ _ _ A1) in A2 by done. exact A2.
Qed.
End DynIpc.

(** ** Witnesses *)
#[local] Existing Instance no_signals.
#[local] Existing Instance heap_spec_4k.

Lemma kstate_dyn_dispatched : dispatched kstate_dyn.
Proof. by exists 1%positive, (thread0 RT_THREAD_RUNNING 10). Qed.

(** A mailbox of two words fits, one of 2000 does not. *)
Lemma mb_create_example :
  (exists x s' D', rt_mb_create [109] 2 0 kstate_dyn = Done (Some x) s' /\ mb_made ∅ D' kstate_dyn s' x 2) /\
  (exists s', rt_mb_create [109] 2000 0 kstate_dyn = Done None s' /\ dyn_ok ∅ s').
Proof.
  split.
  - destruct (mb_create_ok ∅ kstate_dyn [109] 2 0 kstate_dyn_ok kstate_dyn_kok eq_refl eq_refl ltac:(lia))
      as ([x|] & s' & E & _ & HR).
    + destruct HR as (D' & HM). exists x, s', D'. split; [exact E|exact HM].
    + assert (Hz : match rt_mb_create [109] 2 0 kstate_dyn with Done None _ => true | _ => false end = false) by (by vm_compute).
      rewrite E in Hz. discriminate Hz.
  - destruct (mb_create_ok ∅ kstate_dyn [109] 2000 0 kstate_dyn_ok kstate_dyn_kok eq_refl eq_refl ltac:(lia))
      as ([x|] & s' & E & _ & HR).
    + assert (Hz : match rt_mb_create [109] 2000 0 kstate_dyn with Done (Some _) _ => true | _ => false end = false)
        by (by vm_compute).
      rewrite E in Hz. discriminate Hz.
    + exists s'. split; [exact E|]. apply HR.
Qed.

(** Creating a mailbox and deleting it leaves nothing on the heap. *)
Lemma rt_mb_delete_correct_witness :
  exists x s1 s2, rt_mb_create [109] 2 0 kstate_dyn = Done (Some x) s1 /\ rt_mb_delete x s1 = Done RT_EOK s2 /\
    dyn_ok ∅ s2.
Proof.
  destruct (mb_create_ok ∅ kstate_dyn [109] 2 0 kstate_dyn_ok kstate_dyn_kok eq_refl eq_refl ltac:(lia))
    as ([x|] & s1 & E & HK & HR).
  2:{ assert (Hz : match rt_mb_create [109] 2 0 kstate_dyn with Done None _ => true | _ => false end = false) by (by vm_compute).
      rewrite E in Hz. discriminate Hz. }
  destruct HR as (D' & HC & _ & HO & HD & m & k & n & Hm & _ & N1 & N2 & Hne & ED).
  destruct (rt_mb_delete_correct D' s1 x m n HD HK) as (s2 & s3 & s4 & E' & _ & _ & _ & _ & HD').
  - rewrite (sd_nest _ _ (cr_data _ _ _ _ HC)). reflexivity.
  - destruct kstate_dyn_dispatched as (t & th & H1 & H2 & H3). exists t, th.
    rewrite (sd_current _ _ (cr_data _ _ _ _ HC)), (sd_threads _ _ (cr_data _ _ _ _ HC)).
    split; [exact H1|]. split; [exact H2|exact H3].
  - exact HO.
  - exact Hm.
  - rewrite ED. apply lookup_insert_eq.
  - exists x, s1, s4. split; [exact E|]. split; [exact E'|]. rewrite ED in HD'.
    rewrite delete_insert_id in HD' by (rewrite lookup_insert_ne; [exact N2|exact Hne]).
    rewrite delete_insert_id in HD' by exact N1. exact HD'.
Defined.
