(* ===== verification/ThreadLife.v ===== *)
(** The life of a thread on the heap: [rt_thread_create] and [rt_thread_delete]
    of thread.c, and what the idle thread does with it in the end. *)
From S2P Require Export DynIpc Timeouts.
Local Open Scope Z_scope.

(** ** A new thread *)
Definition new_thread (stack_start size prio tick : Z) : rt_thread :=
  RtThread (rt_hw_stack_init (stack_start + size - 4)) stack_start size 35
    RT_EOK RT_THREAD_INIT prio prio 0 0 0 0 0 None None [] tick tick None 0 0 0.

Lemma align_down_8 x : x - 7 <= RT_ALIGN_DOWN x 8 <= x.
Proof. change 8 with (2 ^ 3). rewrite align_down_eq by done. pose proof (Z.mod_pos_bound x (2 ^ 3)). lia. Qed.

(** Its first frame is inside of its stack. *)
Lemma new_thread_ok st size prio tick : 76 <= size -> thread_ok (new_thread st size prio tick).
Proof.
  intros Hs. split; [by intros []|]. unfold stack_overflow, new_thread, rt_hw_stack_init, SIZEOF_STACK_FRAME. cbn [stack_guard sp stack_addr stack_size].
  pose proof (align_down_8 (st + size - 4 + 4)) as Ha. clear -Ha Hs. lia.
Qed.

(** A thread in the state INIT is in no list, and the scheduler does not see it. *)
Lemma core_inv_new T Q g c t th :
  core_inv ∅ T Q g c -> unlinked t Q -> thread_ok th -> stat_of th = RT_THREAD_INIT -> core_inv ∅ (<[t := th]> T) Q g c.
Proof.
  intros HI Hun Hok Hs. assert (Hne : forall h u, u ∈ Q !!! h -> t <> u) by (intros h u Hu ->; by apply (Hun h)).
  pose proof HI as []. split; try done.
  - intros u uh. rewrite lookup_insert. case_decide; [intros [=]; by subst|eauto].
  - intros p u Hu. rewrite lookup_insert_ne; eauto.
  - intros h u Hh Hu. rewrite lookup_insert_ne; eauto.
  - intros u Hu. rewrite lookup_insert_ne; eauto.
  - intros u Hu. rewrite lookup_insert. case_decide; eauto.
  - intros u uh Hu. rewrite lookup_insert. case_decide; [intros [= <-]; by rewrite Hs|by eauto].
  - intros u uh Hu. rewrite lookup_insert. case_decide; [intros [= <-]; by rewrite Hs|by eauto].
  - intros u uh Hu Hc. rewrite lookup_insert. case_decide; [intros [= <-]; by rewrite Hs|by eauto].
Qed.

(** Nothing is left of a thread that was at [t] before. *)
Record fresh_thread (t : tid) (s : kstate) : Prop := {
  ft_stat th : threads s !! t = Some th -> stat_of th = RT_THREAD_CLOSE;
  ft_unlinked : unlinked t (queues s);
  ft_timer : thread_timer t ∉ timer_list s;
  ft_unlisted : timer_ref (thread_timer t) ∉ object_list s RT_Object_Class_Timer }.

Lemma fresh_object_thread t s : kok s -> fresh_object (thread_ref t) s -> fresh_thread t s.
Proof.
  intros HK Hf. destruct (Hf (thread_ref t) eq_refl) as [_ (_ & _ & Hu)].
  destruct (Hf (timer_ref (thread_timer t)) eq_refl) as [Hl (_ & _ & Ht)]. split.
  - intros th Hth. by apply Hu.
  - intros h Hin.
    destruct (decide (h = QDefunct)) as [->|Hne].
    + destruct (ci_defunct _ _ _ _ _ (ko_kinv _ HK) t Hin) as (th & Hth & _). by apply (Hu th Hth).
    + assert (is_Some (threads s !! t)) as [th Hth].
      { destruct h as [p|r|r|]; [|..|done].
        - destruct (ci_ready _ _ _ _ _ (ko_kinv _ HK) p t Hin) as (th & ? & _). by eexists.
        - destruct (ci_wait _ _ _ _ _ (ko_kinv _ HK) (QSuspend r) t eq_refl Hin) as (th & ? & _). by eexists.
        - destruct (ci_wait _ _ _ _ _ (ko_kinv _ HK) (QSender r) t eq_refl Hin) as (th & ? & _). by eexists. }
      pose proof (linked_stat _ _ _ _ _ _ _ _ (ko_kinv _ HK) Hin Hth) as E. destruct (Hu th Hth) as [Hc _].
      rewrite Hc in E. by destruct h.
  - done.
  - apply Hl.
Qed.

Section ThreadLife.
Context `{!SignalOps, !HeapOps, !HeapSpec}.

(** What [_thread_init] changes. *)
Record inited (t : tid) (th : rt_thread) (s s' : kstate) : Prop := {
  in_eq : s' = s <| threads := <[t := th]> (threads s) |> <| objs := objs s' |>
                 <| containers := containers s' |> <| timers := timers s' |>;
  in_objs r : r <> timer_ref (thread_timer t) -> objs s' !! r = objs s !! r;
  in_timer : exists o, objs s' !! timer_ref (thread_timer t) = Some o /\
    o_type o = Z.lor RT_Object_Class_Timer RT_Object_Class_Static;
  in_timers tm : tm <> thread_timer t -> timers s' !! tm = timers s !! tm;
  in_timeout : thread_timer_ok s' t;
  in_list c : object_list s' c =
    if decide (c = RT_Object_Class_Timer) then timer_ref (thread_timer t) :: object_list s c else object_list s c }.

Lemma kok_inited s s' t th :
  kok s -> fresh_thread t s -> typed s (thread_ref t) RT_Object_Class_Thread -> thread_ok th ->
  stat_of th = RT_THREAD_INIT -> inited t th s s' -> kok s'.
Proof.
  intros [HI HL HT] [F1 F2 F3 F4] Hty Hok Hst [E O1 O2 T1 T2 _].
  assert (Eth : threads s' = <[t := th]> (threads s)) by (by rewrite E).
  assert (Etl : timer_list s' = timer_list s) by (by rewrite E).
  assert (Hty' : forall r c, r <> timer_ref (thread_timer t) -> typed s r c -> typed s' r c).
  { intros r c Hr. unfold typed. by rewrite O1. }
  split.
  - unfold kinv, kinv_ex. rewrite Eth. rewrite E. by apply core_inv_new.
  - intros u uh. rewrite Eth. destruct (decide (u = t)) as [->|Hne].
    + intros _ _. split; [by apply Hty'|]. split; [|done]. destruct O2 as (o & Ho & Et). exists o. by rewrite Et.
    + rewrite lookup_insert_ne by done. intros Hu Hs. destruct (HL u uh Hu Hs) as (A1 & A2 & A3).
      assert (Hne' : thread_timer u <> thread_timer t) by (by intros [= ->]).
      split; [by apply Hty'|]. split; [apply Hty'; [by intros [= ->]|done]|].
      unfold thread_timer_ok. by rewrite T1.
  - intros tm. rewrite Etl. intros Hin. assert (Hne : tm <> thread_timer t) by (by intros ->).
    apply (timer_active_frame s); [by apply HT|by apply T1|apply O1; by intros [= ->]|].
    intros u uh -> Hu Hs. exists uh. split; [|done]. rewrite Eth, lookup_insert_ne; [done|by intros ->].
Qed.

Lemma thread_init_ok s t st size prio tick :
  kok s -> calm s -> fresh_thread t s -> typed s (thread_ref t) RT_Object_Class_Thread ->
  76 <= size -> 0 <= prio < RT_THREAD_PRIORITY_MAX ->
  exists s', thread_init t st size prio tick s = Done RT_EOK s' /\ kok s' /\
    inited t (new_thread st size prio tick) s s'.
Proof.
  intros HK HC HF Hty Hs Hp. pose proof HF as [F1 F2 F3 F4]. pose proof (new_thread_ok st size prio tick Hs) as Hok.
  set (th := new_thread st size prio tick) in *. set (s1 := s <| threads ::= <[t := th]> |>).
  assert (HC1 : calm s1).
  { destruct HC as [HL Hc]. split; [done|]. intros me Hme. destruct (Hc me Hme) as (HI & mh & Hm & Hst & Hrest).
    split; [by apply core_inv_new|]. exists mh. split; [|done]. etrans; [apply lookup_insert_ne|exact Hm].
    intros <-. by rewrite (F1 mh Hm) in Hst. }
  destruct Hty as (o & Ho & Hc).
  destruct (timer_init_calm s1 (thread_timer t) (o_name o) F_rt_thread_timeout t 0 RT_TIMER_FLAG_ONE_SHOT HC1 F4 eq_refl)
    as (o' & Ho' & Hf & E).
  match type of E with _ = Done tt ?x => set (s2 := x) in E end.
  assert (HIn : inited t th s s2).
  { split.
    - by destruct s.
    - intros r Hr. cbn. by apply lookup_insert_ne.
    - exists o'. split; [apply lookup_insert_eq|done].
    - intros tm Htm. cbn. by apply lookup_insert_ne.
    - eexists. split; [apply lookup_insert_eq|done].
    - intros c. unfold object_list. cbn. case_decide as Ec; [subst c; apply lookup_total_insert_eq|].
      by apply lookup_total_insert_ne. }
  exists s2. split; [|split; [|exact HIn]].
  - unfold thread_init. erewrite bind_done by (unfold rt_assert; by rewrite (proj2 (Z.ltb_lt _ _)) by lia).
    replace (u8 prio) with prio by (symmetry; apply Z.mod_small; unfold RT_THREAD_PRIORITY_MAX in Hp; lia).
    erewrite (bind_done _ _ s tt s1) by reflexivity. erewrite bind_done by exact (get_obj_eq s1 _ o Ho).
    by erewrite bind_done by exact E.
  - eapply (kok_inited s); [done..|by exists o|done|done|exact HIn].
Qed.

Lemma calm_same s s' : same_kernel s s' -> calm s -> calm s'.
Proof.
  intros [E1 E2 E3 E4 _ _ _ _ E9] [HL Hc]. split; [by rewrite E9|]. intros me Hme. rewrite E4 in Hme.
  destruct (Hc me Hme) as (HI & th & Hth & Hs & Hy & Hp). split; [|exists th; rewrite E1; split_and!; try done].
  - unfold kinv, kinv_ex. rewrite E1, E3, E4. by eapply core_inv_ext.
  - intros p u. rewrite E2. apply Hp.
Qed.

Lemma fresh_thread_same t s s' :
  same_kernel s s' -> object_list s' RT_Object_Class_Timer = object_list s RT_Object_Class_Timer ->
  fresh_thread t s -> fresh_thread t s'.
Proof.
  intros [E1 E2 _ _ _ E6 _ _ _] EL [F1 F2 F3 F4]. split; rewrite ?E1, ?E6, ?EL; try done.
  intros h Hin. apply (F2 h). change (queues s !!! h) with (queue s h). by rewrite <- E2.
Qed.

(** The thread that is made has its object, its timer and a stack of its own. *)
Record thread_made (D D' : gmap Z (Z * option ref)) (s s' : kstate) (t : tid) (size prio tick : Z) : Prop := {
  tm_threads : exists st k n, threads s' = <[t := new_thread st size prio tick]> (threads s) /\
    size <= n /\ D !! Z.pos t = None /\ D !! st = None /\ Z.pos t <> st /\
    D' = <[st := (n, None)]> (<[Z.pos t := (k, Some (thread_ref t))]> D);
  tm_dyn : dyn_ok D' s';
  tm_object : exists o, objs s' !! thread_ref t = Some o /\ o_type o = RT_Object_Class_Thread;
  tm_timer : exists o, objs s' !! timer_ref (thread_timer t) = Some o /\
    o_type o = Z.lor RT_Object_Class_Timer RT_Object_Class_Static;
  tm_unlinked : unlinked t (queues s');
  tm_current : current_thread s' <> Some t;
  tm_fresh r : owner_of r = thread_ref t -> unlisted r s;
  tm_alone r : owner_of r = thread_ref t -> queue s' (QSuspend r) = [] /\ queue s' (QSender r) = [];
  tm_same : same_kernel s (s' <| threads := threads s |> <| timers := timers s |>);
  tm_timers tm : tm <> thread_timer t -> timers s' !! tm = timers s !! tm;
  tm_objs r : owner_of r <> thread_ref t -> objs s' !! r = objs s !! r;
  tm_list c : object_list s' c =
    if decide (c = RT_Object_Class_Thread) then thread_ref t :: object_list s c
    else if decide (c = RT_Object_Class_Timer) then timer_ref (thread_timer t) :: object_list s c
    else object_list s c }.

(** A thread that is on the heap has its control block there. *)
Definition covered (D : gmap Z (Z * option ref)) (t : tid) : Prop :=
  heap_region (home (thread_ref t)) -> exists k, D !! home (thread_ref t) = Some (k, Some (thread_ref t)).

Lemma covered_object D t k : D !! home (thread_ref t) = Some (k, Some (thread_ref t)) -> covered D t.
Proof. intros Hk _. by exists k. Qed.

Lemma dyn_ok_inited D s s' t th : dyn_ok D s -> covered D t -> inited t th s s' -> dyn_ok D s'.
Proof.
  intros HD HB [E O1 O2 T1 T2 L]. apply (dyn_ok_step D s s' HD).
  - split; try (by rewrite E); [|by rewrite L].
    intros r Hr. apply O1. intros ->. by destruct (private_kind _ Hr).
  - intros r Hr [Hl Hu]. destruct (decide (owner_of r = thread_ref t)) as [Er|Er].
    { right. unfold covered, home in *. rewrite Er in Hr |- *. by apply HB. }
    left. split.
    + intros c. rewrite L. case_decide; [|apply Hl]. intros [->|Hin]%elem_of_cons; [done|by eapply Hl].
    + revert Hu. unfold unused, queue. rewrite E. cbn. intros (U1 & U2 & U3). split; [done|]. split; [done|].
      destruct r as [[] u]; try done. rewrite lookup_insert_ne; [done|]. by intros ->.
Qed.

Lemma thread_create_ok D s name size prio tick :
  dyn_ok D s -> kok s -> calm s -> interrupt_nest s = 0 ->
  76 <= size <= 2 ^ 32 - 4 -> 0 <= prio < RT_THREAD_PRIORITY_MAX ->
  exists r s', rt_thread_create name size prio tick s = Done r s' /\ kok s' /\
    match r with
    | Some t => exists D', thread_made D D' s s' t size prio tick
    | None => dyn_ok D s' /\ (s' = s \/ exists t, no_effect (thread_ref t) s s')
    end.
Proof.
  intros HD HK HC HN Hs Hp. unfold rt_thread_create.
  destruct (object_create_ok D s RT_Object_Class_Thread name HD HK HN ltac:(set_solver) ltac:(done))
    as ([a|] & s1 & E1 & HR); erewrite bind_done by exact E1.
  2:{ exists None, s1. subst s1. split; [done|]. split; [done|]. split; [done|]. by left. }
  destruct HR as (k & Ha & Hpos & Hk & Hx & Hh & Hcl & Hu & HCr & HK1 & Ho & Es1 & HD1). cbv zeta.
  set (t := Z.to_pos a) in *. change (object_at RT_Object_Class_Thread a) with (thread_ref t) in *.
  destruct (dyn_malloc_ok _ s1 size HD1 ltac:(lia)) as ([st|] & s2 & E2 & HR2); erewrite bind_done by exact E2.
  2:{ subst s2. destruct (create_undo D s s1 s1 RT_Object_Class_Thread (thread_ref t) k) as (s4 & E4 & HNE & HK4 & HD4);
        [rewrite Hh; by apply not_elem_of_dom|done..|by rewrite Hh|done|done|by eexists|].
      exists None, s4. split; [by erewrite bind_done by exact E4|]. split; [done|]. split; [done|]. right. by exists t. }
  destruct HR2 as (Hst & Hreg & HS2 & n & Hn & HD2).
  pose proof (heap_step_data _ _ HS2) as S12. unfold heap_step in HS2.
  assert (O12 : objs s2 = objs s1) by (by rewrite HS2).
  assert (L12 : containers s2 = containers s1) by (by rewrite HS2).
  assert (HK2 : kok s2) by (apply (kok_object s1 s2 (thread_ref t) HK1 S12 Hx Hu); by rewrite O12).
  assert (S02 : same_kernel s s2) by (etrans; [apply HCr|exact S12]).
  assert (HF2 : fresh_thread t s2).
  { apply (fresh_thread_same t s); [done| |by apply fresh_object_thread]. unfold object_list. rewrite L12.
    by apply (cr_list _ _ _ _ HCr RT_Object_Class_Timer). }
  destruct (thread_init_ok s2 t st size prio tick HK2) as (s3 & E3 & HK3 & HIn); [by eapply calm_same|done| |lia|done|].
  { eexists. rewrite O12. split; [exact Ho|done]. }
  erewrite bind_done by exact E3. exists (Some t), s3. split; [done|]. split; [exact HK3|].
  assert (Ea : Z.pos t = a) by (by apply Z2Pos.id). rewrite lookup_insert_None in Hst. destruct Hst as [Hst Hne].
  pose proof (in_eq _ _ _ _ HIn) as E23.
  eexists. split.
  - exists st, k, n. rewrite Ea. split; [rewrite E23; cbn; by rewrite (sd_threads _ _ S02)|]. split_and!; done.
  - eapply (dyn_ok_inited _ s2); [exact HD2| |exact HIn]. apply (covered_object _ _ k). rewrite Hh, lookup_insert_ne by done. apply lookup_insert_eq.
  - eexists. rewrite (in_objs _ _ _ _ HIn) by done. rewrite O12. by split.
  - apply HIn.
  - rewrite E23. apply HF2.
  - rewrite E23. cbn. rewrite (sd_current _ _ S02). intros Hc. destruct (proj2 HC t Hc) as (_ & mh & Hm & Hm' & _).
    by rewrite (ft_stat _ _ (fresh_object_thread t s HK Hcl) mh Hm) in Hm'.
  - intros r Hr. by apply Hcl.
  - intros r Hr. destruct (Hcl r Hr) as [_ (U1 & U2 & _)]. unfold queue. rewrite E23.
    split; [etrans; [apply (sd_queue _ _ S02)|exact U1]|etrans; [apply (sd_queue _ _ S02)|exact U2]].
  - split; [reflexivity|intros h| | |reflexivity|..]; rewrite E23; apply S02.
  - intros tm Htm. rewrite (in_timers _ _ _ _ HIn) by done. by rewrite (sd_timers _ _ S02).
  - intros r Hr. rewrite (in_objs _ _ _ _ HIn) by (by intros ->). rewrite O12. apply (cr_objs _ _ _ _ HCr). by intros ->.
  - intros c. assert (EL : object_list s2 c = object_list s1 c) by (unfold object_list; by rewrite L12).
    rewrite (in_list _ _ _ _ HIn), EL, (cr_list _ _ _ _ HCr). clear. repeat case_decide; by subst.
Qed.

(** ** Starting it *)

(** The state that [rt_thread_resume] finds. *)
Definition started (th : rt_thread) : rt_thread :=
  th <| current_priority := init_priority th |> <| number_mask := 2 ^ init_priority th |> <| stat := RT_THREAD_SUSPEND |>.

Lemma kok_started s t th :
  kok s -> threads s !! t = Some th -> stat_of th = RT_THREAD_INIT -> 0 <= init_priority th < RT_THREAD_PRIORITY_MAX ->
  let s1 := s <| threads ::= <[t := started th]> |> in kok s1 /\ kframe s s1.
Proof.
  intros HK Hth Hst Hp s1. pose proof (ko_kinv _ HK) as HI.
  assert (HF : kframe s s1) by (apply kframe_sched_data; by destruct s). split; [|done].
  assert (Hun : unlinked t (queues s)) by (eapply running_unlinked; [exact HI|exact Hth|by right]).
  assert (Hts : threads s1 = <[t := started th]> (threads s)) by done.
  apply (kok_frame s s1 HK); [|done|..].
  - assert (HX : kinv_ex ({[t]} ∪ ∅) s1).
    { apply core_inv_set; [exact HI|done|by exists th|]. split; [done|]. apply (ci_thread _ _ _ _ _ HI t th Hth). }
    apply (kinv_ex_empty (({[t]} ∪ ∅) ∖ {[t]})); [clear; set_solver|].
    apply (core_inv_release _ _ _ _ _ t (started th) HX); [apply lookup_insert_eq|done..].
  - intros u uh. rewrite Hts. destruct (decide (u = t)) as [->|Hne].
    + intros _. exists th. split; [done|]. by rewrite Hst.
    + rewrite lookup_insert_ne by done. eauto.
  - intros u. by apply thread_timer_ok_eq.
  - intros tm Hin. apply (timer_active_frame s); [by apply HK|done|done|].
    intros u uh -> Hu Hs. exists uh. split; [|done]. rewrite Hts, lookup_insert_ne; [done|].
    intros ->. simplify_eq. by rewrite Hst in Hs.
Qed.

Lemma threads_put t a b s :
  s <| threads ::= <[t := a]> |> <| threads ::= <[t := b]> |> = s <| threads ::= <[t := b]> |>.
Proof. destruct s. unfold upd, F_threads. simpl. by rewrite insert_insert_eq. Qed.

(** [rt_thread_startup]: the thread is the last of its priority, and the
    scheduler runs if it has been started. *)
Lemma thread_startup_ok s t th :
  kok s -> threads s !! t = Some th -> stat_of th = RT_THREAD_INIT -> 0 <= init_priority th < RT_THREAD_PRIORITY_MAX ->
  current_thread s <> Some t ->
  exists s1, kok s1 /\ kframe s s1 /\ current_thread s1 = current_thread s /\
    threads s1 = <[t := put_stat RT_THREAD_READY (started th)]> (threads s) /\
    queues s1 = q_push_back (QReady (init_priority th)) t (queues s) /\
    timers s1 = timers s /\ (forall tm, tm ∈ timer_list s1 -> tm ∈ timer_list s) /\
    rt_thread_startup t s =
      (if bool_decide (is_Some (current_thread s)) then rt_schedule;; mret RT_EOK else mret RT_EOK) s1.
Proof.
  intros HK Hth Hst Hp Hc. destruct (kok_started s t th HK Hth Hst Hp) as [HK1 F1].
  set (s0 := s <| threads ::= <[t := started th]> |>) in *.
  destruct (ko_live _ HK t th Hth) as (HT & _ & _); [by rewrite Hst|].
  assert (Hs0 : threads s0 !! t = Some (started th)) by apply lookup_insert_eq.
  destruct (rt_thread_resume_ok s0 t (started th) HK1 Hs0 eq_refl) as (s1 & E & HK2 & F2 & HC2 & HW & HTm & HTl).
  unfold woken in HW. rewrite decide_False in HW by done. destruct HW as [HW1 HW2].
  assert (Hun : unlinked t (queues s)) by (eapply running_unlinked; [apply HK|exact Hth|by right]).
  exists s1. split; [done|]. split; [by etrans|]. split; [done|].
  split; [etrans; [exact HW1|]; apply insert_insert_eq|]. split.
  { etrans; [exact HW2|]. change (queues s0) with (queues s). by rewrite q_remove_id. }
  split; [done|]. split; [intros tm; rewrite HTl; by intros [_ ?]%list_elem_of_filter|].
  unfold rt_thread_startup. erewrite bind_done by (by apply get_thread_eq).
  erewrite bind_done by (unfold rt_assert; by rewrite Hst). erewrite bind_done by (by apply assert_type_eq).
  erewrite bind_done by (by apply mod_thread_eq).
  erewrite bind_done by (apply get_thread_eq, lookup_insert_eq).
  erewrite (bind_done (priority_mask _)).
  2:{ unfold priority_mask. erewrite bind_done; [reflexivity|]. unfold rt_assert.
      change (current_priority _) with (init_priority th).
      assert (Hip : in_priority_table (init_priority th) = true) by (unfold in_priority_table; lia). by rewrite Hip. }
  erewrite bind_done by (apply mod_thread_eq, lookup_insert_eq). rewrite threads_put.
  erewrite bind_done by (apply mod_thread_eq, lookup_insert_eq). rewrite threads_put.
  erewrite bind_done by exact E. unfold rt_thread_self. rewrite bind_gets. by rewrite HC2.
Qed.

(** C24. [rt_thread_create] from the heap either makes a thread or leaves nothing
    behind. The new thread has its control block and a stack of at least the size
    that was asked for, apart from everything else in use; it is in the state INIT
    with its first frame inside of its stack, in no list of threads, no object of
    it has a waiter, its timer is in the list of timers; everything else is as it
    was. Without the memory there is no thread and no object, and the control block
    that was taken for it is given back. *)
Theorem rt_thread_create_correct D s name size prio tick :
  dyn_ok D s -> kok s -> calm s -> interrupt_nest s = 0 ->
  76 <= size <= 2 ^ 32 - 4 -> 0 <= prio < RT_THREAD_PRIORITY_MAX ->
  exists r s', rt_thread_create name size prio tick s = Done r s' /\ kok s' /\
    match r with
    | Some t => exists D', thread_made D D' s s' t size prio tick
    | None => dyn_ok D s' /\ (s' = s \/ exists t, no_effect (thread_ref t) s s')
    end.
Proof. intros. by apply thread_create_ok. Qed.
End ThreadLife.

(** ** Witnesses *)
#[local] Existing Instance no_signals.
#[local] Existing Instance heap_spec_4k.

Lemma kstate_dyn_current me mh :
  current_thread kstate_dyn = Some me -> threads kstate_dyn !! me = Some mh -> mh = thread0 RT_THREAD_RUNNING 10.
Proof.
  change (current_thread kstate_dyn) with (Some 1%positive). intros [= <-].
  change (threads kstate_dyn !! 1%positive) with (Some (thread0 RT_THREAD_RUNNING 10)). by intros [= <-].
Qed.

Lemma kstate_dyn_calm : calm kstate_dyn.
Proof.
  split; [by vm_compute|]. intros me Hme. split; [apply kstate_dyn_kok|].
  exists (thread0 RT_THREAD_RUNNING 10). split; [by injection Hme as <-|]. do 2 (split; [by vm_compute|]).
  intros p u Hu. by apply elem_of_nil in Hu.
Qed.

Lemma kstate_dyn_urgent prio me mh :
  10 <= prio -> current_thread kstate_dyn = Some me -> threads kstate_dyn !! me = Some mh -> current_priority mh <= prio.
Proof. intros Hp Hme Hmh. by rewrite (kstate_dyn_current me mh Hme Hmh). Qed.

(** A stack of 256 bytes fits, one of 8000 does not. *)
Lemma rt_thread_create_correct_witness :
  (exists t s' D', rt_thread_create [119] 256 20 10 kstate_dyn = Done (Some t) s' /\
     thread_made ∅ D' kstate_dyn s' t 256 20 10) /\
  (exists s', rt_thread_create [119] 8000 20 10 kstate_dyn = Done None s' /\ dyn_ok ∅ s').
Proof.
  assert (Hp : 0 <= 20 < RT_THREAD_PRIORITY_MAX) by (unfold RT_THREAD_PRIORITY_MAX; lia). split.
  - destruct (rt_thread_create_correct ∅ kstate_dyn [119] 256 20 10 kstate_dyn_ok kstate_dyn_kok kstate_dyn_calm eq_refl
      ltac:(lia) Hp) as ([t|] & s' & E & _ & HR).
    + destruct HR as (D' & HM). exists t, s', D'. split; [exact E|exact HM].
    + assert (Hz : match rt_thread_create [119] 256 20 10 kstate_dyn with Done None _ => true | _ => false end = false) by (by vm_compute).
      rewrite E in Hz. discriminate Hz.
  - destruct (rt_thread_create_correct ∅ kstate_dyn [119] 8000 20 10 kstate_dyn_ok kstate_dyn_kok kstate_dyn_calm eq_refl
      ltac:(lia) Hp) as ([t|] & s' & E & _ & HR).
    + assert (Hz : match rt_thread_create [119] 8000 20 10 kstate_dyn with Done (Some _) _ => true | _ => false end = false)
        by (by vm_compute).
      rewrite E in Hz. discriminate Hz.
    + exists s'. split; [exact E|]. apply HR.
Defined.
