(* ===== verification/ThreadEnd.v ===== *)
(** The end of a thread on the heap: [rt_thread_delete] of thread.c puts it on
    the list of dead threads, and [rt_defunct_execute] of idle.c gives its memory
    back. *)
From S2P Require Export ThreadLife.
Local Open Scope Z_scope.

(** ** The list of dead threads *)

(** The lists lose a thread that is dead. *)
Lemma kok_dequeue s t th :
  kok s -> threads s !! t = Some th -> stat_of th = RT_THREAD_CLOSE ->
  let s1 := s <| queues ::= q_remove t |> in
  kok s1 /\ (forall h, h <> QDefunct -> queue s1 h = queue s h) /\
  queue s1 QDefunct = filter (fun u => u <> t) (queue s QDefunct).
Proof.
  intros HK Hth Hst s1. pose proof (ko_kinv _ HK) as HI.
  assert (HF : kframe s s1) by (apply kframe_sched_data; by destruct s).
  assert (HQ : queues s1 = q_remove t (queues s)) by done. split; [|split].
  - apply (kok_frame s s1 HK); [|done|by eauto|auto|by apply HK].
    assert (HX : kinv_ex ({[t]} ∪ ∅) s1) by (eapply core_inv_remove_suspended; [exact HI|exact Hth|by rewrite Hst]).
    apply (kinv_ex_empty (({[t]} ∪ ∅) ∖ {[t]})); [clear; set_solver|].
    by apply (core_inv_release _ _ _ _ _ t th HX Hth); rewrite Hst.
  - intros h Hne. unfold queue. rewrite HQ, q_remove_lookup. apply filter_alone. intros Hin.
    pose proof (linked_stat _ _ _ _ _ _ _ _ HI Hin Hth) as E. rewrite Hst in E. by destruct h.
  - unfold queue. by rewrite HQ, q_remove_lookup.
Qed.

(** A dead thread joins its list, at the front. *)
Lemma kinv_push_dead s t th :
  kinv_ex {[t]} s -> unlinked t (queues s) -> threads s !! t = Some th -> stat_of th = RT_THREAD_CLOSE ->
  kinv (s <| queues ::= q_push_front QDefunct t |>).
Proof.
  intros HI Hun Hth Hst. apply (kinv_ex_empty ({[t]} ∖ {[t]})); [clear; set_solver|].
  apply (core_inv_release _ _ _ _ _ t th); [|exact Hth|by rewrite Hst..].
  assert (HL : forall h, q_push_front QDefunct t (queues s) !!! h =
    if decide (QDefunct = h) then t :: queues s !!! h else queues s !!! h).
  { intros h. unfold q_push_front. case_decide as Eh; [subst h; apply lookup_total_insert_eq|by apply lookup_total_insert_ne]. }
  apply (core_inv_queues _ _ _ _ _ _ _ QDefunct t HI Hun).
  - intros h u. cbn. rewrite HL. case_decide; [rewrite elem_of_cons|]; naive_solver.
  - intros h. cbn. rewrite HL. case_decide; [|apply HI]. apply NoDup_cons. split; [apply Hun|apply HI].
  - apply HI.
  - intros p Hp. cbn. rewrite HL. by apply HI.
  - by exists th.
Qed.

Section ThreadEnd.
Context `{!SignalOps, !Callbacks, !HeapOps, !HeapSpec}.

(** ** Giving the memory back *)

(** The thread [t] is dead and has nothing left to clean up: its object and its
    stack, at [st], are blocks of the heap. *)
Record dead (D : gmap Z (Z * option ref)) (s : kstate) (t : tid) (st : Z) : Prop := {
  dd_thread : exists th, threads s !! t = Some th /\ stat_of th = RT_THREAD_CLOSE /\ stack_addr th = st /\
    cleanup th = None /\ si_list th = [] /\ sig_vectors th = None;
  dd_stack : exists n, D !! st = Some (n, None);
  dd_object : dyn_object D RT_Object_Class_Thread (thread_ref t) s;
  dd_timer : unlisted (timer_ref (thread_timer t)) s;
  dd_alone r : owner_of r = thread_ref t -> queue s (QSuspend r) = [] /\ queue s (QSender r) = [] }.

(** Without signals there is nothing to free. *)
Lemma free_sig_none s t th :
  threads s !! t = Some th -> si_list th = [] -> sig_vectors th = None -> rt_thread_free_sig t s = Done tt s.
Proof.
  intros Hth Hl Hv. unfold rt_thread_free_sig. erewrite bind_done by (by apply get_thread_eq).
  assert (Eth : th <| si_list := [] |> <| sig_vectors := None |> = th) by (destruct th; cbn in *; by subst).
  erewrite (bind_done _ _ s tt s).
  2:{ rewrite (mod_thread_eq _ _ _ _ Hth), Eth. f_equal. by apply thread_same. }
  rewrite Hl, Hv. by erewrite bind_done by reflexivity.
Qed.

Lemma systemobject_eq s r o :
  objs s !! r = Some o -> rt_object_is_systemobject r s = Done (has_bits (o_type o) RT_Object_Class_Static) s.
Proof. intros Ho. unfold rt_object_is_systemobject. by erewrite bind_done by (by apply get_obj_eq). Qed.

(** What is left of a dead thread that nobody refers to. *)
Lemma dead_unused D s t st :
  kok s -> dead D s t st -> t ∉ queue s QDefunct ->
  forall r, owner_of r = thread_ref t -> unused r s /\ (r <> thread_ref t -> unlisted r s).
Proof.
  intros HK [(th & Hth & Hs & _) _ _ Hl Ha] Hd r Hr. destruct (Ha r Hr) as [A1 A2].
  assert (Hc : r = thread_ref t \/ r = timer_ref (thread_timer t)).
  { destruct r as [[] u]; try (by left). destruct u; try discriminate Hr. injection Hr as ->. by right. }
  destruct Hc as [-> | ->]; (split; [split; [done|split; [done|]]|done]).
  - intros th' Hth'. simplify_eq. done.
  - eapply timer_of_inactive; [exact HK|exact Hth|by rewrite Hs].
Qed.

Lemma defunct_reclaim_ok D s t st :
  dyn_ok D s -> kok s -> dead D s t st -> t ∉ queue s QDefunct ->
  exists s', defunct_reclaim t s = Done tt s' /\ deleted (thread_ref t) s s' /\ kok s' /\
    dyn_ok (delete (home (thread_ref t)) (delete st D)) s'.
Proof.
  intros HD HK Hdd Ht. pose proof (dead_unused D s t st HK Hdd Ht) as Hu.
  destruct Hdd as [(th & Hth & Hs & Hst & Hcl & Hsi & Hsv) (n & Hn) HO Hl Ha].
  pose proof HO as (_ & (o & Ho & Hty) & _).
  destruct (free_and_delete D s RT_Object_Class_Thread (thread_ref t) st n HD HK HO eq_refl Hu Hn)
    as (s1 & s' & E1 & E2 & HDe & HK' & HD').
  exists s'. split; [|done]. unfold defunct_reclaim. erewrite bind_done by (by apply get_thread_eq). rewrite Hcl.
  erewrite bind_done by reflexivity. erewrite bind_done by (by eapply free_sig_none).
  erewrite bind_done by (by apply systemobject_eq). rewrite Hty.
  change (has_bits RT_Object_Class_Thread RT_Object_Class_Static) with false. cbn iota.
  erewrite bind_done by (by apply get_thread_eq). rewrite Hst. by erewrite bind_done by exact E1.
Qed.

(** Dead threads stay dead when only others are reclaimed. *)
Lemma dead_ext D D' s s' u su :
  dead D s u su -> threads s' = threads s -> objs s' !! thread_ref u = objs s !! thread_ref u ->
  (forall c r, r ∈ object_list s' c -> r ∈ object_list s c) -> (forall h, h <> QDefunct -> queue s' h = queue s h) ->
  D' !! su = D !! su -> D' !! home (thread_ref u) = D !! home (thread_ref u) -> dead D' s' u su.
Proof.
  intros [C1 C2 (A1 & A2 & A3) C4 C5] ET EO EL EQ E1 E2. split.
  - by rewrite ET.
  - by rewrite E1.
  - split; [done|]. by rewrite EO, E2.
  - intros c Hin. by apply (C4 c), EL.
  - intros r Hr. rewrite !EQ by done. by apply C5.
Qed.

Lemma dyn_ok_dequeue D s t th :
  dyn_ok D s -> kok s -> threads s !! t = Some th -> stat_of th = RT_THREAD_CLOSE ->
  dyn_ok D (s <| queues ::= q_remove t |>).
Proof.
  intros HD HK Hth Hs. destruct (kok_dequeue s t th HK Hth Hs) as (_ & HQ & HQd).
  apply (dyn_ok_step D s _ HD).
  - split; try done. intros r _. by apply HQ.
  - intros r _ [Hl (U1 & U2 & U3)]. left. split; [done|]. split; [by rewrite HQ|]. split; [by rewrite HQ|].
    destruct r as [[] u]; try done. intros uh Hu. destruct (U3 uh Hu) as [? Hn]. split; [done|]. rewrite HQd.
    rewrite list_elem_of_filter. tauto.
Qed.

(** The blocks that the threads and stacks of [l] leave. *)
Fixpoint reclaimed (D : gmap Z (Z * option ref)) (l : list (tid * Z)) : gmap Z (Z * option ref) :=
  match l with
  | [] => D
  | (t, st) :: l => reclaimed (delete (home (thread_ref t)) (delete st D)) l
  end.

Lemma dequeue_eq s t l :
  queue s QDefunct = t :: l -> rt_thread_defunct_dequeue s = Done (Some t) (s <| queues ::= q_remove t |>).
Proof. intros Hq. unfold rt_thread_defunct_dequeue. rewrite bind_gets, Hq. by erewrite bind_done by reflexivity. Qed.

Lemma rt_defunct_execute_ok l : forall fuel D s,
  dyn_ok D s -> kok s -> interrupt_nest s = 0 -> queue s QDefunct = l.*1 ->
  Forall (fun x => dead D s x.1 x.2) l -> NoDup l.*2 -> (length l <= fuel)%nat ->
  exists s', rt_defunct_execute fuel s = Done tt s' /\ kok s' /\ dyn_ok (reclaimed D l) s' /\
    queue s' QDefunct = [] /\ (forall h, h <> QDefunct -> queue s' h = queue s h) /\ threads s' = threads s /\
    (forall c, object_list s' c = filter (fun r => r ∉ thread_ref <$> l.*1) (object_list s c)).
Proof.
  induction l as [|[t st] l IH]; intros fuel D s HD HK HN Hq Hl Hd Hf.
  - exists s. split.
    { destruct fuel; cbn [rt_defunct_execute]; erewrite bind_done by exact (not_in_interrupt_eq s HN);
        unfold rt_thread_defunct_dequeue; erewrite (bind_done _ _ s None s); [done| |done|]; rewrite bind_gets, Hq; done. }
    do 5 (split; [done|]). intros c. symmetry. apply filter_all.
    intros r _. by apply not_elem_of_nil.
  - destruct fuel as [|fuel]; [cbn in Hf; lia|]. apply Forall_cons in Hl as [Ht Hl]. rewrite fmap_cons in Hd.
    change (((t, st) :: l).*1) with (t :: l.*1) in Hq.
    apply NoDup_cons in Hd as [Hst Hd]. cbn [fst snd] in Hst, Hq, Ht. pose proof Ht as [(th & Hth & Hs & _) (n & Hn) (_ & _ & k & Hk) _ _].
    destruct (kok_dequeue s t th HK Hth Hs) as (HK1 & HQ1 & HQd). pose proof (dyn_ok_dequeue D s t th HD HK Hth Hs) as HD1.
    set (s1 := s <| queues ::= q_remove t |>) in *.
    pose proof (ci_nodup _ _ _ _ _ (ko_kinv _ HK) QDefunct) as Hnd. change (queues s !!! QDefunct) with (queue s QDefunct) in Hnd.
    rewrite Hq in Hnd. apply NoDup_cons in Hnd as [Htl Hnd].
    assert (HQt : queue s1 QDefunct = l.*1) by (rewrite HQd, Hq, filter_cons, decide_False by tauto; by apply filter_notin).
    assert (Hdead1 : dead D s1 t st) by (by eapply dead_ext).
    destruct (defunct_reclaim_ok D s1 t st HD1 HK1 Hdead1) as (s2 & E2 & HDe & HK2 & HD2); [by rewrite HQt|].
    pose proof (de_eq _ _ _ HDe) as E12.
    assert (HQ2 : forall h, queue s2 h = queue s1 h) by (intros h; unfold queue; by rewrite E12).
    destruct (IH fuel _ s2 HD2 HK2) as (s' & E & HK' & HD' & HQ' & HQs & HT & HL').
    + rewrite E12. exact HN.
    + by rewrite HQ2.
    + apply Forall_forall. intros [u su] Hin. pose proof (proj1 (Forall_forall _ _) Hl _ Hin) as Hu. cbn [fst snd] in Hu |- *.
      assert (Hut : u <> t) by (intros ->; apply Htl, list_elem_of_fmap; by exists (t, su)).
      assert (Hsu : su <> st) by (intros ->; apply Hst, list_elem_of_fmap; by exists (u, st)).
      pose proof Hu as [_ (n' & Hn') (_ & _ & k' & Hk') _ _].
      apply (dead_ext D _ s s2 u su Hu).
      * by rewrite E12.
      * apply (de_objs _ _ _ HDe). by intros [= ->].
      * intros c r. rewrite (de_list _ _ _ HDe). by intros [_ ?]%list_elem_of_filter.
      * intros h Hh. by rewrite HQ2, HQ1.
      * rewrite !lookup_delete_ne; [done|by intros ->|]. intros E. rewrite <- E in Hn'. congruence.
      * rewrite !lookup_delete_ne; [done|intros E; rewrite <- E in Hk'; congruence|].
        unfold home. cbn. congruence.
    + done.
    + cbn in Hf. lia.
    + exists s'. split.
      { cbn [rt_defunct_execute]. erewrite bind_done by exact (not_in_interrupt_eq s HN).
        erewrite bind_done by exact (dequeue_eq s t _ Hq). cbv beta iota. by erewrite bind_done by exact E2. }
      split; [done|]. split; [done|]. split; [done|]. split; [intros h Hh; by rewrite HQs, HQ2, HQ1|].
      split; [by rewrite HT, E12|]. intros c. rewrite HL', (de_list _ _ _ HDe), list_filter_filter.
      apply filter_ext_in. intros r _. change (thread_ref <$> ((t, st) :: l).*1) with (thread_ref t :: (thread_ref <$> l.*1)).
      rewrite not_elem_of_cons. tauto.
Qed.

(** ** Deleting a thread *)

(** The timer [tm] has left the system. *)
Record detached (tm : positive) (s s' : kstate) : Prop := {
  dt_eq : s' = s <| timer_list := timer_list s' |> <| expired_list := expired_list s' |>
                 <| objs := objs s' |> <| containers := containers s' |>;
  dt_list : timer_list s' = filter (fun x => x <> tm) (timer_list s);
  dt_objs r : r <> timer_ref tm -> objs s' !! r = objs s !! r;
  dt_lists c : object_list s' c = filter (fun r => r <> timer_ref tm) (object_list s c) }.

Lemma timer_detach_ok s tm o :
  objs s !! timer_ref tm = Some o -> o_type o = Z.lor RT_Object_Class_Timer RT_Object_Class_Static ->
  exists s', rt_timer_detach tm s = Done RT_EOK s' /\ detached tm s s'.
Proof.
  intros Ho Ht. unfold rt_timer_detach. erewrite bind_done by (apply assert_type_eq; exists o; by rewrite Ht).
  erewrite (bind_done (assert_static _) _ s tt s).
  2:{ unfold assert_static. erewrite bind_done by (by apply systemobject_eq). by rewrite Ht. }
  unfold timer_remove. erewrite bind_done by reflexivity. set (s1 := s <| timer_list ::= _ |> <| expired_list ::= _ |>).
  unfold clear_activated. erewrite bind_done by exact (mod_obj_eq s1 _ o _ Ho). set (s2 := s1 <| objs ::= _ |>).
  unfold rt_object_detach. erewrite (bind_done _ _ s2).
  2:{ erewrite bind_done by (apply mod_obj_eq, lookup_insert_eq). unfold object_list_remove, modify. reflexivity. }
  eexists. split; [reflexivity|]. split.
  - by destruct s.
  - done.
  - intros r Hr. cbn. by rewrite !lookup_insert_ne.
  - intros c. etrans; [apply object_list_filter|done].
Qed.

(** [t] can be deleted: it has been started, is on the heap, and has nothing to
    clean up. *)
Record deletable (D : gmap Z (Z * option ref)) (s : kstate) (t : tid) (th : rt_thread) : Prop := {
  dl_thread : threads s !! t = Some th;
  dl_open : stat_of th <> RT_THREAD_CLOSE /\ stat_of th <> RT_THREAD_INIT;
  dl_plain : cleanup th = None /\ si_list th = [] /\ sig_vectors th = None;
  dl_stack : exists n, D !! stack_addr th = Some (n, None);
  dl_object : dyn_object D RT_Object_Class_Thread (thread_ref t) s;
  dl_timer : exists o, objs s !! timer_ref (thread_timer t) = Some o /\
    o_type o = Z.lor RT_Object_Class_Timer RT_Object_Class_Static;
  dl_alone r : owner_of r = thread_ref t -> queue s (QSuspend r) = [] /\ queue s (QSender r) = [] }.

Definition closed (th : rt_thread) : rt_thread := th <| stat := RT_THREAD_CLOSE |>.

(** The scheduler lets go of a thread. *)
Lemma unschedule_ok s t th :
  kinv s -> threads s !! t = Some th -> stat_of th <> RT_THREAD_INIT ->
  exists s1, rt_schedule_remove_thread t s = Done tt s1 /\
    kinv_ex {[t]} s1 /\ queues s1 = q_remove t (queues s) /\
    s1 = s <| queues := queues s1 |> <| ready_priority_group := ready_priority_group s1 |>.
Proof.
  intros HI Hth Hs. destruct (kinv_remove ∅ t th s HI Hth Hs) as (s1 & E & HI1 & Hun & HQ & HT & HC & _).
  exists s1. split; [done|]. split; [eapply core_inv_weaken; [|exact HI1]; clear; set_solver|]. split; [done|].
  rewrite (remove_thread_eq ∅ _ _ _ HI Hth Hs) in E. injection E as <-. by destruct s.
Qed.

(** What deleting the thread changes. *)
Record buried (t : tid) (th : rt_thread) (s s' : kstate) : Prop := {
  bu_eq : s' = s <| threads := <[t := closed th]> (threads s) |> <| queues := queues s' |>
                 <| ready_priority_group := ready_priority_group s' |> <| timer_list := timer_list s' |>
                 <| expired_list := expired_list s' |> <| objs := objs s' |> <| containers := containers s' |>;
  bu_kinv : kinv s';
  bu_dead : queue s' QDefunct = t :: filter (fun u => u <> t) (queue s QDefunct);
  bu_queue h : h <> QDefunct -> queue s' h = filter (fun u => u <> t) (queue s h);
  bu_timers : timer_list s' = filter (fun x => x <> thread_timer t) (timer_list s);
  bu_objs r : r <> timer_ref (thread_timer t) -> objs s' !! r = objs s !! r;
  bu_lists c : object_list s' c = filter (fun r => r <> timer_ref (thread_timer t)) (object_list s c) }.

Lemma kok_buried s s' t th :
  kok s -> threads s !! t = Some th -> buried t th s s' -> kok s'.
Proof.
  intros [HI HL HT] Hth [E HK' _ _ ET EO _]. assert (Eth : threads s' = <[t := closed th]> (threads s)) by (by rewrite E).
  assert (Etm : timers s' = timers s) by (by rewrite E).
  split; [done|..].
  - intros u uh. rewrite Eth. destruct (decide (u = t)) as [->|Hne].
    + rewrite lookup_insert_eq. intros [= <-] Hc. by destruct Hc.
    + rewrite lookup_insert_ne by done. intros Hu Hs. destruct (HL u uh Hu Hs) as (A1 & A2 & A3).
      unfold typed, thread_timer_ok. rewrite Etm, !EO; [done| |done]. intros [= ->]. done.
  - intros tm. rewrite ET. intros [Hne Hin]%list_elem_of_filter.
    apply (timer_active_frame s); [by apply HT|by rewrite Etm|apply EO; by intros [= ->]|].
    intros u uh -> Hu Hs. exists uh. split; [|done]. rewrite Eth, lookup_insert_ne; [done|by intros ->].
Qed.

Lemma dyn_ok_buried D s s' t th :
  dyn_ok D s -> dyn_object D RT_Object_Class_Thread (thread_ref t) s -> buried t th s s' -> dyn_ok D s'.
Proof.
  intros HD (Hx & _ & k & HB) [E _ HQd HQ ET EO EC]. apply (dyn_ok_step D s s' HD).
  - split.
    + by rewrite E.
    + by rewrite E.
    + intros r Hr. apply EO. intros ->. by destruct (private_kind _ Hr).
    + intros x _. by rewrite E.
    + intros x Hx'. rewrite HQ by done. by rewrite (owns_idle _ _ _ (dy_heap _ _ HD) Hx').
    + rewrite EC. apply filter_all. intros r Hin ->. 
      apply (owns_list _ _ _ (dy_heap _ _ HD) Hin). eapply owns_region; [apply HD|].
      change (home (timer_ref (thread_timer t))) with (home (thread_ref t)). by rewrite lookup_fmap, HB.
  - intros r _ [Hl (U1 & U2 & U3)]. destruct (decide (owner_of r = thread_ref t)) as [Er|Er].
    { right. exists k. unfold home in *. by rewrite Er. }
    left. split; [|split; [|split]].
    + intros c. rewrite EC, list_elem_of_filter. intros [_ Hin]. by apply (Hl c).
    + by rewrite HQ, U1.
    + by rewrite HQ, U2.
    + destruct r as [[] u]; try done.
      * intros uh. assert (Hne : u <> t) by (by intros ->). rewrite E. cbn. rewrite lookup_insert_ne by done. intros Hu.
        destruct (U3 uh Hu) as [? Hn]. split; [done|]. change (u ∉ queue s' QDefunct).
        rewrite HQd, elem_of_cons, list_elem_of_filter. tauto.
      * rewrite ET, list_elem_of_filter. tauto.
Qed.

Lemma dead_buried D s s' t th :
  deletable D s t th -> buried t th s s' -> dead D s' t (stack_addr th).
Proof.
  intros [Hth Hst (Hcl & Hsi & Hsv) Hstk (Hx & Ho & HB) Hot Ha] [E _ HQd HQ ET EO EC]. split.
  - exists (closed th). rewrite E. split; [apply lookup_insert_eq|]. by split.
  - done.
  - split; [done|]. split; [|done]. by rewrite EO.
  - intros c. rewrite EC, list_elem_of_filter. by intros [? _].
  - intros r Hr. destruct (Ha r Hr) as [A1 A2]. by rewrite !HQ, A1, A2.
Qed.

Lemma thread_delete_ok D s t th :
  kok s -> deletable D s t th -> exists s', rt_thread_delete t s = Done RT_EOK s' /\ buried t th s s'.
Proof.
  intros HK [Hth [Hst Hin] (Hcl & Hsi & Hsv) Hstk (_ & (o & Ho & Hty) & _) (ot & Hot & Hott) Ha].
  destruct (unschedule_ok s t th (ko_kinv _ HK) Hth Hin) as (s1 & E1 & HI1 & HQ1 & Es1).
  assert (Hth1 : threads s1 !! t = Some th) by (by rewrite Es1).
  assert (Hot1 : objs s1 !! timer_ref (thread_timer t) = Some ot) by (by rewrite Es1).
  destruct (timer_detach_ok s1 _ ot Hot1 Hott) as (s2 & E2 & [Es2 HL2 HO2 HC2]).
  assert (Hth2 : threads s2 !! t = Some th) by (by rewrite Es2).
  set (s3 := s2 <| threads ::= <[t := closed th]> |>). set (s4 := s3 <| queues ::= q_push_front QDefunct t |>).
  exists s4. split.
  { unfold rt_thread_delete. erewrite bind_done by (apply assert_type_eq; exists o; by rewrite Hty).
    erewrite bind_done by (apply (assert_dynamic_eq _ _ o Ho); by rewrite Hty).
    erewrite bind_done by (by apply get_thread_eq). rewrite (proj2 (Z.eqb_neq _ _) Hst), (proj2 (Z.eqb_neq _ _) Hin).
    erewrite bind_done by exact E1.
    erewrite (bind_done (thread_cleanup_execute t) _ s1 tt s1).
    2:{ unfold thread_cleanup_execute. erewrite bind_done by (by apply get_thread_eq). rewrite Hcl.
        erewrite bind_done by reflexivity. by eapply free_sig_none. }
    erewrite bind_done by exact E2. erewrite bind_done by (by apply mod_thread_eq).
    unfold rt_thread_defunct_enqueue, tlist_insert_after. by erewrite bind_done by reflexivity. }
  assert (HQ2 : queues s2 = q_remove t (queues s)) by (rewrite Es2; exact HQ1).
  assert (HI2 : kinv_ex {[t]} s2) by (unfold kinv_ex; rewrite Es2; exact HI1).
  assert (HQ4 : forall h, queue s4 h = if decide (QDefunct = h) then t :: filter (fun u => u <> t) (queue s h)
    else filter (fun u => u <> t) (queue s h)).
  { intros h. change (queue s4 h) with (q_push_front QDefunct t (queues s2) !!! h). unfold q_push_front.
    unfold queue. rewrite <- !q_remove_lookup, <- HQ2. case_decide as Ed; [|by rewrite lookup_total_insert_ne].
    subst h. apply lookup_total_insert_eq. }
  split.
  - unfold s4, s3. rewrite Es2, Es1. by destruct s.
  - assert (Hun : unlinked t (queues s2)) by (rewrite HQ2; apply unlinked_q_remove).
    apply (kinv_push_dead s3 t (closed th)); [|exact Hun|apply lookup_insert_eq|done].
    eapply core_inv_weaken; [|apply (core_inv_set {[t]} (threads s2)); [exact HI2|exact Hun|by eexists|]].
    { clear. set_solver. }
    destruct (ci_thread _ _ _ _ _ HI1 t th Hth1) as [Hp ?]. split; [|done]. intros _. exact (Hp Hin).
  - by rewrite HQ4.
  - intros h Hh. rewrite HQ4. by rewrite decide_False by (by intros <-).
  - change (timer_list s4) with (timer_list s2). by rewrite HL2, Es1.
  - intros r Hr. change (objs s4) with (objs s2). by rewrite HO2, Es1.
  - intros c. change (object_list s4 c) with (object_list s2 c). rewrite HC2. by rewrite Es1.
Qed.

(** ** The whole life of a thread *)

(** Starting the thread [t] on the heap. *)
Lemma dyn_ok_startup D s s' t th p :
  dyn_ok D s -> covered D t -> kframe s s' ->
  threads s' = <[t := th]> (threads s) -> queues s' = q_push_back (QReady p) t (queues s) ->
  (forall tm, tm ∈ timer_list s' -> tm ∈ timer_list s) -> dyn_ok D s'.
Proof.
  intros HD HB F HT HQ HL. apply (dyn_ok_step D s s' HD).
  - split.
    + by rewrite (kf_eq _ _ F).
    + by rewrite (kf_eq _ _ F).
    + intros r Hr. apply (kf_objs _ _ F). by destruct (private_kind r Hr) as [-> | ->].
    + intros x _. by rewrite (kf_eq _ _ F).
    + intros x _. unfold queue. by rewrite HQ, q_push_back_lookup, decide_False.
    + unfold object_list. by rewrite (kf_eq _ _ F).
  - intros r Hr [Hl (U1 & U2 & U3)]. destruct (decide (owner_of r = thread_ref t)) as [Er|Er].
    { right. unfold covered, home in *. rewrite Er in Hr |- *. by apply HB. }
    left. split; [|split; [|split]]; unfold queue in *.
    + intros c. unfold object_list. rewrite (kf_eq _ _ F). apply Hl.
    + by rewrite HQ, q_push_back_lookup, decide_False.
    + by rewrite HQ, q_push_back_lookup, decide_False.
    + destruct r as [[] u]; try done.
      * intros uh. rewrite HT, lookup_insert_ne by (by intros ->). rewrite HQ, q_push_back_lookup, decide_False by done.
        apply U3.
      * intros Hin. by apply U3, HL.
Qed.

(** A new thread that is no more urgent than its creator starts without a switch. *)
Lemma startup_calm s t th :
  kok s -> calm s -> threads s !! t = Some th -> stat_of th = RT_THREAD_INIT ->
  0 <= init_priority th < RT_THREAD_PRIORITY_MAX ->
  (forall me mh, current_thread s = Some me -> threads s !! me = Some mh -> current_priority mh <= init_priority th) ->
  exists s1, rt_thread_startup t s = Done RT_EOK s1 /\ kok s1 /\ calm s1 /\ kframe s s1 /\
    threads s1 = <[t := put_stat RT_THREAD_READY (started th)]> (threads s) /\
    queues s1 = q_push_back (QReady (init_priority th)) t (queues s) /\
    (forall tm, tm ∈ timer_list s1 -> tm ∈ timer_list s).
Proof.
  intros HK [HL Hc] Hth Hst Hp Hle.
  assert (Hne : current_thread s <> Some t).
  { intros E. destruct (Hc t E) as (_ & mh & Hm & Hs & _). simplify_eq. by rewrite Hst in Hs. }
  destruct (thread_startup_ok s t th HK Hth Hst Hp Hne) as (s1 & HK1 & F & HC1 & HT1 & HQ1 & _ & HTl & E).
  assert (HCa : calm s1).
  { split; [by rewrite (kf_lock _ _ F)|]. intros me. rewrite HC1. intros Hme. split; [apply HK1|].
    destruct (Hc me Hme) as (_ & mh & Hm & Hs & Hy & Hr). exists mh. split; [rewrite HT1, lookup_insert_ne by congruence; exact Hm|].
    do 2 (split; [done|]). intros p u. unfold queue. rewrite HQ1, push_back_elem. intros [Hu|[[= <-] _]]; [by eapply Hr|].
    by eapply Hle. }
  exists s1. split; [|done]. rewrite E. case_bool_decide as Hb; [|done]. destruct Hb as [me Hme].
  by erewrite bind_done by (eapply rt_schedule_calm; [done|by rewrite HC1]).
Qed.

(** Created, started and deleted: the thread is dead, and its blocks are all that
    it leaves. *)
(** A thread that was made and has been started can be deleted. *)
Lemma started_deletable D D' s s1 s2 t size prio tick st n :
  thread_made D D' s s1 t size prio tick -> kframe s1 s2 -> D' !! st = Some (n, None) ->
  (exists k, D' !! Z.pos t = Some (k, Some (thread_ref t))) ->
  threads s2 = <[t := put_stat RT_THREAD_READY (started (new_thread st size prio tick))]> (threads s1) ->
  queues s2 = q_push_back (QReady prio) t (queues s1) ->
  deletable D' s2 t (put_stat RT_THREAD_READY (started (new_thread st size prio tick))).
Proof.
  intros HM F Hst Hk HT HQ. split.
  - rewrite HT. apply lookup_insert_eq.
  - done.
  - done.
  - by exists n.
  - split; [done|]. split; [|done]. destruct (tm_object _ _ _ _ _ _ _ _ HM) as (o & Ho & Ht).
    exists o. by rewrite (kf_objs _ _ F).
  - destruct (tm_timer _ _ _ _ _ _ _ _ HM) as (o & Ho & Ht). pose proof (kf_type _ _ F (timer_ref (thread_timer t))) as E.
    rewrite Ho in E. destruct (objs s2 !! timer_ref (thread_timer t)) as [o'|]; [|done]. injection E as E. exists o'.
    by rewrite E.
  - intros r Hr. unfold queue. rewrite !HQ, !q_push_back_lookup, !decide_False by done. by apply (tm_alone _ _ _ _ _ _ _ _ HM).
Qed.

(** What is left of a thread when it has been deleted: only its two blocks and
    its place in the list of dead threads. *)
Record thread_over (D : gmap Z (Z * option ref)) (s : kstate) (t : tid) (s' : kstate) : Prop := {
  to_heap : exists D' st, dyn_ok D' s' /\ dead D' s' t st /\ reclaimed D' [(t, st)] = D;
  to_kok : kok s';
  to_nest : interrupt_nest s' = 0;
  to_dead : queue s' QDefunct = t :: queue s QDefunct;
  to_queue h : h <> QDefunct -> queue s' h = queue s h;
  to_list c : filter (fun r => r ∉ thread_ref <$> [t]) (object_list s' c) = object_list s c;
  to_threads : delete t (threads s') = delete t (threads s) }.

Section Over.
Context (D : gmap Z (Z * option ref)) (s s1 : kstate) (t : tid) (size prio tick : Z).
Context (D' : gmap Z (Z * option ref)) (HM : thread_made D D' s s1 t size prio tick).

Lemma made_calm : kok s1 -> calm s -> calm s1.
Proof.
  intros HK1 [HL Hc]. destruct (tm_threads _ _ _ _ _ _ _ _ HM) as (st & _ & _ & HT1 & _).
  pose proof (tm_same _ _ _ _ _ _ _ _ HM) as HS1. pose proof (tm_current _ _ _ _ _ _ _ _ HM) as Hnt.
  assert (El : scheduler_lock_nest s1 = scheduler_lock_nest s) by apply (sd_lock _ _ HS1).
  assert (Ec : current_thread s1 = current_thread s) by apply (sd_current _ _ HS1).
  assert (Eq : forall h, queue s1 h = queue s h) by apply (sd_queue _ _ HS1).
  split; [by rewrite El|]. intros me Hme. split; [apply HK1|]. assert (me <> t) by congruence.
  rewrite Ec in Hme. destruct (Hc me Hme) as (_ & mh & Hm & Hst & Hy & Hr). exists mh.
  split; [rewrite HT1, lookup_insert_ne by congruence; exact Hm|]. do 2 (split; [done|]). intros p u. rewrite Eq. apply Hr.
Qed.

Lemma made_queue s2 h :
  queues s2 = q_push_back (QReady prio) t (queues s1) -> filter (fun u => u <> t) (queue s2 h) = queue s h.
Proof.
  intros HQ. assert (Eq : forall h, queue s1 h = queue s h) by apply (sd_queue _ _ (tm_same _ _ _ _ _ _ _ _ HM)).
  assert (Hun : forall h, filter (fun u => u <> t) (queue s h) = queue s h).
  { clear h. intros h. apply filter_all. intros u Hin ->. rewrite <- Eq in Hin. by apply (tm_unlinked _ _ _ _ _ _ _ _ HM h). }
  unfold queue at 1. rewrite HQ, q_push_back_lookup. fold (queue s1 h). rewrite Eq.
  case_decide as Eh; [|apply Hun]. subst h. rewrite filter_app, filter_cons, decide_False, filter_nil, app_nil_r by tauto.
  fold (queue s1 (QReady prio)). rewrite Eq. apply Hun.
Qed.

Lemma made_lists c :
  filter (fun r => r ∉ thread_ref <$> [t]) (filter (fun r => r <> timer_ref (thread_timer t)) (object_list s1 c)) =
  object_list s c.
Proof using HM.
  rewrite (tm_list _ _ _ _ _ _ _ _ HM), list_filter_filter.
  etrans; [|apply (filter_all (fun r => r ∉ thread_ref <$> [t] /\ r <> timer_ref (thread_timer t)))].
  - repeat case_decide; [rewrite filter_cons, decide_False; [done|]|rewrite filter_cons, decide_False; [done|]|done].
    + intros [Hin _]. by apply Hin, list_elem_of_singleton.
    + by intros [_ Hin].
  - intros r Hin. split; [intros ->%list_elem_of_singleton|intros ->];
      by eapply (tm_fresh _ _ _ _ _ _ _ _ HM); [|exact Hin].
Qed.

Lemma thread_over_ok :
  kok s1 -> calm s -> interrupt_nest s = 0 -> 0 <= prio < RT_THREAD_PRIORITY_MAX ->
  (forall me mh, current_thread s = Some me -> threads s !! me = Some mh -> current_priority mh <= prio) ->
  exists s2 s3, rt_thread_startup t s1 = Done RT_EOK s2 /\ rt_thread_delete t s2 = Done RT_EOK s3 /\
    thread_over D s t s3.
Proof.
  intros HK1 HC HN Hp Hle. destruct (tm_threads _ _ _ _ _ _ _ _ HM) as (st & k & n & HT1 & _ & N1 & N2 & Hne & ED).
  pose proof (tm_same _ _ _ _ _ _ _ _ HM) as HS1. set (th := new_thread st size prio tick) in *.
  assert (Hth1 : threads s1 !! t = Some th) by (rewrite HT1; apply lookup_insert_eq).
  destruct (startup_calm s1 t th HK1 (made_calm HK1 HC) Hth1 eq_refl Hp) as (s2 & E2 & HK2 & _ & F2 & HT2 & HQ2 & HL2).
  { intros me mh Hme Hmh. pose proof (tm_current _ _ _ _ _ _ _ _ HM) as Hnt. rewrite HT1, lookup_insert_ne in Hmh by congruence.
    eapply Hle; [|exact Hmh]. etrans; [|exact Hme]. symmetry. apply (sd_current _ _ HS1). }
  assert (Hst' : D' !! st = Some (n, None)) by (rewrite ED; apply lookup_insert_eq).
  assert (Ht' : D' !! Z.pos t = Some (k, Some (thread_ref t))) by (rewrite ED, lookup_insert_ne by done; apply lookup_insert_eq).
  pose proof (started_deletable D D' s s1 s2 t size prio tick st n HM F2 Hst' (ex_intro _ k Ht') HT2 HQ2) as Hdel.
  destruct (thread_delete_ok D' s2 t _ HK2 Hdel) as (s3 & E3 & Hbu).
  pose proof (dyn_ok_startup D' s1 s2 t _ prio (tm_dyn _ _ _ _ _ _ _ _ HM) (covered_object D' t k Ht') F2 HT2 HQ2 HL2) as HD2.
  exists s2, s3. split; [done|]. split; [done|]. split.
  - exists D', st. split; [exact (dyn_ok_buried D' s2 s3 t _ HD2 (dl_object _ _ _ _ Hdel) Hbu)|].
    split; [exact (dead_buried D' s2 s3 t _ Hdel Hbu)|]. rewrite ED. cbn [reclaimed home thread_ref owner_of snd].
    rewrite delete_insert_id by (by rewrite lookup_insert_ne). by apply delete_insert_id.
  - exact (kok_buried s2 s3 t _ HK2 (dl_thread _ _ _ _ Hdel) Hbu).
  - rewrite (bu_eq _ _ _ _ Hbu). etrans; [apply (kf_nest _ _ F2)|]. etrans; [apply (sd_nest _ _ HS1)|done].
  - by rewrite (bu_dead _ _ _ _ Hbu), made_queue.
  - intros h Hh. by rewrite (bu_queue _ _ _ _ Hbu), made_queue.
  - intros c. rewrite (bu_lists _ _ _ _ Hbu), <- (made_lists c). do 2 f_equal. unfold object_list. by rewrite (kf_eq _ _ F2).
  - rewrite (bu_eq _ _ _ _ Hbu). cbn. by rewrite HT2, HT1, !delete_insert_eq.
Qed.
End Over.

(** ** What [rt_defunct_execute] and a whole life do *)

(** C25. [rt_defunct_execute], which the idle thread runs, gives back everything
    the dead threads own, whatever their number: each one's stack and its control
    block return to the heap and it leaves the list of the threads, the other
    lists and all the other threads stay, and the list of the dead is empty when
    it returns. *)
Theorem rt_defunct_execute_correct l fuel D s :
  dyn_ok D s -> kok s -> interrupt_nest s = 0 -> queue s QDefunct = l.*1 ->
  Forall (fun x => dead D s x.1 x.2) l -> NoDup l.*2 -> (length l <= fuel)%nat ->
  exists s', rt_defunct_execute fuel s = Done tt s' /\ kok s' /\ dyn_ok (reclaimed D l) s' /\
    queue s' QDefunct = [] /\ (forall h, h <> QDefunct -> queue s' h = queue s h) /\ threads s' = threads s /\
    (forall c, object_list s' c = filter (fun r => r ∉ thread_ref <$> l.*1) (object_list s c)).
Proof. intros. by apply rt_defunct_execute_ok. Qed.

(** C23. A thread that is created, started, deleted and reclaimed by the idle
    thread leaves the kernel as it was: the same blocks of the heap are in use,
    every list of threads and every list of objects is what it was before, and the
    other threads are unchanged; if the heap has no room for it, [rt_thread_create]
    returns no thread and nothing stays allocated. *)
Theorem thread_lifecycle D s name size prio tick :
  dyn_ok D s -> kok s -> calm s -> interrupt_nest s = 0 -> queue s QDefunct = [] ->
  76 <= size <= 2 ^ 32 - 4 -> 0 <= prio < RT_THREAD_PRIORITY_MAX ->
  (forall me mh, current_thread s = Some me -> threads s !! me = Some mh -> current_priority mh <= prio) ->
  exists r s1, rt_thread_create name size prio tick s = Done r s1 /\
    match r with
    | None => dyn_ok D s1
    | Some t => exists s2 s3 s4, rt_thread_startup t s1 = Done RT_EOK s2 /\ rt_thread_delete t s2 = Done RT_EOK s3 /\
        rt_defunct_execute 1 s3 = Done tt s4 /\ kok s4 /\ dyn_ok D s4 /\
        (forall h, queue s4 h = queue s h) /\ (forall c, object_list s4 c = object_list s c) /\
        delete t (threads s4) = delete t (threads s)
    end.
Proof.
  intros HD HK HC HN HQ0 Hs Hp Hle.
  destruct (thread_create_ok D s name size prio tick HD HK HC HN Hs Hp) as (r & s1 & E1 & HK1 & HR).
  exists r, s1. split; [exact E1|]. destruct r as [t|]; [|by destruct HR]. destruct HR as (D' & HM).
  destruct (thread_over_ok D s s1 t size prio tick D' HM HK1 HC HN Hp Hle) as (s2 & s3 & E2 & E3 & HO).
  destruct (to_heap _ _ _ _ HO) as (D3 & st & HD3 & Hd & <-). pose proof (to_dead _ _ _ _ HO) as HQ3. rewrite HQ0 in HQ3.
  destruct (rt_defunct_execute_ok [(t, st)] 1 D3 s3 HD3 (to_kok _ _ _ _ HO)) as (s4 & E4 & HK4 & HD4 & HQ4 & HQs & HT4 & HL4).
  { exact (to_nest _ _ _ _ HO). } { exact HQ3. } { by constructor. } { apply NoDup_singleton. } { done. }
  exists s2, s3, s4. do 5 (split; [done|]). split; [|split].
  - intros h. destruct (decide (h = QDefunct)) as [->|Hh]; [by rewrite HQ4, HQ0|]. by rewrite HQs, (to_queue _ _ _ _ HO).
  - intros c. rewrite HL4. apply (to_list _ _ _ _ HO).
  - rewrite HT4. apply (to_threads _ _ _ _ HO).
Qed.
End ThreadEnd.

(** ** Witnesses *)
#[local] Existing Instance no_signals.
#[local] Existing Instance heap_spec_4k.
#[local] Existing Instance timeout_callbacks.

(** A thread with a stack of 256 bytes. *)
Lemma thread_lifecycle_witness :
  exists t s1 s2 s3 s4, rt_thread_create [119] 256 20 10 kstate_dyn = Done (Some t) s1 /\
    rt_thread_startup t s1 = Done RT_EOK s2 /\ rt_thread_delete t s2 = Done RT_EOK s3 /\
    rt_defunct_execute 1 s3 = Done tt s4 /\ dyn_ok ∅ s4.
Proof.
  destruct (thread_lifecycle ∅ kstate_dyn [119] 256 20 10 kstate_dyn_ok kstate_dyn_kok kstate_dyn_calm eq_refl)
    as ([t|] & s1 & E1 & HR).
  - reflexivity.
  - lia.
  - unfold RT_THREAD_PRIORITY_MAX. lia.
  - intros me mh; apply (kstate_dyn_urgent 20); lia.
  - destruct HR as (s2 & s3 & s4 & E2 & E3 & E4 & _ & HD & _).
    exists t, s1, s2, s3, s4. split; [exact E1|]. split; [exact E2|]. split; [exact E3|]. split; [exact E4|exact HD].
  - assert (Hz : match rt_thread_create [119] 256 20 10 kstate_dyn with Done None _ => true | _ => false end = false) by (by vm_compute).
    rewrite E1 in Hz. discriminate Hz.
Defined.

Lemma rt_defunct_execute_correct_witness :
  exists t s1 s2 s3 s4, rt_thread_create [119] 256 20 10 kstate_dyn = Done (Some t) s1 /\
    rt_thread_startup t s1 = Done RT_EOK s2 /\ rt_thread_delete t s2 = Done RT_EOK s3 /\
    rt_defunct_execute 5 s3 = Done tt s4 /\ queue s4 QDefunct = [].
Proof.
  destruct (thread_create_ok ∅ kstate_dyn [119] 256 20 10 kstate_dyn_ok kstate_dyn_kok kstate_dyn_calm eq_refl)
    as ([t|] & s1 & E1 & HK1 & HR); [lia|unfold RT_THREAD_PRIORITY_MAX; lia| |].
  2:{ assert (Hz : match rt_thread_create [119] 256 20 10 kstate_dyn with Done None _ => true | _ => false end = false) by (by vm_compute).
      rewrite E1 in Hz. discriminate Hz. }
  destruct HR as (D & HM).
  destruct (thread_over_ok _ _ _ _ _ _ _ _ HM HK1 kstate_dyn_calm eq_refl) as (s2 & s3 & E2 & E3 & HO);
    [unfold RT_THREAD_PRIORITY_MAX; lia|intros me mh; apply (kstate_dyn_urgent 20); lia|].
  destruct (to_heap _ _ _ _ HO) as (D3 & st & HD3 & Hd & _).
  destruct (rt_defunct_execute_correct [(t, st)] 5 D3 s3 HD3 (to_kok _ _ _ _ HO)) as (s4 & E4 & _ & _ & HQ & _).
  - exact (to_nest _ _ _ _ HO).
  - exact (to_dead _ _ _ _ HO).
  - constructor; [exact Hd|constructor].
  - apply NoDup_singleton.
  - apply le_S, le_S, le_S, le_S, le_n.
  - exists t, s1, s2, s3, s4. split; [exact E1|]. split; [exact E2|]. split; [exact E3|]. split; [exact E4|exact HQ].
Defined.
