(* ===== verification/MQueue.v ===== *)
(** Message queues: rt-thread/src/ipc.c.

    A message lives at an address of the pool: its [next] pointer and the bytes
    behind it. While the bytes are copied the interrupts are enabled and other
    threads may run: a [Switch] too. *)
From S2P Require Export Mailbox.
Local Open Scope Z_scope.

Definition mq_ref (x : positive) : ref := (KMQ, x).
Definition get_mq (x : positive) : K rt_messagequeue := s ← get; deref (mqueues s !! x).
Definition put_mq (x : positive) (v : rt_messagequeue) : K unit :=
  modify (fun s => s <| mqueues ::= <[x := v]> |>).
Definition mod_mq (x : positive) (f : rt_messagequeue -> rt_messagequeue) : K unit :=
  m ← get_mq x; put_mq x (f m).

(** *** Messages *)
Definition SIZEOF_MQ_MESSAGE : Z := 4.
Definition msg_next (m : rt_messagequeue) (a : Z) : option Z := fst <$> mq_mem m !! a.
Definition msg_data (m : rt_messagequeue) (a : Z) : option (list Z) := snd <$> mq_mem m !! a.
(** [msg->next = n] *)
Definition set_msg_next (a n : Z) (m : rt_messagequeue) : option rt_messagequeue :=
  c ← mq_mem m !! a; Some (m <| mq_mem ::= <[a := (n, snd c)]> |>).
(** [rt_memcpy(msg + 1, buffer, size)]: the bytes beyond stay. *)
Definition set_msg_data (a : Z) (buffer : list Z) (m : rt_messagequeue) : option rt_messagequeue :=
  c ← mq_mem m !! a; Some (m <| mq_mem ::= <[a := (fst c, buffer ++ drop (length buffer) (snd c))]> |>).

(** Taking a message from the free list. *)
Definition mq_alloc (m : rt_messagequeue) : option (Z * rt_messagequeue) :=
  let msg := mq_free m in
  n ← msg_next m msg; Some (msg, m <| mq_free := n |>).

Definition mq_count (m : rt_messagequeue) : Z * rt_messagequeue :=
  if mq_entry m <? RT_MQ_ENTRY_MAX
  then (RT_EOK, m <| mq_entry ::= (fun n => u16 (n + 1)) |>) else (- RT_EFULL, m).

(** Linking a message at the tail and at the head. *)
Definition mq_link_tail (msg : Z) (m : rt_messagequeue) : option (Z * rt_messagequeue) :=
  m ← (if mq_tail m =? 0 then Some m else set_msg_next (mq_tail m) msg m);
  let m := m <| mq_tail := msg |> in
  let m := if mq_head m =? 0 then m <| mq_head := msg |> else m in
  Some (mq_count m).
Definition mq_link_head (msg : Z) (m : rt_messagequeue) : option (Z * rt_messagequeue) :=
  m ← set_msg_next msg (mq_head m) m;
  let m := m <| mq_head := msg |> in
  let m := if mq_tail m =? 0 then m <| mq_tail := msg |> else m in
  Some (mq_count m).

(** Taking the first message out of the queue, and giving one back. *)
Definition mq_unlink (m : rt_messagequeue) : option (Z * rt_messagequeue) :=
  let msg := mq_head m in
  n ← msg_next m msg;
  let m := m <| mq_head := n |> in
  let m := if mq_tail m =? msg then m <| mq_tail := 0 |> else m in
  Some (msg, if 0 <? mq_entry m then m <| mq_entry ::= (fun n => u16 (n - 1)) |> else m).
Definition mq_give (msg : Z) (m : rt_messagequeue) : option rt_messagequeue :=
  m ← set_msg_next msg (mq_free m) m; Some (m <| mq_free := msg |>).

(** The loop of [rt_mq_init] over the blocks of the pool. *)
Fixpoint mq_link_pool (n : nat) (temp : Z) (contents : Z -> list Z) (m : rt_messagequeue)
  : rt_messagequeue :=
  match n with
  | O => m
  | S n =>
      let head := mq_pool m + temp * (mq_msg_size m + SIZEOF_MQ_MESSAGE) in
      mq_link_pool n (temp + 1) contents
        (m <| mq_mem ::= <[head := (mq_free m, contents head)]> |> <| mq_free := head |>)
  end.

(** The loop of [rt_mq_control] that empties the queue. *)
Fixpoint mq_clear (fuel : nat) (m : rt_messagequeue) : option rt_messagequeue :=
  if mq_head m =? 0 then Some m
  else match fuel with
       | O => None
       | S fuel =>
           let msg := mq_head m in
           n ← msg_next m msg;
           let m := m <| mq_head := n |> in
           let m := if mq_tail m =? msg then m <| mq_tail := 0 |> else m in
           m ← mq_give msg m;
           mq_clear fuel m
       end.

Section MQueue.
Context `{!SignalOps}.

(** [contents a]: the bytes that the pool holds at the message [a]. *)
Definition rt_mq_init (x : positive) (name : list Z) (pool : Z) (contents : Z -> list Z)
    (msg_size pool_size flag : Z) : K Z :=
  rt_assert (valid_flag flag);;
  rt_object_init (mq_ref x) RT_Object_Class_MessageQueue name;;
  set_flag (mq_ref x) flag;;
  ipc_object_init (mq_ref x);;
  let size := u16 (RT_ALIGN msg_size RT_ALIGN_SIZE) in
  let max := u16 (pool_size / (size + SIZEOF_MQ_MESSAGE)) in
  put_mq x (mq_link_pool (Z.to_nat max) 0 contents (RtMQ pool size max 0 0 0 0 ∅));;
  modify (fun s => s <| queues ::= <[QSender (mq_ref x) := []]> |>);;
  mret RT_EOK.

Definition rt_mq_detach (x : positive) : K Z :=
  assert_type (mq_ref x) RT_Object_Class_MessageQueue;;
  assert_static (mq_ref x);;
  ipc_list_resume_all (QSuspend (mq_ref x));;
  ipc_list_resume_all (QSender (mq_ref x));;
  rt_object_detach (mq_ref x);;
  mret RT_EOK.

(** The bytes of a message of [size] bytes at [a]. *)
Definition message_at (m : memory) (size a : Z) : list Z :=
  map (fun i => m (a + SIZEOF_MQ_MESSAGE + Z.of_nat i)) (seq 0 (Z.to_nat size)).

Definition rt_mq_create `{!HeapOps} (name : list Z) (msg_size max_msgs flag : Z) : K (option positive) :=
  rt_assert (valid_flag flag);;
  RT_DEBUG_NOT_IN_INTERRUPT;;
  p ← rt_object_allocate RT_Object_Class_MessageQueue name;
  match p with
  | None => mret None
  | Some a =>
      let x := Z.to_pos a in
      set_flag (mq_ref x) flag;;
      ipc_object_init (mq_ref x);;
      let size := u16 (RT_ALIGN msg_size RT_ALIGN_SIZE) in
      let max := u16 max_msgs in
      pool ← heap_malloc (u32 ((size + SIZEOF_MQ_MESSAGE) * max));
      match pool with
      | None => rt_object_delete (mq_ref x);; mret None
      | Some pool =>
          m ← gets heap_mem;
          put_mq x (mq_link_pool (Z.to_nat max) 0 (message_at m size) (RtMQ pool size max 0 0 0 0 ∅));;
          modify (fun s => s <| queues ::= <[QSender (mq_ref x) := []]> |>);;
          mret (Some x)
      end
  end.

Definition rt_mq_delete `{!HeapOps} (x : positive) : K Z :=
  assert_type (mq_ref x) RT_Object_Class_MessageQueue;;
  assert_dynamic (mq_ref x);;
  RT_DEBUG_NOT_IN_INTERRUPT;;
  ipc_list_resume_all (QSuspend (mq_ref x));;
  ipc_list_resume_all (QSender (mq_ref x));;
  m ← get_mq x;
  heap_free (mq_pool m);;
  rt_object_delete (mq_ref x);;
  mret RT_EOK.

Definition interrupt_window : K unit := switch_out.

(** The rest of [rt_mq_send_wait] when there is a free message. *)
Definition mq_send_now (x : positive) (buffer : list Z) : K Z :=
  m ← get_mq x;
  '(msg, m) ← deref (mq_alloc m);
  put_mq x m;;
  interrupt_window;;
  m ← get_mq x;
  m ← deref (set_msg_next msg 0 m);
  m ← deref (set_msg_data msg buffer m);
  put_mq x m;;
  m ← get_mq x;
  '(e, m) ← deref (mq_link_tail msg m);
  put_mq x m;;
  if e =? RT_EOK then wake_first (QSuspend (mq_ref x));; mret RT_EOK else mret e.

Fixpoint mq_send_loop (fuel : nat) (x : positive) (buffer : list Z) (timeout : Z) : K Z :=
  m ← get_mq x;
  if mq_free m =? 0 then
    me ← self;
    mod_thread me (fun th => th <| error := RT_EOK |>);;
    if timeout =? 0 then mret (- RT_EFULL)
    else
      RT_DEBUG_IN_THREAD_CONTEXT;;
      '(e, rest) ← wait_round (QSender (mq_ref x)) (mq_ref x) me timeout;
      if negb (e =? RT_EOK) then mret e
      else match fuel with O => fault | S fuel => mq_send_loop fuel x buffer rest end
  else mq_send_now x buffer.

Definition rt_mq_send_wait (fuel : nat) (x : positive) (buffer : list Z) (timeout : Z) : K Z :=
  assert_type (mq_ref x) RT_Object_Class_MessageQueue;;
  rt_assert (negb (bool_decide (buffer = [])));;
  m ← get_mq x;
  if mq_msg_size m <? Z.of_nat (length buffer) then mret (- RT_ERROR)
  else if (mq_free m =? 0) && (timeout =? 0) then mret (- RT_EFULL)
  else mq_send_loop fuel x buffer timeout.

Definition rt_mq_send (x : positive) (buffer : list Z) : K Z := rt_mq_send_wait 0 x buffer 0.

Definition rt_mq_urgent (x : positive) (buffer : list Z) : K Z :=
  assert_type (mq_ref x) RT_Object_Class_MessageQueue;;
  rt_assert (negb (bool_decide (buffer = [])));;
  m ← get_mq x;
  if mq_msg_size m <? Z.of_nat (length buffer) then mret (- RT_ERROR)
  else if mq_free m =? 0 then mret (- RT_EFULL)
  else
    '(msg, m) ← deref (mq_alloc m);
    put_mq x m;;
    interrupt_window;;
    m ← get_mq x;
    m ← deref (set_msg_data msg buffer m);
    '(e, m) ← deref (mq_link_head msg m);
    put_mq x m;;
    if e =? RT_EOK then wake_first (QSuspend (mq_ref x));; mret RT_EOK else mret e.

Definition mq_recv_now (x : positive) (size : Z) : K (Z * option (list Z)) :=
  m ← get_mq x;
  '(msg, m) ← deref (mq_unlink m);
  put_mq x m;;
  interrupt_window;;
  m ← get_mq x;
  d ← deref (msg_data m msg);
  let n := if mq_msg_size m <? size then mq_msg_size m else size in
  m ← deref (mq_give msg m);
  put_mq x m;;
  wake_first (QSender (mq_ref x));;
  mret (RT_EOK, Some (take (Z.to_nat n) d)).

Fixpoint mq_recv_loop (fuel : nat) (x : positive) (size timeout : Z) : K (Z * option (list Z)) :=
  m ← get_mq x;
  if mq_entry m =? 0 then
    RT_DEBUG_IN_THREAD_CONTEXT;;
    me ← self;
    mod_thread me (fun th => th <| error := RT_EOK |>);;
    if timeout =? 0 then
      mod_thread me (fun th => th <| error := - RT_ETIMEOUT |>);;
      mret (- RT_ETIMEOUT, None)
    else
      '(e, rest) ← wait_round (QSuspend (mq_ref x)) (mq_ref x) me timeout;
      if negb (e =? RT_EOK) then mret (e, None)
      else match fuel with O => fault | S fuel => mq_recv_loop fuel x size rest end
  else mq_recv_now x size.

(** The result and the bytes copied to the buffer, of [size] bytes. *)
Definition rt_mq_recv (fuel : nat) (x : positive) (size timeout : Z) : K (Z * option (list Z)) :=
  assert_type (mq_ref x) RT_Object_Class_MessageQueue;;
  rt_assert (negb (size =? 0));;
  m ← get_mq x;
  if (mq_entry m =? 0) && (timeout =? 0) then mret (- RT_ETIMEOUT, None)
  else mq_recv_loop fuel x size timeout.

Definition rt_mq_control (x : positive) (cmd : Z) : K Z :=
  assert_type (mq_ref x) RT_Object_Class_MessageQueue;;
  if cmd =? RT_IPC_CMD_RESET then
    ipc_list_resume_all (QSuspend (mq_ref x));;
    ipc_list_resume_all (QSender (mq_ref x));;
    m ← get_mq x;
    m ← deref (mq_clear (Z.to_nat (mq_max_msgs m)) m);
    put_mq x (m <| mq_entry := 0 |>);;
    rt_schedule;;
    mret RT_EOK
  else mret (- RT_ERROR).
End MQueue.
