(* ===== verification/MQueueThm.v ===== *)
(** Message queues refine queues of messages, also when other threads run while
    a message is copied. *)
From S2P Require Export MQueue MailboxThm.
Local Open Scope Z_scope.

(** ** Chains of messages *)

(** The messages [l], linked from [a] on and ended by a null pointer. *)
Fixpoint chain (mem : gmap Z (Z * list Z)) (a : Z) (l : list Z) : Prop :=
  match l with
  | [] => a = 0
  | b :: l => a = b /\ exists c, mem !! a = Some c /\ chain mem (fst c) l
  end.

Lemma chain_frame mem mem' a l :
  (forall b, b ∈ l -> fst <$> mem' !! b = fst <$> mem !! b) -> chain mem a l -> chain mem' a l.
Proof.
  revert a. induction l as [|b l IH]; intros a E; [done|]. intros [-> (c & Hc & Hl)].
  split; [done|]. pose proof (E b ltac:(set_solver)) as Eb. rewrite Hc in Eb.
  destruct (mem' !! b) as [c'|]; [|done]. exists c'. split; [done|]. simplify_eq/=.
  replace (fst c') with (fst c) by congruence. apply IH; [set_solver|done].
Qed.

Lemma chain_insert_ne mem a l b c : b ∉ l -> chain mem a l -> chain (<[b := c]> mem) a l.
Proof. intros Hb. apply chain_frame. intros b' Hb'. by rewrite lookup_insert_ne by (by intros ->). Qed.

Lemma chain_snoc mem a l t b ct cb :
  t ∉ l -> mem !! t = Some ct -> fst ct = b -> mem !! b = Some cb -> fst cb = 0 ->
  (exists mem0 c0, chain mem0 a (l ++ [t]) /\ mem = <[t := c0]> mem0) ->
  chain mem a (l ++ [t; b]).
Proof.
  intros Ht Hct <- Hcb Eb (mem0 & c0 & Hl & ->). revert a Ht Hl.
  induction l as [|u l IH]; intros a Ht; cbn.
  - intros [-> _]. split; [done|]. exists ct. split; [done|]. split; [done|]. by exists cb.
  - intros [-> (c & Hc & Hl)]. split; [done|]. exists c. split.
    + rewrite lookup_insert_ne by set_solver. done.
    + apply IH; [set_solver|done].
Qed.

Lemma chain_null mem a l : (forall b, b ∈ l -> b <> 0) -> chain mem a l -> (a =? 0) = bool_decide (l = []).
Proof.
  intros H0. destruct l as [|b l]; intros Hl; cbn in Hl; [subst; by rewrite bool_decide_true|].
  destruct Hl as [-> _]. rewrite bool_decide_false by done. apply Z.eqb_neq, H0. set_solver.
Qed.

(** ** The messages of a queue *)

(** [free]: the free messages; [q]: the messages of the queue with their bytes,
    the oldest first; [fly]: those that a call holds while it copies. A message
    may have more bytes than were sent. *)
Record mq_holds (m : rt_messagequeue) (free : list Z) (q fly : list (Z * list Z)) : Prop := {
  qh_free : chain (mq_mem m) (mq_free m) free;
  qh_queue : chain (mq_mem m) (mq_head m) (q.*1);
  qh_tail : mq_tail m = default 0 (last (q.*1));
  qh_entry : mq_entry m = Z.of_nat (length q);
  qh_nodup : NoDup (free ++ q.*1 ++ fly.*1);
  qh_count : Z.of_nat (length free + length q + length fly) = mq_max_msgs m;
  qh_max : mq_max_msgs m <= RT_MQ_ENTRY_MAX;
  qh_slots a : a ∈ free ++ q.*1 ++ fly.*1 -> a <> 0 /\
    exists n c, mq_mem m !! a = Some (n, c) /\ Z.of_nat (length c) = mq_msg_size m;
  qh_data a d : (a, d) ∈ q ++ fly -> exists n c, mq_mem m !! a = Some (n, c) /\ d `prefix_of` c }.

Lemma mq_holds_perm m free q fly fly' : fly ≡ₚ fly' -> mq_holds m free q fly -> mq_holds m free q fly'.
Proof.
  intros E [? ? ? ? Hn Hc ? Hs Hd]. split; try done.
  - by rewrite <- E.
  - by rewrite <- E.
  - intros a. rewrite <- E. apply Hs.
  - intros a d. rewrite <- E. apply Hd.
Qed.

Lemma mq_holds_free m free q fly : mq_holds m free q fly -> (mq_free m =? 0) = bool_decide (free = []).
Proof. intros []. eapply chain_null; [|done]. intros b Hb. apply qh_slots0. set_solver. Qed.
Lemma mq_holds_empty m free q fly : mq_holds m free q fly -> (mq_entry m =? 0) = bool_decide (q = []).
Proof. intros []. case_bool_decide; [subst|destruct q; [done|]]; simpl in *; lia. Qed.

(** Moving a message between the lists. *)
Lemma perm_free {A} (a : A) f q l : (a :: f) ++ q ++ l ≡ₚ f ++ q ++ a :: l.
Proof. cbn. rewrite !(app_assoc f). apply Permutation_middle. Qed.
Lemma perm_queue {A} (a : A) f q l : f ++ (a :: q) ++ l ≡ₚ f ++ q ++ a :: l.
Proof. apply Permutation_app_head. apply (Permutation_middle q l a). Qed.

(** The parts of the queue after messages moved between the lists and their
    next pointers changed. *)
Lemma mq_holds_move m m' free0 q0 fly0 free q fly :
  mq_holds m free0 q0 fly0 ->
  mq_msg_size m' = mq_msg_size m -> mq_max_msgs m' = mq_max_msgs m ->
  (forall b, snd <$> mq_mem m' !! b = snd <$> mq_mem m !! b) ->
  free ++ q.*1 ++ fly.*1 ≡ₚ free0 ++ q0.*1 ++ fly0.*1 ->
  (forall x, x ∈ q ++ fly -> x ∈ q0 ++ fly0 \/ x.2 = []) ->
  chain (mq_mem m') (mq_free m') free -> chain (mq_mem m') (mq_head m') (q.*1) ->
  mq_tail m' = default 0 (last (q.*1)) -> mq_entry m' = Z.of_nat (length q) ->
  mq_holds m' free q fly.
Proof.
  intros [Hf Hq Ht He Hn Hc Hm Hs Hd] Esz Emx Esnd Hp Hin Cf Cq Et Ee.
  assert (Hat : forall b n c, mq_mem m !! b = Some (n, c) -> exists n', mq_mem m' !! b = Some (n', c)).
  { intros b n c E. specialize (Esnd b). rewrite E in Esnd.
    destruct (mq_mem m' !! b) as [[n' c']|]; [|done]. cbn in Esnd. exists n'. congruence. }
  split; try done.
  - by rewrite Hp.
  - apply Permutation_length in Hp. rewrite !length_app, !length_fmap in Hp. lia.
  - by rewrite Emx.
  - intros b Hb. rewrite Hp in Hb. destruct (Hs b Hb) as (Hb0 & n & c & E & Hl). split; [done|].
    destruct (Hat b n c E) as [n' E']. exists n', c. by rewrite Esz.
  - intros b e Hb. destruct (Hin _ Hb) as [Hb0|He0].
    + destruct (Hd b e Hb0) as (n & c & E & Hpr). destruct (Hat b n c E) as [n' E']. by exists n', c.
    + cbn in He0. subst e. destruct (Hs b) as (_ & n & c & E & _).
      * rewrite <- Hp. rewrite <- fmap_app. apply elem_of_app; right. by apply list_elem_of_fmap_2' with (b, []).
      * destruct (Hat b n c E) as [n' E']. exists n', c. split; [done|apply prefix_nil].
Qed.

(** Taking a free message. *)
Lemma mq_alloc_ok m a free q fly :
  mq_holds m (a :: free) q fly ->
  exists m', mq_alloc m = Some (a, m') /\ mq_holds m' free q ((a, []) :: fly) /\
    mq_msg_size m' = mq_msg_size m.
Proof.
  intros HH. pose proof HH as [Hf Hq Ht He _ _ _ _ _]. cbn in Hf. destruct Hf as [Ea (c & Hc' & Hf)].
  exists (m <| mq_free := fst c |>). split; [|split; [|by destruct m]].
  - unfold mq_alloc, msg_next. rewrite Hc'. cbn. by rewrite Ea.
  - destruct m. apply (mq_holds_move _ _ _ _ _ _ _ _ HH); try done.
    + csimpl. by rewrite <- perm_free.
    + intros x. rewrite !elem_of_app, elem_of_cons. intros [?|[->|?]]; auto.
Qed.

(** Writing to a message that a call holds. *)
Lemma mq_store m a d d' n' c' free q fly :
  mq_holds m free q ((a, d) :: fly) -> Z.of_nat (length c') = mq_msg_size m -> d' `prefix_of` c' ->
  mq_holds (m <| mq_mem ::= <[a := (n', c')]> |>) free q ((a, d') :: fly).
Proof.
  intros [Hf Hq Ht He Hn Hc Hm Hs Hd] Hl Hp.
  assert (Hna : a ∉ free ++ q.*1 ++ fly.*1).
  { intros Hin. csimpl in Hn. rewrite <- perm_free in Hn. by apply NoDup_cons in Hn as [? _]. }
  destruct m. cbn in *. split; cbn; try done.
  - apply chain_insert_ne; [set_solver|done].
  - apply chain_insert_ne; [set_solver|done].
  - intros b Hb. split; [by apply Hs|]. destruct (decide (b = a)) as [->|Hne].
    + rewrite lookup_insert_eq. by exists n', c'.
    + rewrite lookup_insert_ne by done. by apply Hs.
  - intros b e Hb. destruct (decide (b = a)) as [->|Hne].
    + rewrite lookup_insert_eq. exists n', c'. split; [done|].
      apply elem_of_app in Hb as [Hb|Hb].
      * exfalso. apply Hna. assert (a ∈ (q.*1)) by (apply list_elem_of_fmap; by exists (a, e)). set_solver.
      * apply elem_of_cons in Hb as [[= ->]|Hb]; [done|].
        exfalso. apply Hna. assert (a ∈ (fly.*1)) by (apply list_elem_of_fmap; by exists (a, e)). set_solver.
    + rewrite lookup_insert_ne by done. apply Hd. apply elem_of_app in Hb as [Hb|Hb]; [set_solver|].
      apply elem_of_cons in Hb as [[= ->]|Hb]; [done|set_solver].
Qed.

Lemma mq_holds_slot m a d free q fly :
  mq_holds m free q ((a, d) :: fly) -> a <> 0 /\
  exists n c, mq_mem m !! a = Some (n, c) /\ Z.of_nat (length c) = mq_msg_size m /\ d `prefix_of` c.
Proof.
  intros [Hf Hq Ht He Hn Hc Hm Hs Hd]. destruct (Hs a) as (H0 & n & c & E & Hl); [cbn; set_solver|].
  split; [done|]. exists n, c. split; [done|]. split; [done|].
  destruct (Hd a d) as (n' & c' & E' & Hp); [set_solver|]. by simplify_eq.
Qed.

Lemma set_msg_next_ok m a n d free q fly :
  mq_holds m free q ((a, d) :: fly) ->
  exists m', set_msg_next a n m = Some m' /\ mq_holds m' free q ((a, d) :: fly) /\
    msg_next m' a = Some n /\ mq_msg_size m' = mq_msg_size m.
Proof.
  intros HH. destruct (mq_holds_slot _ _ _ _ _ _ HH) as (H0 & n0 & c & E & Hl & Hp).
  exists (m <| mq_mem ::= <[a := (n, c)]> |>). split; [|split; [|split]].
  - unfold set_msg_next. rewrite E. done.
  - by eapply mq_store.
  - unfold msg_next. destruct m. cbn. by rewrite lookup_insert_eq.
  - by destruct m.
Qed.

Lemma set_msg_data_ok m a buffer d free q fly :
  mq_holds m free q ((a, d) :: fly) -> Z.of_nat (length buffer) <= mq_msg_size m ->
  exists m', set_msg_data a buffer m = Some m' /\ mq_holds m' free q ((a, buffer) :: fly) /\
    msg_next m' a = msg_next m a /\ mq_msg_size m' = mq_msg_size m.
Proof.
  intros HH Hb. destruct (mq_holds_slot _ _ _ _ _ _ HH) as (H0 & n0 & c & E & Hl & Hp).
  exists (m <| mq_mem ::= <[a := (n0, buffer ++ drop (length buffer) c)]> |>). split; [|split; [|split]].
  - unfold set_msg_data. rewrite E. done.
  - eapply mq_store; [done|rewrite length_app, length_drop; lia|by eexists].
  - unfold msg_next. destruct m. cbn in *. by rewrite lookup_insert_eq, E.
  - by destruct m.
Qed.

(** A message that a call holds is not in the lists. *)
Lemma mq_holds_fly m a d free q fly :
  mq_holds m free q ((a, d) :: fly) -> a ∉ free /\ a ∉ (q.*1) /\ a ∉ (fly.*1) /\ mq_entry m < RT_MQ_ENTRY_MAX.
Proof.
  intros [_ _ _ He Hn Hc Hm _ _]. csimpl in Hn. rewrite <- perm_free in Hn.
  apply NoDup_cons in Hn as [Hn _]. csimpl in Hc. split_and!; [set_solver..|lia].
Qed.

Lemma snd_insert_next (mem : gmap Z (Z * list Z)) t n n' c b :
  mem !! t = Some (n, c) -> snd <$> <[t := (n', c)]> mem !! b = snd <$> mem !! b.
Proof.
  intros E. destruct (decide (b = t)) as [->|]; [by rewrite lookup_insert_eq, E|by rewrite lookup_insert_ne].
Qed.

Lemma mq_count_ok m : 0 <= mq_entry m < RT_MQ_ENTRY_MAX ->
  mq_count m = (RT_EOK, m <| mq_entry := mq_entry m + 1 |>).
Proof.
  intros. unfold mq_count. rewrite (proj2 (Z.ltb_lt _ _)) by lia. destruct m. cbn in *.
  rewrite <- (u16_small (mq_entry + 1)); [done|unfold RT_MQ_ENTRY_MAX in *; lia].
Qed.

(** Linking a message behind the others. *)
Lemma mq_link_tail_ok m a d free q fly :
  mq_holds m free q ((a, d) :: fly) -> msg_next m a = Some 0 ->
  exists m', mq_link_tail a m = Some (RT_EOK, m') /\ mq_holds m' free (q ++ [(a, d)]) fly.
Proof.
  intros HH Hnx. destruct (mq_holds_fly _ _ _ _ _ _ HH) as (Haf & Haq & _ & Hmx).
  destruct (mq_holds_slot _ _ _ _ _ _ HH) as (Ha0 & na & ca & Eca & _ & _).
  pose proof HH as [Hf Hq Ht He Hn _ _ Hs _].
  unfold msg_next in Hnx. rewrite Eca in Hnx. injection Hnx as ->.
  assert (Hq0 : forall b, b ∈ (q.*1) -> b <> 0) by (intros b Hb; apply Hs; set_solver).
  pose proof (chain_null _ _ _ Hq0 Hq) as Hh.
  assert (Hp : free ++ (q ++ [(a, d)]).*1 ++ fly.*1 ≡ₚ free ++ q.*1 ++ a :: fly.*1).
  { rewrite fmap_app. cbn. by rewrite <- (assoc_L app (q.*1)). }
  unfold mq_link_tail. rewrite Ht. destruct (last (q.*1)) as [t|] eqn:El; cbn [from_option id].
  - apply last_Some in El as [l El]. assert (Htq : t ∈ (q.*1)) by (rewrite El; set_solver).
    rewrite (proj2 (Z.eqb_neq t 0)) by (by apply Hq0).
    destruct (Hs t) as (_ & nt & ct & Et & _); [set_solver|].
    unfold set_msg_next. rewrite Et. cbn [option_bind mbind snd]. rewrite bool_decide_false in Hh by (rewrite El; by destruct l).
    eexists. split.
    + cbn. unfold upd; cbn. rewrite Hh. rewrite mq_count_ok by (cbn; lia). reflexivity.
    + destruct m. cbn in *. apply (mq_holds_move _ _ _ _ _ _ _ _ HH); cbn; try done.
      * intros b. by eapply snd_insert_next.
      * intros x Hx. left. set_solver.
      * apply chain_insert_ne; [|done]. rewrite El in Hn. clear -Hn. apply NoDup_app in Hn as (_ & Hn & _).
        intros Ht. apply (Hn t Ht). set_solver.
      * rewrite fmap_app, El, <- app_assoc. cbn.
        eapply (chain_snoc _ _ l t a (a, ct) (0, ca)); try done.
        -- rewrite El in Hn. apply NoDup_app in Hn as (_ & _ & Hn). apply NoDup_app in Hn as (Hn & _).
           apply NoDup_app in Hn as (_ & Hn & _). intros Ht2. apply (Hn t Ht2). set_solver.
        -- by rewrite lookup_insert_eq.
        -- rewrite lookup_insert_ne; [done|]. intros ->. done.
        -- rewrite <- El. by eexists _, _.
      * rewrite fmap_app; csimpl; by rewrite last_snoc.
      * rewrite length_app. cbn. lia.
  - apply last_None in El. destruct q; [|done]. rewrite bool_decide_true in Hh by done.
    rewrite Z.eqb_refl. eexists. split.
    + cbn. unfold upd; cbn. rewrite Hh. rewrite mq_count_ok by (cbn; lia). reflexivity.
    + destruct m. cbn in *. apply (mq_holds_move _ _ _ _ _ _ _ _ HH); cbn; try done; [|split; [done|by exists (0, ca)]|lia].
      intros x. rewrite !elem_of_cons. intuition.
Qed.

(** Linking a message before the others. *)
Lemma mq_link_head_ok m a d free q fly :
  mq_holds m free q ((a, d) :: fly) ->
  exists m', mq_link_head a m = Some (RT_EOK, m') /\ mq_holds m' free ((a, d) :: q) fly.
Proof.
  intros HH. destruct (mq_holds_fly _ _ _ _ _ _ HH) as (Haf & Haq & _ & Hmx).
  destruct (mq_holds_slot _ _ _ _ _ _ HH) as (Ha0 & na & ca & Eca & _ & _).
  pose proof HH as [Hf Hq Ht He _ _ _ Hs _].
  assert (Hq0 : forall b, b ∈ (q.*1) -> b <> 0) by (intros b Hb; apply Hs; set_solver).
  assert (Htail : (mq_tail m =? 0) = bool_decide (q = [])).
  { rewrite Ht. destruct (last (q.*1)) as [t|] eqn:El.
    - pose proof El as El'. apply last_Some in El as [l El].
      rewrite bool_decide_false by (by intros ->). apply Z.eqb_neq, Hq0. rewrite El. set_solver.
    - apply last_None in El. destruct q; [|done]. by rewrite bool_decide_true. }
  unfold mq_link_head, set_msg_next. rewrite Eca. cbn [mbind option_bind snd].
  eexists. split.
  - cbn. unfold upd; cbn. rewrite Htail. rewrite mq_count_ok by (destruct (bool_decide _); cbn; lia). reflexivity.
  - destruct m. cbn in *. apply (mq_holds_move _ _ _ _ _ _ _ _ HH).
    1,2: by case_bool_decide.
    + intros b. case_bool_decide; by eapply snd_insert_next.
    + csimpl. by rewrite <- perm_queue.
    + intros x Hx. left. set_solver.
    + case_bool_decide; by apply chain_insert_ne.
    + csimpl. case_bool_decide; (split; [done|]; eexists; split; [apply lookup_insert_eq|];
        by apply chain_insert_ne).
    + case_bool_decide; [by subst|]. destruct q; [done|]. by rewrite Ht.
    + case_bool_decide; cbn; lia.
Qed.

(** Taking the oldest message out. *)
Lemma mq_unlink_ok m a d free q fly :
  mq_holds m free ((a, d) :: q) fly ->
  exists m', mq_unlink m = Some (a, m') /\ mq_holds m' free q ((a, d) :: fly) /\
    mq_msg_size m' = mq_msg_size m.
Proof.
  intros HH. pose proof HH as [Hf Hq Ht He Hn Hc Hmx Hs _]. csimpl in *. destruct Hq as [Eh (c & Ec & Hq)].
  assert (Htail : (mq_tail m =? a) = bool_decide (q = [])).
  { rewrite Ht. case_bool_decide as Eq; [subst; cbn; lia|].
    destruct (last (q.*1)) as [t|] eqn:El; [|apply last_None in El; by destruct q].
    apply last_Some in El as [l El]. rewrite El in *. csimpl in *.
    change (a :: l ++ [t]) with ((a :: l) ++ [t]). rewrite last_snoc. cbn. apply Z.eqb_neq. intros ->.
    apply NoDup_app in Hn as (_ & _ & Hn). apply NoDup_cons in Hn as [Hn _]. set_solver. }
  unfold mq_unlink, msg_next. rewrite Ec. cbn [mbind option_bind fmap option_fmap option_map].
  assert (He1 : 0 <? mq_entry m = true) by lia.
  eexists. split; [|split].
  - cbn. unfold upd; cbn. rewrite Eh, Htail.
    replace (0 <? mq_entry (if bool_decide (q = []) then _ else _)) with true by (by destruct (bool_decide _)).
    reflexivity.
  - destruct m. cbn in *. subst. apply (mq_holds_move _ _ _ _ _ _ _ _ HH).
    1,2: by case_bool_decide.
    + intros b. by case_bool_decide.
    + csimpl. by rewrite <- perm_queue.
    + intros x Hx. left. set_solver.
    + by case_bool_decide.
    + by case_bool_decide.
    + case_bool_decide as Eq; [by subst|]. cbn. destruct (q.*1) eqn:E; [by destruct q|]. done.
    + unfold RT_MQ_ENTRY_MAX in *. case_bool_decide; cbn; rewrite u16_small; lia.
  - destruct m. cbn. by case_bool_decide.
Qed.

(** Giving a message back. *)
Lemma mq_give_ok m a d free q fly :
  mq_holds m free q ((a, d) :: fly) ->
  exists m', mq_give a m = Some m' /\ mq_holds m' (a :: free) q fly.
Proof.
  intros HH. destruct (mq_holds_fly _ _ _ _ _ _ HH) as (Haf & Haq & _ & _).
  destruct (mq_holds_slot _ _ _ _ _ _ HH) as (_ & na & ca & Eca & _ & _).
  pose proof HH as [Hf Hq Ht He _ _ _ _ _].
  eexists. split; [unfold mq_give, set_msg_next; by rewrite Eca|].
  destruct m. cbn in *. apply (mq_holds_move _ _ _ _ _ _ _ _ HH); cbn; try done.
  - intros b. by eapply snd_insert_next.
  - csimpl. by rewrite <- perm_free.
  - intros x Hx. left. set_solver.
  - split; [done|]. eexists. split; [apply lookup_insert_eq|]. by apply chain_insert_ne.
  - by apply chain_insert_ne.
Qed.

Lemma mq_count_size m : mq_msg_size (snd (mq_count m)) = mq_msg_size m.
Proof. unfold mq_count. destruct m; cbn. by destruct (_ <? _). Qed.
Lemma set_msg_next_size a n m m' : set_msg_next a n m = Some m' -> mq_msg_size m' = mq_msg_size m.
Proof. unfold set_msg_next. destruct (mq_mem m !! a); [|done]. intros [= <-]. by destruct m. Qed.
Lemma mq_link_tail_size a m e m' : mq_link_tail a m = Some (e, m') -> mq_msg_size m' = mq_msg_size m.
Proof.
  unfold mq_link_tail. intros E. apply bind_Some in E as (m1 & E1 & E).
  assert (E2 : mq_msg_size m1 = mq_msg_size m).
  { destruct (mq_tail m =? 0); [by simplify_eq|by apply set_msg_next_size in E1]. }
  injection E as E. apply (f_equal (mq_msg_size ∘ snd)) in E. cbn in E. rewrite <- E, mq_count_size, <- E2.
  unfold upd. cbn. case_match; by destruct m1.
Qed.
Lemma mq_link_head_size a m e m' : mq_link_head a m = Some (e, m') -> mq_msg_size m' = mq_msg_size m.
Proof.
  unfold mq_link_head. intros E. apply bind_Some in E as (m1 & E1 & E).
  apply set_msg_next_size in E1.
  injection E as E. apply (f_equal (mq_msg_size ∘ snd)) in E. cbn in E. rewrite <- E, mq_count_size, <- E1.
  unfold upd. cbn. case_match; by destruct m1.
Qed.
Lemma mq_give_size a m m' : mq_give a m = Some m' -> mq_msg_size m' = mq_msg_size m.
Proof.
  unfold mq_give. intros E. apply bind_Some in E as (m1 & E1 & E). apply set_msg_next_size in E1.
  injection E as <-. rewrite <- E1. by destruct m1.
Qed.

(** ** The pool of a new queue *)
#[local] Instance F_mq_max_msgs : Field mq_max_msgs := ltac:(field_of eta_mq mq_max_msgs).

Lemma mq_link_pool_ok contents n : forall temp m l,
  mq_holds (m <| mq_max_msgs := temp |>) l [] [] ->
  (forall a, a ∈ l -> a < mq_pool m + temp * (mq_msg_size m + SIZEOF_MQ_MESSAGE)) ->
  (forall a, Z.of_nat (length (contents a)) = mq_msg_size m) ->
  0 < mq_pool m -> 0 <= temp -> temp + Z.of_nat n <= RT_MQ_ENTRY_MAX ->
  exists l', mq_holds (mq_link_pool n temp contents m <| mq_max_msgs := temp + Z.of_nat n |>) l' [] [] /\
    mq_max_msgs (mq_link_pool n temp contents m) = mq_max_msgs m /\
    mq_msg_size (mq_link_pool n temp contents m) = mq_msg_size m.
Proof.
  induction n as [|n IH]; intros temp m l HH Hl Hct Hp Ht Hn.
  { exists l. cbn [mq_link_pool]. by rewrite Z.add_0_r. }
  cbn [mq_link_pool]. set (a := mq_pool m + temp * (mq_msg_size m + SIZEOF_MQ_MESSAGE)).
  set (m1 := _ <| mq_free := a |>).
  assert (Hsz : 0 <= mq_msg_size m) by (specialize (Hct 0); lia).
  assert (Ha : 0 < a) by (unfold a, SIZEOF_MQ_MESSAGE; nia).
  assert (Hal : a ∉ l) by (intros Hin; specialize (Hl a Hin); lia).
  destruct (IH (temp + 1) m1 (a :: l)) as (l' & HH' & E1 & E2).
  - destruct HH as [Hf Hq Htl He Hnd Hc Hm Hs Hd]. destruct m. cbn in *. split; cbn; try done.
    + split; [done|]. exists (mq_free, contents a). split; [apply lookup_insert_eq|].
      by apply chain_insert_ne.
    + rewrite app_nil_r in *. by constructor.
    + lia.
    + lia.
    + rewrite app_nil_r in *. intros b Hb. destruct (decide (b = a)) as [->|Hne].
      * split; [lia|]. rewrite lookup_insert_eq. exists mq_free, (contents a). auto.
      * rewrite lookup_insert_ne by done. apply Hs. set_solver.
    + intros ? ? Hin. by apply elem_of_nil in Hin.
  - replace (mq_pool m1) with (mq_pool m) by (by destruct m).
    replace (mq_msg_size m1) with (mq_msg_size m) by (by destruct m).
    intros b Hb. apply elem_of_cons in Hb as [->|Hb]; [unfold a, SIZEOF_MQ_MESSAGE; lia|].
    specialize (Hl b Hb). unfold SIZEOF_MQ_MESSAGE in *. lia.
  - intros b. rewrite Hct. by destruct m.
  - by destruct m.
  - lia.
  - lia.
  - exists l'. split; [|by rewrite E1, E2; destruct m].
    by replace (temp + Z.of_nat (S n)) with (temp + 1 + Z.of_nat n) by lia.
Qed.

Lemma mq_pool_holds contents pool size max :
  0 < pool -> 0 <= max <= RT_MQ_ENTRY_MAX -> (forall a, Z.of_nat (length (contents a)) = size) ->
  exists free, mq_holds (mq_link_pool (Z.to_nat max) 0 contents (RtMQ pool size max 0 0 0 0 ∅)) free [] [] /\
    Z.of_nat (length free) = max.
Proof.
  intros Hp Hm Hct.
  destruct (mq_link_pool_ok contents (Z.to_nat max) 0 (RtMQ pool size max 0 0 0 0 ∅) []) as (l & HH & E1 & E2).
  - split; try done; [apply NoDup_nil_2|intros ? Hin|intros ? ? Hin]; by apply elem_of_nil in Hin.
  - intros a Hin. by apply elem_of_nil in Hin.
  - done.
  - done.
  - lia.
  - lia.
  - exists l. rewrite Z.add_0_l, Z2Nat.id in HH by lia.
    set (m := mq_link_pool _ _ _ _) in *. cbn in E1.
    replace (m <| mq_max_msgs := max |>) with m in HH by (destruct m; cbn in E1; by subst).
    split; [done|]. apply qh_count in HH. cbn in HH. lia.
Qed.

(** ** The message queue of the kernel *)
Definition mqueue_is (s : kstate) (x : positive) (size : Z) (free : list Z) (q fly : list (Z * list Z)) : Prop :=
  typed s (mq_ref x) RT_Object_Class_MessageQueue /\
  exists m, mqueues s !! x = Some m /\ mq_msg_size m = size /\ mq_holds m free q fly.

Definition mq_set (x : positive) (m : rt_messagequeue) (s : kstate) : kstate :=
  s <| mqueues ::= <[x := m]> |>.

Lemma mq_set_ok x m s : kok s -> kok (mq_set x m s).
Proof. intros HK. by eapply kok_ext. Qed.
Lemma mq_set_frame x m s : mq_set x m s = s <| mqueues := mqueues (mq_set x m s) |>.
Proof. by destruct s. Qed.
Lemma mq_set_set x m m' s : mq_set x m' (mq_set x m s) = mq_set x m' s.
Proof. destruct s. unfold mq_set, upd, F_mqueues. simpl. by rewrite insert_insert_eq. Qed.
Lemma mqueue_is_set s x m size free q fly :
  typed s (mq_ref x) RT_Object_Class_MessageQueue -> mq_msg_size m = size -> mq_holds m free q fly ->
  mqueue_is (mq_set x m s) x size free q fly.
Proof. intros Ht Hs Hm. split; [done|]. exists m. split; [apply lookup_insert_eq|done]. Qed.
Lemma mqueue_is_frame s s' x size free q fly :
  kframe s s' -> mqueue_is s x size free q fly -> mqueue_is s' x size free q fly.
Proof. intros F [H1 (m & Hm & Hh)]. split; [by apply (kf_typed _ _ F)|]. exists m. by rewrite (kf_eq _ _ F). Qed.

(** A call that runs to its end with nobody else running when it lets them. *)
Fixpoint undisturbed {S A} (o : outcome S A) : outcome S A :=
  match o with Switch s k => undisturbed (k s) | _ => o end.

Lemma undisturbed_bind {S A B} (m : prog S A) (f : A -> prog S B) s a s' r :
  undisturbed (m s) = Done a s' -> undisturbed (f a s') = r -> undisturbed ((m ≫= f) s) = r.
Proof.
  unfold mbind, prog_bind. induction (m s) as [b s1|s1 k IH|]; cbn; [by intros [= -> ->]| |done].
  apply IH.
Qed.

Section MQueue.
Context `{!SignalOps}.

Lemma get_mq_eq s x m : mqueues s !! x = Some m -> get_mq x s = Done m s.
Proof. intros E. unfold get_mq, get, mbind, prog_bind. simpl. by rewrite E. Qed.

(** [o] lets other threads run in [s1], and then goes on, in any state in which
    its message [(a, d)] is still held, as [after] says. *)
Definition copies {A} (x : positive) (size a : Z) (d : list Z) (o : outcome kstate A) (s1 : kstate)
    (after : kstate -> list Z -> list (Z * list Z) -> list (Z * list Z) -> outcome kstate A -> Prop) : Prop :=
  exists k, o = Switch s1 k /\
    forall s2 free2 q2 fly2, kok s2 -> mqueue_is s2 x size free2 q2 ((a, d) :: fly2) ->
      after s2 free2 q2 fly2 (k s2).

Lemma mq_send_now_ok s x size a free q fly buffer :
  kok s -> mqueue_is s x size (a :: free) q fly -> Z.of_nat (length buffer) <= size ->
  exists s1, s1 = s <| mqueues := mqueues s1 |> /\ kok s1 /\ mqueue_is s1 x size free q ((a, []) :: fly) /\
    copies x size a [] (mq_send_now x buffer s) s1 (fun s2 free2 q2 fly2 o =>
      exists s3, s3 = s2 <| mqueues := mqueues s3 |> /\ kok s3 /\
        mqueue_is s3 x size free2 (q2 ++ [(a, buffer)]) fly2 /\
        hands_over (QSuspend (mq_ref x)) s3 o RT_EOK).
Proof.
  intros HK (Ht & m & Hm & Hsz & Hh) Hb.
  destruct (mq_alloc_ok m a free q fly Hh) as (m1 & E1 & Hh1 & Hsz1).
  exists (mq_set x m1 s). split; [apply mq_set_frame|]. split; [by apply mq_set_ok|].
  split; [apply mqueue_is_set; [done|congruence|done]|].
  unfold copies, mq_send_now. erewrite bind_done by exact (get_mq_eq _ _ _ Hm). rewrite E1.
  erewrite bind_done by done. cbv beta iota.
  erewrite (bind_done (put_mq x m1)) by done. eexists. split; [reflexivity|].
  intros s2 free2 q2 fly2 HK2 (Ht2 & m2 & Hm2 & Hsz2 & Hh2). cbv beta. cbn [outcome_bind].
  destruct (set_msg_next_ok m2 a 0 _ _ _ _ Hh2) as (m3 & E3 & Hh3 & Hn3 & Hsz3).
  destruct (set_msg_data_ok m3 a buffer _ _ _ _ Hh3) as (m4 & E4 & Hh4 & Hn4 & Hsz4); [lia|].
  destruct (mq_link_tail_ok m4 a buffer _ _ _ Hh4) as (m5 & E5 & Hh5); [congruence|].
  exists (mq_set x m5 s2). split; [apply mq_set_frame|]. split; [by apply mq_set_ok|].
  split; [apply mqueue_is_set; [done| |done]; apply mq_link_tail_size in E5; congruence|].
  erewrite bind_done by exact (get_mq_eq _ _ _ Hm2). rewrite E3. erewrite bind_done by done.
  rewrite E4. erewrite bind_done by done. erewrite (bind_done (put_mq x m4)) by done.
  erewrite (bind_done (get_mq x)) by (apply get_mq_eq, lookup_insert_eq). rewrite E5.
  erewrite bind_done by done. cbv beta iota. erewrite (bind_done (put_mq x m5)) by done.
  change (RT_EOK =? RT_EOK) with true. cbv iota. fold (mq_set x m4 s2). fold (mq_set x m5 (mq_set x m4 s2)).
  rewrite mq_set_set. apply wake_first_ok; [by apply mq_set_ok|done].
Qed.

Lemma mq_urgent_now_ok s x size a free q fly buffer :
  kok s -> mqueue_is s x size (a :: free) q fly -> buffer <> [] -> Z.of_nat (length buffer) <= size ->
  exists s1, s1 = s <| mqueues := mqueues s1 |> /\ kok s1 /\ mqueue_is s1 x size free q ((a, []) :: fly) /\
    copies x size a [] (rt_mq_urgent x buffer s) s1 (fun s2 free2 q2 fly2 o =>
      exists s3, s3 = s2 <| mqueues := mqueues s3 |> /\ kok s3 /\
        mqueue_is s3 x size free2 ((a, buffer) :: q2) fly2 /\
        hands_over (QSuspend (mq_ref x)) s3 o RT_EOK).
Proof.
  intros HK (Ht & m & Hm & Hsz & Hh) Hne Hb.
  destruct (mq_alloc_ok m a free q fly Hh) as (m1 & E1 & Hh1 & Hsz1).
  exists (mq_set x m1 s). split; [apply mq_set_frame|]. split; [by apply mq_set_ok|].
  split; [apply mqueue_is_set; [done|congruence|done]|].
  unfold copies, rt_mq_urgent. erewrite bind_done by (by apply assert_type_eq).
  rewrite (bool_decide_false (buffer = [])) by done. erewrite bind_done by done.
  erewrite bind_done by exact (get_mq_eq _ _ _ Hm). rewrite (proj2 (Z.ltb_ge _ _)) by lia.
  rewrite (mq_holds_free _ _ _ _ Hh), bool_decide_false by done. cbv iota. rewrite E1.
  erewrite bind_done by done. cbv beta iota.
  erewrite (bind_done (put_mq x m1)) by done. eexists. split; [reflexivity|].
  intros s2 free2 q2 fly2 HK2 (Ht2 & m2 & Hm2 & Hsz2 & Hh2). cbv beta. cbn [outcome_bind].
  destruct (set_msg_data_ok m2 a buffer _ _ _ _ Hh2) as (m4 & E4 & Hh4 & Hn4 & Hsz4); [lia|].
  destruct (mq_link_head_ok m4 a buffer _ _ _ Hh4) as (m5 & E5 & Hh5).
  exists (mq_set x m5 s2). split; [apply mq_set_frame|]. split; [by apply mq_set_ok|].
  split; [apply mqueue_is_set; [done| |done]; apply mq_link_head_size in E5; congruence|].
  erewrite bind_done by exact (get_mq_eq _ _ _ Hm2). rewrite E4. erewrite bind_done by done.
  rewrite E5. erewrite bind_done by done. cbv beta iota. erewrite (bind_done (put_mq x m5)) by done.
  change (RT_EOK =? RT_EOK) with true. cbv iota. fold (mq_set x m5 s2).
  apply wake_first_ok; [by apply mq_set_ok|done].
Qed.

Lemma mq_recv_now_ok s x size a d free q fly n :
  kok s -> mqueue_is s x size free ((a, d) :: q) fly ->
  exists s1, s1 = s <| mqueues := mqueues s1 |> /\ kok s1 /\ mqueue_is s1 x size free q ((a, d) :: fly) /\
    copies x size a d (mq_recv_now x n s) s1 (fun s2 free2 q2 fly2 o =>
      exists s3 c, s3 = s2 <| mqueues := mqueues s3 |> /\ kok s3 /\
        mqueue_is s3 x size (a :: free2) q2 fly2 /\ d `prefix_of` c /\ Z.of_nat (length c) = size /\
        hands_over (QSender (mq_ref x)) s3 o (RT_EOK, Some (take (Z.to_nat (Z.min n size)) c))).
Proof.
  intros HK (Ht & m & Hm & Hsz & Hh).
  destruct (mq_unlink_ok m a d free q fly Hh) as (m1 & E1 & Hh1 & Hsz1).
  exists (mq_set x m1 s). split; [apply mq_set_frame|]. split; [by apply mq_set_ok|].
  split; [apply mqueue_is_set; [done|congruence|done]|].
  unfold copies, mq_recv_now. erewrite bind_done by exact (get_mq_eq _ _ _ Hm). rewrite E1.
  erewrite bind_done by done. cbv beta iota.
  erewrite (bind_done (put_mq x m1)) by done. eexists. split; [reflexivity|].
  intros s2 free2 q2 fly2 HK2 (Ht2 & m2 & Hm2 & Hsz2 & Hh2). cbv beta. cbn [outcome_bind].
  destruct (mq_holds_slot _ _ _ _ _ _ Hh2) as (_ & n2 & c & Ec & Hlc & Hpc).
  destruct (mq_give_ok m2 a d _ _ _ Hh2) as (m3 & E3 & Hh3).
  exists (mq_set x m3 s2), c. split; [apply mq_set_frame|]. split; [by apply mq_set_ok|].
  split; [apply mqueue_is_set; [done| |done]; apply mq_give_size in E3; congruence|].
  split; [done|]. split; [congruence|].
  erewrite bind_done by exact (get_mq_eq _ _ _ Hm2). unfold msg_data. rewrite Ec.
  erewrite bind_done by done. rewrite E3. erewrite bind_done by done.
  erewrite (bind_done (put_mq x m3)) by done. fold (mq_set x m3 s2).
  assert (Z.min n size = if mq_msg_size m2 <? n then mq_msg_size m2 else n) as ->
    by (destruct (Z.ltb_spec (mq_msg_size m2) n); lia).
  apply wake_first_ok; [by apply mq_set_ok|done].
Qed.

Definition mq_send_again (fuel : nat) (x : positive) (buffer : list Z) (timeout start : Z)
    (th : rt_thread) (s : kstate) :=
  if error th =? RT_EOK
  then mq_send_loop fuel x buffer (time_left timeout start (rt_tick s)) s else Done (error th) s.
Definition mq_recv_again (fuel : nat) (x : positive) (size timeout start : Z) (th : rt_thread) (s : kstate) :=
  if error th =? RT_EOK
  then mq_recv_loop fuel x size (time_left timeout start (rt_tick s)) s else Done (error th, None) s.

Lemma rt_mq_send_wait_enter fuel s x size free q fly buffer timeout :
  mqueue_is s x size free q fly -> buffer <> [] ->
  rt_mq_send_wait fuel x buffer timeout s =
    if size <? Z.of_nat (length buffer) then Done (- RT_ERROR) s
    else if bool_decide (free = []) && (timeout =? 0) then Done (- RT_EFULL) s
    else mq_send_loop fuel x buffer timeout s.
Proof.
  intros (Ht & m & Hm & Hsz & Hh) Hne. unfold rt_mq_send_wait.
  erewrite bind_done by (by apply assert_type_eq).
  rewrite (bool_decide_false (buffer = [])) by done. erewrite bind_done by done.
  erewrite bind_done by exact (get_mq_eq _ _ _ Hm). rewrite Hsz, (mq_holds_free _ _ _ _ Hh).
  destruct (size <? _); [done|]. by destruct (_ && _).
Qed.

Lemma mq_send_loop_free fuel s x size a free q fly buffer timeout :
  mqueue_is s x size (a :: free) q fly ->
  mq_send_loop fuel x buffer timeout s = mq_send_now x buffer s.
Proof.
  intros (Ht & m & Hm & Hsz & Hh). destruct fuel; cbn [mq_send_loop];
    (erewrite bind_done by exact (get_mq_eq _ _ _ Hm)); by rewrite (mq_holds_free _ _ _ _ Hh), bool_decide_false.
Qed.

Lemma mq_recv_loop_some fuel s x size a free q fly n timeout :
  mqueue_is s x size free (a :: q) fly ->
  mq_recv_loop fuel x n timeout s = mq_recv_now x n s.
Proof.
  intros (Ht & m & Hm & Hsz & Hh). destruct fuel; cbn [mq_recv_loop];
    (erewrite bind_done by exact (get_mq_eq _ _ _ Hm)); by rewrite (mq_holds_empty _ _ _ _ Hh), bool_decide_false.
Qed.

(** C17. [rt_mq_send_wait] on a queue whose messages have [size] bytes: more
    bytes fail with [-RT_ERROR]; with no free message the call fails with
    [-RT_EFULL] when the caller does not wait, both without any effect, and
    otherwise blocks the caller among the senders until it is resumed; with a
    free message the call takes it, lets other threads run while it copies,
    and then puts the bytes behind all the messages that the queue holds by
    then, whatever the others sent and received meanwhile, and wakes the first
    thread that waits to receive. *)
Theorem rt_mq_send_wait_refines fuel s x size free q fly buffer timeout :
  kok s -> mqueue_is s x size free q fly -> buffer <> [] ->
  if size <? Z.of_nat (length buffer) then rt_mq_send_wait fuel x buffer timeout s = Done (- RT_ERROR) s
  else match free with
  | a :: free' =>
      exists s1, s1 = s <| mqueues := mqueues s1 |> /\ kok s1 /\
        mqueue_is s1 x size free' q ((a, []) :: fly) /\
        copies x size a [] (rt_mq_send_wait fuel x buffer timeout s) s1 (fun s2 free2 q2 fly2 o =>
          exists s3, s3 = s2 <| mqueues := mqueues s3 |> /\ kok s3 /\
            mqueue_is s3 x size free2 (q2 ++ [(a, buffer)]) fly2 /\
            hands_over (QSuspend (mq_ref x)) s3 o RT_EOK)
  | [] =>
      (timeout = 0 -> rt_mq_send_wait fuel x buffer timeout s = Done (- RT_EFULL) s) /\
      forall fuel' me th o, fuel = S fuel' -> timeout <> 0 -> may_block s me th ->
        objs s !! mq_ref x = Some o -> valid_flag (o_flag o) = true -> timeout < RT_TICK_MAX / 2 ->
        exists s', blocks me (rt_mq_send_wait fuel x buffer timeout s) s'
            (mq_send_again fuel' x buffer timeout (rt_tick s)) /\
          blocked (no_error me th s) s' me (th <| error := RT_EOK |>)
            (QSender (mq_ref x)) (o_flag o) timeout /\
          mqueue_is s' x size [] q fly
  end.
Proof.
  intros HK Hx Hne. rewrite (rt_mq_send_wait_enter _ _ _ _ _ _ _ _ _ Hx Hne).
  destruct (Z.ltb_spec size (Z.of_nat (length buffer))) as [|Hl]; [done|]. destruct free as [|a free'].
  - rewrite bool_decide_true by done. split; [by intros ->|].
    intros fuel' me th o -> Hto HM Ho Hfl Htm. rewrite (proj2 (Z.eqb_neq timeout 0) Hto).
    pose proof Hx as (_ & m & Hm & _ & Hh). pose proof HM as [_ Hc Hth _ _ Hn _ _].
    cbn [andb mq_send_loop]. erewrite bind_done by exact (get_mq_eq _ _ _ Hm).
    rewrite (mq_holds_free _ _ _ _ Hh), bool_decide_true by done.
    erewrite bind_done by (by apply self_eq). erewrite bind_done by exact (mod_thread_eq _ _ _ _ Hth).
    fold (no_error me th s). destruct (no_error_ok s me th HM) as [HM0 F0].
    rewrite (proj2 (Z.eqb_neq timeout 0) Hto).
    erewrite bind_done by exact (in_thread_context_eq (no_error me th s) me Hc Hn).
    destruct (wait_round_ok _ me _ (QSender (mq_ref x)) (mq_ref x) o timeout HM0) as (s' & HB & Hb); [done..|].
    exists s'. split; [|split; [done|]].
    + eapply blocks_ext; [exact (blocks_bind _ _ _ _ _ HB)|]. intros s2 th2 _. unfold mq_send_again.
      cbn [outcome_bind]. by destruct (error th2 =? RT_EOK).
    + apply (mqueue_is_frame s); [|done]. etrans; [exact F0|apply Hb].
  - rewrite bool_decide_false by done. cbn [andb]. rewrite (mq_send_loop_free _ _ _ _ _ _ _ _ _ _ Hx).
    by apply mq_send_now_ok.
Qed.

Lemma rt_mq_recv_enter fuel s x size free q fly n timeout :
  mqueue_is s x size free q fly -> n <> 0 ->
  rt_mq_recv fuel x n timeout s =
    if bool_decide (q = []) && (timeout =? 0) then Done (- RT_ETIMEOUT, None) s
    else mq_recv_loop fuel x n timeout s.
Proof.
  intros (Ht & m & Hm & Hsz & Hh) Hne. unfold rt_mq_recv.
  erewrite bind_done by (by apply assert_type_eq).
  rewrite (proj2 (Z.eqb_neq n 0)) by done. erewrite bind_done by done.
  erewrite bind_done by exact (get_mq_eq _ _ _ Hm). rewrite (mq_holds_empty _ _ _ _ Hh).
  by destruct (_ && _).
Qed.

(** C18. [rt_mq_recv] with a buffer of [n] bytes: on an empty queue the call
    fails with [-RT_ETIMEOUT] and no effect when the caller does not wait, and
    otherwise blocks it among the receivers; with messages the oldest one
    leaves the queue, other threads may run while its bytes are copied, and the
    call returns the bytes that were sent, cut to [n], followed up to the size
    of a message by bytes of earlier messages: the length that was sent is not
    kept. The message is free again and the first sender that waits is woken. *)
Theorem rt_mq_recv_refines fuel s x size free q fly n timeout :
  kok s -> mqueue_is s x size free q fly -> n <> 0 ->
  match q with
  | (a, d) :: q' =>
      exists s1, s1 = s <| mqueues := mqueues s1 |> /\ kok s1 /\
        mqueue_is s1 x size free q' ((a, d) :: fly) /\
        copies x size a d (rt_mq_recv fuel x n timeout s) s1 (fun s2 free2 q2 fly2 o =>
          exists s3 c, s3 = s2 <| mqueues := mqueues s3 |> /\ kok s3 /\
            mqueue_is s3 x size (a :: free2) q2 fly2 /\ d `prefix_of` c /\ Z.of_nat (length c) = size /\
            hands_over (QSender (mq_ref x)) s3 o (RT_EOK, Some (take (Z.to_nat (Z.min n size)) c)))
  | [] =>
      (timeout = 0 -> rt_mq_recv fuel x n timeout s = Done (- RT_ETIMEOUT, None) s) /\
      forall fuel' me th o, fuel = S fuel' -> timeout <> 0 -> may_block s me th ->
        objs s !! mq_ref x = Some o -> valid_flag (o_flag o) = true -> timeout < RT_TICK_MAX / 2 ->
        exists s', blocks me (rt_mq_recv fuel x n timeout s) s'
            (mq_recv_again fuel' x n timeout (rt_tick s)) /\
          blocked (no_error me th s) s' me (th <| error := RT_EOK |>)
            (QSuspend (mq_ref x)) (o_flag o) timeout /\
          mqueue_is s' x size free [] fly
  end.
Proof.
  intros HK Hx Hne. rewrite (rt_mq_recv_enter _ _ _ _ _ _ _ _ _ Hx Hne).
  destruct q as [|[a d] q'].
  - rewrite bool_decide_true by done. split; [by intros ->|].
    intros fuel' me th o -> Hto HM Ho Hfl Htm. rewrite (proj2 (Z.eqb_neq timeout 0) Hto).
    pose proof Hx as (_ & m & Hm & _ & Hh). pose proof HM as [_ Hc Hth _ _ Hn _ _].
    cbn [andb mq_recv_loop]. erewrite bind_done by exact (get_mq_eq _ _ _ Hm).
    rewrite (mq_holds_empty _ _ _ _ Hh), bool_decide_true by done.
    erewrite bind_done by exact (in_thread_context_eq s me Hc Hn).
    erewrite bind_done by (by apply self_eq). erewrite bind_done by exact (mod_thread_eq _ _ _ _ Hth).
    fold (no_error me th s). destruct (no_error_ok s me th HM) as [HM0 F0].
    rewrite (proj2 (Z.eqb_neq timeout 0) Hto).
    destruct (wait_round_ok _ me _ (QSuspend (mq_ref x)) (mq_ref x) o timeout HM0) as (s' & HB & Hb); [done..|].
    exists s'. split; [|split; [done|]].
    + eapply blocks_ext; [exact (blocks_bind _ _ _ _ _ HB)|]. intros s2 th2 _. unfold mq_recv_again.
      cbn [outcome_bind]. by destruct (error th2 =? RT_EOK).
    + apply (mqueue_is_frame s); [|done]. etrans; [exact F0|apply Hb].
  - rewrite bool_decide_false by done. cbn [andb]. rewrite (mq_recv_loop_some _ _ _ _ _ _ _ _ _ _ Hx).
    by apply mq_recv_now_ok.
Qed.

(** Sending messages one after the other, and receiving as many. *)
Fixpoint send_all (x : positive) (bs : list (list Z)) : K (list Z) :=
  match bs with
  | [] => mret []
  | b :: bs => e ← rt_mq_send x b; es ← send_all x bs; mret (e :: es)
  end.
Fixpoint recv_all (x : positive) (ns : list Z) : K (list (Z * option (list Z))) :=
  match ns with
  | [] => mret []
  | n :: ns => r ← rt_mq_recv 0 x n 0; rs ← recv_all x ns; mret (r :: rs)
  end.

Definition send_then_recv (x : positive) (bs : list (list Z)) (ns : list Z) :
    K (list Z * list (Z * option (list Z))) :=
  es ← send_all x bs; rs ← recv_all x ns; mret (es, rs).

Definition nobody_waits (s : kstate) (x : positive) : Prop :=
  queues s !!! QSuspend (mq_ref x) = [] /\ queues s !!! QSender (mq_ref x) = [].
Definition same_but_mqueues (s s' : kstate) : Prop := s' = s <| mqueues := mqueues s' |>.

Lemma same_but_mqueues_trans s1 s2 s3 :
  same_but_mqueues s1 s2 -> same_but_mqueues s2 s3 -> same_but_mqueues s1 s3.
Proof. unfold same_but_mqueues. intros E1 E2. rewrite E2, E1. by destruct s1. Qed.
Lemma nobody_waits_same s s' x : same_but_mqueues s s' -> nobody_waits s x -> nobody_waits s' x.
Proof. unfold nobody_waits. by intros ->. Qed.

Lemma send_one_ok s x size a free q fly b :
  kok s -> mqueue_is s x size (a :: free) q fly -> nobody_waits s x ->
  b <> [] -> Z.of_nat (length b) <= size ->
  exists s', undisturbed (rt_mq_send x b s) = Done RT_EOK s' /\ kok s' /\ same_but_mqueues s s' /\
    mqueue_is s' x size free (q ++ [(a, b)]) fly.
Proof.
  intros HK Hx Hw Hne Hl.
  assert (E : rt_mq_send x b s = mq_send_now x b s).
  { unfold rt_mq_send. rewrite (rt_mq_send_wait_enter _ _ _ _ _ _ _ _ _ Hx Hne).
    rewrite (proj2 (Z.ltb_ge _ _) Hl), bool_decide_false by done. cbn [andb].
    by apply (mq_send_loop_free _ _ _ _ _ _ _ _ _ _ Hx). }
  rewrite E. destruct (mq_send_now_ok s x size a free q fly b HK Hx Hl)
    as (s1 & E1 & HK1 & Hx1 & k & -> & Hk).
  destruct (Hk s1 free q fly HK1 Hx1) as (s3 & E3 & HK3 & Hx3 & Ho).
  assert (Es : same_but_mqueues s s3) by (by eapply same_but_mqueues_trans).
  unfold hands_over in Ho. rewrite (proj1 (nobody_waits_same _ _ _ Es Hw)) in Ho.
  exists s3. cbn [undisturbed]. by rewrite Ho.
Qed.

Lemma recv_one_ok s x size a d free q fly :
  kok s -> mqueue_is s x size free ((a, d) :: q) fly -> nobody_waits s x -> d <> [] ->
  exists s', undisturbed (rt_mq_recv 0 x (Z.of_nat (length d)) 0 s) = Done (RT_EOK, Some d) s' /\
    kok s' /\ same_but_mqueues s s' /\ mqueue_is s' x size (a :: free) q fly.
Proof.
  intros HK Hx Hw Hne. assert (Hn : Z.of_nat (length d) <> 0) by (by destruct d).
  destruct (mq_recv_now_ok s x size a d free q fly (Z.of_nat (length d)) HK Hx)
    as (s1 & E1 & HK1 & Hx1 & k & Ek & Hk).
  rewrite (rt_mq_recv_enter _ _ _ _ _ _ _ _ _ Hx Hn), bool_decide_false by done. cbn [andb].
  rewrite (mq_recv_loop_some _ _ _ _ _ _ _ _ _ _ Hx), Ek. cbn [undisturbed].
  destruct (Hk s1 free q fly HK1 Hx1) as (s3 & c & E3 & HK3 & Hx3 & [c' ->] & Hlc & Ho).
  assert (Es : same_but_mqueues s s3) by (by eapply same_but_mqueues_trans).
  unfold hands_over in Ho. rewrite (proj2 (nobody_waits_same _ _ _ Es Hw)) in Ho.
  exists s3. rewrite length_app in Hlc.
  rewrite Z.min_l, Nat2Z.id, take_app_length in Ho by lia. by rewrite Ho.
Qed.

Lemma send_all_ok x size fly bs : forall s free q,
  kok s -> mqueue_is s x size free q fly -> nobody_waits s x ->
  Forall (fun b => b <> [] /\ Z.of_nat (length b) <= size) bs -> (length bs <= length free)%nat ->
  exists s' used rest, undisturbed (send_all x bs s) = Done ((fun _ => RT_EOK) <$> bs) s' /\ kok s' /\
    same_but_mqueues s s' /\ free = used ++ rest /\ length used = length bs /\
    mqueue_is s' x size rest (q ++ zip used bs) fly.
Proof.
  induction bs as [|b bs IH]; intros s free q HK Hx Hw Hb Hl.
  { exists s, [], free. rewrite app_nil_r. split_and!; try done. unfold same_but_mqueues. by destruct s. }
  destruct free as [|a free]; [simpl in Hl; lia|]. inversion_clear Hb as [|? ? [Hne Hlb] Hbs].
  destruct (send_one_ok s x size a free q fly b) as (s1 & E1 & HK1 & F1 & Hx1); [done..|].
  destruct (IH s1 free (q ++ [(a, b)])) as (s2 & used & rest & E2 & HK2 & F2 & -> & Hu & Hx2);
    [done|done|by eapply nobody_waits_same|done|simpl in Hl; lia|].
  exists s2, (a :: used), rest. split; [|split_and!; try done].
  - cbn [send_all]. eapply undisturbed_bind; [exact E1|]. by eapply undisturbed_bind; [exact E2|].
  - by eapply same_but_mqueues_trans.
  - simpl. by rewrite Hu.
  - by rewrite <- app_assoc in Hx2.
Qed.

Lemma recv_all_ok x size fly q : forall s free,
  kok s -> mqueue_is s x size free q fly -> nobody_waits s x -> Forall (fun b => b <> []) (q.*2) ->
  exists s' free', undisturbed (recv_all x ((fun b => Z.of_nat (length b)) <$> q.*2) s) =
      Done ((fun b => (RT_EOK, Some b)) <$> q.*2) s' /\
    kok s' /\ same_but_mqueues s s' /\ free' ≡ₚ q.*1 ++ free /\ mqueue_is s' x size free' [] fly.
Proof.
  induction q as [|[a d] q IH]; intros s free HK Hx Hw Hq.
  { exists s, free. split_and!; try done. unfold same_but_mqueues. by destruct s. }
  inversion_clear Hq as [|? ? Hne Hqs].
  destruct (recv_one_ok s x size a d free q fly) as (s1 & E1 & HK1 & F1 & Hx1); [done..|].
  destruct (IH s1 (a :: free)) as (s2 & free' & E2 & HK2 & F2 & Hp & Hx2);
    [done|done|by eapply nobody_waits_same|done|].
  exists s2, free'. split; [|split_and!; try done].
  - csimpl. eapply undisturbed_bind; [exact E1|]. by eapply undisturbed_bind; [exact E2|].
  - by eapply same_but_mqueues_trans.
  - rewrite Hp. csimpl. by rewrite Permutation_middle.
Qed.

(** C16. What is sent is received: on a queue without messages and without
    waiting threads, sending the messages [bs] one after the other, as many as
    there is room for, and then receiving each with a buffer of its length
    succeeds every time and gives [bs] back, byte by byte and in order, when no
    other thread runs meanwhile; nothing else of the kernel changes, and every
    message that was taken is free again. *)
Theorem rt_mq_roundtrip s x size free fly bs :
  kok s -> mqueue_is s x size free [] fly -> nobody_waits s x ->
  Forall (fun b => b <> [] /\ Z.of_nat (length b) <= size) bs -> (length bs <= length free)%nat ->
  exists s' free', undisturbed (send_then_recv x bs ((fun b => Z.of_nat (length b)) <$> bs) s) =
      Done ((fun _ => RT_EOK) <$> bs, (fun b => (RT_EOK, Some b)) <$> bs) s' /\
    kok s' /\ same_but_mqueues s s' /\ free' ≡ₚ free /\ mqueue_is s' x size free' [] fly.
Proof.
  intros HK Hx Hw Hb Hl.
  destruct (send_all_ok x size fly bs s free [] HK Hx Hw Hb Hl)
    as (s1 & used & rest & E1 & HK1 & F1 & -> & Hu & Hx1).
  assert (Ez1 : (zip used bs).*1 = used) by (apply fst_zip; lia).
  assert (Ez2 : (zip used bs).*2 = bs) by (apply snd_zip; lia).
  destruct (recv_all_ok x size fly (zip used bs) s1 rest) as (s2 & free' & E2 & HK2 & F2 & Hp & Hx2);
    [done|done|by eapply nobody_waits_same| |].
  { rewrite Ez2. eapply Forall_impl; [exact Hb|]. by intros b []. }
  rewrite Ez1, ?Ez2 in *. exists s2, free'. split; [|split_and!; try done].
  - eapply undisturbed_bind; [exact E1|]. by eapply undisturbed_bind; [exact E2|].
  - by eapply same_but_mqueues_trans.
Qed.
End MQueue.

(** ** Examples: a queue of two messages of four bytes *)
#[local] Existing Instance no_signals.

Definition no_bytes (a : Z) : list Z := replicate 4 0.
Definition mqueue2 : rt_messagequeue := mq_link_pool 2 0 no_bytes (RtMQ 4096 4 2 0 0 0 0 ∅).

Lemma mqueue2_holds : mq_holds mqueue2 [4104; 4096] [] [].
Proof.
  destruct (mq_pool_holds no_bytes 4096 4 2) as (free & Hh & Hl); [done|done|done|].
  change (mq_holds mqueue2 free [] []) in Hh.
  pose proof (qh_free _ _ _ _ Hh) as Hf. destruct free as [|a [|b [|]]]; try (cbn in Hl; lia).
  cbn in Hf. destruct Hf as (<- & c & Ec & Hf). vm_compute in Ec. injection Ec as <-.
  cbn in Hf. by destruct Hf as [<- _].
Qed.

Lemma mqueue2_is s : typed s (mq_ref 1) RT_Object_Class_MessageQueue ->
  mqueue_is (mq_set 1 mqueue2 s) 1 4 [4104; 4096] [] [].
Proof. intros. by apply mqueue_is_set; [|vm_compute|apply mqueue2_holds]. Qed.

(** Two messages go through the queue. *)
Lemma rt_mq_roundtrip_witness :
  exists s', undisturbed (send_then_recv 1 [[1; 2; 3]; [4]] [3; 1] (mq_set 1 mqueue2 kstate_idle)) =
    Done ([RT_EOK; RT_EOK], [(RT_EOK, Some [1; 2; 3]); (RT_EOK, Some [4])]) s'.
Proof.
  destruct (rt_mq_roundtrip (mq_set 1 mqueue2 kstate_idle) 1 4 [4104; 4096] [] [[1; 2; 3]; [4]])
    as (s' & _ & E & _).
  - apply mq_set_ok, kstate_idle_kok.
  - apply mqueue2_is. by eexists.
  - by split.
  - repeat constructor; cbn; lia || done.
  - cbn. lia.
  - by exists s'.
Defined.

(** The first of the two messages is filled while other threads may run. *)
Lemma rt_mq_send_wait_refines_witness :
  let s := mq_set 1 mqueue2 kstate_ready in
  exists s1, mqueue_is s1 1 4 [4096] [] [(4104, [])] /\
    exists k, rt_mq_send_wait 0 1 [1; 2; 3] 0 s = Switch s1 k.
Proof.
  intros s. pose proof (rt_mq_send_wait_refines 0 s 1 4 [4104; 4096] [] [] [1; 2; 3] 0) as Ht.
  destruct Ht as (s1 & _ & _ & Hx & k & E & _).
  - apply mq_set_ok, kstate_ready_kok.
  - apply mqueue2_is. by eexists.
  - done.
  - exists s1. split; [exact Hx|]. by exists k.
Defined.

(** Thread 1 waits for a message for 7 ticks. *)
Lemma rt_mq_recv_refines_witness :
  let s := mq_set 1 mqueue2 kstate_ready in
  exists s', blocks 1%positive (rt_mq_recv 1 1 4 7 s) s' (mq_recv_again 0 1 4 7 0) /\
    queues s' !!! QSuspend (mq_ref 1) = [1%positive].
Proof.
  intros s. assert (HK : kok s) by apply mq_set_ok, kstate_ready_kok.
  destruct (rt_mq_recv_refines 1 s 1 4 [4104; 4096] [] [] 4 7 HK) as [_ Hf]; [|done|].
  - apply mqueue2_is. by eexists.
  - destruct (Hf 0%nat 1%positive (thread0 RT_THREAD_RUNNING 10) (header RT_Object_Class_MessageQueue 0))
      as (s' & HB & Hb & Hx); try done.
    + destruct kstate_ready_may_block. by split.
    + exists s'. split; [exact HB|]. by rewrite (bl_queue _ _ _ _ _ _ _ Hb).
Defined.
