(* ===== verification/MemPoolThm.v ===== *)
(** Memory pools hand out their blocks, each to one holder. *)
From S2P Require Export MemPool MailboxThm.
Local Open Scope Z_scope.

(** ** The blocks of a pool *)

(** The free blocks [l], linked from [p] on through their first words. *)
Fixpoint blocks_from (mem : gmap Z ptr) (p : ptr) (l : list Z) : Prop :=
  match l with
  | [] => p = PNull
  | b :: l => p = PAddr b /\ exists n, mem !! b = Some n /\ blocks_from mem n l
  end.

Lemma blocks_from_insert mem p l b n : b ∉ l -> blocks_from mem p l -> blocks_from (<[b := n]> mem) p l.
Proof.
  revert p. induction l as [|c l IH]; intros p Hb; [done|]. intros [-> (m & Hm & Hl)]. split; [done|].
  exists m. rewrite lookup_insert_ne by set_solver. split; [done|]. apply IH; [set_solver|done].
Qed.

(** The pool [mp] has the free blocks [free] and has given out [used]. *)
Record pool_holds (s : kstate) (mp : positive) (x : rt_mempool) (free used : list Z) : Prop := {
  ph_pool : mempools s !! mp = Some x;
  ph_free : blocks_from (mem s) (block_list x) free;
  ph_count : block_free_count x = Z.of_nat (length free);
  ph_total : Z.of_nat (length free + length used) = block_total_count x;
  ph_max : block_total_count x < 2 ^ 32;
  ph_nodup : NoDup (free ++ used);
  ph_used b : b ∈ used -> mem s !! b = Some (PPool mp);
  ph_addr b : b ∈ free ++ used -> 0 < b }.
Definition pool_is (s : kstate) (mp : positive) (free used : list Z) : Prop :=
  exists x, pool_holds s mp x free used.

Lemma pool_is_perm s mp free used used' : used ≡ₚ used' -> pool_is s mp free used -> pool_is s mp free used'.
Proof.
  intros E (x & [? ? ? Ht ? Hn Hu Ha]). exists x. split; try done.
  - apply Permutation_length in E. lia.
  - by rewrite <- E.
  - intros b. rewrite <- E. apply Hu.
  - intros b. rewrite <- E. apply Ha.
Qed.

Lemma pool_is_frame s s' mp free used : kframe s s' -> pool_is s mp free used -> pool_is s' mp free used.
Proof. intros F (x & [? ? ? ? ? ? ? ?]). exists x. by split; try done; rewrite (kf_eq _ _ F). Qed.

(** The states that differ in the pool [mp] and the block [b] only. *)
Definition pool_set (mp : positive) (x : rt_mempool) (b : Z) (w : ptr) (s : kstate) : kstate :=
  s <| mempools ::= <[mp := x]> |> <| mem ::= <[b := w]> |>.
Lemma pool_set_ok mp x b w s : kok s -> kok (pool_set mp x b w s).
Proof. intros HK. by eapply kok_ext. Qed.
Lemma pool_set_frame mp x b w s :
  pool_set mp x b w s = s <| mempools := mempools (pool_set mp x b w s) |> <| mem := mem (pool_set mp x b w s) |>.
Proof. by destruct s. Qed.

Lemma get_mp_eq s mp x : mempools s !! mp = Some x -> get_mp mp s = Done x s.
Proof. intros E. unfold get_mp, get, mbind, prog_bind. simpl. by rewrite E. Qed.
#[export] Hint Resolve get_mp_eq : steps.
Lemma mod_mp_eq s mp x f :
  mempools s !! mp = Some x -> mod_mp mp f s = Done tt (s <| mempools ::= <[mp := f x]> |>).
Proof. intros E. unfold mod_mp. by kstep. Qed.
#[export] Hint Resolve mod_mp_eq : steps.
Lemma load_word_eq s a w : mem s !! a = Some w -> load_word a s = Done w s.
Proof. intros E. unfold load_word, get, mbind, prog_bind. simpl. by rewrite E. Qed.
#[export] Hint Resolve load_word_eq : steps.

Definition taken (x : rt_mempool) (next : ptr) : rt_mempool :=
  x <| block_free_count := block_free_count x - 1 |> <| block_list := next |>.
Definition given (x : rt_mempool) (b : Z) : rt_mempool :=
  x <| block_free_count := block_free_count x + 1 |> <| block_list := PAddr b |>.
Lemma given_taken x next b : block_list x = PAddr b -> given (taken x next) b = x.
Proof. destruct x. cbn. intros ->. unfold given, taken, upd, F_block_free_count, F_block_list. cbn. f_equal. lia. Qed.
Lemma pool_set_set mp x x' b w w' s : pool_set mp x' b w' (pool_set mp x b w s) = pool_set mp x' b w' s.
Proof. destruct s. unfold pool_set, upd, F_mempools, F_mem. simpl. by rewrite !insert_insert_eq. Qed.
Lemma pool_set_id mp x b w s : mempools s !! mp = Some x -> mem s !! b = Some w -> pool_set mp x b w s = s.
Proof. destruct s. unfold pool_set, upd, F_mempools, F_mem. simpl. intros. by rewrite !insert_id. Qed.

Lemma mp_take_eq s mp x b next :
  mempools s !! mp = Some x -> block_list x = PAddr b -> mem s !! b = Some next ->
  0 < block_free_count x < 2 ^ 32 ->
  mp_take mp s = Done (Some (b + SIZEOF_PTR)) (pool_set mp (taken x next) b (PPool mp) s).
Proof.
  intros Hx Hb Hn Hc. unfold mp_take. kstep.
  erewrite (bind_done (get_mp mp)) by (apply get_mp_eq, lookup_insert_eq).
  destruct x as [st sz bs bl tot cnt]. cbn in *. subst bl. kstep.
  erewrite (bind_done (mod_mp mp _)) by (apply mod_mp_eq, lookup_insert_eq).
  erewrite bind_done by done. unfold pool_set, taken. destruct s.
  unfold upd, F_mempools, F_mem, F_block_list, F_block_free_count, mret, prog_ret. cbn -[u32].
  by rewrite insert_insert_eq, u32_small by lia.
Qed.

Lemma pool_take_ok s mp b free used x :
  pool_holds s mp x (b :: free) used ->
  exists next, mp_take mp s = Done (Some (b + SIZEOF_PTR)) (pool_set mp (taken x next) b (PPool mp) s) /\
    mem s !! b = Some next /\
    pool_holds (pool_set mp (taken x next) b (PPool mp) s) mp (taken x next) free (b :: used).
Proof.
  intros [Hx Hf Hc Ht Hm Hn Hu Ha]. cbn in Hf. destruct Hf as [Eb (next & En & Hf)]. cbn in *.
  exists next. split; [|split; [done|]].
  - apply mp_take_eq; [done|done|done|lia].
  - pose proof (NoDup_cons_1_1 _ _ Hn) as Hnb. split.
    + apply lookup_insert_eq.
    + destruct x. cbn. apply blocks_from_insert; [set_solver|done].
    + destruct x. cbn in *. lia.
    + destruct x. cbn in *. lia.
    + by destruct x.
    + by rewrite <- Permutation_middle.
    + intros c Hin. cbn. apply elem_of_cons in Hin as [->|Hin]; [by rewrite lookup_insert_eq|].
      rewrite lookup_insert_ne; [by apply Hu|]. intros ->. set_solver.
    + intros c Hin. apply Ha. rewrite <- Permutation_middle in Hin. set_solver.
Qed.

Lemma pool_give_ok s mp b free used x :
  pool_holds s mp x free (b :: used) ->
  pool_holds (pool_set mp (given x b) b (block_list x) s) mp (given x b) (b :: free) used.
Proof.
  intros [Hx Hf Hc Ht Hm Hn Hu Ha]. rewrite <- Permutation_middle in Hn.
  pose proof (NoDup_cons_1_1 _ _ Hn) as Hnb. split.
  - apply lookup_insert_eq.
  - destruct x. cbn in *. split; [done|]. eexists. split; [apply lookup_insert_eq|].
    apply blocks_from_insert; [set_solver|done].
  - destruct x. cbn in *. lia.
  - destruct x. cbn in *. lia.
  - by destruct x.
  - done.
  - intros c Hin. cbn. rewrite lookup_insert_ne; [apply Hu; set_solver|]. intros ->. set_solver.
  - intros c Hin. apply Ha. rewrite <- Permutation_middle. set_solver.
Qed.

Section MemPool.
Context `{!SignalOps}.

(** What [rt_mp_alloc] does when it is resumed after waiting from [start]. *)
Definition alloc_again (fuel : nat) (mp : positive) (time start : Z) (th : rt_thread) (s : kstate) :=
  if error th =? RT_EOK then rt_mp_alloc fuel mp (time_left time start (rt_tick s)) s else Done None s.

Lemma rt_mp_alloc_enter fuel s mp x free used time :
  pool_holds s mp x free used ->
  rt_mp_alloc fuel mp time s =
    if bool_decide (free = []) then
      if time =? 0 then (rt_set_errno (- RT_ETIMEOUT);; mret None) s
      else rt_mp_alloc fuel mp time s
    else mp_take mp s.
Proof.
  intros [Hx Hf Hc _ _ _ _ _].
  assert (E : (block_free_count x =? 0) = bool_decide (free = [])).
  { rewrite Hc. case_bool_decide; [by subst|]. destruct free; [done|]. simpl. lia. }
  case_bool_decide as Eb; [destruct (Z.eqb_spec time 0) as [->|]; [|done]|];
    destruct fuel; cbn [rt_mp_alloc]; kstep; by rewrite E.
Qed.

(** C31. [rt_mp_alloc] gives out the first free block: its address is that of
    the word behind the link, the block leaves the free list and points to its
    pool, and nothing else changes, other pools included. Without a free block,
    a caller that does not wait gets null, with [-RT_ETIMEOUT] as its error; a
    caller that waits goes to the front of the waiting threads, so the last to
    come is the first to be woken, with its timer set, and once resumed it
    returns null if it finds an error and tries again for the rest of its time
    otherwise. *)
Theorem rt_mp_alloc_correct fuel s mp free used time :
  kok s -> pool_is s mp free used ->
  match free with
  | b :: free' =>
      exists s', rt_mp_alloc fuel mp time s = Done (Some (b + SIZEOF_PTR)) s' /\ kok s' /\
        s' = s <| mempools := mempools s' |> <| mem := mem s' |> /\ pool_is s' mp free' (b :: used) /\
        (forall a, a <> b -> mem s' !! a = mem s !! a) /\
        (forall p, p <> mp -> mempools s' !! p = mempools s !! p)
  | [] =>
      (forall me th, time = 0 -> thread_context s me th ->
        rt_mp_alloc fuel mp time s = Done None (s <| threads ::= <[me := th <| error := - RT_ETIMEOUT |>]> |>)) /\
      forall fuel' me th, fuel = S fuel' -> time <> 0 -> time < RT_TICK_MAX / 2 -> may_block s me th ->
        exists s', blocks me (rt_mp_alloc fuel mp time s) s' (alloc_again fuel' mp time (rt_tick s)) /\
          kok s' /\ kframe s s' /\ pool_is s' mp [] used /\
          threads s' !! me = Some (put_stat RT_THREAD_SUSPEND (th <| error := RT_EOK |>)) /\
          queues s' !!! QSuspend (mp_ref mp) = me :: queues s !!! QSuspend (mp_ref mp) /\
          (0 < time -> wakes_at me (u32 (rt_tick s + time)) s')
  end.
Proof.
  intros HK (x & Hp). destruct free as [|b free].
  - pose proof Hp as [Hx _ Hc _ _ _ _ _]. split.
    + intros me th -> [_ Hcur Hth Hn]. rewrite (rt_mp_alloc_enter _ _ _ _ _ _ _ Hp).
      unfold rt_set_errno. rewrite bool_decide_true by done. cbn [Z.eqb].
      erewrite bind_done; [done|]. erewrite (bind_done (gets interrupt_nest)) by done. rewrite Hn. cbn [Z.eqb negb].
      erewrite (bind_done rt_thread_self) by done. rewrite Hcur. by apply mod_thread_eq.
    + intros fuel' me th -> Ht Htm HM. destruct (no_error_ok s me th HM) as [HM0 F0].
      pose proof HM as [_ Hcur Hth _ _ Hn _ _]. cbn [rt_mp_alloc]. kstep. rewrite Hc.
      change (Z.of_nat (length (@nil Z)) =? 0) with true. cbv iota.
      rewrite (proj2 (Z.eqb_neq time 0) Ht).
      assert (Ei : RT_DEBUG_NOT_IN_INTERRUPT s = Done tt s).
      { unfold RT_DEBUG_NOT_IN_INTERRUPT. rewrite bind_gets, Hn. done. }
      erewrite bind_done by exact Ei. kstep. erewrite bind_done by exact (mod_thread_eq _ _ _ _ Hth).
      fold (no_error me th s). destruct HM0 as [HK0 Hc0 Hth0 Hst0 Hp0 Hn0 Hl0 (p & u & Hu)].
      destruct (rt_thread_suspend_ok (no_error me th s) me _ HK0 Hc0 Hth0 Hst0)
        as (s1 & E1 & HK1 & F1 & Hc1 & Hun1 & HT1 & HQ1 & _).
      erewrite bind_done by exact E1.
      set (q := QSuspend (mp_ref mp)) in *. set (th1 := put_stat _ _) in HT1.
      assert (Hth1 : threads s1 !! me = Some th1) by (rewrite HT1; apply lookup_insert_eq).
      assert (Hst1 : stat_of th1 = RT_THREAD_SUSPEND) by (by apply stat_of_put_stat).
      destruct (kok_enqueue s1 me th1 q (me :: queues s1 !!! q) HK1 Hun1 Hth1 Hst1) as [HK2 F2]; [done..|].
      set (s2 := s1 <| queues ::= <[q := me :: queues s1 !!! q]> |>) in *.
      assert (F02 : kframe s s2) by (etrans; [exact F0|]; by etrans).
      erewrite (bind_done (tlist_insert_after q me) _ _ _ s2) by done.
      erewrite (bind_done rt_tick_get) by done.
      destruct (timed_schedule s2 me th1 time HK2) as (s3 & s' & E3 & HB & HK' & F3 & Hth' & HQ' & HW & _); try done.
      { by rewrite (kf_nest _ _ F02). } { by rewrite (kf_lock _ _ F02), <- (kf_lock _ _ F0). }
      { apply (ready_group s2 p u (ko_kinv _ HK2)). unfold s2.
        change (queues _) with (<[q := me :: queues s1 !!! q]> (queues s1)).
        rewrite lookup_total_insert_ne by done. by rewrite HQ1. }
      erewrite bind_done by exact E3. exists s'. split; [|split_and!].
      * eapply blocks_ext; [exact (blocks_bind _ _ _ _ _ HB)|]. intros s4 th4 Hth4. cbn [outcome_bind].
        erewrite bind_done by (by apply get_thread_eq). unfold alloc_again.
        destruct (error th4 =? RT_EOK); cbn [negb]; [|done]. erewrite (bind_done rt_tick_get) by done.
        unfold time_left. by rewrite (kf_tick _ _ F02).
      * done.
      * by etrans.
      * apply (pool_is_frame s); [by etrans|by eexists].
      * done.
      * rewrite HQ' by done. unfold s2.
        change (queues (_ <| queues ::= _ |>)) with (<[q := me :: queues s1 !!! q]> (queues s1)).
        rewrite lookup_total_insert_eq. by rewrite HQ1.
      * intros Hpos. rewrite <- (kf_tick _ _ F02). by apply HW.
  - rewrite (rt_mp_alloc_enter _ _ _ _ _ _ _ Hp), bool_decide_false by done.
    destruct (pool_take_ok _ _ _ _ _ _ Hp) as (next & E & Hm & Hp'). eexists. split; [exact E|].
    split; [by apply pool_set_ok|]. split; [apply pool_set_frame|]. split; [by eexists|]. split.
    + intros a Ha. by apply lookup_insert_ne.
    + intros p Hne. by apply lookup_insert_ne.
Qed.

(** The first part of [rt_mp_free]: the block goes back to the pool that it
    names. *)
Lemma rt_mp_free_enter s mp x free b used :
  pool_holds s mp x free (b :: used) ->
  rt_mp_free (b + SIZEOF_PTR) s =
    (l ← gets (fun s => queue s (QSuspend (mp_ref mp)));
     match l with
     | [] => mret tt
     | t :: _ => mod_thread t (fun th => th <| error := RT_EOK |>);; rt_thread_resume t;; rt_schedule
     end) (pool_set mp (given x b) b (block_list x) s).
Proof.
  intros [Hx Hf Hc Ht Hm Hn Hu Ha]. assert (Hb : 0 < b) by (apply Ha; set_solver).
  unfold rt_mp_free. rewrite (proj2 (Z.eqb_neq _ 0)) by (unfold SIZEOF_PTR; lia).
  rewrite Z.add_simpl_r. erewrite (bind_done (load_word b)) by (apply load_word_eq, Hu; set_solver).
  cbv iota. kstep. erewrite (bind_done (get_mp mp)) by (apply get_mp_eq, lookup_insert_eq).
  erewrite (bind_done (store_word b _)) by done.
  erewrite (bind_done (mod_mp mp _)) by (apply mod_mp_eq, lookup_insert_eq).
  f_equal. destruct x as [st sz bs bl tot cnt], s. unfold pool_set, given.
  unfold upd, F_mempools, F_mem, F_block_list, F_block_free_count. cbn -[u32] in *.
  rewrite insert_insert_eq. rewrite u32_small by lia. done.
Qed.

(** [rt_mp_free] puts a block that the pool gave out back at the front of
    its free list, whatever blocks were given out and given back meanwhile: the
    next allocation gets it. Without waiting threads nothing else changes; the
    first waiting thread is resumed without an error, so that it finds the
    block. Freeing null does nothing. *)
Theorem rt_mp_free_correct s mp free b used :
  kok s -> pool_is s mp free (b :: used) ->
  rt_mp_free 0 s = Done tt s /\
  exists s', kok s' /\ s' = s <| mempools := mempools s' |> <| mem := mem s' |> /\
    pool_is s' mp (b :: free) used /\
    match queues s !!! QSuspend (mp_ref mp) with
    | [] => rt_mp_free (b + SIZEOF_PTR) s = Done tt s'
    | t :: l => exists th s1, threads s !! t = Some th /\ stat_of th = RT_THREAD_SUSPEND /\
        kok s1 /\ woken t (th <| error := RT_EOK |>) (no_error t th s') s1 /\
        pool_is s1 mp (b :: free) used /\
        rt_mp_free (b + SIZEOF_PTR) s = rt_schedule s1
    end.
Proof.
  intros HK (x & Hp). split; [done|].
  pose proof (pool_give_ok _ _ _ _ _ _ Hp) as Hp'. rewrite (rt_mp_free_enter _ _ _ _ _ _ Hp).
  set (s' := pool_set mp (given x b) b (block_list x) s) in *.
  assert (HK' : kok s') by (by apply pool_set_ok).
  exists s'. split; [done|]. split; [apply pool_set_frame|]. split; [by eexists|].
  rewrite bind_gets. unfold queue. change (queues s') with (queues s).
  destruct (queues s !!! QSuspend (mp_ref mp)) as [|t l] eqn:El; [done|].
  destruct (ci_wait _ _ _ _ _ (ko_kinv _ HK) (QSuspend (mp_ref mp)) t) as (th & Hth & Hst);
    [done|rewrite El; set_solver|].
  destruct (kok_set_thread s' t th (th <| error := RT_EOK |>) HK' Hth) as [HK0 F0]; [done..|].
  fold (no_error t th s') in *.
  destruct (rt_thread_resume_ok (no_error t th s') t (th <| error := RT_EOK |>))
    as (s1 & E1 & HK1 & F1 & _ & Hw & _); [done|apply lookup_insert_eq|done|].
  exists th, s1. split_and!; try done.
  - apply (pool_is_frame s'); [by etrans|by eexists].
  - erewrite bind_done by exact (mod_thread_eq t _ th s' Hth). fold (no_error t th s').
    by erewrite bind_done by exact E1.
Qed.

(** A block that is taken and given back leaves no trace. *)
Definition alloc_free (fuel : nat) (mp : positive) (time : Z) : K unit :=
  r ← rt_mp_alloc fuel mp time; rt_mp_free (default 0 r).

(** C32. Allocating a block and freeing it at once leaves the kernel exactly as
    it was, when a block is free and nobody waits for one. *)
Theorem rt_mp_roundtrip fuel s mp b free used time :
  pool_is s mp (b :: free) used -> queues s !!! QSuspend (mp_ref mp) = [] ->
  alloc_free fuel mp time s = Done tt s.
Proof.
  intros (x & Hp) Hq. unfold alloc_free.
  destruct (pool_take_ok _ _ _ _ _ _ Hp) as (next & E & Hm & Hp').
  erewrite bind_done by (rewrite (rt_mp_alloc_enter _ _ _ _ _ _ _ Hp), bool_decide_false by done; exact E).
  cbn [default from_option id]. rewrite (rt_mp_free_enter _ _ _ _ _ _ Hp').
  rewrite bind_gets. unfold queue. change (queues (pool_set _ _ _ _ _)) with (queues s). rewrite Hq.
  destruct Hp as [Hx [Eb _] _ _ _ _ _ _]. rewrite pool_set_set, given_taken by done.
  replace (block_list (taken x next)) with next by (by destruct x). by rewrite pool_set_id.
Qed.
End MemPool.

(** ** Examples: a pool of two blocks of eight bytes *)
#[local] Existing Instance no_signals.

Definition pool2 : rt_mempool := RtMempool 4096 24 8 (PAddr 4096) 2 2.
Definition with_pool (s : kstate) : kstate :=
  s <| mempools ::= <[1%positive := pool2]> |>
    <| mem ::= fun m => <[4096 := PAddr 4108]> (<[4108 := PNull]> m) |>.

Lemma with_pool_ok s : kok s -> kok (with_pool s).
Proof. intros HK. by eapply kok_ext. Qed.
Lemma with_pool_is s : pool_is (with_pool s) 1 [4096; 4108] [].
Proof.
  exists pool2. split; try done.
  - apply lookup_insert_eq.
  - cbn. split; [done|]. exists (PAddr 4108). split; [apply lookup_insert_eq|]. split; [done|].
    exists PNull. split; [|done]. rewrite lookup_insert_ne by done. apply lookup_insert_eq.
  - repeat constructor; set_solver.
  - intros b Hb. by apply elem_of_nil in Hb.
  - intros b. cbn. rewrite !elem_of_cons, elem_of_nil. lia.
Qed.

Lemma rt_mp_alloc_correct_witness :
  exists s', rt_mp_alloc 0 1 0 (with_pool kstate_idle) = Done (Some 4100) s' /\ pool_is s' 1 [4108] [4096].
Proof.
  destruct (rt_mp_alloc_correct 0 (with_pool kstate_idle) 1 [4096; 4108] [] 0)
    as (s' & E & _ & _ & Hp & _).
  - apply with_pool_ok, kstate_idle_kok.
  - apply with_pool_is.
  - by exists s'.
Defined.

(** Both blocks are taken and the second one, in use, goes back first. *)
Lemma rt_mp_free_correct_witness :
  exists s' s1, pool_is s' 1 [4108] [4096] /\ rt_mp_free 4100 s' = Done tt s1 /\ pool_is s1 1 [4096; 4108] [].
Proof.
  set (s0 := with_pool kstate_idle).
  destruct (pool_take_ok s0 1 4096 [4108] [] pool2) as (next & _ & _ & Hp).
  { destruct (with_pool_is kstate_idle) as (x & Hp). pose proof (ph_pool _ _ _ _ _ Hp) as E.
    unfold with_pool in E. cbn in E. rewrite lookup_insert_eq in E. injection E as <-. exact Hp. }
  set (s' := pool_set _ _ _ _ _) in Hp.
  destruct (rt_mp_free_correct s' 1 [4108] 4096 []) as (_ & s1 & _ & _ & Hp1 & E).
  - apply pool_set_ok, with_pool_ok, kstate_idle_kok.
  - by eexists.
  - exists s', s1. split; [by eexists|]. by split.
Defined.

Lemma rt_mp_roundtrip_witness :
  alloc_free 0 1 0 (with_pool kstate_idle) = Done tt (with_pool kstate_idle).
Proof. apply (rt_mp_roundtrip 0 _ 1 4096 [4108] []); [apply with_pool_is|done]. Defined.
