(* ===== verification/SignalThm.v ===== *)
(** Handling queued signals: which handlers run, in which order, and what
    becomes of the blocks that the signals are kept in. *)
From S2P Require Export Signal MemPoolThm.
Local Open Scope Z_scope.

(** The pending signals after those of [l] are handled. *)
Definition still_pending (pending : Z) (l : list (Z * Z)) : Z :=
  foldl (fun p n => clear_bits p (2 ^ snd n)) pending l.

(** The blocks of the pool that the nodes of [l] are. *)
Definition node_blocks (l : list (Z * Z)) : list Z := (fun n => fst n - SIZEOF_PTR) <$> l.

(** The thread when the signal [signo] is out of the queue and not pending. *)
Definition signal_out (signo : Z) (rest : list (Z * Z)) (th : rt_thread) : rt_thread :=
  th <| si_list := rest |> <| sig_pending := clear_bits (sig_pending th) (2 ^ signo) |>.

(** ** What handlers may do

    A handler may change the state, the mask and the handlers of its thread, but
    not the queue of signals, and leaves the pool [mp] of their blocks alone. *)
Record handler_keeps (mp : positive) (me : tid) (s s' : kstate) : Prop := {
  hk_thread th : threads s !! me = Some th -> exists th' a v, threads s' !! me = Some th' /\
    si_list th' = si_list th /\ sig_pending th' = sig_pending th /\
    sig_vectors th' = Some (a, v) /\ length v = 32%nat;
  hk_pool : mempools s' !! mp = mempools s !! mp;
  hk_mem : mem s' = mem s;
  hk_queue : queue s' (QSuspend (mp_ref mp)) = queue s (QSuspend (mp_ref mp)) }.

(** The steps of the loop itself. *)
Definition loop_step (me : tid) (s s' : kstate) : Prop :=
  s' = s <| threads := threads s' |> <| mempools := mempools s' |> <| mem := mem s' |> /\
  exists th th', threads s !! me = Some th /\ threads s' = <[me := th']> (threads s) /\
    th' = th <| si_list := si_list th' |> <| sig_pending := sig_pending th' |> <| error := error th' |>.

(** The program keeps [I l] while [l] is the queue, and then every handler that
    is called returns. *)
Record handlers_sound `{!SignalOps, !Handlers} (mp : positive) (me : tid) (I : list (Z * Z) -> kstate -> Prop) : Prop := {
  hs_step l s s' : I l s -> loop_step me s s' -> I l s';
  hs_null n l s : I (n :: l) s -> I l s;
  hs_call node signo l s th a v f :
    I ((node, signo) :: l) s -> threads s !! me = Some th -> sig_vectors th = Some (a, v) -> length v = 32%nat ->
    v !! Z.to_nat signo = Some (Some f) -> sig_valid signo = true ->
    exists s', call_handler _ f signo s = Done tt s' /\ handler_keeps mp me s s' /\ I l s' }.

Section Loop.
Context `{!SignalOps, !Handlers}.
Variables (mp : positive) (me : tid).

(** The handler of [signo], if there is one, runs. *)
Definition handler_runs (h : option fn) (signo : Z) : K unit :=
  match h with Some f => call_handler _ f signo | None => mret tt end.

(** The block [node] goes back to the pool, and the thread remembers that it was
    interrupted. *)
Definition node_back (node : Z) (x : rt_mempool) (th : rt_thread) (s : kstate) : kstate :=
  pool_set mp (given x (node - SIZEOF_PTR)) (node - SIZEOF_PTR) (block_list x) s
    <| threads ::= <[me := th <| error := - RT_EINTR |>]> |>.

(** The signals of the list are handled, one after the other: each is taken out
    while some pending signal is unmasked, and its handler of that moment is
    called with the signal taken out. *)
Inductive ran : list (Z * Z) -> kstate -> kstate -> Prop :=
  | ran_end s : ran [] s s
  | ran_signal node signo rest l s th a v h s1 th1 x s' :
      threads s !! me = Some th -> has_bits (sig_pending th) (sig_mask th) = true ->
      si_list th = (node, signo) :: rest ->
      sig_vectors th = Some (a, v) -> v !! Z.to_nat signo = Some h ->
      handler_runs h signo (s <| threads ::= <[me := signal_out signo rest th]> |>) = Done tt s1 ->
      threads s1 !! me = Some th1 -> mempools s1 !! mp = Some x ->
      ran l (node_back node x th1 s1) s' ->
      ran ((node, signo) :: l) s s'.

Context (I : list (Z * Z) -> kstate -> Prop) (HI : handlers_sound mp me I).

Lemma pool_is_keeps s s' free used :
  handler_keeps mp me s s' -> pool_is s mp free used -> pool_is s' mp free used.
Proof. intros HK (x & [? ? ? ? ? ? ? ?]). exists x. destruct HK as [_ E1 E2 _]. by split; rewrite ?E1, ?E2. Qed.

(** The handler of one signal. *)
Lemma handler_runs_ok node signo rest s th a v h :
  I ((node, signo) :: rest) s -> threads s !! me = Some th -> sig_vectors th = Some (a, v) -> length v = 32%nat ->
  v !! Z.to_nat signo = Some h -> sig_valid signo = true ->
  exists s', handler_runs h signo s = Done tt s' /\ handler_keeps mp me s s' /\ I rest s'.
Proof.
  intros HJ Hth Hv Hlen Hh Hsg. destruct h as [f|]; [by eapply (hs_call _ _ _ HI)|].
  exists s. split; [done|]. split; [|by eapply (hs_null _ _ _ HI)]. split; try done.
  intros th' Hth'. exists th', a, v. split; [done|]. simplify_eq. done.
Qed.

(** One round of the loop. *)
Lemma handle_sig_loop_step fuel s th a v free used node signo rest :
  I ((node, signo) :: rest) s -> threads s !! me = Some th -> sig_vectors th = Some (a, v) -> length v = 32%nat ->
  sig_valid signo = true -> si_list th = (node, signo) :: rest ->
  has_bits (sig_pending th) (sig_mask th) = true ->
  pool_is s mp free (node - SIZEOF_PTR :: used) -> queue s (QSuspend (mp_ref mp)) = [] ->
  exists h s1 th1 x, v !! Z.to_nat signo = Some h /\
    handler_runs h signo (s <| threads ::= <[me := signal_out signo rest th]> |>) = Done tt s1 /\
    threads s1 !! me = Some th1 /\ mempools s1 !! mp = Some x /\
    si_list th1 = rest /\ sig_pending th1 = clear_bits (sig_pending th) (2 ^ signo) /\
    (exists a' v', sig_vectors th1 = Some (a', v') /\ length v' = 32%nat) /\
    let s' := node_back node x th1 s1 in
    handle_sig_loop (S fuel) me s = handle_sig_loop fuel me s' /\ I rest s' /\
    pool_is s' mp (node - SIZEOF_PTR :: free) used /\ queue s' (QSuspend (mp_ref mp)) = [].
Proof.
  intros HJ Hth Hv Hlen Hsg Hl Hb Hp Hq.
  assert (Hin : is_Some (v !! Z.to_nat signo)).
  { apply lookup_lt_is_Some. unfold sig_valid, RT_SIG_MAX in Hsg. lia. }
  destruct Hin as [h Hh]. set (s0 := s <| threads ::= <[me := signal_out signo rest th]> |>).
  assert (Hth0 : threads s0 !! me = Some (signal_out signo rest th)) by apply lookup_insert_eq.
  assert (HJ0 : I ((node, signo) :: rest) s0).
  { eapply (hs_step _ _ _ HI); [exact HJ|]. split; [by destruct s|]. exists th, (signal_out signo rest th).
    split; [done|]. split; [done|]. by destruct th. }
  destruct (handler_runs_ok node signo rest s0 _ a v h HJ0 Hth0 Hv Hlen Hh Hsg) as (s1 & E1 & HK & HJ1).
  destruct (hk_thread _ _ _ _ HK _ Hth0) as (th1 & a' & v' & Hth1 & Hl1 & Hp1 & Hv1 & Hlen1).
  assert (Hps : pool_is s1 mp free (node - SIZEOF_PTR :: used)).
  { eapply pool_is_keeps; [exact HK|]. destruct Hp as (x & [? ? ? ? ? ? ? ?]). by exists x. }
  destruct Hps as (x & Hps). exists h, s1, th1, x. split; [done|]. split; [done|]. split; [done|]. split; [apply Hps|].
  split; [exact Hl1|]. split; [exact Hp1|]. split; [by exists a', v'|].
  assert (Hq1 : queue s1 (QSuspend (mp_ref mp)) = []) by (rewrite (hk_queue _ _ _ _ HK); exact Hq).
  cbv zeta. split; [|split; [|split]].
  - cbn [handle_sig_loop]. kstep. rewrite Hb, Hl. cbn [negb].
    erewrite bind_done by exact (mod_thread_eq _ _ _ _ Hth). rewrite Hv. erewrite bind_done by done. cbn [snd].
    rewrite Hh. erewrite bind_done by done. unfold sig_mask_of. rewrite Hsg. erewrite bind_done by done. cbv beta.
    erewrite (bind_done (mod_thread me _)) by (apply mod_thread_eq, lookup_insert_eq).
    erewrite (bind_done _ _ _ tt s1).
    2:{ etrans; [|exact E1]. unfold handler_runs, s0, signal_out. f_equal. destruct s. unfold upd, F_threads. cbn.
        by rewrite insert_insert_eq. }
    erewrite (bind_done (rt_mp_free node)).
    2:{ replace node with (node - SIZEOF_PTR + SIZEOF_PTR) at 1 by lia.
        rewrite (rt_mp_free_enter _ _ _ _ _ _ Hps), bind_gets. unfold queue in Hq1 |- *.
        change (queues (pool_set _ _ _ _ _)) with (queues s1). rewrite Hq1. reflexivity. }
    by erewrite (bind_done (mod_thread me _)) by (by apply mod_thread_eq).
  - eapply (hs_step _ _ _ HI); [exact HJ1|]. split; [by destruct s1|]. exists th1, (th1 <| error := - RT_EINTR |>).
    split; [done|]. split; [done|]. by destruct th1.
  - apply pool_give_ok in Hps. exists (given x (node - SIZEOF_PTR)). by destruct Hps.
  - exact Hq1.
Qed.

(** C33. The loop of [rt_thread_handle_sig] handles the queued signals from the
    oldest on, each once: it takes the signal out of the queue and out of the
    pending set, runs the handler that is installed then, if there is one, gives the block of the signal
    back to the pool, and leaves [-RT_EINTR] in the thread. It stops when the
    queue is empty or no pending signal is unmasked, by the mask that the
    handlers left, and not before: a masked
    signal that was queued before an unmasked one is handled too. The handlers
    are any that return, with a condition [I] of their own on the state, and do
    not touch the queue of signals or the pool ([handlers_sound]). *)
Theorem handle_sig_loop_correct fuel s th a v free used :
  I (si_list th) s -> threads s !! me = Some th -> sig_vectors th = Some (a, v) -> length v = 32%nat ->
  Forall (fun n => sig_valid (snd n) = true) (si_list th) ->
  pool_is s mp free (node_blocks (si_list th) ++ used) -> queue s (QSuspend (mp_ref mp)) = [] ->
  (length (si_list th) <= fuel)%nat ->
  exists done rest s' th' free', si_list th = done ++ rest /\
    handle_sig_loop fuel me s = Done tt s' /\ ran done s s' /\ I rest s' /\
    threads s' !! me = Some th' /\ si_list th' = rest /\
    sig_pending th' = still_pending (sig_pending th) done /\
    (rest = [] \/ has_bits (sig_pending th') (sig_mask th') = false) /\
    (done <> [] -> error th' = - RT_EINTR) /\
    pool_is s' mp free' (node_blocks rest ++ used).
Proof.
  remember (si_list th) as l eqn:El. revert fuel s th a v free El.
  induction l as [|[node signo] l IH]; intros fuel s th a v free El HJ Hth Hv Hlen Hsg Hp Hq Hf.
  - exists [], [], s, th, free. split; [done|]. split; [|by split; [constructor|]; split_and!; auto].
    destruct fuel; cbn [handle_sig_loop]; kstep; rewrite <- El; by destruct (has_bits _ _).
  - destruct (has_bits (sig_pending th) (sig_mask th)) eqn:Eb.
    2:{ exists [], ((node, signo) :: l), s, th, free. split; [done|]. split; [|by split; [constructor|]; split_and!; auto].
        destruct fuel; cbn [handle_sig_loop]; kstep; by rewrite Eb. }
    destruct fuel as [|fuel]; [simpl in Hf; lia|]. inversion_clear Hsg as [|? ? Hs Hsg'].
    destruct (handle_sig_loop_step fuel s th a v free (node_blocks l ++ used) node signo l HJ Hth Hv Hlen Hs (eq_sym El) Eb Hp Hq)
      as (h & s1 & th1 & x & Hh & E1 & Hth1 & Hx & Hl1 & Hp1 & (a' & v' & Hv1 & Hlen1) & E & HJ1 & Hp' & Hq').
    set (s2 := node_back node x th1 s1) in *.
    assert (Hth2 : threads s2 !! me = Some (th1 <| error := - RT_EINTR |>)) by apply lookup_insert_eq.
    destruct (IH fuel s2 (th1 <| error := - RT_EINTR |>) a' v' (node - SIZEOF_PTR :: free))
      as (dn & rest & s' & th' & free' & ED & EL & HR & HJ' & Hth' & Hl' & Hp2 & Hend & Herr & Hpool);
      [by symmetry|done..|simpl in Hf; lia|].
    exists ((node, signo) :: dn), rest, s', th', free'. split; [by rewrite ED|]. split; [by rewrite E|].
    split; [by econstructor|]. split_and!; try done.
    + rewrite Hp2. cbn [still_pending foldl snd]. change (sig_pending (th1 <| error := _ |>)) with (sig_pending th1). by rewrite Hp1.
    + intros _. destruct dn; [|by apply Herr]. inversion HR; subst. rewrite Hth2 in Hth'. by injection Hth' as <-.
Qed.
End Loop.
