(* ===== verification/RoundRobin.v ===== *)
(** Threads of one priority share the processor: [rt_thread_yield] of thread.c
    passes it round. *)
From S2P Require Export Thread IpcWait.
Local Open Scope Z_scope.

(** [u] can be switched out. *)
Definition preemptable (s : kstate) (u : tid) : Prop :=
  exists th, threads s !! u = Some th /\ preemptableFlag th <> 1.

(** [me], of priority [p], runs, and [l] are the ready threads of its priority
    in their order; no ready thread has a higher priority. *)
Record turn (s : kstate) (me : tid) (p : Z) (l : list tid) : Prop := {
  tu_kinv : kinv s;
  tu_current : current_thread s = Some me;
  tu_lock : scheduler_lock_nest s = 0;
  tu_nest : interrupt_nest s = 0;
  tu_thread : exists th, threads s !! me = Some th /\ stat_of th = RT_THREAD_RUNNING /\ current_priority th = p;
  tu_queue : queues s !!! QReady p = l;
  tu_higher q : 0 <= q < p -> queues s !!! QReady q = [];
  tu_preempt u : u ∈ me :: l -> preemptable s u }.

(** The running threads call [rt_thread_yield] one after the other, [n] times;
    [None] if one of the calls does not switch. *)
Fixpoint yield_n `{!SignalOps} (n : nat) (s : kstate) : option kstate :=
  match n with
  | O => Some s
  | S n => match rt_thread_yield s with Switch s1 _ => yield_n n s1 | _ => None end
  end.

Lemma has_bits_lor x m : 0 < m -> has_bits (Z.lor x m) m = true.
Proof.
  intros Hm. unfold has_bits. rewrite Z.land_lor_distr_l, Z.land_diag.
  apply negb_true_iff, Z.eqb_neq. intros E. apply Z.lor_eq_0_iff in E. lia.
Qed.

(** The fields of a thread other than [stat] survive scheduling. *)
Lemma frame_field {A} (f : rt_thread -> A) s s' u th :
  (forall x, f (nostat x) = f x) -> sched_frame s s' -> threads s !! u = Some th ->
  exists th', threads s' !! u = Some th' /\ f th' = f th.
Proof.
  intros Hf [_ HF] Hth. assert (E : (nostat <$> threads s') !! u = Some (nostat th)).
  { by rewrite HF, lookup_fmap, Hth. }
  rewrite lookup_fmap in E. destruct (threads s' !! u) as [th'|] eqn:Hth'; [|done].
  apply (inj Some) in E. exists th'. split; [done|]. by rewrite <- Hf, E, Hf.
Qed.

Lemma preemptable_frame s s' u : sched_frame s s' -> preemptable s u -> preemptable s' u.
Proof.
  intros HF (th & Hth & Hp).
  destruct (frame_field preemptableFlag s s' u th) as (th' & Hth' & E); [by intros []|done|done|].
  exists th'. by rewrite E.
Qed.

(** The ready queue of the priority after a yield. *)
Lemma yield_lists s s' me c t p l :
  kinv s' -> sched_frame s s' -> keeps_runnable s s' -> threads s !! me = Some c ->
  stat_of c = RT_THREAD_RUNNING -> current_priority c = p -> current_thread s' = Some t -> t <> me ->
  NoDup (t :: l) -> me ∉ l -> queues s !!! QReady p = t :: l -> lists_from me p t (queues s) (queues s') ->
  queues s' = q_remove t (q_push_back (QReady p) me (queues s)) /\ queues s' !!! QReady p = l ++ [me].
Proof.
  intros HI HF HK Hme Hst Hp Hc Hne Hnd Hml HQ HL.
  destruct (HK me c Hme) as (c' & Hc' & Hr').
  destruct (frame_field current_priority s s' me c) as (c2 & Hc2 & Hp2); [by intros []|done|done|].
  simplify_eq.
  assert (Hready : stat_of c' = RT_THREAD_READY).
  { assert (stat_of c' = RT_THREAD_READY \/ stat_of c' = RT_THREAD_RUNNING) as [|Hrun]
      by (destruct Hr' as [->|(_&?&_)]; [by right|done]); [done|].
    pose proof (ci_running _ _ _ _ _ HI me c' ltac:(set_solver) Hc' Hrun). congruence. }
  pose proof (ci_queued _ _ _ _ _ HI me c' ltac:(set_solver) Hc' Hready) as Hin. rewrite Hp2 in Hin.
  destruct HL as [E|E].
  - exfalso. rewrite E in Hin. apply elem_of_q_remove in Hin as [Hin _]. rewrite HQ in Hin. set_solver.
  - split; [done|]. rewrite E, q_remove_lookup, q_push_back_lookup, decide_True, HQ by done.
    apply NoDup_cons in Hnd as [Htl _]. change ((t :: l) ++ [me]) with (t :: (l ++ [me])).
    rewrite filter_cons, decide_False by tauto. apply filter_alone. set_solver.
Qed.

Lemma yield_n_snoc `{!SignalOps} n : forall s s1 s2 k,
  yield_n n s = Some s1 -> rt_thread_yield s1 = Switch s2 k -> yield_n (S n) s = Some s2.
Proof.
  induction n as [|n IH]; intros s s1 s2 k E E2; cbn in E.
  - injection E as ->. cbn. by rewrite E2.
  - cbn [yield_n]. destruct (rt_thread_yield s) as [|s0 k0|]; [done| |done]. by apply (IH s0 s1 s2 k).
Qed.

Section RoundRobin.
Context `{!SignalOps}.

Lemma yield_step s me p t l :
  turn s me p (t :: l) ->
  exists s' k, rt_thread_yield s = Switch s' k /\ turn s' t p (l ++ [me]).
Proof.
  intros [HI Hc Hlk Hn (th & Hth & Hst & Hpr) HQ Hhi Hpre].
  set (c := th <| remaining_tick := init_tick th |> <| stat ::= (fun x => Z.lor x RT_THREAD_STAT_YIELD) |>).
  set (s0 := s <| threads ::= <[me := c]> |>).
  assert (E0 : rt_thread_yield s = (rt_schedule;; mret RT_EOK) s0).
  { unfold rt_thread_yield. kstep. by erewrite bind_done by exact (mod_thread_eq _ _ _ _ Hth). }
  assert (Hst0 : stat_of c = RT_THREAD_RUNNING) by (unfold c; rewrite stat_of_set by done; by destruct th).
  assert (Hpr0 : current_priority c = p) by (by destruct th).
  assert (Hth0 : threads s0 !! me = Some c) by apply lookup_insert_eq.
  assert (HI0 : kinv s0).
  { apply (core_inv_same _ _ _ _ _ me th c HI Hth); [congruence|congruence|].
    destruct (ci_thread _ _ _ _ _ HI me th Hth) as [H1 H2]. destruct th. split; [|done].
    rewrite Hst0. intros _. apply H1. by rewrite Hst. }
  assert (Hpre0 : forall u, u ∈ me :: t :: l -> preemptable s0 u).
  { intros u Hu. destruct (Hpre u Hu) as (uh & Huh & Hup). unfold preemptable. unfold s0. cbn.
    destruct (decide (u = me)) as [->|]; [rewrite lookup_insert_eq; simplify_eq; exists c; by destruct th|].
    rewrite lookup_insert_ne by done. by exists uh. }
  assert (Hmay : may_schedule s0 c = true).
  { destruct (Hpre me ltac:(set_solver)) as (mh & Hmh & Hmp). simplify_eq. unfold may_schedule.
    change (scheduler_lock_nest s0) with (scheduler_lock_nest s).
    change (ready_priority_group s0) with (ready_priority_group s). rewrite Hlk.
    assert ((preemptableFlag c =? 1) = false) as -> by (unfold c; destruct th; cbn in *; lia).
    assert (Hr : t ∈ queues s !!! QReady (current_priority th)) by (rewrite HQ; set_solver).
    pose proof (ready_group s _ t HI Hr). lia. }
  destruct (rt_schedule_yes s0 me c HI0 Hc Hth0 Hmay)
    as (first & q & s' & (Hq1 & Hh & Hq2) & HI' & HF & Hc' & HL & HK & E).
  assert (Hth' : t ∈ queues s !!! QReady p) by (rewrite HQ; set_solver).
  destruct (ci_ready _ _ _ _ _ HI p t Hth') as (tt0 & Htt & Hts & Htp).
  assert (Hp : 0 <= p < RT_THREAD_PRIORITY_MAX).
  { destruct (ci_thread _ _ _ _ _ HI t tt0 Htt) as [Hr _]. rewrite Htp in Hr. apply Hr. by rewrite Hts. }
  assert (q = p) as ->.
  { unfold queue in *. change (queues s0) with (queues s) in *. destruct (Z.lt_trichotomy q p) as [Hlt|[|Hgt]]; [|done|].
    - rewrite Hhi in Hh by lia. done.
    - rewrite Hq2 in HQ by lia. done. }
  unfold queue in Hh. change (queues s0) with (queues s) in Hh, HL. rewrite HQ in Hh. injection Hh as <-.
  assert (En : sched_next me c t p = t).
  { unfold sched_next, check_priorities. rewrite Hst0, Hpr0, Z.ltb_irrefl, !Z.eqb_refl.
    assert (has_bits (stat c) RT_THREAD_STAT_YIELD_MASK = true) as -> by (unfold c; destruct th; by apply has_bits_lor).
    done. }
  rewrite En in *. assert (Hne : t <> me).
  { intros ->. simplify_eq. by rewrite Hst in Hts. }
  rewrite bool_decide_true in E by done. change (interrupt_nest s0) with (interrupt_nest s) in E.
  rewrite Hn in E. cbn [andb Z.eqb] in E.
  exists s'. eexists. split.
  { rewrite E0. unfold mbind, prog_bind. rewrite E. reflexivity. }
  assert (Hme : me ∉ t :: l).
  { rewrite <- HQ. intros Hin. destruct (ci_ready _ _ _ _ _ HI p me Hin) as (mh & Hmh & Hms & _). simplify_eq.
    by rewrite Hst in Hms. }
  assert (Hnd : NoDup (t :: l)) by (rewrite <- HQ; apply HI).
  destruct (yield_lists s0 s' me c t p l HI' HF HK Hth0 Hst0 Hpr0 Hc' Hne Hnd) as [EQ HQ'];
    [set_solver|exact HQ|by rewrite <- Hpr0|].
  destruct (HK t tt0) as (th' & Hth1 & Hr); [by unfold s0; cbn; rewrite lookup_insert_ne|].
  split; try done.
  - pose proof HF as [EF _]. by rewrite EF.
  - pose proof HF as [EF _]. by rewrite EF.
  - destruct (frame_field current_priority s0 s' t tt0) as (th2 & Hth2 & Ep);
      [by intros []|done|by unfold s0; cbn; rewrite lookup_insert_ne|].
    assert (th2 = th') as -> by congruence. exists th'. split; [done|]. split; [|congruence].
    pose proof (ci_cur_stat _ _ _ _ _ HI' t th' ltac:(set_solver) Hc' Hth1).
    destruct Hr as [->|(_&[?|?]&_)]; done.
  - intros q Hq. rewrite EQ, q_remove_lookup, q_push_back_lookup, decide_False by (intros [= ->]; lia).
    change (queues s0) with (queues s). by rewrite Hhi.
  - intros u Hu. apply (preemptable_frame s0); [done|]. apply Hpre0. set_solver.
Qed.

(** C7. No thread starves under [rt_thread_yield]: from a state in which a
    thread runs and [l] are the ready threads of its priority, no ready one
    having a higher priority, the [i]-th of them gets the processor after
    exactly [i + 1] yields of the running threads, with the others and the
    first one behind it in order; and after one yield of each thread the first
    one runs again and the queue is as it was. *)
Theorem yield_round_robin s me p l :
  turn s me p l -> l <> [] ->
  (forall i t, l !! i = Some t -> exists s', yield_n (S i) s = Some s' /\
    turn s' t p (drop (S i) l ++ me :: take i l)) /\
  exists s', yield_n (S (length l)) s = Some s' /\ turn s' me p l.
Proof.
  intros Ht Hl.
  assert (Hgo : forall i t, l !! i = Some t -> exists s', yield_n (S i) s = Some s' /\
    turn s' t p (drop (S i) l ++ me :: take i l)).
  { induction i as [|i IH]; intros t Hi.
    - destruct l as [|u l]; [done|]. injection Hi as ->. destruct (yield_step s me p t l Ht) as (s' & k & E & Ht').
      exists s'. cbn. rewrite E. by rewrite drop_0.
    - destruct (l !! i) as [u|] eqn:Hu; [|apply lookup_ge_None in Hu; apply lookup_lt_Some in Hi; lia].
      destruct (IH u eq_refl) as (s1 & E1 & Ht1). rewrite (drop_S _ _ _ Hi) in Ht1.
      destruct (yield_step s1 u p t _ Ht1) as (s2 & k & E2 & Ht2). exists s2. split.
      + rewrite (yield_n_snoc (S i) s s1 s2 k E1 E2). done.
      + rewrite (take_S_r _ _ _ Hu). by rewrite <- app_assoc in Ht2. }
  split; [exact Hgo|].
  destruct l as [|u0 l0] eqn:El; [done|]. rewrite <- El in *. clear Hl.
  assert (Hlen : (length l = S (length l0))%nat) by (by rewrite El).
  destruct (l !! length l0) as [u|] eqn:Hu; [|apply lookup_ge_None in Hu; lia].
  destruct (Hgo _ u Hu) as (s1 & E1 & Ht1). rewrite drop_ge in Ht1 by lia.
  destruct (yield_step s1 u p me _ Ht1) as (s2 & k & E2 & Ht2). exists s2. rewrite Hlen. split.
  - by rewrite (yield_n_snoc (S (length l0)) s s1 s2 k E1 E2).
  - rewrite <- (take_S_r _ _ _ Hu) in Ht2. by rewrite take_ge in Ht2 by lia.
Qed.
End RoundRobin.

(** ** Example: threads 1, 2 and 3 of priority 10 *)
#[local] Existing Instance no_signals.

Definition three_threads : kstate :=
  kstate0 <| threads := {[1%positive := thread0 RT_THREAD_RUNNING 10; 2%positive := thread0 RT_THREAD_READY 10;
                          3%positive := thread0 RT_THREAD_READY 10]} |>
          <| queues := {[QReady 10 := [2%positive; 3%positive]]} |> <| ready_priority_group := 2 ^ 10 |>.

Lemma three_threads_turn : turn three_threads 1 10 [2%positive; 3%positive].
Proof.
  assert (HT : forall t th, threads three_threads !! t = Some th ->
    (t = 1%positive /\ th = thread0 RT_THREAD_RUNNING 10) \/
    ((t = 2%positive \/ t = 3%positive) /\ th = thread0 RT_THREAD_READY 10)).
  { intros t th. cbn. rewrite !lookup_insert_Some, lookup_singleton_Some. naive_solver. }
  assert (HQ : forall h, queues three_threads !!! h = if decide (h = QReady 10) then [2%positive; 3%positive] else []).
  { intros h. case_decide as E; [by subst|]. unfold three_threads. cbn. unfold lookup_total, map_lookup_total.
    by rewrite lookup_singleton_ne. }
  split; try done.
  - split.
    + intros t th Ht. destruct (HT t th Ht) as [[_ ->]|[_ ->]]; by apply thread0_ok.
    + done.
    + intros p Hp. rewrite HQ. change (ready_priority_group three_threads) with (2 ^ 10).
      rewrite Z.pow2_bits_eqb by lia. case_decide as E.
      * injection E as ->. by rewrite bool_decide_true.
      * rewrite bool_decide_false by (by intros []). apply Z.eqb_neq. congruence.
    + intros p t Ht. rewrite HQ in Ht. case_decide as E; [|by apply elem_of_nil in Ht]. injection E as ->.
      exists (thread0 RT_THREAD_READY 10). split; [|done]. rewrite !elem_of_cons, elem_of_nil in Ht.
      destruct Ht as [->|[->|[]]]; done.
    + intros h t Hh Ht. rewrite HQ in Ht. case_decide; [by subst|by apply elem_of_nil in Ht].
    + intros t Ht. by apply elem_of_nil in Ht.
    + intros h. rewrite HQ. case_decide; [|constructor]. repeat constructor; set_solver.
    + intros h h' t. rewrite !HQ. repeat case_decide; congruence || set_solver.
    + intros t [= <-]. by eexists.
    + intros t th _ Ht. destruct (HT t th Ht) as [[_ ->]|[Hc ->]]; [done|]. intros _.
      change (current_priority _) with 10. rewrite HQ, decide_True by done. set_solver.
    + intros t th _ Ht. by destruct (HT t th Ht) as [[-> ->]|[_ ->]].
    + intros t th _ [= <-] Ht. destruct (HT 1%positive th Ht) as [[_ ->]|[[|] _]]; done.
  - by eexists.
  - intros q Hq. rewrite HQ. case_decide as E; [|done]. injection E as ->. lia.
  - intros u. rewrite !elem_of_cons, elem_of_nil. intros [->|[->|[->|[]]]]; by eexists.
Qed.

Lemma yield_round_robin_witness :
  exists s', yield_n 2 three_threads = Some s' /\ current_thread s' = Some 3%positive.
Proof.
  destruct (yield_round_robin three_threads 1 10 [2%positive; 3%positive]) as [Hg _].
  - apply three_threads_turn.
  - done.
  - destruct (Hg 1%nat 3%positive eq_refl) as (s' & E & Ht). exists s'. split; [exact E|apply Ht].
Defined.
