(* ===== verification/System.v ===== *)
(** Threads together: a machine in which the running thread makes kernel calls
    and the others wait where their last call gave up the processor. *)
From S2P Require Export SemThm RoundRobin Timeouts.
Local Open Scope Z_scope.

(** ** Threads without anything to handle *)

(** The thread can be switched out, and has no signal to handle. *)
Definition quiet (th : rt_thread) : Prop := preemptableFlag th <> 1 /\ no_pending th.

Lemma has_bits_clear x m k : Z.land m k = 0 -> has_bits (clear_bits x m) k = has_bits x k.
Proof.
  intros E. unfold has_bits, clear_bits. rewrite <- Z.land_assoc. do 2 f_equal.
  apply Z.bits_inj'. intros n Hn. pose proof (f_equal (fun z => Z.testbit z n) E) as En. cbn beta in En.
  rewrite Z.land_spec, Z.lnot_spec by lia. rewrite Z.land_spec, Z.bits_0 in En.
  destruct (Z.testbit m n), (Z.testbit k n); done.
Qed.

Lemma quiet_same th th' : same_signals th th' -> quiet th -> quiet th'.
Proof.
  intros [E1 E2] [Hp [Hr Hs]]. split; [|split].
  - by rewrite (f_equal preemptableFlag E1 : preemptableFlag th' = preemptableFlag th).
  - by rewrite (f_equal sig_ret E1 : sig_ret th' = sig_ret th).
  - rewrite <- (has_bits_clear _ 15) by done. by rewrite E2, has_bits_clear.
Qed.
Lemma quiet_put_stat v th : 0 <= v < 8 -> quiet th -> quiet (put_stat v th).
Proof. intros Hv. by apply quiet_same, same_signals_put_stat. Qed.

(** ** The threads of the system *)
Record threads_ok (T : gset tid) (idle : tid) (s : kstate) : Prop := {
  th_dom : dom (threads s) = T;
  th_quiet t th : threads s !! t = Some th -> quiet th;
  th_idle : exists th, threads s !! idle = Some th /\ runnable th }.

Lemma threads_ok_put T idle s s' t th th' :
  threads_ok T idle s -> threads s !! t = Some th -> quiet th' ->
  (t = idle -> runnable th') -> threads s' = <[t := th']> (threads s) -> threads_ok T idle s'.
Proof.
  intros [HD HQ (ih & Hi & Hr)] Ht Hq Hidle E. split.
  - rewrite E, dom_insert_L, <- HD. apply elem_of_dom_2 in Ht. set_solver.
  - intros u uh. rewrite E, lookup_insert. case_decide; [intros [=]; by subst|eauto].
  - rewrite E, lookup_insert. case_decide; eauto.
Qed.

Lemma threads_ok_others T idle s s' : threads_ok T idle s -> others s s' -> threads_ok T idle s'.
Proof.
  intros [HD HQ (ih & Hi & Hr)] (HK & Hdom & _). split.
  - congruence.
  - intros t th' Ht'. assert (is_Some (threads s !! t)) as [th Ht].
    { apply elem_of_dom. rewrite <- Hdom. by apply elem_of_dom_2 in Ht'. }
    destruct (HK t th Ht) as (th2 & Ht2 & R). simplify_eq.
    destruct R as [->|(_ & _ & Hs)]; [eauto|]. by eapply quiet_same; [|eapply HQ].
  - destruct (HK idle ih Hi) as (ih' & Hi' & R). exists ih'. split; [done|].
    destruct R as [->|(_ & ? & _)]; done.
Qed.

(** ** The semaphores of the system *)
Definition sem_fine (s : kstate) (x : positive) : Prop :=
  exists a o, sem_is s x a /\ sem_spec_ok a /\ objs s !! sem_ref x = Some o /\ valid_flag (o_flag o) = true.
Definition sems_ok (s : kstate) : Prop := forall x, is_Some (sems s !! x) -> sem_fine s x.

(** Only the semaphore [x] changes, and it is in order. *)
Lemma sems_ok_at x s s' :
  sems_ok s -> (forall y, objs s' !! sem_ref y = objs s !! sem_ref y) ->
  (forall y, y <> x -> sems s' !! y = sems s !! y /\
     queues s' !!! QSuspend (sem_ref y) = queues s !!! QSuspend (sem_ref y)) ->
  (is_Some (sems s' !! x) -> sem_fine s' x) -> sems_ok s'.
Proof.
  intros H HO Hne Hx y Hy. destruct (decide (y = x)) as [->|Hyx]; [by apply Hx|].
  destruct (Hne y Hyx) as [E1 E2]. rewrite E1 in Hy.
  destruct (H y Hy) as (a & o & (H1 & H2 & H3) & Ha & Ho & Hf). exists a, o. unfold sem_is, typed in *.
  rewrite HO, E1, E2. done.
Qed.

Lemma sems_ok_same s s' :
  sems_ok s -> (forall y, objs s' !! sem_ref y = objs s !! sem_ref y) -> sems s' = sems s ->
  (forall h, is_wait h = true -> queues s' !!! h = queues s !!! h) -> sems_ok s'.
Proof.
  intros H HO HS HQ x Hx. rewrite HS in Hx. destruct (H x Hx) as (a & o & (H1 & H2 & H3) & Ha & Ho & Hf).
  exists a, o. unfold sem_is, typed in *. rewrite HO, HS, HQ by done. done.
Qed.

(** Threads may leave the lists of waiting threads. *)
Lemma sems_ok_filter (P : tid -> Prop) `{forall t, Decision (P t)} s s' :
  sems_ok s -> (forall y, objs s' !! sem_ref y = objs s !! sem_ref y) -> sems s' = sems s ->
  (forall h, is_wait h = true -> queues s' !!! h = filter P (queues s !!! h)) -> sems_ok s'.
Proof.
  intros Hok HO HS HQ x Hx. rewrite HS in Hx. destruct (Hok x Hx) as (a & o & (H1 & H2 & H3) & [Hr Hw] & Ho & Hf).
  exists (SemSpec (tokens a) (filter P (waiting a))), o. unfold sem_is, typed in *.
  rewrite HO, HS, HQ, H3 by done.
  split; [done|]. split; [|done]. split; [done|]. intros Hn. apply Hw. intros E. apply Hn. cbn. by rewrite E.
Qed.

(** ** The invariant of the kernel *)

(** The timers of threads are not periodic ([_thread_init]). *)
Definition timers_once (s : kstate) : Prop :=
  forall t o, objs s !! timer_ref (thread_timer t) = Some o -> has_bits (o_flag o) RT_TIMER_FLAG_PERIODIC = false.

(** In [n] interrupts, with timers that were in order at tick [b]. *)
Record kernel_ok (T : gset tid) (idle : tid) (n b : Z) (s : kstate) : Prop := {
  sy_kok : kok s;
  sy_running : dispatched s;
  sy_nest : interrupt_nest s = n;
  sy_lock : scheduler_lock_nest s = 0;
  sy_threads : threads_ok T idle s;
  sy_sems : sems_ok s;
  sy_clock : clock_data (timers s) b (timer_list s);
  sy_once : timers_once s }.

(** Between two steps of the machine. *)
Definition system_ok (T : gset tid) (idle : tid) (s : kstate) : Prop :=
  kernel_ok T idle 0 (rt_tick s) s.

Lemma kframe_sem_objs s s' : kframe s s' -> forall y, objs s' !! sem_ref y = objs s !! sem_ref y.
Proof. intros F y. by apply (kf_objs _ _ F). Qed.
Lemma kframe_once s s' : kframe s s' -> timers_once s -> timers_once s'.
Proof.
  intros F H t o' Ho'. destruct (kf_periodic _ _ F _ _ Ho') as (o & Ho & ->). by apply (H t).
Qed.

(** The thread that runs; when it is not the idle thread it can block. *)
Lemma kernel_current T idle n b s me :
  kernel_ok T idle n b s -> current_thread s = Some me ->
  exists th, threads s !! me = Some th /\ stat_of th = RT_THREAD_RUNNING /\ quiet th.
Proof.
  intros HS Hc. destruct (sy_running _ _ _ _ _ HS) as (t & th & Hct & Ht & Hst).
  assert (t = me) as -> by congruence. exists th. split_and!; [done..|].
  by eapply th_quiet; [apply HS|].
Qed.

Lemma system_may_block T idle s me :
  system_ok T idle s -> current_thread s = Some me -> me <> idle ->
  exists th, may_block s me th /\ quiet th.
Proof.
  intros HS Hc Hne. destruct (kernel_current _ _ _ _ _ _ HS Hc) as (th & Ht & Hst & Hq).
  exists th. split; [|done]. pose proof HS as [HK _ Hn Hl HT _ _ _].
  destruct (th_idle _ _ _ HT) as (ih & Hi & Hr). pose proof (ko_kinv _ HK) as HI.
  split; [done..|apply Hq|done|done|]. exists (current_priority ih), idle.
  apply (ci_queued _ _ _ _ _ HI idle ih); [set_solver|done|].
  destruct Hr as [|Hr]; [done|]. pose proof (ci_running _ _ _ _ _ HI idle ih ltac:(set_solver) Hi Hr). congruence.
Qed.

(** Changing data of the running thread that the kernel's lists do not depend on. *)
Lemma kernel_put T idle n b s me th th' :
  kernel_ok T idle n b s -> current_thread s = Some me -> threads s !! me = Some th ->
  stat_of th' = stat_of th -> current_priority th' = current_priority th ->
  number_mask th' = number_mask th -> stack_overflow th' = stack_overflow th -> quiet th' ->
  kernel_ok T idle n b (s <| threads ::= <[me := th']> |>).
Proof.
  intros HS Hc Ht E1 E2 E3 E4 Hq. destruct (kernel_current _ _ _ _ _ _ HS Hc) as (th0 & Ht0 & Hst & _).
  simplify_eq. pose proof HS as [HK HR Hn Hl HT HX HC HO].
  destruct (kok_set_thread s me th th' HK Ht E1 E2 E3 E4) as [HK' F]. split; try done.
  - exists me, th'. split; [done|]. split; [apply lookup_insert_eq|congruence].
  - eapply (threads_ok_put _ _ s _ me th th'); [done..| |done]. intros _. right. congruence.
Qed.

(** Scheduling. *)
Lemma kernel_sched T idle n b s s' :
  kernel_ok T idle n b s -> kok s' -> sched_frame s s' -> others s s' ->
  (forall h, is_wait h = true -> queues s' !!! h = queues s !!! h) -> kernel_ok T idle n b s'.
Proof.
  intros [HK HR Hn Hl HT HX HC H1] HK' HF HO HQ. pose proof (sched_kframe _ _ HF) as F.
  assert (timers s' = timers s /\ timer_list s' = timer_list s) as [E1 E2] by (destruct HF as [-> _]; done).
  split.
  - done.
  - apply HO.
  - by rewrite (kf_nest _ _ F).
  - by rewrite (kf_lock _ _ F).
  - by eapply threads_ok_others.
  - eapply sems_ok_same; [exact HX|by apply kframe_sem_objs|by apply kf_sems|done].
  - by rewrite E1, E2.
  - by eapply kframe_once.
Qed.

(** Changing the value of a semaphore without waking anyone. *)
Lemma system_sem_set T idle s x a n :
  system_ok T idle s -> sem_is s x a -> sem_spec_ok (SemSpec n (waiting a)) ->
  system_ok T idle (sem_set x n s).
Proof.
  intros [HK HR Hn Hl HT HX HC HO] Hs Ha.
  split; [by apply sem_set_ok|done|done|done|by destruct HT| |done|done].
  apply (sems_ok_at x s); [done|done| |].
  - intros y Hy. split; [|done]. by apply lookup_insert_ne.
  - intros _. destruct (HX x) as (b & o & _ & _ & Ho & Hf); [destruct Hs as (_ & -> & _); by eexists|].
    exists (SemSpec n (waiting a)), o. split; [by apply sem_is_set|done].
Qed.

(** What a call of the kernel leaves to show. *)
Lemma system_frame T idle s s' :
  system_ok T idle s -> kok s' -> kframe s s' -> dispatched s' -> threads_ok T idle s' -> sems_ok s' ->
  system_ok T idle s'.
Proof.
  intros [HK HR Hn Hl HT HX HC HO] HK' F HD HT' HX'. split; try done.
  - by rewrite (kf_nest _ _ F).
  - by rewrite (kf_lock _ _ F).
  - by apply (kf_clock _ _ F).
  - by eapply kframe_once.
Qed.

(** A thread other than the idle thread is suspended and another one runs. *)
Lemma system_suspended T idle s s' me th :
  system_ok T idle s -> me <> idle -> threads s !! me = Some th -> quiet th ->
  kok s' -> kframe s s' ->
  others (s <| threads ::= <[me := put_stat RT_THREAD_SUSPEND th]> |>) s' ->
  sems_ok s' -> system_ok T idle s'.
Proof.
  intros HS Hne Ht Hq HK' F HO HX'. apply (system_frame T idle s); [done..|apply HO| |done].
  eapply threads_ok_others; [|exact HO].
  apply (threads_ok_put T idle s _ me th (put_stat RT_THREAD_SUSPEND th)); try done; [apply HS|by apply quiet_put_stat].
Qed.

(** ** Calls in the system *)

(** What a call of [me] does to a system: it ends with [me] still running, or
    gives up the processor with the rest of the call fit to be resumed. *)
Definition resumable (T : gset tid) (idle me : tid) {A} (k : kstate -> outcome kstate A) : Prop :=
  forall s, system_ok T idle s -> current_thread s = Some me ->
    exists v s', k s = Done v s' /\ system_ok T idle s' /\ current_thread s' = Some me.
Definition served (T : gset tid) (idle me : tid) {A} (o : outcome kstate A) : Prop :=
  match o with
  | Done _ s => system_ok T idle s /\ current_thread s = Some me
  | Switch s k => system_ok T idle s /\ current_thread s <> Some me /\ resumable T idle me k
  | Fault => False
  end.

Section Calls.
Context `{!SignalOps} (T : gset tid) (idle : tid).

Lemma served_blocks {A} me (o : outcome kstate A) s' ret :
  blocks me o s' ret -> system_ok T idle s' ->
  (forall s2 th2, system_ok T idle s2 -> current_thread s2 = Some me -> threads s2 !! me = Some th2 ->
     exists v s3, ret th2 s2 = Done v s3 /\ system_ok T idle s3 /\ current_thread s3 = Some me) ->
  served T idle me o.
Proof.
  intros (k & -> & Hc & Hk) HS Hret. split_and!; [done..|]. intros s2 HS2 Hc2.
  destruct (kernel_current _ _ _ _ _ _ HS2 Hc2) as (th2 & Ht2 & _ & _ & Hp). rewrite (Hk s2 th2) by done.
  by apply Hret.
Qed.

(** Handing the processor over at the end of a call. *)
Lemma served_schedule {A} s me (v : A) :
  system_ok T idle s -> current_thread s = Some me ->
  served T idle me ((rt_schedule;; mret v) s).
Proof.
  intros HS Hc. destruct (kernel_current _ _ _ _ _ _ HS Hc) as (c & Hme & Hst & Hq).
  pose proof HS as [HK HR Hn Hl HT HX HCk HOn]. pose proof (ko_kinv _ HK) as HI.
  unfold mbind, prog_bind. destruct (may_schedule s c) eqn:Hm.
  - destruct (rt_schedule_yes s me c HI Hc Hme Hm) as (first & p & s' & (_ & Hh & _) & HI' & HF & Hc' & HQ & HKR & E).
    assert (Hin : first ∈ queues s !!! QReady p).
    { unfold queue in Hh. destruct (queues s !!! QReady p); [done|]. injection Hh as ->. set_solver. }
    destruct (sched_next_runnable s me c first p HI Hme Hin) as (nh & Hnh & Hnr).
    pose proof (sched_kframe _ _ HF) as F.
    assert (HO : others s s').
    { split; [done|]. split; [by apply sched_dom|]. by eapply (dispatched_sched s). }
    assert (HS' : system_ok T idle s').
    { unfold system_ok. rewrite (kf_tick _ _ F). apply (kernel_sched _ _ _ _ s); [done|by apply (kok_sched s)|done|done|].
      intros h Hh'. by eapply (lists_from_wait s). }
    rewrite E, Hn. rewrite andb_true_r. case_bool_decide as En; cbn [outcome_bind served mret].
    + split; [done|]. split; [congruence|]. intros s2 HS2 Hc2.
      destruct (kernel_current _ _ _ _ _ _ HS2 Hc2) as (th2 & Ht2 & _ & _ & Hp).
      rewrite (resumed_quiet me th2 s2 Hc2 Ht2 Hp). by exists v, s2.
    + split; [done|]. destruct (decide (sched_next me c first p = me)); [congruence|done].
  - rewrite rt_schedule_no; [done|]. right. by exists me, c.
Qed.

Lemma served_yield me s :
  system_ok T idle s -> current_thread s = Some me -> served T idle me (rt_thread_yield s).
Proof.
  intros HS Hc. destruct (kernel_current _ _ _ _ _ _ HS Hc) as (th & Ht & Hst & Hq).
  set (c := th <| remaining_tick := init_tick th |> <| stat ::= (fun x => Z.lor x RT_THREAD_STAT_YIELD) |>).
  assert (E : rt_thread_yield s = (rt_schedule;; mret RT_EOK) (s <| threads ::= <[me := c]> |>)).
  { unfold rt_thread_yield. kstep. by erewrite bind_done by exact (mod_thread_eq _ _ _ _ Ht). }
  rewrite E. apply served_schedule; [|done].
  eapply (kernel_put _ _ _ _ s me th c); try done.
  - unfold c. rewrite stat_of_set by done. by destruct th.
  - unfold c. eapply quiet_same; [apply same_signals_yield|]. by destruct th.
Qed.

Lemma served_sleep me s tick :
  system_ok T idle s -> current_thread s = Some me -> me <> idle -> 0 <= tick < RT_TICK_MAX / 2 ->
  served T idle me (rt_thread_sleep tick s).
Proof.
  intros HS Hc Hne Htk. destruct (system_may_block _ _ _ _ HS Hc Hne) as (th & Hm & Hq).
  destruct (sleep_blocks s me th tick Hm Htk) as (s' & HK & F & _ & _ & _ & HQ & HO & HB).
  eapply served_blocks; [exact HB| |].
  - eapply system_suspended; [exact HS|done|apply Hm|done..|].
    eapply sems_ok_same; [apply HS|by apply kframe_sem_objs|by apply kf_sems|done].
  - intros s2 th2 HS2 Hc2 Ht2. destruct (kernel_current _ _ _ _ _ _ HS2 Hc2) as (th0 & Ht0 & _ & Hq2).
    assert (th2 = th0) as -> by congruence. eexists _, _. split; [done|]. destruct (error th0 =? _); [|done].
    split; [|done]. by eapply (kernel_put _ _ _ _ s2 me th0).
Qed.

Lemma served_release me s x :
  system_ok T idle s -> current_thread s = Some me -> is_Some (sems s !! x) ->
  served T idle me (rt_sem_release x s).
Proof.
  intros HS Hc Hx. pose proof HS as [HK HR Hn Hl HT HX HCk HOn].
  destruct (HX x Hx) as (a & o & Hs & Ha & Ho & Hf).
  destruct (waiting a) as [|t l] eqn:El.
  - rewrite (sem_release_count s x a Hs Ha El). destruct (Z.ltb_spec (tokens a) RT_SEM_VALUE_MAX) as [Hlt|]; [|done].
    split; [|done]. apply (system_sem_set _ _ _ _ a); [done|done|].
    destruct Ha as [Hr _]. split; cbn; [lia|]. by rewrite El.
  - destruct (sem_release_wake s x a t l HK Hs El)
      as (th & s1 & Ht & Hst & HK1 & F1 & Hc1 & Hw & Hs1 & HQ1 & E).
    rewrite E. destruct HR as (c & ch & Hcc & Hch & Hcs). assert (c = me) as -> by congruence.
    assert (Htm : t <> me) by (intros ->; simplify_eq; by rewrite Hcs in Hst).
    unfold woken in Hw. rewrite decide_False in Hw by congruence. destruct Hw as [ET _].
    apply served_schedule; [|congruence]. apply (system_frame T idle s); [done..| | |].
    + exists me, ch. split; [congruence|]. split; [|done]. rewrite ET. by rewrite lookup_insert_ne.
    + eapply (threads_ok_put _ _ s _ t th); [done|done| |by left; apply stat_of_put_stat|exact ET].
      apply quiet_put_stat; [done|]. by eapply th_quiet.
    + apply (sems_ok_at x s); [done|by apply kframe_sem_objs| |].
      * intros y Hy. split; [by rewrite (kf_sems _ _ F1)|]. rewrite HQ1 by done.
        rewrite decide_False; [done|]. by intros [= ?].
      * intros _. exists (SemSpec (tokens a) l), o. split; [done|]. split; [|split; [|done]].
        -- destruct Ha as [Hr Hwz]. split; [done|]. intros _. apply Hwz. by rewrite El.
        -- by rewrite (kframe_sem_objs _ _ F1).
Qed.

Lemma served_take me s x time :
  system_ok T idle s -> current_thread s = Some me -> is_Some (sems s !! x) ->
  time < RT_TICK_MAX / 2 -> (me = idle -> time = 0) -> served T idle me (rt_sem_take x time s).
Proof.
  intros HS Hc Hx Htm Hid. pose proof HS as [HK HR Hn Hl HT HX HCk HOn].
  destruct (HX x Hx) as (a & o & Hs & Ha & Ho & Hf).
  destruct (Z.lt_ge_cases 0 (tokens a)) as [Hp|Hp].
  - rewrite (sem_take_now s x a time Hs Ha Hp). split; [|done].
    apply (system_sem_set _ _ _ _ a); [done|done|].
    destruct Ha as [Hr Hwz]. split; cbn; [lia|]. intros Hw. specialize (Hwz Hw). lia.
  - destruct (decide (time = 0)) as [->|Htime]; [by rewrite (sem_take_fail s x a Hs Hp)|].
    assert (Hne : me <> idle) by tauto.
    destruct (system_may_block _ _ _ _ HS Hc Hne) as (th & Hm & Hq).
    destruct (sem_take_blocks s x a o me th time Hs Ho Hp Htime Hm Hf Htm) as (s' & HB & [HK' F' _ HQ' _ HO'] & Hs').
    assert (HS0 : system_ok T idle (no_error me th s)) by (by eapply (kernel_put _ _ _ _ s me th); [..|apply Hm| | | | |]).
    eapply served_blocks; [exact HB| |by eauto].
    eapply system_suspended; [exact HS0|done|apply lookup_insert_eq|by destruct th|done|done|exact HO'|].
    apply (sems_ok_at x (no_error me th s)); [apply HS0|by apply kframe_sem_objs| |].
    + intros y Hy. split; [by rewrite (kf_sems _ _ F')|]. rewrite HQ' by done.
      rewrite decide_False; [done|]. by intros [= ?].
    + intros _. eexists _, o. split; [exact Hs'|]. split; [|split; [|done]].
      * destruct Ha as [Hr _]. split; cbn; [done|]. intros _. lia.
      * by rewrite (kframe_sem_objs _ _ F').
Qed.
End Calls.

(** ** The tick interrupt *)

(** The list of timers one tick later, without those that were due. *)
Lemma timers_ok_suffix ts b l1 l2 : timers_ok ts b (l1 ++ l2) -> timers_ok ts b l2.
Proof. induction l1 as [|tm l1 IH]; [done|]. intros (_ & _ & _ & H)%timers_ok_cons. auto. Qed.

Lemma ticks_from_next b t :
  1 <= ticks_from b t -> ticks_from (u32 (b + 1)) t = ticks_from b t - 1.
Proof.
  unfold ticks_from, u32, wrap. intros H. rewrite Zminus_mod_idemp_r.
  replace (t - (b + 1)) with (t - b - 1) by lia. rewrite <- Zminus_mod_idemp_l.
  apply Z.mod_small. pose proof (Z.mod_pos_bound (t - b) (2 ^ 32) ltac:(lia)). lia.
Qed.

Lemma timers_ok_next ts b l :
  timers_ok ts b l -> Forall (fun tm => 1 < deadline ts b tm) l -> timers_ok ts (u32 (b + 1)) l.
Proof.
  intros [HN HA HS] HF.
  assert (E : forall tm, tm ∈ l -> deadline ts (u32 (b + 1)) tm = deadline ts b tm - 1).
  { intros tm Htm. pose proof (proj1 (Forall_forall _ _) HF tm Htm) as H1.
    destruct (proj1 (Forall_forall _ _) HA tm Htm) as (x & Hx & _). cbn in H1.
    unfold deadline in *. rewrite Hx in *. apply ticks_from_next. lia. }
  split; [done| |].
  - apply Forall_forall. intros tm Htm. destruct (proj1 (Forall_forall _ _) HA tm Htm) as (x & Hx & Hw).
    exists x. split; [done|]. specialize (E tm Htm). unfold deadline in E. rewrite Hx in E.
    unfold in_window in *. lia.
  - clear HN HA HF. induction HS as [|tm l HS IH HF]; [constructor|].
    constructor; [apply IH; intros; apply E; set_solver|].
    apply Forall_forall. intros y Hy. rewrite !E by set_solver.
    pose proof (proj1 (Forall_forall _ _) HF y Hy). cbn in *. lia.
Qed.

Section Tick.
Context `{!SignalOps, !Callbacks, !ThreadTimeout} (T : gset tid) (idle : tid).

Definition SysTick_Handler (fuel : nat) : K unit :=
  rt_interrupt_enter;;
  rt_tick_increase fuel;;
  rt_interrupt_leave.

(** The threads after some of them have timed out. *)
Lemma threads_ok_expired due rest s s' :
  threads_ok T idle s -> expired due rest s s' -> threads_ok T idle s'.
Proof.
  intros [HD HQ (ih & Hi & Hr)] X.
  assert (Hsig : forall t th th', threads s !! t = Some th -> threads s' !! t = Some th' ->
    quiet th' /\ (runnable th -> runnable th')).
  { intros t th th' Ht Ht'. destruct (decide (t ∈ due)) as [Hin|Hin].
    - destruct (ex_due _ _ _ _ X t Hin) as (th0 & th2 & Ha & Hb & Hsame & Hrun). simplify_eq.
      split; [|done]. eapply quiet_same; [exact Hsame|]. exact (HQ _ _ Ht).
    - destruct (unaffected_signals s s' t th th') as [Hsame Hrun]; [by apply (ex_others _ _ _ _ X)|done|done|].
      split; [|done]. eapply quiet_same; [exact Hsame|]. exact (HQ _ _ Ht). }
  pose proof (ex_dom _ _ _ _ X) as Hdom. split; [congruence| |].
  - intros t th' Ht'. assert (is_Some (threads s !! t)) as [th Ht].
    { apply elem_of_dom. rewrite <- Hdom. by apply elem_of_dom_2 in Ht'. }
    by eapply Hsig.
  - assert (is_Some (threads s' !! idle)) as [ih' Hi'].
    { apply elem_of_dom. rewrite Hdom. by apply elem_of_dom_2 in Hi. }
    exists ih'. split; [done|]. by eapply Hsig.
Qed.

(** [rt_tick_increase] up to the check of the timers: the running thread has
    used one more tick, and may lose the processor. *)
Lemma tick_slice s me b :
  kernel_ok T idle 1 b s -> current_thread s = Some me ->
  exists s', (forall fuel, rt_tick_increase fuel s = rt_timer_check fuel s') /\
    kernel_ok T idle 1 b s' /\ rt_tick s' = u32 (rt_tick s + 1) /\ timer_list s' = timer_list s /\
    is_Some (current_thread s').
Proof.
  intros HS Hc. set (s1 := s <| rt_tick ::= (fun t => u32 (t + 1)) |>).
  assert (HS1 : kernel_ok T idle 1 b s1).
  { destruct HS as [HK HR Hn Hl HT HX HC HO]. split; try done; [by eapply kok_ext|by destruct HT]. }
  destruct (kernel_current _ _ _ _ _ _ HS1 Hc) as (th & Ht & Hst & Hq).
  set (th1 := th <| remaining_tick ::= (fun n => u32 (n - 1)) |>).
  set (th2 := if 0 <? tick_count th1 then th1 <| tick_count ::= (fun n => u16 (n - 1)) |> else th1).
  set (s2 := s1 <| threads ::= <[me := th1]> |>).
  assert (HS2 : kernel_ok T idle 1 b s2) by (by eapply (kernel_put _ _ _ _ s1 me th)).
  assert (Ht2 : threads s2 !! me = Some th1) by apply lookup_insert_eq.
  set (s3 := s2 <| threads ::= <[me := th2]> |>).
  assert (HS3 : kernel_ok T idle 1 b s3).
  { eapply (kernel_put _ _ _ _ s2 me th1); try done; unfold th2; by destruct (0 <? _). }
  assert (Ht3 : threads s3 !! me = Some th2) by apply lookup_insert_eq.
  assert (E3 : when (0 <? tick_count th1) (mod_thread me (fun th => th <| tick_count ::= (fun n => u16 (n - 1)) |>)) s2
    = Done tt s3).
  { unfold s3, th2. destruct (0 <? tick_count th1); [exact (mod_thread_eq _ _ _ _ Ht2)|].
    cbn [when]. unfold mret, prog_ret. f_equal. symmetry. exact (thread_same me th1 s2 Ht2). }
  assert (E : forall fuel, rt_tick_increase fuel s =
    (when (remaining_tick th2 =? 0)
      (mod_thread me (fun th => th <| remaining_tick := init_tick th |>
                                  <| stat ::= (fun x => Z.lor x RT_THREAD_STAT_YIELD) |>);; rt_schedule);;
     rt_timer_check fuel) s3).
  { intros fuel. unfold rt_tick_increase. erewrite bind_done by done. fold s1.
    erewrite bind_done by exact (self_eq me s1 Hc). erewrite bind_done by exact (mod_thread_eq _ _ _ _ Ht).
    fold th1. fold s2. erewrite bind_done by exact (get_thread_eq _ _ _ Ht2).
    erewrite bind_done by exact E3. by erewrite bind_done by exact (get_thread_eq _ _ _ Ht3). }
  destruct (remaining_tick th2 =? 0); cbn [when] in E; [|by exists s3; split_and!; [|done..|by eexists]].
  set (th4 := th2 <| remaining_tick := init_tick th2 |> <| stat ::= (fun x => Z.lor x RT_THREAD_STAT_YIELD) |>).
  set (s4 := s3 <| threads ::= <[me := th4]> |>).
  destruct (kernel_current _ _ _ _ _ _ HS3 Hc) as (th0 & Ht0 & Hst2 & Hq2).
  assert (th0 = th2) as -> by congruence.
  assert (HS4 : kernel_ok T idle 1 b s4).
  { eapply (kernel_put _ _ _ _ s3 me th2); try done.
    - unfold th4. rewrite stat_of_set by done. by destruct th2.
    - eapply quiet_same; [apply same_signals_yield|]. by destruct th2. }
  destruct (rt_schedule_isr s4 me) as (s5 & E5 & HK5 & HF5 & HR5 & Hc5 & HD5 & HQ5);
    [apply HS4|done|by rewrite (sy_nest _ _ _ _ _ HS4)|].
  exists s5. split; [|split; [|split; [|split; [|done]]]].
  - intros fuel. rewrite E. erewrite bind_done; [reflexivity|].
    erewrite bind_done by exact (mod_thread_eq _ _ _ _ Ht3). exact E5.
  - apply (kernel_sched _ _ _ _ s4); [done..| |done]. split; [done|].
    split; [by apply sched_dom|]. apply HD5, HS4.
  - destruct HF5 as [-> _]. done.
  - destruct HF5 as [-> _]. done.
Qed.

(** The tick interrupt on a system in order. *)
Lemma tick_system s me :
  system_ok T idle s -> current_thread s = Some me ->
  exists s', SysTick_Handler (length (timer_list s)) s = Done tt s' /\ system_ok T idle s' /\
    is_Some (current_thread s').
Proof.
  intros HS Hc. set (b := rt_tick s). set (s1 := s <| interrupt_nest ::= (fun n => u8 (n + 1)) |>).
  assert (HS1 : kernel_ok T idle 1 b s1).
  { destruct HS as [HK HR Hn Hl HT HX HC HO]. split; try done; [by eapply kok_ext| |by destruct HT].
    cbn. by rewrite Hn. }
  destruct (tick_slice s1 me b HS1 Hc) as (s2 & E2 & HS2 & Htk & Hl2 & Hc2).
  pose proof HS2 as [HK2 HR2 Hn2 Hlk2 HT2 HX2 [Hok2 Hth2] HO2].
  assert (Hnow : ticks_from b (u32 (b + 1)) = 1) by (by apply (in_window_new b 1)).
  change (rt_tick s1) with b in Htk.
  destruct (timer_check_ok b s2 (length (timer_list s))) as (due & rest & s3 & E3 & X & El & Hlater & _); try done.
  { by rewrite Hn2. }
  { rewrite Htk. unfold in_window. by rewrite Hnow. }
  { intros tm Htm _. rewrite Forall_forall in Hth2. destruct (Hth2 tm Htm) as (t & ->). split; [|by eexists].
    destruct (ko_timers _ HK2 _ Htm) as (_ & (o & Ho & _) & _). exists o. split; [done|by apply (HO2 t)]. }
  { by rewrite Hl2. }
  pose proof (ex_frame _ _ _ _ X) as F. rewrite Htk, Hnow in Hlater.
  set (s4 := s3 <| interrupt_nest ::= (fun n => u8 (n - 1)) |>).
  exists s4. split; [|split; [|apply (ex_cur _ _ _ _ X)]].
  - unfold SysTick_Handler. erewrite bind_done by done. fold s1.
    erewrite bind_done; [done|]. rewrite E2. exact E3.
  - split.
    + eapply kok_ext; [exact (ex_kok _ _ _ _ X)|done..].
    + by apply (ex_dispatched _ _ _ _ X).
    + cbn. by rewrite (kf_nest _ _ F), Hn2.
    + cbn. by rewrite (kf_lock _ _ F).
    + destruct (threads_ok_expired due rest s2 s3 HT2 X). by split.
    + apply (sems_ok_filter (fun t => t ∉ due) s2); [done|exact (kframe_sem_objs _ _ F)|exact (kf_sems _ _ F)|].
      exact (ex_queues _ _ _ _ X).
    + change (clock_data (timers s3) (rt_tick s3) (timer_list s3)).
      rewrite (ex_timers _ _ _ _ X), (ex_list _ _ _ _ X), (ex_tick _ _ _ _ X), Htk. rewrite El in Hok2, Hth2. split.
      * apply timers_ok_next; [by eapply timers_ok_suffix|done].
      * by apply Forall_app in Hth2 as [_ ?].
    + exact (kframe_once _ _ F HO2).
Qed.
End Tick.

(** ** The machine *)

(** The calls that the threads make. *)
Inductive call :=
  | CTake (x : positive) (time : Z)
  | CRelease (x : positive)
  | CYield
  | CSleep (tick : Z).

(** What a thread may call: the semaphore exists, the time is one that timers
    can measure, and the idle thread never waits. *)
Definition allowed (idle : tid) (s : kstate) (me : tid) (c : call) : Prop :=
  match c with
  | CTake x time => is_Some (sems s !! x) /\ time < RT_TICK_MAX / 2 /\ (me = idle -> time = 0)
  | CRelease x => is_Some (sems s !! x)
  | CYield => True
  | CSleep tick => me <> idle /\ 0 <= tick < RT_TICK_MAX / 2
  end.

(** The kernel, and where the threads that do not run go on. *)
Record machine := Machine { kernel : kstate; saved : gmap tid (kstate -> outcome kstate Z) }.

(** The processor after a call of [me]: when it is given up, [me] is saved and
    the new current thread goes on where it was. *)
Inductive runs : gmap tid (kstate -> outcome kstate Z) -> tid -> outcome kstate Z -> machine -> Prop :=
  | runs_done sv me v s : runs sv me (Done v s) (Machine s sv)
  | runs_switch sv me s k t k' m :
      current_thread s = Some t -> sv !! t = Some k' ->
      runs (<[me := k]> (delete t sv)) t (k' s) m ->
      runs sv me (Switch s k) m.

Section Machine.
Context `{!SignalOps, !Callbacks, !ThreadTimeout}.

Definition run_call (c : call) : K Z :=
  match c with
  | CTake x time => rt_sem_take x time
  | CRelease x => rt_sem_release x
  | CYield => rt_thread_yield
  | CSleep tick => rt_thread_sleep tick
  end.

(** The tick interrupt while [me] runs, in the rounds that the active timers
    take. When it makes another thread the current one, the processor switches
    as the handler returns: [me] is saved between two of its calls. *)
Definition tick (me : tid) : K Z := fun s =>
  match SysTick_Handler (length (timer_list s)) s with
  | Done _ s' => if bool_decide (current_thread s' = Some me) then Done 0 s'
                 else Switch s' (fun s2 => Done 0 s2)
  | _ => Fault
  end.

(** The running thread makes a call, or a tick passes. *)
Inductive step (idle : tid) : machine -> machine -> Prop :=
  | step_call m me c m' :
      current_thread (kernel m) = Some me -> allowed idle (kernel m) me c ->
      runs (saved m) me (run_call c (kernel m)) m' -> step idle m m'
  | step_tick m me m' :
      current_thread (kernel m) = Some me -> runs (saved m) me (tick me (kernel m)) m' -> step idle m m'.

(** The kernel is in order, and each thread but the running one can go on. *)
Record machine_ok (T : gset tid) (idle : tid) (m : machine) : Prop := {
  mc_system : system_ok T idle (kernel m);
  mc_saved t : t ∈ T -> current_thread (kernel m) <> Some t -> is_Some (saved m !! t);
  mc_resume t k : saved m !! t = Some k -> resumable T idle t k }.

Lemma served_call T idle me c s :
  system_ok T idle s -> current_thread s = Some me -> allowed idle s me c ->
  served T idle me (run_call c s).
Proof.
  intros HS Hc. destruct c as [x time|x| |tick]; cbn.
  - intros (? & ? & ?). by apply served_take.
  - by apply served_release.
  - intros _. by apply served_yield.
  - intros [? ?]. by apply served_sleep.
Qed.

(** A call that is served ends with a machine in order, in one way. *)
Lemma served_runs T idle me o sv :
  me ∈ T -> served T idle me o ->
  (forall t, t ∈ T -> t <> me -> is_Some (sv !! t)) ->
  (forall t k, sv !! t = Some k -> resumable T idle t k) ->
  exists m, runs sv me o m /\ machine_ok T idle m /\ forall m', runs sv me o m' -> m' = m.
Proof.
  intros HmeT Ho Hsv Hk. destruct o as [v s|s k|]; [| |done].
  - destruct Ho as [HS Hc]. exists (Machine s sv). split; [constructor|]. split.
    + split; cbn; [done| |done]. intros t Ht Hct. apply Hsv; [done|]. by intros ->.
    + intros m' Hrun. by inversion Hrun.
  - destruct Ho as (HS & Hc & Hr).
    destruct (sy_running _ _ _ _ _ HS) as (t & th & Hct & Ht & _).
    assert (Htm : t <> me) by (by intros ->).
    assert (HtT : t ∈ T).
    { rewrite <- (th_dom _ _ _ (sy_threads _ _ _ _ _ HS)). by apply elem_of_dom_2 in Ht. }
    destruct (Hsv t HtT Htm) as [k' Hk']. destruct (Hk t k' Hk' s HS Hct) as (v & s' & E & HS' & Hc').
    exists (Machine s' (<[me := k]> (delete t sv))). split; [|split].
    + econstructor; [done|done|]. rewrite E. constructor.
    + split; cbn; [done| |].
      * intros u Hu Hcu. rewrite lookup_insert. case_decide; [by eexists|].
        rewrite lookup_delete_ne by congruence. by apply Hsv.
      * intros u ku. rewrite lookup_insert. case_decide; [intros [=]; by subst|].
        intros [_ Hu]%lookup_delete_Some. by apply (Hk u).
    + intros m' Hruns. inversion Hruns as [|? ? ? ? t0 k0 ? Hct0 Hk0 Hrun]; subst.
      assert (t0 = t) as -> by congruence. assert (k0 = k') as -> by congruence.
      rewrite E in Hrun. by inversion Hrun.
Qed.

Lemma served_tick T idle me s :
  system_ok T idle s -> current_thread s = Some me -> served T idle me (tick me s).
Proof.
  intros HS Hc. destruct (tick_system T idle s me HS Hc) as (s' & E & HS' & _).
  unfold tick. rewrite E. case_bool_decide; [done|]. split; [done|]. split; [done|].
  intros s2 HS2 Hc2. by exists 0, s2.
Qed.

Lemma machine_runs T idle m me (o : outcome kstate Z) :
  machine_ok T idle m -> current_thread (kernel m) = Some me -> served T idle me o ->
  exists m', runs (saved m) me o m' /\ machine_ok T idle m' /\
    forall m2, runs (saved m) me o m2 -> m2 = m'.
Proof.
  intros [HS Hsv Hk] Hc Ho. apply (served_runs T idle); [|done| |done].
  - destruct (kernel_current _ _ _ _ _ _ HS Hc) as (th & Ht & _).
    rewrite <- (th_dom _ _ _ (sy_threads _ _ _ _ _ HS)). by apply elem_of_dom_2 in Ht.
  - intros t Ht Hne. apply Hsv; congruence.
Qed.

Lemma machine_step T idle m m' : machine_ok T idle m -> step idle m m' -> machine_ok T idle m'.
Proof.
  intros Hm Hs. destruct Hs as [m0 me c m1 Hc Ha Hrun|m0 me m1 Hc Hrun].
  - destruct (machine_runs T idle m0 me (run_call c (kernel m0)) Hm Hc) as (m' & _ & Hm' & Hu).
    + apply served_call; [apply Hm|done|done].
    + by rewrite (Hu _ Hrun).
  - destruct (machine_runs T idle m0 me (tick me (kernel m0)) Hm Hc) as (m' & _ & Hm' & Hu).
    + apply served_tick; [apply Hm|done].
    + by rewrite (Hu _ Hrun).
Qed.

(** C5. Threads that take and release semaphores, yield and sleep in any
    order, with ticks between their calls, never get the kernel into a state
    out of order. In every state that the machine reaches one thread runs, the
    ready ones are in the lists of their priorities, a semaphore with waiting
    threads has no token, the active timers are in the order of their deadlines
    and belong to waiting threads, and each thread that does not run can go on
    where it was. Every call that the running thread may make from there ends,
    without a fault and in one way, with a thread running again, and so does
    the tick interrupt. *)
Theorem system_safe T idle m0 m :
  machine_ok T idle m0 -> rtc (step idle) m0 m ->
  machine_ok T idle m /\
  exists me, current_thread (kernel m) = Some me /\
    (forall c, allowed idle (kernel m) me c ->
      exists m', step idle m m' /\ machine_ok T idle m' /\
        forall m2, runs (saved m) me (run_call c (kernel m)) m2 -> m2 = m') /\
    exists m', step idle m m' /\ machine_ok T idle m' /\
      forall m2, runs (saved m) me (tick me (kernel m)) m2 -> m2 = m'.
Proof.
  intros Hm0 Hr. assert (Hm : machine_ok T idle m).
  { induction Hr as [|m0 m1 m Hstep _ IH]; [done|]. apply IH. by eapply machine_step. }
  split; [done|]. destruct (sy_running _ _ _ _ _ (mc_system _ _ _ Hm)) as (me & th & Hc & _).
  exists me. split; [done|]. split.
  - intros c Ha. destruct (machine_runs T idle m me (run_call c (kernel m)) Hm Hc) as (m' & Hrun & Hm' & Hu).
    + apply served_call; [apply Hm|done|done].
    + exists m'. split; [by eapply step_call|done].
  - destruct (machine_runs T idle m me (tick me (kernel m)) Hm Hc) as (m' & Hrun & Hm' & Hu).
    + apply served_tick; [apply Hm|done].
    + exists m'. split; [by eapply step_tick|done].
Qed.
End Machine.

(** ** Example: thread 1 runs, the idle thread 2 is ready *)
#[local] Existing Instance no_signals.
#[local] Existing Instance timeout_callbacks.
#[local] Existing Instance timeout_callbacks_ok.

Definition two_threads : machine :=
  Machine (kstate_ready <| sems := {[1%positive := RtSem 0]} |>) {[2%positive := fun s => Done 0 s]}.

Definition two_ids : gset tid := {[1%positive; 2%positive]}.

Lemma two_threads_ok : machine_ok two_ids 2 two_threads.
Proof.
  assert (HT : forall t th, threads (kernel two_threads) !! t = Some th ->
    th = thread0 RT_THREAD_RUNNING 10 \/ th = thread0 RT_THREAD_READY 5).
  { intros t th Ht.
    change ((<[2%positive := thread0 RT_THREAD_READY 5]> (<[1%positive := thread0 RT_THREAD_RUNNING 10]>
      {[2%positive := thread0 RT_THREAD_SUSPEND 5]}) : gmap tid rt_thread) !! t = Some th) in Ht.
    apply lookup_insert_Some in Ht as [[_ <-]|[Hne Ht]]; [by right|].
    apply lookup_insert_Some in Ht as [[_ <-]|[_ [<- _]%lookup_singleton_Some]]; [by left|done]. }
  split.
  - split.
    + eapply kok_ext; [apply kstate_ready_kok|done..].
    + exists 1%positive, (thread0 RT_THREAD_RUNNING 10). by vm_compute.
    + done.
    + done.
    + split; [by vm_compute| |by exists (thread0 RT_THREAD_READY 5); vm_compute; split; [|left]].
      intros t th [->| ->]%HT; by vm_compute.
    + intros x [v Hx]. change (({[1%positive := RtSem 0]} : gmap positive rt_semaphore) !! x = Some v) in Hx.
      apply lookup_singleton_Some in Hx as [<- _].
      exists (SemSpec 0 []), (header RT_Object_Class_Semaphore 0). split; [split; [by eexists|done]|].
      split; [by vm_compute|done].
    + split; [split; constructor|constructor].
    + intros t o Ho. assert (o_flag o = 0) as ->; [|done].
      change (objects0 !! timer_ref (thread_timer t) = Some o) in Ho. unfold objects0 in Ho.
      repeat (apply lookup_insert_Some in Ho as [[Ek <-]|[_ Ho]]; [first [done | discriminate Ek]|]).
      apply lookup_singleton_Some in Ho as [Ek _]. discriminate Ek.
  - intros t Ht Hc. unfold two_ids in Ht. rewrite elem_of_union, !elem_of_singleton in Ht.
    destruct Ht as [->| ->]; [by destruct Hc|by eexists].
  - intros t k Hk s HS Hc.
    change (({[2%positive := fun s => Done 0 s]} : gmap tid (kstate -> outcome kstate Z)) !! t = Some k) in Hk.
    apply lookup_singleton_Some in Hk as [<- <-]. by exists 0, s.
Qed.

(** Thread 1 waits for the semaphore for at most 7 ticks, and a tick passes. *)
Lemma system_safe_witness :
  exists m1 m2, step 2 two_threads m1 /\ step 2 m1 m2 /\ machine_ok two_ids 2 m2.
Proof.
  destruct (system_safe two_ids 2 two_threads two_threads two_threads_ok (rtc_refl _ _))
    as (_ & me & Hc & Hcall & _).
  assert (me = 1%positive) as -> by (by injection Hc).
  destruct (Hcall (CTake 1 7)) as (m1 & H1 & _).
  { split; [by eexists|]. split; [done|]. intros [=]. }
  destruct (system_safe two_ids 2 two_threads m1 two_threads_ok (rtc_once _ _ H1))
    as (_ & _ & _ & _ & m2 & H2 & Hm2 & _).
  exists m1, m2. split; [exact H1|]. split; [exact H2|exact Hm2].
Defined.
