(* ===== verification/RingBuffer.v ===== *)
(** Ring buffers of bytes: rt-thread/components/drivers/src/ringbuffer.c and
    include/ipc/ringbuffer.h. The operations run on the [rt_ringbuffer] alone,
    with the bytes at [buffer_ptr] in it; those that take memory from the heap
    run on the kernel. *)
From S2P Require Export Object.
Local Open Scope Z_scope.

Record rt_ringbuffer := RtRingbuffer {
  buffer_ptr : Z;
  read_mirror : Z;
  read_index : Z;
  write_mirror : Z;
  write_index : Z;
  buffer_size : Z;
  (** the memory at [buffer_ptr] *)
  rb_bytes : list Z
}.

Definition eta_ringbuffer r :=
  RtRingbuffer (buffer_ptr r) (read_mirror r) (read_index r) (write_mirror r) (write_index r) (buffer_size r) (rb_bytes r).
#[export] Instance F_read_mirror : Field read_mirror := ltac:(field_of eta_ringbuffer read_mirror).
#[export] Instance F_read_index : Field read_index := ltac:(field_of eta_ringbuffer read_index).
#[export] Instance F_write_mirror : Field write_mirror := ltac:(field_of eta_ringbuffer write_mirror).
#[export] Instance F_write_index : Field write_index := ltac:(field_of eta_ringbuffer write_index).
#[export] Instance F_rb_bytes : Field rb_bytes := ltac:(field_of eta_ringbuffer rb_bytes).

Inductive rt_ringbuffer_state := RT_RINGBUFFER_EMPTY | RT_RINGBUFFER_FULL | RT_RINGBUFFER_HALFFULL.

(** The operations. *)
Abbreviation RB := (prog rt_ringbuffer).

(** The bit fields: an index has 15 bits, a mirror has one. *)
Definition u15 : Z -> Z := wrap 15.
Definition flip_mirror (m : Z) : Z := wrap 1 (Z.lnot m).

(** [memcpy] of [n] bytes of [src] to the buffer at [off], and of [n] bytes of
    the buffer at [off]: undefined outside of either. *)
Definition splice (off : nat) (src b : list Z) : list Z := take off b ++ src ++ drop (off + length src) b.

Definition in_buffer (off n : Z) (rb : rt_ringbuffer) : bool :=
  (0 <=? off) && (0 <=? n) && (off + n <=? Z.of_nat (length (rb_bytes rb))).

Definition copy_in (off : Z) (src : list Z) (n : Z) : RB unit :=
  rb ← get;
  rt_assert (in_buffer off n rb && (n <=? Z.of_nat (length src)));;
  modify (fun rb => rb <| rb_bytes ::= splice (Z.to_nat off) (take (Z.to_nat n) src) |>).

Definition copy_out (off n : Z) : RB (list Z) :=
  rb ← get;
  rt_assert (in_buffer off n rb);;
  mret (take (Z.to_nat n) (drop (Z.to_nat off) (rb_bytes rb))).

Definition rt_ringbuffer_status (rb : rt_ringbuffer) : rt_ringbuffer_state :=
  if read_index rb =? write_index rb then
    if read_mirror rb =? write_mirror rb then RT_RINGBUFFER_EMPTY else RT_RINGBUFFER_FULL
  else RT_RINGBUFFER_HALFFULL.

Definition rt_ringbuffer_data_len (rb : rt_ringbuffer) : Z :=
  match rt_ringbuffer_status rb with
  | RT_RINGBUFFER_EMPTY => 0
  | RT_RINGBUFFER_FULL => u32 (buffer_size rb)
  | RT_RINGBUFFER_HALFFULL =>
      let wi := write_index rb in
      let ri := read_index rb in
      if ri <? wi then u32 (wi - ri) else u32 (buffer_size rb - (ri - wi))
  end.

Definition rt_ringbuffer_space_len (rb : rt_ringbuffer) : Z := u32 (buffer_size rb - rt_ringbuffer_data_len rb).
Definition rt_ringbuffer_get_size (rb : rt_ringbuffer) : Z := u16 (buffer_size rb).

(** [size] is of 16 bits with a sign; [bytes] is what the pool holds. *)
Definition rt_ringbuffer_init (pool : Z) (bytes : list Z) (size : Z) : RB unit :=
  rt_assert (0 <? size);;
  modify (fun _ => RtRingbuffer pool 0 0 0 0 (s16 (RT_ALIGN_DOWN size RT_ALIGN_SIZE)) bytes).

Definition rt_ringbuffer_reset : RB unit :=
  modify (fun rb => rb <| read_mirror := 0 |> <| read_index := 0 |> <| write_mirror := 0 |> <| write_index := 0 |>).

Definition rt_ringbuffer_put (ptr : list Z) (len : Z) : RB Z :=
  rb ← get;
  let size := u16 (rt_ringbuffer_space_len rb) in
  if size =? 0 then mret 0 else
  let len := if size <? len then size else len in
  let n := buffer_size rb - write_index rb in
  if len <? n then
    copy_in (write_index rb) ptr len;;
    modify (fun rb => rb <| write_index ::= (fun i => u15 (i + len)) |>);;
    mret len
  else
    copy_in (write_index rb) ptr n;;
    copy_in 0 (drop (Z.to_nat n) ptr) (len - n);;
    modify (fun rb => rb <| write_mirror ::= flip_mirror |> <| write_index := u15 (len - n) |>);;
    mret len.

Definition rt_ringbuffer_put_force (ptr : list Z) (len : Z) : RB Z :=
  rb ← get;
  let space_length := u16 (rt_ringbuffer_space_len rb) in
  let '(ptr, len) :=
    if buffer_size rb <? len then (drop (Z.to_nat (len - buffer_size rb)) ptr, u16 (buffer_size rb)) else (ptr, len) in
  let n := buffer_size rb - write_index rb in
  if len <? n then
    copy_in (write_index rb) ptr len;;
    modify (fun rb => rb <| write_index ::= (fun i => u15 (i + len)) |>);;
    (if space_length <? len then modify (fun rb => rb <| read_index := write_index rb |>) else mret tt);;
    mret len
  else
    copy_in (write_index rb) ptr n;;
    copy_in 0 (drop (Z.to_nat n) ptr) (len - n);;
    modify (fun rb => rb <| write_mirror ::= flip_mirror |> <| write_index := u15 (len - n) |>);;
    (if space_length <? len then
       rb ← get;
       (if write_index rb <=? read_index rb then modify (fun rb => rb <| read_mirror ::= flip_mirror |>) else mret tt);;
       modify (fun rb => rb <| read_index := write_index rb |>)
     else mret tt);;
    mret len.

(** The bytes that are written to [ptr], and the result. *)
Definition rt_ringbuffer_get (len : Z) : RB (list Z * Z) :=
  rb ← get;
  let size := rt_ringbuffer_data_len rb in
  if size =? 0 then mret ([], 0) else
  let len := if size <? len then u16 size else len in
  let n := buffer_size rb - read_index rb in
  if len <? n then
    d ← copy_out (read_index rb) len;
    modify (fun rb => rb <| read_index ::= (fun i => u15 (i + len)) |>);;
    mret (d, len)
  else
    d ← copy_out (read_index rb) n;
    d' ← copy_out 0 (len - n);
    modify (fun rb => rb <| read_mirror ::= flip_mirror |> <| read_index := u15 (len - n) |>);;
    mret (d ++ d', len).

(** The address that is written to [*ptr], [None] for [RT_NULL], and the result. *)
Definition rt_ringbuffer_peak : RB (option Z * Z) :=
  rb ← get;
  let size := rt_ringbuffer_data_len rb in
  if size =? 0 then mret (None, 0) else
  let ptr := Some (buffer_ptr rb + read_index rb) in
  let n := u32 (buffer_size rb - read_index rb) in
  if size <? n then
    modify (fun rb => rb <| read_index ::= (fun i => u15 (i + size)) |>);;
    mret (ptr, size)
  else
    modify (fun rb => rb <| read_mirror ::= flip_mirror |> <| read_index := 0 |>);;
    mret (ptr, n).

Definition rt_ringbuffer_putchar (ch : Z) : RB Z :=
  rb ← get;
  if rt_ringbuffer_space_len rb =? 0 then mret 0 else
  copy_in (write_index rb) [ch] 1;;
  (if write_index rb =? buffer_size rb - 1 then
     modify (fun rb => rb <| write_mirror ::= flip_mirror |> <| write_index := 0 |>)
   else modify (fun rb => rb <| write_index ::= (fun i => u15 (i + 1)) |>));;
  mret 1.

Definition rt_ringbuffer_putchar_force (ch : Z) : RB Z :=
  rb ← get;
  let full := match rt_ringbuffer_status rb with RT_RINGBUFFER_FULL => true | _ => false end in
  copy_in (write_index rb) [ch] 1;;
  (if write_index rb =? buffer_size rb - 1 then
     modify (fun rb => rb <| write_mirror ::= flip_mirror |> <| write_index := 0 |>);;
     if full then modify (fun rb => rb <| read_mirror ::= flip_mirror |> <| read_index := write_index rb |>) else mret tt
   else
     modify (fun rb => rb <| write_index ::= (fun i => u15 (i + 1)) |>);;
     if full then modify (fun rb => rb <| read_index := write_index rb |>) else mret tt);;
  mret 1.

Definition rt_ringbuffer_getchar : RB (option Z * Z) :=
  rb ← get;
  if rt_ringbuffer_data_len rb =? 0 then mret (None, 0) else
  d ← copy_out (read_index rb) 1;
  (if read_index rb =? buffer_size rb - 1 then
     modify (fun rb => rb <| read_mirror ::= flip_mirror |> <| read_index := 0 |>)
   else modify (fun rb => rb <| read_index ::= (fun i => u15 (i + 1)) |>));;
  mret (head d, 1).

(** ** Ring buffers on the heap

    [bytes] and [raw] are what the memory of the heap holds before. *)
Definition SIZEOF_RINGBUFFER : Z := 12.

Section Heap.
Context `{!HeapOps} (bytes : Z -> list Z) (raw : Z -> rt_ringbuffer).

Definition rt_ringbuffer_create (size : Z) : K (option (Z * rt_ringbuffer)) :=
  rt_assert (0 <? size);;
  let size := u16 (RT_ALIGN_DOWN size RT_ALIGN_SIZE) in
  rb ← heap_malloc SIZEOF_RINGBUFFER;
  match rb with
  | None => mret None
  | Some rb =>
      pool ← heap_malloc size;
      match pool with
      | None => heap_free rb;; mret None
      | Some pool =>
          match rt_ringbuffer_init pool (bytes pool) (s16 size) (raw rb) with
          | Done _ x => mret (Some (rb, x))
          | _ => fault
          end
      end
  end.

Definition rt_ringbuffer_destroy (a : Z) (rb : rt_ringbuffer) : K unit :=
  heap_free (buffer_ptr rb);; heap_free a.
End Heap.
