(* ===== verification/RingBufferThm.v ===== *)
(** The ring buffer is a bounded queue of bytes. *)
From S2P Require Export RingBuffer HeapImpl.
Local Open Scope Z_scope.

(** ** The queue in the buffer *)

(** An index that has gone [k] steps from the start, [k < 2 * n], and the mirror
    it is then in. *)
Definition circ (n k : Z) : Z := if k <? n then k else k - n.
Definition mirror (n m k : Z) : Z := if k <? n then m else 1 - m.

Lemma circ_lt n k : k < n -> circ n k = k.
Proof. intros. unfold circ. by rewrite (proj2 (Z.ltb_lt _ _)). Qed.
Lemma circ_ge n k : n <= k -> circ n k = k - n.
Proof. intros. unfold circ. by rewrite (proj2 (Z.ltb_ge _ _)). Qed.
Lemma mirror_lt n m k : k < n -> mirror n m k = m.
Proof. intros. unfold mirror. by rewrite (proj2 (Z.ltb_lt _ _)). Qed.
Lemma mirror_ge n m k : n <= k -> mirror n m k = 1 - m.
Proof. intros. unfold mirror. by rewrite (proj2 (Z.ltb_ge _ _)). Qed.

(** Case analysis on where the indexes are, the inner ones first. *)
Ltac circ_case n k :=
  lazymatch k with context [circ _ _] => fail | _ => idtac end;
  lazymatch goal with
  | H : k < n |- _ => rewrite ?(circ_lt n k), ?(mirror_lt n _ k) in * by exact H
  | H : n <= k |- _ => rewrite ?(circ_ge n k), ?(mirror_ge n _ k) in * by exact H
  | _ => destruct (Z.lt_ge_cases k n)
  end.
Ltac circ_cases :=
  repeat match goal with
  | |- context [circ ?n ?k] => circ_case n k
  | |- context [mirror ?n _ ?k] => circ_case n k
  end.

(** [rb] holds the bytes [q], the oldest first. *)
Record ring (rb : rt_ringbuffer) (q : list Z) : Prop := {
  rg_size : 0 < buffer_size rb < 2 ^ 15;
  rg_bytes : Z.of_nat (length (rb_bytes rb)) = buffer_size rb;
  rg_read : 0 <= read_index rb < buffer_size rb;
  rg_mirror : read_mirror rb = 0 \/ read_mirror rb = 1;
  rg_len : Z.of_nat (length q) <= buffer_size rb;
  rg_write : write_index rb = circ (buffer_size rb) (read_index rb + Z.of_nat (length q));
  rg_wmirror : write_mirror rb = mirror (buffer_size rb) (read_mirror rb) (read_index rb + Z.of_nat (length q));
  rg_data i : (i < length q)%nat ->
    rb_bytes rb !! Z.to_nat (circ (buffer_size rb) (read_index rb + Z.of_nat i)) = q !! i }.

(** Reading [k] bytes, and writing [d]. *)
Definition rb_skip (k : nat) (rb : rt_ringbuffer) : rt_ringbuffer :=
  let i := read_index rb + Z.of_nat k in
  rb <| read_index := circ (buffer_size rb) i |> <| read_mirror := mirror (buffer_size rb) (read_mirror rb) i |>.

Definition rb_write (d : list Z) (rb : rt_ringbuffer) : rt_ringbuffer :=
  let w := write_index rb in
  let n := Z.to_nat (buffer_size rb - w) in
  let i := w + Z.of_nat (length d) in
  rb <| rb_bytes ::= (fun b => if i <? buffer_size rb then splice (Z.to_nat w) d b
                               else splice 0 (drop n d) (splice (Z.to_nat w) (take n d) b)) |>
     <| write_index := circ (buffer_size rb) i |> <| write_mirror := mirror (buffer_size rb) (write_mirror rb) i |>.

Lemma splice_length off src b : (off + length src <= length b)%nat -> length (splice off src b) = length b.
Proof. intros. unfold splice. rewrite !length_app, length_take, length_drop. lia. Qed.

Lemma splice_lookup off src b i :
  (off + length src <= length b)%nat ->
  splice off src b !! i = if decide (off <= i < off + length src)%nat then src !! (i - off)%nat else b !! i.
Proof.
  intros Hb. unfold splice. assert (Ht : length (take off b) = off) by (rewrite length_take; lia).
  destruct (decide (i < off)%nat) as [Hi|Hi].
  - rewrite lookup_app_l, lookup_take_lt, decide_False by lia. done.
  - rewrite lookup_app_r, Ht by lia. case_decide as Hj; [by rewrite lookup_app_l by lia|].
    rewrite lookup_app_r, lookup_drop by lia. f_equal. lia.
Qed.

(** The buffer after a write, index by index. *)
Lemma rb_write_lookup rb d j :
  Z.of_nat (length (rb_bytes rb)) = buffer_size rb -> 0 <= write_index rb < buffer_size rb ->
  Z.of_nat (length d) <= buffer_size rb -> 0 <= j < buffer_size rb ->
  rb_bytes (rb_write d rb) !! Z.to_nat j =
  if (write_index rb <=? j) && (j <? write_index rb + Z.of_nat (length d)) then d !! Z.to_nat (j - write_index rb)
  else if j + buffer_size rb <? write_index rb + Z.of_nat (length d) then d !! Z.to_nat (j + buffer_size rb - write_index rb)
  else rb_bytes rb !! Z.to_nat j.
Proof.
  intros Hb Hw Hd Hj. unfold rb_write. cbn. set (n := Z.to_nat (buffer_size rb - write_index rb)).
  destruct (write_index rb + Z.of_nat (length d) <? buffer_size rb) eqn:Hi.
  - rewrite splice_lookup by lia. case_decide as Hc.
    + rewrite (proj2 (andb_true_iff _ _)) by lia. f_equal. lia.
    + rewrite (proj2 (andb_false_iff _ _)) by lia. by rewrite (proj2 (Z.ltb_ge _ _)) by lia.
  - assert (Hs : length (splice (Z.to_nat (write_index rb)) (take n d) (rb_bytes rb)) = length (rb_bytes rb))
      by (apply splice_length; rewrite length_take; lia).
    rewrite splice_lookup by (rewrite Hs, length_drop; lia). rewrite length_drop. case_decide as Hc.
    + rewrite lookup_drop, (proj2 (andb_false_iff _ _)), (proj2 (Z.ltb_lt _ _)) by lia. f_equal. lia.
    + rewrite splice_lookup by (rewrite length_take; lia). rewrite length_take. case_decide as Hc'.
      * rewrite lookup_take_lt, (proj2 (andb_true_iff _ _)) by lia. f_equal. lia.
      * rewrite (proj2 (andb_false_iff _ _)), (proj2 (Z.ltb_ge _ _)) by lia. done.
Qed.

Lemma rb_write_bytes rb d :
  Z.of_nat (length (rb_bytes rb)) = buffer_size rb -> 0 <= write_index rb < buffer_size rb ->
  Z.of_nat (length d) <= buffer_size rb -> length (rb_bytes (rb_write d rb)) = length (rb_bytes rb).
Proof.
  intros Hb Hw Hd. unfold rb_write. cbn. set (n := Z.to_nat (buffer_size rb - write_index rb)).
  destruct (_ <? _) eqn:Hi; [apply splice_length; lia|].
  assert (Hs : length (splice (Z.to_nat (write_index rb)) (take n d) (rb_bytes rb)) = length (rb_bytes rb))
    by (apply splice_length; rewrite length_take; lia).
  rewrite splice_length; [done|]. rewrite Hs, length_drop. lia.
Qed.

Lemma ring_write_range rb q : ring rb q -> 0 <= write_index rb < buffer_size rb.
Proof. intros [H1 H2 H3 H4 H5 H6 H7 H8]. rewrite H6. circ_cases; lia. Qed.

Lemma ring_skip rb q k : ring rb q -> (k <= length q)%nat -> ring (rb_skip k rb) (drop k q).
Proof.
  intros [H1 H2 H3 H4 H5 H6 H7 H8] Hk. unfold rb_skip. split; cbn; rewrite ?length_drop; try done.
  - circ_cases; lia.
  - circ_cases; lia.
  - lia.
  - rewrite H6. circ_cases; lia.
  - rewrite H7. circ_cases; lia.
  - intros i Hi. rewrite lookup_drop, <- H8 by lia. f_equal. f_equal. circ_cases; lia.
Qed.

Lemma ring_write rb q d :
  ring rb q -> Z.of_nat (length q + length d) <= buffer_size rb -> ring (rb_write d rb) (q ++ d).
Proof.
  intros HR Hd. pose proof (ring_write_range rb q HR) as Hw. destruct HR as [H1 H2 H3 H4 H5 H6 H7 H8].
  split.
  - done.
  - rewrite rb_write_bytes by (done || lia). done.
  - done.
  - done.
  - rewrite length_app. change (buffer_size (rb_write d rb)) with (buffer_size rb). lia.
  - cbn. rewrite length_app, H6. circ_cases; lia.
  - cbn. rewrite length_app, H7, H6. circ_cases; lia.
  - intros i. rewrite length_app. intros Hi. change (buffer_size (rb_write d rb)) with (buffer_size rb).
    change (read_index (rb_write d rb)) with (read_index rb).
    rewrite rb_write_lookup; [|done|done|lia|circ_cases; lia].
    destruct (decide (i < length q)%nat) as [Hq|Hq].
    + rewrite lookup_app_l, <- H8 by lia. clear H8. revert Hw. rewrite H6. circ_cases; intros Hw;
        (rewrite (proj2 (andb_false_iff _ _)) by lia); by rewrite (proj2 (Z.ltb_ge _ _)) by lia.
    + rewrite lookup_app_r by lia. clear H8. revert Hw. rewrite H6. circ_cases; intros Hw;
        match goal with |- context [andb ?a ?b] => destruct (andb a b) eqn:Hab end;
        [f_equal; lia|rewrite ?(proj2 (Z.ltb_lt _ _)) by lia; first [lia|f_equal; lia]..].
Qed.

(** ** What the operations compute *)
Lemma u15_small x : 0 <= x < 2 ^ 15 -> u15 x = x.
Proof. intros. unfold u15, wrap. by apply Z.mod_small. Qed.
Lemma flip_eq m : m = 0 \/ m = 1 -> flip_mirror m = 1 - m.
Proof. by intros [-> | ->]. Qed.

Lemma data_len_eq rb q : ring rb q -> rt_ringbuffer_data_len rb = Z.of_nat (length q).
Proof.
  intros [H1 H2 H3 H4 H5 H6 H7 _]. unfold rt_ringbuffer_data_len, rt_ringbuffer_status. rewrite H7, H6. circ_cases.
  - destruct (_ =? _) eqn:E1; [rewrite Z.eqb_refl; lia|]. rewrite (proj2 (Z.ltb_lt _ _)), u32_small by lia. lia.
  - destruct (_ =? _) eqn:E1.
    + rewrite (proj2 (Z.eqb_neq _ _)), u32_small by lia. lia.
    + rewrite (proj2 (Z.ltb_ge _ _)), u32_small by lia. lia.
Qed.

Lemma space_len_eq rb q : ring rb q -> rt_ringbuffer_space_len rb = buffer_size rb - Z.of_nat (length q).
Proof.
  intros HR. unfold rt_ringbuffer_space_len. rewrite (data_len_eq rb q HR). destruct HR. rewrite u32_small by lia. lia.
Qed.

Lemma status_full rb q :
  ring rb q -> match rt_ringbuffer_status rb with RT_RINGBUFFER_FULL => true | _ => false end =
    (Z.of_nat (length q) =? buffer_size rb).
Proof.
  intros [H1 H2 H3 H4 H5 H6 H7 _]. unfold rt_ringbuffer_status. rewrite H7, H6. circ_cases.
  - destruct (_ =? _) eqn:E1 in |- *; rewrite ?Z.eqb_refl; lia.
  - destruct (read_index rb =? _) eqn:E1; [|lia]. rewrite (proj2 (Z.eqb_neq _ _)) by lia. lia.
Qed.

(** The copies stay inside of the buffer. *)
Lemma copy_in_eq rb off src n :
  0 <= off -> 0 <= n <= Z.of_nat (length src) -> off + n <= Z.of_nat (length (rb_bytes rb)) ->
  copy_in off src n rb = Done tt (rb <| rb_bytes ::= splice (Z.to_nat off) (take (Z.to_nat n) src) |>).
Proof.
  intros. assert (E : in_buffer off n rb && (n <=? Z.of_nat (length src)) = true) by (unfold in_buffer; lia).
  unfold copy_in. erewrite bind_done by reflexivity. by rewrite E.
Qed.

Lemma copy_out_eq rb off n :
  0 <= off -> 0 <= n -> off + n <= Z.of_nat (length (rb_bytes rb)) ->
  copy_out off n rb = Done (take (Z.to_nat n) (drop (Z.to_nat off) (rb_bytes rb))) rb.
Proof.
  intros. assert (E : in_buffer off n rb = true) by (unfold in_buffer; lia).
  unfold copy_out. erewrite bind_done by reflexivity. by rewrite E.
Qed.

(** Writing [len] bytes of [ptr], with a wrap or without, before [k1] or [k2]. *)
Lemma write_eq {A} rb q ptr len (k1 k2 : RB A) :
  ring rb q -> 0 <= len <= Z.of_nat (length ptr) -> len <= buffer_size rb ->
  let n := buffer_size rb - write_index rb in
  (if len <? n then
     copy_in (write_index rb) ptr len;; modify (fun rb => rb <| write_index ::= (fun i => u15 (i + len)) |>);; k1
   else
     copy_in (write_index rb) ptr n;; copy_in 0 (drop (Z.to_nat n) ptr) (len - n);;
     modify (fun rb => rb <| write_mirror ::= flip_mirror |> <| write_index := u15 (len - n) |>);; k2) rb =
  (if len <? n then k1 else k2) (rb_write (take (Z.to_nat len) ptr) rb).
Proof.
  intros HR Hl Hs. pose proof (ring_write_range rb q HR) as Hw. destruct HR as [H1 H2 H3 H4 H5 H6 H7 _].
  set (d := take (Z.to_nat len) ptr). assert (Hd : Z.of_nat (length d) = len) by (unfold d; rewrite length_take; lia).
  intros n. unfold rb_write. cbv zeta. rewrite Hd. fold n. destruct (Z.lt_ge_cases len n) as [Hn|Hn].
  - rewrite (proj2 (Z.ltb_lt len n)) by lia. cbv iota. erewrite bind_done by (apply copy_in_eq; lia).
    erewrite bind_done by reflexivity. f_equal. rewrite circ_lt, mirror_lt, (proj2 (Z.ltb_lt (write_index rb + len) _)) by lia.
    unfold upd, F_rb_bytes, F_write_index, F_write_mirror. cbn. by rewrite u15_small by lia.
  - rewrite (proj2 (Z.ltb_ge len n)) by lia. cbv iota. erewrite bind_done by (apply copy_in_eq; lia).
    erewrite bind_done.
    2:{ apply copy_in_eq; [lia|rewrite length_drop; lia|]. unfold upd, F_rb_bytes. cbn.
        rewrite splice_length; [lia|]. rewrite length_take. lia. }
    erewrite bind_done by reflexivity. f_equal. rewrite circ_ge, mirror_ge, (proj2 (Z.ltb_ge (write_index rb + len) _)) by lia.
    assert (Hm : write_mirror rb = 0 \/ write_mirror rb = 1) by (rewrite H7; unfold mirror; destruct (_ <? _); lia).
    assert (E1 : take (Z.to_nat n) d = take (Z.to_nat n) ptr) by (unfold d; rewrite take_take; f_equal; lia).
    assert (E2 : drop (Z.to_nat n) d = take (Z.to_nat (len - n)) (drop (Z.to_nat n) ptr)).
    { unfold d. rewrite take_drop_commute. do 2 f_equal. lia. }
    unfold upd, F_rb_bytes, F_write_index, F_write_mirror. cbn. rewrite flip_eq, u15_small by (done || lia).
    rewrite E1, E2. f_equal. lia.
Qed.

(** The bytes at the read index are those of the queue. *)
Lemma ring_slice rb q k n :
  ring rb q -> (k + n <= length q)%nat ->
  let i := read_index rb + Z.of_nat k in
  (i < buffer_size rb -> i + Z.of_nat n <= buffer_size rb ->
   take n (drop (Z.to_nat i) (rb_bytes rb)) = take n (drop k q)) /\
  (buffer_size rb <= i -> take n (drop (Z.to_nat (i - buffer_size rb)) (rb_bytes rb)) = take n (drop k q)).
Proof.
  intros [H1 H2 H3 H4 H5 H6 H7 H8] Hk i.
  split; [intros Hi Hn|intros Hi]; apply list_eq; intros j; rewrite !lookup_take; (case_decide as Hj; [|done]);
    rewrite !lookup_drop, <- H8 by lia; f_equal; circ_cases; lia.
Qed.

Lemma get_eq rb q len :
  ring rb q -> 0 <= len < 2 ^ 16 ->
  let n := Nat.min (Z.to_nat len) (length q) in
  rt_ringbuffer_get len rb = Done (take n q, Z.of_nat n) (rb_skip n rb).
Proof.
  intros HR Hl n. pose proof HR as [H1 H2 H3 H4 H5 H6 H7 _]. unfold rt_ringbuffer_get.
  erewrite bind_done by reflexivity. rewrite (data_len_eq rb q HR). cbv zeta.
  destruct (Z.of_nat (length q) =? 0) eqn:E0.
  { assert (n = 0%nat) as -> by lia. unfold rb_skip, mret, prog_ret. rewrite circ_lt, mirror_lt by lia.
    destruct rb. unfold upd, F_read_index, F_read_mirror. cbn. do 2 f_equal. lia. }
  assert (Hlen : (if Z.of_nat (length q) <? len then u16 (Z.of_nat (length q)) else len) = Z.of_nat n)
    by (rewrite u16_small by lia; destruct (_ <? _) eqn:?; lia).
  rewrite Hlen. set (m := buffer_size rb - read_index rb). unfold rb_skip. cbv zeta.
  destruct (Z.lt_ge_cases (Z.of_nat n) m) as [Hn|Hn].
  - rewrite (proj2 (Z.ltb_lt (Z.of_nat n) m)) by lia. erewrite bind_done by (apply copy_out_eq; lia).
    erewrite bind_done by reflexivity. unfold mret, prog_ret. rewrite circ_lt, mirror_lt by lia. f_equal.
    + f_equal. rewrite Nat2Z.id. destruct (ring_slice rb q 0 n HR ltac:(lia)) as [E _]. rewrite Z.add_0_r, drop_0 in E. apply E; lia.
    + destruct rb. unfold upd, F_read_index, F_read_mirror. cbn in *. by rewrite u15_small by lia.
  - rewrite (proj2 (Z.ltb_ge (Z.of_nat n) m)) by lia. erewrite bind_done by (apply copy_out_eq; lia).
    erewrite bind_done by (apply copy_out_eq; lia).
    erewrite bind_done by reflexivity. unfold mret, prog_ret. rewrite circ_ge, mirror_ge by lia. f_equal.
    + f_equal. set (m' := Z.to_nat m).
      destruct (ring_slice rb q 0 m' HR ltac:(lia)) as [E _]. rewrite Z.add_0_r, drop_0 in E. rewrite E by lia.
      destruct (ring_slice rb q m' (n - m') HR ltac:(lia)) as [_ E']. replace (Z.to_nat (Z.of_nat n - m)) with (n - m')%nat by lia.
      replace (Z.to_nat 0) with (Z.to_nat (read_index rb + Z.of_nat m' - buffer_size rb)) by lia. rewrite E' by lia.
      rewrite <- (take_drop m' (take n q)), take_take, <- skipn_firstn_comm. f_equal; f_equal; lia.
    + unfold upd, F_read_index, F_read_mirror. cbn. rewrite flip_eq, u15_small by (done || lia). f_equal. lia.
Qed.

Lemma rb_write_nil rb q : ring rb q -> rb_write [] rb = rb.
Proof.
  intros HR. pose proof (ring_write_range rb q HR). unfold rb_write. cbv zeta. cbn [length].
  rewrite circ_lt, mirror_lt, (proj2 (Z.ltb_lt _ _)) by lia. destruct rb.
  unfold upd, F_rb_bytes, F_write_index, F_write_mirror. cbn. unfold splice. rewrite Nat.add_0_r, app_nil_l, take_drop. f_equal. lia.
Qed.

Lemma rb_skip_0 rb q : ring rb q -> rb_skip 0 rb = rb.
Proof.
  intros []. unfold rb_skip. rewrite circ_lt, mirror_lt by lia. destruct rb.
  unfold upd, F_read_index, F_read_mirror. cbn. f_equal. lia.
Qed.

Lemma put_eq rb q ptr len :
  ring rb q -> 0 <= len <= Z.of_nat (length ptr) -> len < 2 ^ 16 ->
  let n := Z.min len (buffer_size rb - Z.of_nat (length q)) in
  rt_ringbuffer_put ptr len rb = Done n (rb_write (take (Z.to_nat n) ptr) rb).
Proof.
  intros HR Hl Hl' n. pose proof (rg_size _ _ HR) as Hs. pose proof (rg_len _ _ HR) as Hq. unfold rt_ringbuffer_put.
  erewrite bind_done by reflexivity. rewrite (space_len_eq rb q HR), u16_small by lia. cbv zeta.
  destruct (_ =? 0) eqn:E0.
  - assert (n = 0) as -> by lia. change (take (Z.to_nat 0) ptr) with (@nil Z). by rewrite (rb_write_nil rb q HR).
  - assert (Hn : (if buffer_size rb - Z.of_nat (length q) <? len then buffer_size rb - Z.of_nat (length q) else len) = n)
      by (destruct (_ <? _) eqn:?; lia).
    rewrite Hn. etrans; [apply (write_eq rb q ptr n (mret n) (mret n) HR); lia|]. by destruct (n <? buffer_size rb - write_index rb).
Qed.

Lemma putchar_eq rb q ch :
  ring rb q -> rt_ringbuffer_putchar ch rb =
    if Z.of_nat (length q) =? buffer_size rb then Done 0 rb else Done 1 (rb_write [ch] rb).
Proof.
  intros HR. pose proof (ring_write_range rb q HR) as Hw. pose proof HR as [H1 H2 H3 H4 H5 H6 H7 _].
  unfold rt_ringbuffer_putchar. erewrite bind_done by reflexivity. rewrite (space_len_eq rb q HR).
  destruct (Z.of_nat (length q) =? buffer_size rb) eqn:E; [by rewrite (proj2 (Z.eqb_eq _ _)) by lia|].
  rewrite (proj2 (Z.eqb_neq _ _)) by lia. erewrite bind_done by (apply copy_in_eq; cbn; lia).
  unfold rb_write. cbv zeta. cbn [length]. destruct (write_index rb =? buffer_size rb - 1) eqn:Ew.
  - erewrite bind_done by reflexivity. unfold mret, prog_ret. rewrite circ_ge, mirror_ge, (proj2 (Z.ltb_ge _ _)) by lia.
    assert (Hm : write_mirror rb = 0 \/ write_mirror rb = 1) by (rewrite H7; unfold mirror; destruct (_ <? _); lia).
    f_equal. unfold upd, F_rb_bytes, F_write_index, F_write_mirror. cbn. rewrite flip_eq by done.
    assert (Hn : Z.to_nat (buffer_size rb - write_index rb) = 1%nat) by lia. rewrite Hn. cbn. f_equal. lia.
  - erewrite bind_done by reflexivity. unfold mret, prog_ret. rewrite circ_lt, mirror_lt, (proj2 (Z.ltb_lt _ _)) by lia.
    f_equal. unfold upd, F_rb_bytes, F_write_index, F_write_mirror. cbn. by rewrite u15_small by lia.
Qed.

Lemma getchar_eq rb q :
  ring rb q -> rt_ringbuffer_getchar rb =
    match q with [] => Done (None, 0) rb | x :: _ => Done (Some x, 1) (rb_skip 1 rb) end.
Proof.
  intros HR. pose proof HR as [H1 H2 H3 H4 H5 H6 H7 H8]. unfold rt_ringbuffer_getchar.
  erewrite bind_done by reflexivity. rewrite (data_len_eq rb q HR). destruct q as [|x q]; [done|].
  rewrite (proj2 (Z.eqb_neq _ _)) by (cbn; lia). erewrite bind_done by (apply copy_out_eq; lia).
  destruct (ring_slice rb (x :: q) 0 1 HR) as [E _]; [cbn; lia|]. rewrite Z.add_0_r, drop_0 in E.
  change (Z.to_nat 1) with 1%nat. rewrite E by lia. unfold rb_skip. cbv zeta. destruct (read_index rb =? buffer_size rb - 1) eqn:Ew.
  - erewrite bind_done by reflexivity. unfold mret, prog_ret. rewrite circ_ge, mirror_ge by lia. f_equal.
    unfold upd, F_read_index, F_read_mirror. cbn. rewrite flip_eq by done. f_equal. lia.
  - erewrite bind_done by reflexivity. unfold mret, prog_ret. rewrite circ_lt, mirror_lt by lia. f_equal.
    destruct rb. unfold upd, F_read_index, F_read_mirror. cbn in *. by rewrite u15_small by lia.
Qed.

Lemma peak_eq rb q :
  ring rb q -> let k := Nat.min (length q) (Z.to_nat (buffer_size rb - read_index rb)) in
  rt_ringbuffer_peak rb =
    Done (if (k =? 0)%nat then None else Some (buffer_ptr rb + read_index rb), Z.of_nat k) (rb_skip k rb) /\
  take k (drop (Z.to_nat (read_index rb)) (rb_bytes rb)) = take k q.
Proof.
  intros HR k. pose proof HR as [H1 H2 H3 H4 H5 H6 H7 H8]. split.
  2:{ destruct (ring_slice rb q 0 k HR ltac:(lia)) as [E _]. rewrite Z.add_0_r, drop_0 in E. apply E; lia. }
  unfold rt_ringbuffer_peak. erewrite bind_done by reflexivity. rewrite (data_len_eq rb q HR). cbv zeta.
  destruct (Z.of_nat (length q) =? 0) eqn:E0.
  { assert (k = 0%nat) as -> by lia. by rewrite (rb_skip_0 rb q HR). }
  rewrite u32_small by lia. rewrite (proj2 (Nat.eqb_neq k 0)) by lia. unfold rb_skip. cbv zeta.
  destruct (Z.of_nat (length q) <? buffer_size rb - read_index rb) eqn:E.
  - assert (k = length q) as Hk by lia. erewrite bind_done by reflexivity. unfold mret, prog_ret.
    rewrite Hk, circ_lt, mirror_lt by lia. f_equal. destruct rb. unfold upd, F_read_index, F_read_mirror. cbn in *.
    by rewrite u15_small by lia.
  - erewrite bind_done by reflexivity. unfold mret, prog_ret. rewrite circ_ge, mirror_ge by lia.
    assert (Hk : Z.of_nat k = buffer_size rb - read_index rb) by lia. rewrite Hk. f_equal.
    unfold upd, F_read_index, F_read_mirror. cbn. rewrite flip_eq by done. f_equal. lia.
Qed.

(** The forced operations drop what there is no room for. *)
Definition overflow (rb : rt_ringbuffer) (q : list Z) (n : Z) : nat := Z.to_nat (Z.of_nat (length q) + n - buffer_size rb).

Lemma force_eq rb q n :
  ring rb q -> 0 <= n <= buffer_size rb -> buffer_size rb < Z.of_nat (length q) + n ->
  let i := circ (buffer_size rb) (write_index rb + n) in
  let j := read_index rb + Z.of_nat (overflow rb q n) in
  circ (buffer_size rb) j = i /\
  mirror (buffer_size rb) (read_mirror rb) j =
    (if i <=? read_index rb then if write_index rb + n <? buffer_size rb then read_mirror rb else 1 - read_mirror rb
     else read_mirror rb).
Proof.
  intros [H1 H2 H3 H4 H5 H6 H7 _] Hn Hk i j. unfold i, j, overflow. rewrite Z2Nat.id, H6 by lia. split.
  - circ_cases; lia.
  - circ_cases; (destruct (_ <=? _) eqn:E1; [destruct (_ <? _) eqn:E2|]; lia).
Qed.

(** Reading and writing do not meet. *)
Lemma write_skip d k rb : rb_write d (rb_skip k rb) = rb_skip k (rb_write d rb).
Proof. by destruct rb. Qed.

Lemma put_force_eq rb q ptr len :
  ring rb q -> 0 <= len <= Z.of_nat (length ptr) -> len < 2 ^ 16 ->
  let n := Z.min len (buffer_size rb) in
  rt_ringbuffer_put_force ptr len rb =
    Done n (rb_write (take (Z.to_nat n) (drop (Z.to_nat (len - n)) ptr)) (rb_skip (overflow rb q n) rb)).
Proof.
  intros HR Hl Hl' n. pose proof HR as [H1 H2 H3 H4 H5 H6 H7 _]. unfold rt_ringbuffer_put_force.
  erewrite bind_done by reflexivity. rewrite (space_len_eq rb q HR), (u16_small (buffer_size rb - _)) by lia. cbv zeta.
  assert (Hn : (if buffer_size rb <? len then (drop (Z.to_nat (len - buffer_size rb)) ptr, u16 (buffer_size rb)) else (ptr, len)) =
               (drop (Z.to_nat (len - n)) ptr, n)).
  { destruct (_ <? _) eqn:E.
    - assert (n = buffer_size rb) as -> by lia. by rewrite u16_small by lia.
    - assert (n = len) as -> by lia. by rewrite Z.sub_diag, drop_0. }
  rewrite Hn. set (src := drop _ ptr). assert (Hsrc : n <= Z.of_nat (length src)) by (unfold src; rewrite length_drop; lia).
  etrans; [apply (write_eq rb q src n _ _ HR); lia|]. set (d := take (Z.to_nat n) src). rewrite write_skip.
  destruct (buffer_size rb - Z.of_nat (length q) <? n) eqn:Hf.
  2:{ assert (overflow rb q n = 0%nat) as -> by (unfold overflow; lia).
      rewrite <- write_skip, (rb_skip_0 rb q HR). by destruct (n <? _). }
  assert (Hd : Z.of_nat (length d) = n) by (unfold d; rewrite length_take; lia).
  assert (Hw : write_index (rb_write d rb) = circ (buffer_size rb) (write_index rb + n)) by (rewrite <- Hd; done).
  pose proof (ring_write_range rb q HR) as Hwr.
  destruct (force_eq rb q n HR ltac:(lia) ltac:(lia)) as [Ei Em]. unfold rb_skip. cbv zeta.
  change (read_index (rb_write d rb)) with (read_index rb). change (read_mirror (rb_write d rb)) with (read_mirror rb).
  change (buffer_size (rb_write d rb)) with (buffer_size rb). rewrite Em, Ei, <- Hw.
  destruct (n <? buffer_size rb - write_index rb) eqn:Hn'.
  - erewrite bind_done by reflexivity. unfold mret, prog_ret. f_equal.
    rewrite (proj2 (Z.ltb_lt (write_index rb + n) _)) by lia.
    destruct (write_index _ <=? read_index rb); by destruct rb.
  - rewrite (proj2 (Z.ltb_ge (write_index rb + n) _)) by lia. rewrite <- flip_eq by done.
    erewrite bind_done; [done|]. erewrite bind_done by reflexivity.
    change (read_index (rb_write d rb)) with (read_index rb).
    destruct (write_index _ <=? read_index rb); erewrite bind_done by reflexivity; by destruct rb.
Qed.

Lemma putchar_force_eq rb q ch :
  ring rb q -> rt_ringbuffer_putchar_force ch rb = Done 1 (rb_write [ch] (rb_skip (overflow rb q 1) rb)).
Proof.
  intros HR. pose proof (ring_write_range rb q HR) as Hw. pose proof HR as [H1 H2 H3 H4 H5 H6 H7 _].
  unfold rt_ringbuffer_putchar_force. erewrite bind_done by reflexivity. rewrite (status_full rb q HR). cbv zeta.
  erewrite bind_done by (apply copy_in_eq; cbn; lia). unfold rb_write. cbv zeta. cbn [length].
  change (write_index (rb_skip (overflow rb q 1) rb)) with (write_index rb).
  change (write_mirror (rb_skip (overflow rb q 1) rb)) with (write_mirror rb).
  change (buffer_size (rb_skip (overflow rb q 1) rb)) with (buffer_size rb).
  assert (Hm : write_mirror rb = 0 \/ write_mirror rb = 1) by (rewrite H7; unfold mirror; destruct (_ <? _); lia).
  assert (Hn : Z.to_nat (buffer_size rb - write_index rb) = S (Z.to_nat (buffer_size rb - 1 - write_index rb))) by lia.
  destruct (Z.of_nat (length q) =? buffer_size rb) eqn:Hf.
  - assert (Ew : write_index rb = read_index rb) by (rewrite H6; circ_cases; lia).
    unfold rb_skip. cbv zeta. replace (overflow rb q 1) with 1%nat by (unfold overflow; lia). change (Z.of_nat 1) with 1. rewrite <- Ew.
    destruct (write_index rb =? buffer_size rb - 1) eqn:Ei.
    + erewrite bind_done by (erewrite bind_done by reflexivity; reflexivity). unfold mret, prog_ret. f_equal.
      rewrite !circ_ge, !mirror_ge, (proj2 (Z.ltb_ge _ _)), Hn by lia. replace (Z.to_nat (buffer_size rb - 1 - write_index rb)) with 0%nat by lia.
      unfold upd, F_rb_bytes, F_write_index, F_write_mirror, F_read_index, F_read_mirror. cbn. rewrite !flip_eq by done. f_equal; lia.
    + erewrite bind_done by (erewrite bind_done by reflexivity; reflexivity). unfold mret, prog_ret. f_equal.
      rewrite !circ_lt, !mirror_lt, (proj2 (Z.ltb_lt _ _)) by lia.
      unfold upd, F_rb_bytes, F_write_index, F_write_mirror, F_read_index, F_read_mirror. cbn. by rewrite !u15_small by lia.
  - assert (overflow rb q 1 = 0%nat) as -> by (unfold overflow; lia). rewrite (rb_skip_0 rb q HR).
    destruct (write_index rb =? buffer_size rb - 1) eqn:Ei.
    + erewrite bind_done by (erewrite bind_done by reflexivity; reflexivity). unfold mret, prog_ret. f_equal.
      rewrite !circ_ge, !mirror_ge, (proj2 (Z.ltb_ge _ _)), Hn by lia. replace (Z.to_nat (buffer_size rb - 1 - write_index rb)) with 0%nat by lia.
      unfold upd, F_rb_bytes, F_write_index, F_write_mirror. cbn. rewrite !flip_eq by done. f_equal; lia.
    + erewrite bind_done by (erewrite bind_done by reflexivity; reflexivity). unfold mret, prog_ret. f_equal.
      rewrite !circ_lt, !mirror_lt, (proj2 (Z.ltb_lt _ _)) by lia.
      unfold upd, F_rb_bytes, F_write_index, F_write_mirror. cbn. by rewrite !u15_small by lia.
Qed.

(** ** The specification: a bounded queue of bytes *)
Inductive rb_op :=
| OpPut (d : list Z) | OpPutForce (d : list Z) | OpGet (len : Z) | OpPeak
| OpPutchar (ch : Z) | OpPutcharForce (ch : Z) | OpGetchar | OpReset | OpDataLen | OpSpaceLen.

(** What the caller gets: a count; bytes with it, [None] for no address. *)
Inductive rb_res := RCount (n : Z) | RBytes (d : option (list Z)) (n : Z).

(** The caller reads [n] bytes at the address that [rt_ringbuffer_peak] returns. *)
Definition run_op (o : rb_op) : RB rb_res :=
  match o with
  | OpPut d => n ← rt_ringbuffer_put d (Z.of_nat (length d)); mret (RCount n)
  | OpPutForce d => n ← rt_ringbuffer_put_force d (Z.of_nat (length d)); mret (RCount n)
  | OpGet len => x ← rt_ringbuffer_get len; mret (RBytes (Some x.1) x.2)
  | OpPeak => x ← rt_ringbuffer_peak; rb ← get;
      mret (RBytes ((fun a => take (Z.to_nat x.2) (drop (Z.to_nat (a - buffer_ptr rb)) (rb_bytes rb))) <$> x.1) x.2)
  | OpPutchar ch => n ← rt_ringbuffer_putchar ch; mret (RCount n)
  | OpPutcharForce ch => n ← rt_ringbuffer_putchar_force ch; mret (RCount n)
  | OpGetchar => x ← rt_ringbuffer_getchar; mret (RBytes ((fun c => [c]) <$> x.1) x.2)
  | OpReset => rt_ringbuffer_reset;; mret (RCount 0)
  | OpDataLen => n ← gets rt_ringbuffer_data_len; mret (RCount n)
  | OpSpaceLen => n ← gets rt_ringbuffer_space_len; mret (RCount n)
  end.

(** The arguments are of the types that the code declares. *)
Definition op_ok (o : rb_op) : Prop :=
  match o with
  | OpPut d | OpPutForce d => Z.of_nat (length d) < 2 ^ 16
  | OpGet len => 0 <= len < 2 ^ 16
  | _ => True
  end.

(** The last [cap] bytes of [q]. *)
Definition newest (cap : nat) (q : list Z) : list Z := drop (length q - cap) q.

Inductive queue_op (cap : nat) (q : list Z) : rb_op -> rb_res -> list Z -> Prop :=
| q_put d : let n := Nat.min (length d) (cap - length q) in
    queue_op cap q (OpPut d) (RCount (Z.of_nat n)) (q ++ take n d)
| q_put_force d :
    queue_op cap q (OpPutForce d) (RCount (Z.of_nat (Nat.min (length d) cap))) (newest cap (q ++ d))
| q_get len : let n := Nat.min (Z.to_nat len) (length q) in
    queue_op cap q (OpGet len) (RBytes (Some (take n q)) (Z.of_nat n)) (drop n q)
| q_peak_empty : q = [] -> queue_op cap q OpPeak (RBytes None 0) []
| q_peak n : (0 < n <= length q)%nat -> queue_op cap q OpPeak (RBytes (Some (take n q)) (Z.of_nat n)) (drop n q)
| q_putchar ch : (length q < cap)%nat -> queue_op cap q (OpPutchar ch) (RCount 1) (q ++ [ch])
| q_putchar_full ch : length q = cap -> queue_op cap q (OpPutchar ch) (RCount 0) q
| q_putchar_force ch : queue_op cap q (OpPutcharForce ch) (RCount 1) (newest cap (q ++ [ch]))
| q_getchar_empty : q = [] -> queue_op cap q OpGetchar (RBytes None 0) []
| q_getchar ch q' : q = ch :: q' -> queue_op cap q OpGetchar (RBytes (Some [ch]) 1) q'
| q_reset : queue_op cap q OpReset (RCount 0) []
| q_data_len : queue_op cap q OpDataLen (RCount (Z.of_nat (length q))) q
| q_space_len : queue_op cap q OpSpaceLen (RCount (Z.of_nat (cap - length q))) q.

(** Any sequence of operations. *)
Fixpoint run_ops (os : list rb_op) : RB (list rb_res) :=
  match os with
  | [] => mret []
  | o :: os => r ← run_op o; rs ← run_ops os; mret (r :: rs)
  end.

Inductive queue_run (cap : nat) (q : list Z) : list rb_op -> list rb_res -> list Z -> Prop :=
| qr_nil : queue_run cap q [] [] q
| qr_cons o os r rs q1 q2 :
    queue_op cap q o r q1 -> queue_run cap q1 os rs q2 -> queue_run cap q (o :: os) (r :: rs) q2.

Lemma newest_force rb q n src :
  0 <= buffer_size rb -> n = Nat.min (length src) (Z.to_nat (buffer_size rb)) ->
  newest (Z.to_nat (buffer_size rb)) (q ++ src) = drop (overflow rb q (Z.of_nat n)) q ++ drop (length src - n) src.
Proof.
  intros Hs ->. unfold newest, overflow. rewrite length_app, drop_app. f_equal; [|f_equal; lia].
  destruct (decide (length src <= Z.to_nat (buffer_size rb))%nat); [f_equal; lia|]. by rewrite !drop_ge by lia.
Qed.

Lemma ring_force rb q n src :
  ring rb q -> n = Nat.min (length src) (Z.to_nat (buffer_size rb)) ->
  ring (rb_write (drop (length src - n) src) (rb_skip (overflow rb q (Z.of_nat n)) rb))
    (newest (Z.to_nat (buffer_size rb)) (q ++ src)).
Proof.
  intros HR Hn. pose proof (rg_size _ _ HR). pose proof (rg_len _ _ HR). rewrite (newest_force rb q n src ltac:(lia) Hn).
  apply ring_write; [apply ring_skip; [done|]; unfold overflow; lia|]. rewrite !length_drop. unfold overflow.
  change (buffer_size (rb_skip _ rb)) with (buffer_size rb). lia.
Qed.

(** One operation. *)
Definition op_refines (rb : rt_ringbuffer) (q : list Z) (o : rb_op) : Prop :=
  exists r rb' q', run_op o rb = Done r rb' /\ queue_op (Z.to_nat (buffer_size rb)) q o r q' /\ ring rb' q' /\
    buffer_size rb' = buffer_size rb /\ buffer_ptr rb' = buffer_ptr rb.

Lemma rb_op_ok rb q o : ring rb q -> op_ok o -> op_refines rb q o.
Proof.
  intros HR Ho. pose proof (rg_size _ _ HR) as Hs. pose proof (rg_len _ _ HR) as Hl. unfold op_refines.
  set (cap := Z.to_nat (buffer_size rb)). destruct o; cbn [op_ok] in Ho; cbn [run_op].
  - erewrite bind_done by (apply (put_eq rb q d _ HR); lia). do 3 eexists. split; [reflexivity|].
    set (n := Nat.min (length d) (cap - length q)). replace (Z.min _ _) with (Z.of_nat n) by lia. rewrite Nat2Z.id.
    split; [constructor|]. split; [|done]. apply ring_write; [done|]. rewrite length_take. lia.
  - erewrite bind_done by (apply (put_force_eq rb q d _ HR); lia). do 3 eexists. split; [reflexivity|].
    set (n := Nat.min (length d) cap). replace (Z.min _ _) with (Z.of_nat n) by lia. rewrite Nat2Z.id.
    split; [constructor|]. split; [|done]. replace (Z.to_nat _) with (length d - n)%nat by lia.
    rewrite take_ge by (rewrite length_drop; lia). by apply ring_force.
  - erewrite bind_done by (apply (get_eq rb q len HR Ho)). do 3 eexists. split; [reflexivity|].
    split; [constructor|]. split; [|done]. apply ring_skip; [done|lia].
  - destruct (peak_eq rb q HR) as [E Ed]. erewrite bind_done by exact E. clear E. erewrite bind_done by reflexivity.
    set (k := Nat.min _ _) in *. pose proof (rg_read _ _ HR) as Hr. cbn [fst snd].
    destruct (k =? 0)%nat eqn:Ek; cbn [fmap option_fmap option_map];
      do 3 eexists; (split; [reflexivity|]).
    + assert (q = []) as -> by (apply nil_length_inv; lia). assert (k = 0%nat) as -> by lia. split; [by constructor|].
      by rewrite (rb_skip_0 rb [] HR).
    + rewrite Nat2Z.id. change (rb_bytes (rb_skip k rb)) with (rb_bytes rb). change (buffer_ptr (rb_skip k rb)) with (buffer_ptr rb).
      replace (buffer_ptr rb + read_index rb - buffer_ptr rb) with (read_index rb) by lia. rewrite Ed.
      split; [constructor; lia|]. split; [|done]. apply ring_skip; [done|lia].
  - pose proof (putchar_eq rb q ch HR) as E. destruct (Z.of_nat (length q) =? buffer_size rb) eqn:Ef; erewrite bind_done by exact E;
      do 3 eexists; (split; [reflexivity|]); (split; [constructor; lia|]); (split; [|done]); [done|].
    apply ring_write; [done|]. cbn. lia.
  - erewrite bind_done by (apply (putchar_force_eq rb q ch HR)). do 3 eexists. split; [reflexivity|].
    split; [constructor|]. split; [|done]. apply (ring_force rb q 1 [ch] HR). change (length [ch]) with 1%nat. lia.
  - pose proof (getchar_eq rb q HR) as E. destruct q as [|x q]; erewrite bind_done by exact E; do 3 eexists; (split; [reflexivity|]).
    + split; [by constructor|done].
    + split; [by constructor|]. split; [|done]. apply (ring_skip rb (x :: q) 1 HR). cbn. lia.
  - do 3 eexists. split; [reflexivity|]. split; [constructor|]. split; [|done].
    destruct HR as [H1 H2 _ _ _ _ _ _]. split; cbn; rewrite ?circ_lt, ?mirror_lt by lia; first [done|lia|by left].
  - do 3 eexists. split; [reflexivity|]. rewrite (data_len_eq rb q HR). split; [constructor|done].
  - do 3 eexists. split; [reflexivity|]. rewrite (space_len_eq rb q HR). replace (_ - _) with (Z.of_nat (cap - length q)) by lia.
    split; [constructor|done].
Qed.

Lemma run_ops_ok rb q os :
  ring rb q -> Forall op_ok os -> exists rs rb' q', run_ops os rb = Done rs rb' /\
    queue_run (Z.to_nat (buffer_size rb)) q os rs q' /\ ring rb' q' /\ buffer_size rb' = buffer_size rb /\ buffer_ptr rb' = buffer_ptr rb.
Proof.
  revert rb q. induction os as [|o os IH]; intros rb q HR Ho.
  - exists [], rb, q. split; [done|]. split; [constructor|done].
  - apply Forall_cons in Ho as [Ho Hos]. destruct (rb_op_ok rb q o HR Ho) as (r & rb1 & q1 & E1 & Q1 & HR1 & S1 & P1).
    destruct (IH rb1 q1 HR1 Hos) as (rs & rb2 & q2 & E2 & Q2 & HR2 & S2 & P2).
    exists (r :: rs), rb2, q2. split; [cbn [run_ops]; erewrite bind_done by exact E1; by erewrite bind_done by exact E2|].
    rewrite S1 in Q2, S2. rewrite P1 in P2. split; [by econstructor|done].
Qed.

(** ** Initialisation *)
Lemma align_down_4 size : RT_ALIGN_DOWN size RT_ALIGN_SIZE = size - size mod 4.
Proof. change RT_ALIGN_SIZE with (2 ^ 2). by rewrite align_down_eq. Qed.

Lemma s16_small x : 0 <= x < 2 ^ 15 -> s16 x = x.
Proof. intros Hx. unfold s16, swrap. rewrite Z.mod_small by lia. by rewrite (proj2 (Z.ltb_lt _ _)) by lia. Qed.

Lemma init_eq pool b size raw :
  4 <= size < 2 ^ 15 -> Z.of_nat (length b) = RT_ALIGN_DOWN size RT_ALIGN_SIZE ->
  exists rb, rt_ringbuffer_init pool b size raw = Done tt rb /\ ring rb [] /\
    buffer_size rb = RT_ALIGN_DOWN size RT_ALIGN_SIZE /\ buffer_ptr rb = pool.
Proof.
  intros Hs Hb. assert (Ha : 4 <= RT_ALIGN_DOWN size RT_ALIGN_SIZE < 2 ^ 15).
  { rewrite align_down_4. pose proof (Z.mod_pos_bound size 4). pose proof (Z.div_mod size 4). lia. }
  exists (RtRingbuffer pool 0 0 0 0 (RT_ALIGN_DOWN size RT_ALIGN_SIZE) b). split; [|split; [|done]].
  - unfold rt_ringbuffer_init. erewrite bind_done by (unfold rt_assert; rewrite (proj2 (Z.ltb_lt _ _)) by lia; reflexivity).
    unfold modify. rewrite s16_small by lia. reflexivity.
  - split; cbn; rewrite ?circ_lt, ?mirror_lt by lia; first [done|lia|by left].
Qed.

(** C27. A ring buffer is a bounded queue of bytes: for every pool of [4] to
    [32767] bytes and every sequence of operations of ringbuffer.c, with arguments
    of the declared types, no access leaves the pool or the caller's data, and the
    results are those of a queue whose capacity is the size rounded down to a
    multiple of four. [rt_ringbuffer_put] stores what fits and drops the rest,
    [rt_ringbuffer_put_force] and [rt_ringbuffer_putchar_force] keep the newest
    bytes, [rt_ringbuffer_peak] hands out a non-empty run of the oldest bytes. *)
Theorem rt_ringbuffer_refines pool b size raw os :
  4 <= size < 2 ^ 15 -> Z.of_nat (length b) = RT_ALIGN_DOWN size RT_ALIGN_SIZE -> Forall op_ok os ->
  exists rs rb q, (rt_ringbuffer_init pool b size;; run_ops os) raw = Done rs rb /\
    queue_run (Z.to_nat (RT_ALIGN_DOWN size RT_ALIGN_SIZE)) [] os rs q /\ ring rb q.
Proof.
  intros Hs Hb Ho. destruct (init_eq pool b size raw Hs Hb) as (rb0 & E0 & HR0 & <- & _).
  destruct (run_ops_ok rb0 [] os HR0 Ho) as (rs & rb & q & E & Q & HR & _).
  exists rs, rb, q. split; [by erewrite bind_done by exact E0|done].
Qed.

(** ** On the heap *)
Section Heap.
Context `{!HeapOps, !HeapSpec} (contents : Z -> list Z) (raw : Z -> rt_ringbuffer).

Lemma u16_align size : 0 < size < 2 ^ 16 -> u16 (RT_ALIGN_DOWN size RT_ALIGN_SIZE) = RT_ALIGN_DOWN size RT_ALIGN_SIZE.
Proof.
  intros Hs. apply u16_small. rewrite align_down_4. pose proof (Z.mod_pos_bound size 4). pose proof (Z.mod_le size 4). lia.
Qed.

Lemma ringbuffer_create_ok D s size :
  dyn_ok D s -> 4 <= size < 2 ^ 15 ->
  (forall a, Z.of_nat (length (contents a)) = RT_ALIGN_DOWN size RT_ALIGN_SIZE) ->
  exists r s', rt_ringbuffer_create contents raw size s = Done r s' /\
    match r with
    | None => dyn_ok D s' /\ heap_step s s'
    | Some (a, rb) => ring rb [] /\ buffer_size rb = RT_ALIGN_DOWN size RT_ALIGN_SIZE /\ heap_step s s' /\
        exists k n, SIZEOF_RINGBUFFER <= k /\ buffer_size rb <= n /\ D !! a = None /\ D !! buffer_ptr rb = None /\ a <> buffer_ptr rb /\
          dyn_ok (<[buffer_ptr rb := (n, None)]> (<[a := (k, None)]> D)) s'
    end.
Proof.
  intros HD Hs Hb. unfold rt_ringbuffer_create.
  erewrite bind_done by (unfold rt_assert; rewrite (proj2 (Z.ltb_lt _ _)) by lia; reflexivity).
  rewrite u16_align by lia. set (n0 := RT_ALIGN_DOWN size RT_ALIGN_SIZE) in *.
  assert (Hn0 : 0 <= n0 < 2 ^ 15).
  { unfold n0. rewrite align_down_4. pose proof (Z.mod_pos_bound size 4). pose proof (Z.mod_le size 4). lia. }
  destruct (dyn_malloc_ok D s SIZEOF_RINGBUFFER HD ltac:(by vm_compute)) as ([a|] & s1 & E1 & HR1); erewrite bind_done by exact E1.
  2:{ subst s1. exists None, s. split; [done|]. split; [done|]. by destruct s. }
  destruct HR1 as (Ha & _ & HS1 & k & Hk & HD1).
  destruct (dyn_malloc_ok _ s1 n0 HD1 ltac:(lia)) as ([p|] & s2 & E2 & HR2); erewrite bind_done by exact E2.
  2:{ subst s2. destruct (dyn_free_ok _ s1 a k HD1 (lookup_insert_eq _ _ _)) as (s3 & E3 & HS3 & HD3).
      exists None, s3. split; [by erewrite bind_done by exact E3|]. rewrite delete_insert_id in HD3 by done. split; [done|].
      unfold heap_step in *. rewrite HS3 at 1. rewrite HS1. by destruct s. }
  destruct HR2 as (Hp & _ & HS2 & n & Hn & HD2).
  assert (En : RT_ALIGN_DOWN n0 RT_ALIGN_SIZE = n0).
  { unfold n0. rewrite !align_down_4, Zminus_mod_idemp_r, Z.sub_diag. by rewrite Z.mod_0_l, Z.sub_0_r. }
  assert (H4 : 4 <= n0) by (unfold n0; rewrite align_down_4; pose proof (Z.mod_pos_bound size 4); pose proof (Z.div_mod size 4); lia).
  destruct (init_eq p (contents p) n0 (raw a)) as (rb & Ei & HR & Hsz & <-); [lia|by rewrite En, Hb|].
  rewrite s16_small, Ei by lia. exists (Some (a, rb)), s2. split; [done|]. rewrite En in Hsz.
  apply lookup_insert_None in Hp as [Hp Hne]. split; [done|]. split; [done|]. split.
  { unfold heap_step in *. rewrite HS2 at 1. rewrite HS1. by destruct s. }
  exists k, n. by rewrite Hsz.
Qed.

Lemma ringbuffer_destroy_ok D s a rb k n :
  dyn_ok D s -> D !! a = Some (k, None) -> D !! buffer_ptr rb = Some (n, None) -> a <> buffer_ptr rb ->
  exists s', rt_ringbuffer_destroy a rb s = Done tt s' /\ heap_step s s' /\ dyn_ok (delete a (delete (buffer_ptr rb) D)) s'.
Proof.
  intros HD Ha Hb Hne. destruct (dyn_free_ok D s _ n HD Hb) as (s1 & E1 & HS1 & HD1).
  destruct (dyn_free_ok _ s1 a k HD1) as (s2 & E2 & HS2 & HD2); [by rewrite lookup_delete_ne|].
  exists s2. split; [unfold rt_ringbuffer_destroy; by erewrite bind_done by exact E1|]. split; [|done].
  unfold heap_step in *. rewrite HS2 at 1. rewrite HS1. by destruct s.
Qed.

(** C28. [rt_ringbuffer_create] for 4 to 32767 bytes gives an empty ring buffer of
    the size rounded down, in two new blocks of the heap; whatever is done with it
    then, [rt_ringbuffer_destroy] gives both blocks back. Without the memory for
    both there is no ring buffer and nothing stays allocated. *)
Theorem rt_ringbuffer_create_destroy D s size os :
  dyn_ok D s -> 4 <= size < 2 ^ 15 ->
  (forall a, Z.of_nat (length (contents a)) = RT_ALIGN_DOWN size RT_ALIGN_SIZE) -> Forall op_ok os ->
  exists r s1, rt_ringbuffer_create contents raw size s = Done r s1 /\ heap_step s s1 /\
    match r with
    | None => dyn_ok D s1
    | Some (a, rb) => ring rb [] /\ buffer_size rb = RT_ALIGN_DOWN size RT_ALIGN_SIZE /\
        exists rs rb', run_ops os rb = Done rs rb' /\
        exists s2, rt_ringbuffer_destroy a rb' s1 = Done tt s2 /\ heap_step s1 s2 /\ dyn_ok D s2
    end.
Proof.
  intros HD Hs Hb Ho. destruct (ringbuffer_create_ok D s size HD Hs Hb) as ([[a rb]|] & s1 & E & HR).
  2:{ exists None, s1. tauto. }
  destruct HR as (HR & Hsz & HS & k & n & _ & _ & Ha & Hp & Hne & HD1). exists (Some (a, rb)), s1.
  split; [done|]. split; [done|]. split; [done|]. split; [done|].
  destruct (run_ops_ok rb [] os HR Ho) as (rs & rb' & q & E' & _ & _ & _ & Ep). exists rs, rb'. split; [done|].
  destruct (ringbuffer_destroy_ok _ s1 a rb' k n HD1) as (s2 & E2 & HS2 & HD2);
    rewrite ?Ep; [by rewrite lookup_insert_ne, lookup_insert_eq|by rewrite lookup_insert_eq|done|].
  exists s2. split; [done|]. split; [done|]. rewrite Ep in HD2.
  rewrite delete_insert_id in HD2 by (by rewrite lookup_insert_ne). by rewrite delete_insert_id in HD2.
Qed.

(** The assertion of [rt_ringbuffer_create] that the size is positive does not
    protect it: for 1 to 3 bytes the size is rounded down to none after the
    assertion, from 32768 bytes on it becomes negative as the signed argument of
    [rt_ringbuffer_init], and the assertion there stops the system unless the heap
    is exhausted before. No ring buffer is returned for such a size. *)
Theorem rt_ringbuffer_create_faults D s size :
  dyn_ok D s -> 0 < size < 4 \/ 2 ^ 15 <= size < 2 ^ 16 ->
  rt_ringbuffer_create contents raw size s = Fault \/
  exists s1, rt_ringbuffer_create contents raw size s = Done None s1 /\ dyn_ok D s1.
Proof.
  intros HD Hs. unfold rt_ringbuffer_create.
  erewrite bind_done by (unfold rt_assert; rewrite (proj2 (Z.ltb_lt _ _)) by lia; reflexivity).
  rewrite u16_align by lia. set (n0 := RT_ALIGN_DOWN size RT_ALIGN_SIZE).
  assert (Hn0 : n0 = 0 \/ 2 ^ 15 <= n0 < 2 ^ 16).
  { unfold n0. rewrite align_down_4. destruct Hs as [Hs|Hs]; [left; rewrite Z.mod_small by lia; lia|right].
    pose proof (Z.mod_pos_bound size 4). pose proof (Z.div_mod size 4). lia. }
  destruct (dyn_malloc_ok D s SIZEOF_RINGBUFFER HD ltac:(by vm_compute)) as ([a|] & s1 & E1 & HR1).
  2:{ right. subst s1. exists s. split; [by erewrite bind_done by exact E1|done]. }
  destruct HR1 as (Ha & _ & HS1 & k & Hk & HD1).
  destruct (dyn_malloc_ok _ s1 n0 HD1 ltac:(lia)) as ([p|] & s2 & E2 & HR2).
  2:{ right. subst s2. destruct (dyn_free_ok _ s1 a k HD1 (lookup_insert_eq _ _ _)) as (s3 & E3 & HS3 & HD3).
      exists s3. rewrite delete_insert_id in HD3 by done. split; [|done].
      erewrite bind_done by exact E1. cbv iota. erewrite bind_done by exact E2. cbv iota. by erewrite bind_done by exact E3. }
  left. erewrite bind_done by exact E1. cbv iota. erewrite bind_done by exact E2. cbv iota.
  assert (Hneg : (0 <? s16 n0) = false).
  { apply Z.ltb_ge. unfold s16, swrap. rewrite Z.mod_small by lia. destruct (_ <? _) eqn:El; lia. }
  unfold rt_ringbuffer_init, rt_assert. by rewrite Hneg.
Qed.
End Heap.

(** ** Witnesses *)

(** Eight bytes: five are written, three are read, five more are written over the
    end of the buffer, two more force the two oldest out. *)
Definition zero_buffer (n : nat) (_ : Z) : list Z := replicate n 0.
Definition raw_ringbuffer (_ : Z) : rt_ringbuffer := RtRingbuffer 0 7 7 7 7 7 [].

Lemma rt_ringbuffer_refines_witness :
  exists rb q, (rt_ringbuffer_init 0x2000 (replicate 8 0) 10;;
      run_ops [OpPut [1; 2; 3; 4; 5]; OpGet 3; OpPut [6; 7; 8; 9; 10; 11]; OpPutForce [12; 13]; OpDataLen; OpGet 100])
      (raw_ringbuffer 0) =
    Done [RCount 5; RBytes (Some [1; 2; 3]) 3; RCount 6; RCount 2; RCount 8; RBytes (Some [6; 7; 8; 9; 10; 11; 12; 13]) 8] rb /\
    ring rb q.
Proof.
  destruct (rt_ringbuffer_refines 0x2000 (replicate 8 0) 10 (raw_ringbuffer 0)
    [OpPut [1; 2; 3; 4; 5]; OpGet 3; OpPut [6; 7; 8; 9; 10; 11]; OpPutForce [12; 13]; OpDataLen; OpGet 100])
    as (rs & rb & q & E & _ & HR); [lia|by vm_compute|by repeat constructor|].
  exists rb, q. split; [|exact HR]. rewrite E. revert E. vm_compute. congruence.
Defined.

#[local] Existing Instance no_signals.
#[local] Existing Instance heap_spec_4k.

Lemma rt_ringbuffer_create_destroy_witness :
  exists a rb s1 rs rb' s2, rt_ringbuffer_create (zero_buffer 8) raw_ringbuffer 10 kstate_dyn = Done (Some (a, rb)) s1 /\
    run_ops [OpPutchar 65; OpPeak] rb = Done rs rb' /\ rt_ringbuffer_destroy a rb' s1 = Done tt s2 /\ dyn_ok ∅ s2.
Proof.
  destruct (rt_ringbuffer_create_destroy (zero_buffer 8) raw_ringbuffer ∅ kstate_dyn 10 [OpPutchar 65; OpPeak] kstate_dyn_ok)
    as ([[a rb]|] & s1 & E & _ & HR); [lia|by intros a; vm_compute|by repeat constructor| |].
  - destruct HR as (_ & _ & rs & rb' & E' & s2 & E2 & _ & HD). exists a, rb, s1, rs, rb', s2.
    split; [exact E|]. split; [exact E'|]. split; [exact E2|exact HD].
  - assert (Hz : match rt_ringbuffer_create (zero_buffer 8) raw_ringbuffer 10 kstate_dyn with Done None _ => true | _ => false end = false)
      by (by vm_compute).
    rewrite E in Hz. discriminate Hz.
Defined.

(** Three bytes, on a heap with enough room. *)
Lemma rt_ringbuffer_create_faults_witness :
  rt_ringbuffer_create (zero_buffer 0) raw_ringbuffer 3 kstate_dyn = Fault.
Proof.
  destruct (rt_ringbuffer_create_faults (zero_buffer 0) raw_ringbuffer ∅ kstate_dyn 3 kstate_dyn_ok ltac:(lia)) as [E|(s1 & E & _)];
    [exact E|].
  assert (Hz : match rt_ringbuffer_create (zero_buffer 0) raw_ringbuffer 3 kstate_dyn with Done None _ => true | _ => false end = false)
    by (by vm_compute).
  rewrite E in Hz. discriminate Hz.
Defined.
