(* ===== verification/Device.v ===== *)
(** Devices: rt-thread/src/device.c and the simulated devices of
    components/drivers/mock_devices/mock_devices.c.

    A mock device has no open, close and control operation. *)
From S2P Require Export Ipc.
Local Open Scope Z_scope.

Definition device_ref (d : positive) : ref := (KDevice, d).
Definition get_device (d : positive) : K rt_device := s ← get; deref (devices s !! d).
Definition mod_device (d : positive) (f : rt_device -> rt_device) : K unit :=
  x ← get_device d; modify (fun s => s <| devices ::= <[d := f x]> |>).
Definition mod_rvc (f : rvc_state -> rvc_state) : K unit := modify (fun s => s <| rvc ::= f |>).

(** What the program reads from outside: the C library's [rand] after [srand],
    and the levels of the pins. *)
Class Environment := {
  rand_after_srand : Z -> Z;
  pin_level : kstate -> Z -> Z;
}.

Definition RT_EBUSY : Z := 7.
Definition SIZE : Z := 1024.

(** ** mock_devices.c *)

(** The value written to the caller's buffer. *)
Definition proximity_sensor_read `{!Environment} : K Z :=
  ms ← rt_tick_get_millisecond;
  let i := rand_after_srand ms in
  mret (if Z.rem i 30 =? 0 then 121 (* 'y' *) else 110 (* 'n' *)).

Definition engine_write (msg : string) : K unit :=
  r ← gets rvc;
  if String.eqb msg "STOP" then
    mod_rvc (fun r => r <| stopped := 1 |>);;
    rt_kprintf "ENGINE: stopped!" []
  else if String.eqb msg "START" then
    when (stopped r =? 1) (rt_kprintf "ENGINE: started!" []);;
    mod_rvc (fun r => r <| stopped := 0 |>)
  else mret tt.

Definition garbage_bag_read : K Z := r ← gets rvc; mret (garbage_bag_value r).
Definition garbage_bag_write : K unit :=
  mod_rvc (fun r => r <| garbage_bag_value ::= (fun n => s32 (n + 1)) |>).
Definition speaker_write (msg : string) : K unit :=
  modify (fun s => s <| out ::= (fun l => OSpeaker msg :: l) |>).

(** The tables of operations: [None] is a null pointer. Every init operation
    counts a reference. *)
Definition ops_init (o : mock) (d : positive) : K Z :=
  mod_device d (fun x => x <| ref_count ::= (fun n => u8 (n + 1)) |>);; mret RT_EOK.
Definition ops_read `{!Environment} (o : mock) : option (K Z) :=
  match o with
  | Mproximity_sensor => Some proximity_sensor_read
  | Mgarbage_bag => Some garbage_bag_read
  | _ => None
  end.
Definition ops_write (o : mock) (msg : string) : option (K unit) :=
  match o with
  | Mengine => Some (engine_write msg)
  | Mgarbage_bag => Some garbage_bag_write
  | Mspeaker => Some (speaker_write msg)
  | Mproximity_sensor => None
  end.

(** ** device.c *)
Section Device.
Context `{!SignalOps, !Environment}.

Definition rt_device_find (name : option (list Z)) : K (option positive) :=
  r ← rt_object_find name RT_Object_Class_Device;
  mret (snd <$> r).

Definition rt_device_register (d : option positive) (name : list Z) (flags : Z) : K Z :=
  match d with
  | None => mret (- RT_ERROR)
  | Some d =>
      f ← rt_device_find (Some name);
      if bool_decide (is_Some f) then mret (- RT_ERROR)
      else
        rt_object_init (device_ref d) RT_Object_Class_Device name;;
        mod_device d (fun x => x <| dv_flag := u16 flags |> <| ref_count := 0 |>
                                 <| dv_open_flag := 0 |>);;
        mret RT_EOK
  end.

Definition rt_device_unregister (d : positive) : K Z :=
  assert_type (device_ref d) RT_Object_Class_Device;;
  assert_static (device_ref d);;
  rt_object_detach (device_ref d);;
  mret RT_EOK.

(** A device on the heap with [attach_size] bytes behind it. *)
Definition rt_device_create `{!HeapOps} (type attach_size : Z) : K (option positive) :=
  let sizeof := object_size RT_Object_Class_Device in
  let size := u32 (RT_ALIGN sizeof RT_ALIGN_SIZE + RT_ALIGN attach_size RT_ALIGN_SIZE) in
  p ← heap_malloc size;
  match p with
  | None => mret None
  | Some a =>
      let d := Z.to_pos a in
      modify (fun s => s <| heap_mem ::= rt_memset a 0 sizeof |>);;
      modify (fun s => s <| objs ::= <[device_ref d := RtObject (replicate RT_NAME_MAX 0) 0 0]> |>
                         <| devices ::= <[d := RtDevice None type 0 0 0]> |>);;
      mret (Some d)
  end.

Definition rt_device_destroy `{!HeapOps} (d : positive) : K unit :=
  assert_type (device_ref d) RT_Object_Class_Device;;
  assert_dynamic (device_ref d);;
  rt_object_detach (device_ref d);;
  heap_free (object_addr (device_ref d)).

Definition rt_device_init (d : option positive) : K Z :=
  d ← deref d;
  x ← get_device d;
  o ← deref (dv_ops x);
  if negb (has_bits (dv_flag x) RT_DEVICE_FLAG_ACTIVATED) then
    e ← ops_init o d;
    if negb (e =? RT_EOK) then
      rt_kprintf "To initialize device:%s failed. The error code is %d" [e];; mret e
    else
      mod_device d (fun x => x <| dv_flag ::= (fun f => Z.lor f RT_DEVICE_FLAG_ACTIVATED) |>);;
      mret e
  else mret RT_EOK.

Definition rt_device_open (d : positive) (oflag : Z) : K Z :=
  assert_type (device_ref d) RT_Object_Class_Device;;
  x ← get_device d;
  e ← (if negb (has_bits (dv_flag x) RT_DEVICE_FLAG_ACTIVATED)
       then o ← deref (dv_ops x); ops_init o d else mret RT_EOK);
  if negb (e =? RT_EOK) then
    rt_kprintf "To initialize device:%s failed. The error code is %d" [e];; mret e
  else
    mod_device d (fun x => x <| dv_flag ::= (fun f => Z.lor f RT_DEVICE_FLAG_ACTIVATED) |>);;
    x ← get_device d;
    if has_bits (dv_flag x) RT_DEVICE_FLAG_STANDALONE && has_bits (dv_open_flag x) RT_DEVICE_OFLAG_OPEN
    then mret (- RT_EBUSY)
    else
      _ ← deref (dv_ops x);
      mod_device d (fun x => x
        <| dv_open_flag := Z.lor (Z.land oflag RT_DEVICE_OFLAG_MASK) RT_DEVICE_OFLAG_OPEN |>
        <| ref_count ::= (fun n => u8 (n + 1)) |>);;
      x ← get_device d;
      rt_assert (negb (ref_count x =? 0));;
      mret RT_EOK.

Definition rt_device_close (d : positive) : K Z :=
  assert_type (device_ref d) RT_Object_Class_Device;;
  x ← get_device d;
  if ref_count x =? 0 then mret (- RT_ERROR)
  else
    mod_device d (fun x => x <| ref_count ::= (fun n => u8 (n - 1)) |>);;
    x ← get_device d;
    if negb (ref_count x =? 0) then mret RT_EOK
    else
      _ ← deref (dv_ops x);
      mod_device d (fun x => x <| dv_open_flag := RT_DEVICE_OFLAG_CLOSE |>);; mret RT_EOK.

(** The count returned and the value stored in the buffer, if any. *)
Definition rt_device_read (d : option positive) : K (Z * option Z) :=
  d ← deref d;
  assert_type (device_ref d) RT_Object_Class_Device;;
  x ← get_device d;
  if ref_count x =? 0 then rt_set_errno (- RT_ERROR);; mret (0, None)
  else o ← deref (dv_ops x);
       match ops_read o with
       | Some read => v ← read; mret (RT_EOK, Some v)
       | None => rt_set_errno (- RT_ENOSYS);; mret (0, None)
       end.

Definition rt_device_write (d : option positive) (msg : string) : K Z :=
  d ← deref d;
  assert_type (device_ref d) RT_Object_Class_Device;;
  x ← get_device d;
  if ref_count x =? 0 then rt_set_errno (- RT_ERROR);; mret 0
  else o ← deref (dv_ops x);
       match ops_write o msg with
       | Some write => write;; mret RT_EOK
       | None => rt_set_errno (- RT_ENOSYS);; mret 0
       end.

Definition rt_device_control (d : positive) : K Z :=
  assert_type (device_ref d) RT_Object_Class_Device;;
  x ← get_device d;
  _ ← deref (dv_ops x);
  mret (- RT_ENOSYS).

(** *** [rt_mock_devices_init] of mock_devices.c *)
Definition mock_device_init `{!HeapOps} (put : option positive -> rvc_state -> rvc_state)
    (ops : mock) (name : string) : K unit :=
  d ← rt_device_create RT_Device_Class_Mock SIZE;
  mod_rvc (put d);;
  p ← deref d;
  mod_device p (fun x => x <| dv_ops := Some ops |>);;
  rt_device_register d (bytes_of name) RT_DEVICE_FLAG_RDWR;;
  mret tt.

Definition rt_mock_devices_init `{!HeapOps} : K unit :=
  mock_device_init (fun d r => r <| proximity_sensor := d |>) Mproximity_sensor "proximity_sensor";;
  mock_device_init (fun d r => r <| engine := d |>) Mengine "engine";;
  mock_device_init (fun d r => r <| garbage_bag := d |>) Mgarbage_bag "garbage_bag";;
  mock_device_init (fun d r => r <| speaker := d |>) Mspeaker "speaker".
End Device.
