(* ===== verification/App.v ===== *)
(** The application: the threads, the timer functions, the signal handlers and
    [main] of applications/ (tasks.c, system.c, structures.c, main.c).

    A thread function is a loop of rounds. A local variable that the code reads
    before it assigns it is an argument of the round and its arbitrary initial
    contents an argument of the thread. Waiting for the tick interrupt in a
    loop is a [Switch] per round of the loop. *)
From S2P Require Export Robot Mutex Event MQueue Device.
Local Open Scope Z_scope.

(** ** The objects and constants *)
Definition Tsystem : tid := 1%positive.
Definition obstacle_control : tid := 2%positive.
Definition movement_stop : tid := 3%positive.
Definition movement_control : tid := 4%positive.
Definition check_resources : tid := 5%positive.
Definition acoustic_signals : tid := 6%positive.
Definition brushes_speed : tid := 7%positive.

Definition timer_obstacle_control_activation : positive := app_timer 1.
Definition timer_movement_control_activation : positive := app_timer 2.
Definition timer_check_resources_activation : positive := app_timer 3.
Definition timer_brushes_speed_activation : positive := app_timer 4.

Definition event_tasks_activation : positive := 1%positive.
Definition event_obstacle : positive := 2%positive.
Definition event_resources : positive := 3%positive.
Definition mb2_3 : positive := 1%positive.
Definition mb2_5 : positive := 2%positive.
Definition battMutex : positive := 1%positive.

Definition EVENT_OBSTACLE_CONTROL_ACTIVATION : Z := 2.
Definition EVENT_MOVEMENT_CONTROL_ACTIVATION : Z := 4.
Definition EVENT_CHECK_RESOURCES_ACTIVATION : Z := 8.
Definition EVENT_ACOUSTIC_SIGNALS_ACTIVATION : Z := 16.
Definition EVENT_BRUSHES_SPEED_ACTIVATION : Z := 32.
Definition EVENT_OBSTACLE_FOUND : Z := 2.
Definition EVENT_FLAG1 : Z := 2.
Definition EVENT_FLAG2 : Z := 4.

Definition CHARGE : Z := 100.
Definition DISCHARGE_THRESHOLD : Z := 20.
Definition DISCHARGE : Z := 10.
Definition TOTALLY_DISCHARGE : Z := 0.
Definition DEC_VALUE : Z := 2.
Definition EMPTY : Z := 0.
Definition FULL : Z := 30.
Definition STOP_BRUSHES : Z := 0.
Definition LOW : Z := 1.
Definition MEDIUM : Z := 2.
Definition HIGH : Z := 3.
Definition BRUSHES_SPEED_PIN_NUMBER : Z := 36.
Definition BRUSHES_POWER_PIN_NUMBER : Z := 37.
Definition PIN_MODE_OUTPUT : Z := 0.
Definition PIN_MODE_INPUT : Z := 1.
Definition TSYSTEM_PRIORITY : Z := 10.
Definition THREAD_TIMESLICE : Z := 5.
Definition PERIOD_TASK1 : Z := 50.
Definition PERIOD_TASK2 : Z := 50.
Definition PERIOD_TASK3 : Z := 25.
Definition PERIOD_TASK5 : Z := 25.
Definition TICK_DELAY_T1 : Z := 5.
Definition TICK_DELAY_T2 : Z := 6.
Definition TICK_DELAY_T3 : Z := 6.
Definition TICK_DELAY_T4 : Z := 2.
Definition TICK_DELAY_T5 : Z := 7.
Definition SIGUSR1 : Z := 30.
Definition SIGUSR2 : Z := 31.

(** The functions of the program whose address is taken. *)
Definition F_movement_control_obstacle_handler : fn := F_user 1.
Definition F_turnOffSystem : fn := F_user 2.
Definition F_timeout_obstacle_control : fn := F_user 3.
Definition F_timeout_movement_control : fn := F_user 4.
Definition F_timeout_check_resources : fn := F_user 5.
Definition F_timeout_brushes_speed : fn := F_user 6.

(** A step on the global variables. *)
Definition on_rvc {A} (f : rvc_state -> option (A * rvc_state)) : K A :=
  r ← gets rvc; '(a, r) ← deref (f r); mod_rvc (fun _ => r);; mret a.
Definition on_rvc_ (f : rvc_state -> option rvc_state) : K unit :=
  on_rvc (fun r => r ← f r; Some (tt, r)).

(** ** structures.c *)
Section Timeouts.
Context `{!SignalOps}.
Definition timeout_obstacle_control : K unit :=
  rt_event_send event_tasks_activation EVENT_OBSTACLE_CONTROL_ACTIVATION;; mret tt.
Definition timeout_movement_control : K unit :=
  rt_event_send event_tasks_activation EVENT_MOVEMENT_CONTROL_ACTIVATION;; mret tt.
Definition timeout_check_resources : K unit :=
  rt_event_send event_tasks_activation EVENT_CHECK_RESOURCES_ACTIVATION;; mret tt.
Definition timeout_acoustic_signals : K unit :=
  rt_event_send event_tasks_activation EVENT_ACOUSTIC_SIGNALS_ACTIVATION;; mret tt.
Definition timeout_brushes_speed : K unit :=
  rt_event_send event_tasks_activation EVENT_BRUSHES_SPEED_ACTIVATION;; mret tt.

(** The functions that timers hold, and no thread has a cleanup. *)
#[export] Instance app_callbacks : Callbacks := {|
  call_timeout := fun f p =>
    if decide (f = F_rt_thread_timeout) then rt_thread_timeout p
    else if decide (f = F_timeout_obstacle_control) then timeout_obstacle_control
    else if decide (f = F_timeout_movement_control) then timeout_movement_control
    else if decide (f = F_timeout_check_resources) then timeout_check_resources
    else if decide (f = F_timeout_brushes_speed) then timeout_brushes_speed
    else fault;
  call_cleanup := fun _ _ => fault |}.
End Timeouts.

(** ** Signal handlers (tasks.c) *)
Fixpoint print_row (r : rvc_state) (i : Z) (cols : list Z) : K unit :=
  match cols with
  | [] => mret tt
  | j :: cols => v ← deref (map_read r i j); rt_kprintf "%d" [v];; print_row r i cols
  end.
Fixpoint print_rows (r : rvc_state) (rows : list Z) : K unit :=
  match rows with
  | [] => mret tt
  | i :: rows => print_row r i (seqZ 0 MAP_SIDE);; print_rows r rows
  end.
Definition print_map : K unit := r ← gets rvc; print_rows r (seqZ 0 MAP_SIDE).

Definition movement_control_obstacle_handler : K unit :=
  on_rvc_ obstacle_reaction;;
  print_map.

Section Handlers.
Context `{!HeapOps}.
Definition turnOffSystem `{!SignalOps} : K unit :=
  rt_signal_mask SIGUSR1;;
  rt_signal_mask SIGUSR2;;
  set_task_as_not_preemptable Tsystem;;
  mod_rvc (fun r => r <| turnOffFlag := 1 |>).

#[export] Instance app_handlers : Handlers := fun _ f _ =>
  if decide (f = F_signal_default_handler) then mret tt
  else if decide (f = F_movement_control_obstacle_handler) then movement_control_obstacle_handler
  else if decide (f = F_turnOffSystem) then turnOffSystem
  else fault.
End Handlers.

Section Tasks.
Context `{!SignalOps, !HeapOps, !Layout, !Environment}.

(** [while (get_tick_count(t) != 0) {}] *)
Fixpoint busy_wait (fuel : nat) (t : tid) : K unit :=
  n ← get_tick_count t;
  if n =? 0 then mret tt
  else match fuel with O => fault | S fuel => switch_out;; busy_wait fuel t end.

(** The wait at the start of a round, and its end. *)
Definition wait_activation (event : Z) : K bool :=
  '(e, _) ← rt_event_recv event_tasks_activation event
              (Z.lor RT_EVENT_FLAG_AND RT_EVENT_FLAG_CLEAR) RT_WAITING_FOREVER;
  mret (e =? RT_EOK).
Definition end_round (fuel : nat) (t : tid) : K unit :=
  busy_wait fuel t;; set_task_ended t;; mret tt.

(** ** Task 1 *)
Definition obstacle_control_round (fuel : nat) (obstacle : Z) : K Z :=
  ok ← wait_activation EVENT_OBSTACLE_CONTROL_ACTIVATION;
  if negb ok then mret obstacle
  else
    set_task_started obstacle_control TICK_DELAY_T1;;
    r ← gets rvc;
    '(_, v) ← rt_device_read (proximity_sensor r);
    let obstacle := default obstacle v in
    (if obstacle =? 121 (* 'y' *) then
       rt_thread_kill movement_control SIGUSR1;;
       rt_event_send event_obstacle EVENT_OBSTACLE_FOUND;;
       mret tt
     else mret tt);;
    end_round fuel obstacle_control;;
    mret obstacle.

Fixpoint obstacle_control_entry (rounds fuel : nat) (obstacle : Z) : K unit :=
  match rounds with
  | O => mret tt
  | S n => obstacle ← obstacle_control_round fuel obstacle;
           obstacle_control_entry n fuel obstacle
  end.

(** ** The stop task *)
Definition movement_stop_round : K unit :=
  '(e, _) ← rt_event_recv event_obstacle EVENT_OBSTACLE_FOUND
              (Z.lor RT_EVENT_FLAG_AND RT_EVENT_FLAG_CLEAR) RT_WAITING_FOREVER;
  if e =? RT_EOK then
    r ← gets rvc; rt_device_write (engine r) "STOP";; mret tt
  else mret tt.

Fixpoint movement_stop_entry (rounds : nat) : K unit :=
  match rounds with
  | O => mret tt
  | S n => movement_stop_round;; movement_stop_entry n
  end.

(** ** Task 2 *)

(** A message about the resources: from now on the robot returns. *)
Definition check_message : K unit :=
  '(e, _) ← rt_mb_recv 0 mb2_3 0;
  if e =? RT_EOK then
    mod_rvc (fun r => r <| direction := RETURN |>);;
    rt_signal_mask SIGUSR1;;
    rt_mb_send mb2_5 (addr_string mb_str4);;
    mret tt
  else mret tt.

(** Cleaning the tile of the robot. *)
Definition clean_tile : K unit :=
  r ← gets rvc;
  v ← deref (map_read r (position0 r) (position1 r));
  if v =? 0 then
    on_rvc_ (fun r => map_write (position0 r) (position1 r) 2 r);;
    r ← gets rvc;
    rt_device_write (garbage_bag r) "";;
    mret tt
  else mret tt.

(** One move: the new value of [stuck], and whether the task ends. *)
Definition movement_step (stuck : Z) : K (Z * bool) :=
  check_message;;
  clean_tile;;
  stuck ← on_rvc (move stuck);
  r ← gets rvc;
  if stuck =? 1 then
    rt_kprintf "The robot is stuck!!" [];;
    mret (stuck, true)
  else if at_home r then
    rt_kprintf "The robot is back at charging station!" [];;
    rt_thread_kill Tsystem SIGUSR2;;
    mret (stuck, true)
  else
    rt_device_write (engine r) "START";;
    r ← gets rvc;
    rt_kprintf "Robot in position %d,%d" [position0 r; position1 r];;
    mret (stuck, false).

Definition movement_control_round (fuel : nat) (stuck : Z) : K (Z * bool) :=
  ok ← wait_activation EVENT_MOVEMENT_CONTROL_ACTIVATION;
  if negb ok then mret (stuck, false)
  else
    set_task_started movement_control TICK_DELAY_T2;;
    '(stuck, stop) ← movement_step stuck;
    if (stop : bool) then mret (stuck, true)
    else end_round fuel movement_control;; mret (stuck, false).

Fixpoint movement_control_loop (rounds fuel : nat) (stuck : Z) : K unit :=
  match rounds with
  | O => mret tt
  | S n => '(stuck, stop) ← movement_control_round fuel stuck;
           if (stop : bool) then mret tt else movement_control_loop n fuel stuck
  end.

Definition movement_control_entry (rounds fuel : nat) (stuck : Z) : K unit :=
  mod_rvc movement_init;;
  rt_signal_install SIGUSR1 (SIG_HANDLER F_movement_control_obstacle_handler);;
  rt_signal_unmask SIGUSR1;;
  movement_control_loop rounds fuel stuck.

(** ** Task 3 *)

(** What task 3 does about the battery, the mutex being held. *)
Definition check_battery : K unit :=
  r ← gets rvc;
  let b := batteryStatus r in
  if b <=? TOTALLY_DISCHARGE then
    rt_kprintf "BATTERY TOTALLY LOW --> TURN OFF THE SYSTEM" [];;
    rt_thread_kill Tsystem SIGUSR2;;
    mret tt
  else if (b <=? DISCHARGE) && (TOTALLY_DISCHARGE <? b) then
    rt_event_send event_resources EVENT_FLAG1;;
    rt_mb_send mb2_3 (addr_string mb_str3);;
    rt_kprintf "BATTERY is LOW" []
  else if (b <=? DISCHARGE_THRESHOLD) && (DISCHARGE <? b) then
    rt_event_send event_resources EVENT_FLAG1;;
    rt_mb_send mb2_3 (addr_string mb_str2);;
    rt_kprintf "BATTERY is running LOW" []
  else mret tt.

Definition check_garbage (value : Z) : K Z :=
  r ← gets rvc;
  '(_, v) ← rt_device_read (garbage_bag r);
  let value := default value v in
  if value =? FULL then
    rt_event_send event_resources EVENT_FLAG2;;
    rt_mb_send mb2_3 (addr_string mb_str1);;
    rt_kprintf "Garbage bag FULL" [];;
    mret value
  else mret value.

Definition check_resources_round (fuel : nat) (value : Z) : K Z :=
  ok ← wait_activation EVENT_CHECK_RESOURCES_ACTIVATION;
  if negb ok then mret value
  else
    set_task_started check_resources TICK_DELAY_T3;;
    r ← gets rvc;
    when ((Z.rem (batteryStatus r) 2 =? 0) && (0 <=? batteryStatus r))
      (rt_kprintf "Battery status %d %%" [batteryStatus r]);;
    rt_mutex_take fuel battMutex RT_WAITING_FOREVER;;
    check_battery;;
    rt_mutex_release battMutex;;
    value ← check_garbage value;
    end_round fuel check_resources;;
    mret value.

Fixpoint check_resources_entry (rounds fuel : nat) (value : Z) : K unit :=
  match rounds with
  | O => mret tt
  | S n => value ← check_resources_round fuel value; check_resources_entry n fuel value
  end.

(** ** Task 4 *)
Definition acoustic_signal (e : Z) : K unit :=
  r ← gets rvc;
  if e =? 0x2 then rt_device_write (speaker r) "LOW BATTERY ALARM";; mret tt
  else if e =? 0x4 then rt_device_write (speaker r) "GARBAGE BAG FULL";; mret tt
  else mret tt.

Definition acoustic_signals_round (fuel : nat) (e : Z) : K Z :=
  '(err, got) ← rt_event_recv event_resources (Z.lor EVENT_FLAG1 EVENT_FLAG2)
                  (Z.lor RT_EVENT_FLAG_OR RT_EVENT_FLAG_CLEAR) RT_WAITING_FOREVER;
  let e := default e got in
  if negb (err =? RT_EOK) then mret e
  else
    set_task_started acoustic_signals TICK_DELAY_T4;;
    acoustic_signal e;;
    end_round fuel acoustic_signals;;
    mret e.

Fixpoint acoustic_signals_entry (rounds fuel : nat) (e : Z) : K unit :=
  match rounds with
  | O => mret tt
  | S n => e ← acoustic_signals_round fuel e; acoustic_signals_entry n fuel e
  end.

(** ** Task 5 *)
Definition rt_pin_mode (pin mode : Z) : K unit :=
  modify (fun s => s <| out ::= (fun l => OPinMode pin mode :: l) |>).
Definition rt_pin_write (pin value : Z) : K unit :=
  modify (fun s => s <| out ::= (fun l => OPinWrite pin value :: l) |>).
Definition rt_pin_read (pin : Z) : K Z := gets (fun s => pin_level s pin).

(** [brushes_speed_v] and [brushes_power] *)
Record brushes := Brushes { speed0 : Z; speed1 : Z; power0 : Z; power1 : Z }.

(** The string that an address points to. *)
Definition string_at (a : Z) : option mstr :=
  find (fun m => addr_string m =? a) [mb_str1; mb_str2; mb_str3; mb_str4; mb_str5].

(** The decision of task 5: the power registers and the speed written. *)
Definition brushes_decide (b : brushes) : brushes * option Z :=
  let set p0 p1 v := (Brushes (speed0 b) (speed1 b) p0 p1, Some v) in
  if (speed0 b =? 1) && (speed1 b =? 0) then
    if (power0 b =? 1) && (power1 b =? 0) then set 0 0 MEDIUM
    else if (power0 b =? 0) && (power1 b =? 0) then set 0 1 HIGH
    else (b, None)
  else if (speed0 b =? 0) && (speed1 b =? 1) then
    if (power0 b =? 0) && (power1 b =? 1) then set 0 0 MEDIUM
    else if (power0 b =? 0) && (power1 b =? 0) then set 1 0 LOW
    else (b, None)
  else (b, None).

(** A message stops the brushes when its text is [mb_str4]. *)
Definition brushes_message (b : brushes) : K brushes :=
  '(e, str) ← rt_mb_recv 0 mb2_5 RT_WAITING_NO;
  match str with
  | Some str =>
      if e =? RT_EOK then
        m ← deref (string_at str);
        c ← deref (rt_strcmp (String.length (mstr_text m)) (lit (mstr_text m))
                     (lit (mstr_text mb_str4)));
        if c =? 0 then
          rt_pin_write BRUSHES_POWER_PIN_NUMBER STOP_BRUSHES;;
          mret (Brushes (speed0 b) (speed1 b) 1 1)
        else mret b
      else mret b
  | None => mret b
  end.

Definition brushes_speed_round (fuel : nat) (b : brushes) : K brushes :=
  ok ← wait_activation EVENT_BRUSHES_SPEED_ACTIVATION;
  if negb ok then mret b
  else
    set_task_started brushes_speed TICK_DELAY_T5;;
    rt_pin_mode BRUSHES_SPEED_PIN_NUMBER PIN_MODE_INPUT;;
    rt_pin_mode BRUSHES_POWER_PIN_NUMBER PIN_MODE_OUTPUT;;
    b ← brushes_message b;
    v0 ← rt_pin_read BRUSHES_SPEED_PIN_NUMBER;
    v1 ← rt_pin_read BRUSHES_SPEED_PIN_NUMBER;
    let b := Brushes v0 v1 (power0 b) (power1 b) in
    rt_pin_mode BRUSHES_POWER_PIN_NUMBER PIN_MODE_INPUT;;
    p0 ← rt_pin_read BRUSHES_POWER_PIN_NUMBER;
    v1 ← rt_pin_read BRUSHES_POWER_PIN_NUMBER;
    let b := Brushes (speed0 b) v1 p0 (power1 b) in
    rt_pin_mode BRUSHES_POWER_PIN_NUMBER PIN_MODE_OUTPUT;;
    let '(b, w) := brushes_decide b in
    match w with
    | Some v => rt_pin_write BRUSHES_POWER_PIN_NUMBER v
    | None => mret tt
    end;;
    end_round fuel brushes_speed;;
    mret b.

Fixpoint brushes_speed_entry (rounds fuel : nat) (b : brushes) : K unit :=
  match rounds with
  | O => mret tt
  | S n => b ← brushes_speed_round fuel b; brushes_speed_entry n fuel b
  end.

(** ** Turning the system off *)
Definition closeTask (t : tid) : K Z :=
  st ← rt_thread_get_status t;
  if negb (st =? RT_THREAD_CLOSE) then rt_thread_detach t else mret RT_EOK.

(** The counts of the successes are not used. *)
Definition closeAllTasks : K Z :=
  rt_timer_stop timer_obstacle_control_activation;;
  rt_timer_stop timer_movement_control_activation;;
  rt_timer_stop timer_check_resources_activation;;
  rt_timer_stop timer_brushes_speed_activation;;
  closeTask movement_stop;;
  closeTask obstacle_control;;
  closeTask movement_control;;
  closeTask check_resources;;
  closeTask acoustic_signals;;
  closeTask brushes_speed;;
  rt_timer_detach timer_obstacle_control_activation;;
  rt_timer_detach timer_movement_control_activation;;
  rt_timer_detach timer_check_resources_activation;;
  rt_timer_detach timer_brushes_speed_activation;;
  mret RT_EOK.

(** ** The system thread (system.c) *)

(** [batteryStatus -= DEC_VALUE] on a [uint32_t] *)
Definition battery_decrement (r : rvc_state) : rvc_state :=
  r <| batteryStatus ::= (fun b => u32 (b - DEC_VALUE)) |>.

(** One round of the loop; the result tells that the thread ends. *)
Definition Tsystem_round (fuel : nat) : K bool :=
  r ← gets rvc;
  if turnOffFlag r =? 1 then
    e ← closeAllTasks;
    if e =? RT_EOK then
      set_task_as_preemptable Tsystem TSYSTEM_PRIORITY;;
      mret true
    else mret false
  else
    ms ← rt_tick_get_millisecond;
    let curr_time := s32 ms in
    if (Z.rem curr_time 900 =? 0) && negb (startingTime r =? 0) then
      rt_mutex_take fuel battMutex RT_WAITING_FOREVER;;
      mod_rvc battery_decrement;;
      rt_mutex_release battMutex;;
      mret false
    else mret false.

(** Between two rounds an interrupt may come. *)
Fixpoint Tsystem_loop (rounds fuel : nat) : K unit :=
  match rounds with
  | O => mret tt
  | S n => stop ← Tsystem_round fuel;
           if (stop : bool) then rt_kprintf "---------------System is TURNED OFF--------------------" []
           else switch_out;; Tsystem_loop n fuel
  end.

Definition Tsystem_task_entry (rounds fuel : nat) : K unit :=
  rt_signal_install SIGUSR2 (SIG_HANDLER F_turnOffSystem);;
  rt_signal_unmask SIGUSR2;;
  set_task_started Tsystem 10;;
  Tsystem_loop rounds fuel.

Definition init_thread (t : tid) (name : string) (priority : Z) : K Z :=
  rt_thread_init t (bytes_of name) (addr_stack t) 1024 priority THREAD_TIMESLICE.

Definition initSystem : K Z :=
  mod_rvc (fun r => r <| batteryStatus := CHARGE |> <| garbageBagStatus := EMPTY |>);;
  e ← init_thread Tsystem "TSystem" TSYSTEM_PRIORITY;
  if negb (e =? RT_EOK) then mret RT_ERROR
  else
    e ← rt_thread_startup Tsystem;
    if negb (e =? RT_EOK) then mret RT_ERROR
    else reset_end_flag Tsystem;; mret RT_EOK.

(** ** main.c *)
Definition find_device (name : string) : K (option positive) :=
  rt_device_find (Some (bytes_of name)).

Definition mock_devices_init : K unit :=
  d ← find_device "proximity_sensor";
  mod_rvc (fun r => r <| proximity_sensor := d |>);;
  rt_device_init d;;
  d ← find_device "engine";
  mod_rvc (fun r => r <| engine := d |>);;
  rt_device_init d;;
  d ← find_device "garbage_bag";
  mod_rvc (fun r => r <| garbage_bag := d |>);;
  rt_device_init d;;
  d ← find_device "speaker";
  mod_rvc (fun r => r <| speaker := d |>);;
  rt_device_init d;;
  mret tt.

(** [result = ..; if (result != RT_EOK) return -1;]: the calls up to the
    first failure. *)
Fixpoint try_all (l : list (K Z)) : K bool :=
  match l with
  | [] => mret true
  | m :: l => e ← m; if e =? RT_EOK then try_all l else mret false
  end.

Definition init_timer (tm : positive) (name : string) (f : fn) (period : Z) : K unit :=
  rt_timer_init tm (bytes_of name) f 1 period RT_TIMER_FLAG_PERIODIC.

Fixpoint wait_milliseconds (fuel : nat) (ms : Z) : K unit :=
  now ← rt_tick_get_millisecond;
  if ms <=? now then mret tt
  else match fuel with O => fault | S fuel => switch_out;; wait_milliseconds fuel ms end.

Definition main (fuel : nat) : K Z :=
  mod_rvc (fun r => r <| startingTime := 0 |> <| turnOffFlag := 0 |>);;
  ok ← try_all
    [initSystem;
     rt_event_init event_tasks_activation (bytes_of "event_tasks_activation") RT_IPC_FLAG_FIFO;
     rt_event_init event_obstacle (bytes_of "event_obstacle") RT_IPC_FLAG_FIFO;
     rt_event_init event_resources (bytes_of "event_resources") RT_IPC_FLAG_FIFO;
     rt_mutex_init battMutex (bytes_of "battery") RT_IPC_FLAG_FIFO];
  if negb ok then mret (-1)
  else
    init_timer timer_obstacle_control_activation "timer_obstacle_control_activation"
      F_timeout_obstacle_control PERIOD_TASK1;;
    init_timer timer_movement_control_activation "timer_movement_control_activation"
      F_timeout_movement_control PERIOD_TASK2;;
    init_timer timer_check_resources_activation "timer_check_resources_activation"
      F_timeout_check_resources PERIOD_TASK3;;
    init_timer timer_brushes_speed_activation "timer_brushes_speed_activation"
      F_timeout_brushes_speed PERIOD_TASK5;;
    ok ← try_all
      [rt_mb_init mb2_3 (bytes_of "mb_res") (addr_mb_pool mb2_3) (replicate 32 0) (128 / 4) RT_IPC_FLAG_FIFO;
       rt_mb_init mb2_5 (bytes_of "mb_brushes") (addr_mb_pool mb2_5) (replicate 32 0) (128 / 4) RT_IPC_FLAG_FIFO;
       init_thread obstacle_control "Task1" 2;
       init_thread movement_stop "TaskS" 1;
       init_thread movement_control "Task2" 3;
       init_thread check_resources "Task3" 4;
       init_thread acoustic_signals "Task4" 6;
       init_thread brushes_speed "Task5" 5];
    if negb ok then mret (-1)
    else
      mock_devices_init;;
      rt_system_timer_init;;
      rt_thread_startup obstacle_control;;
      rt_thread_startup movement_stop;;
      rt_thread_startup movement_control;;
      rt_thread_startup check_resources;;
      rt_thread_startup acoustic_signals;;
      rt_thread_startup brushes_speed;;
      ms ← rt_tick_get_millisecond;
      mod_rvc (fun r => r <| startingTime := s32 ms |>);;
      rt_timer_start timer_obstacle_control_activation;;
      rt_timer_start timer_movement_control_activation;;
      rt_timer_start timer_check_resources_activation;;
      r ← gets rvc;
      wait_milliseconds fuel (u32 (startingTime r + 150));;
      rt_timer_start timer_brushes_speed_activation;;
      mret 0.
End Tasks.
