(* ===== verification/Startup.v ===== *)
(** From reset to the first thread: rt-thread/src/components.c, with
    [rt_hw_board_init] of libraries/HAL_Drivers/drv_common.c. *)
From S2P Require Export App CpuUsage MemHeap.
Local Open Scope Z_scope.

Definition RT_MAIN_THREAD_STACK_SIZE : Z := 2048.
Definition RT_MAIN_THREAD_PRIORITY : Z := 10.
Definition RT_VERSION : Z := 4.
Definition RT_SUBVERSION : Z := 1.
Definition RT_REVISION : Z := 0.
Definition STM32_SRAM_SIZE : Z := 256 - 64.
Definition STM32_SRAM_END : Z := 0x20000000 + STM32_SRAM_SIZE * 1024.
Definition HEAP_END : Z := STM32_SRAM_END.

Definition RT_CONSOLE_DEVICE_NAME : string := "uart1".

(** The hardware and what the linker collects: the clocks, the drivers of the pins
    and of the serial ports, the choice of the console (which opens the serial
    port), the functions of [rt_components_board_init], those of
    [rt_components_init], and the end of the static data. *)
Class Board := {
  board_clock : K unit;
  rt_hw_pin_init : K unit;
  rt_hw_usart_init : K unit;
  rt_console_set_device : string -> K unit;
  rt_components_board_init : K unit;
  rt_components_init : K unit;
  HEAP_BEGIN : Z;
}.

Section Startup.
Context `{!SignalOps, !HeapOps, !SystemHeap, !Board, !Layout, !Environment}.

Definition rt_hw_board_init : K unit :=
  board_clock;;
  rt_system_heap_init HEAP_BEGIN HEAP_END;;
  rt_hw_pin_init;;
  rt_hw_usart_init;;
  rt_console_set_device RT_CONSOLE_DEVICE_NAME;;
  rt_components_board_init.

(** [rt_show_version] of kservice.c, without the date of the build. *)
Definition rt_show_version : K unit :=
  rt_kprintf "\ | /" [];;
  rt_kprintf "- RT -     Thread Operating System" [];;
  rt_kprintf "/ | \     %d.%d.%d build %s %s" [RT_VERSION; RT_SUBVERSION; RT_REVISION];;
  rt_kprintf "2006 - 2021 Copyright by rt-thread team" [].

Definition main_thread_entry (fuel : nat) : K unit :=
  rt_components_init;;
  main fuel;;
  mret tt.

Definition rt_application_init : K unit :=
  tid ← rt_thread_create (bytes_of "main") RT_MAIN_THREAD_STACK_SIZE RT_MAIN_THREAD_PRIORITY 20;
  tid ← deref tid;
  rt_thread_startup tid;;
  set_end_flag tid.

(** Soft timers are not configured. *)
Definition rt_system_timer_thread_init : K unit := mret tt.

Definition rtthread_startup : K unit :=
  rt_hw_board_init;;
  rt_mock_devices_init;;
  rt_show_version;;
  rt_system_timer_init;;
  rt_system_scheduler_init;;
  rt_system_signal_init;;
  rt_application_init;;
  rt_system_timer_thread_init;;
  cpu_usage_init;;
  rt_thread_idle_init;;
  rt_system_scheduler_start.
End Startup.
