(* ===== verification/StartThm.v ===== *)
(** From reset to the first thread: the invariants of the kernel and of the heap
    hold when the first thread is switched in. *)
From S2P Require Export HeapRoom Startup ThreadEnd.
Local Open Scope Z_scope.

(** ** The kernel before there are threads *)
Definition idle_unused (s : kstate) : Prop :=
  thread_ref idle ∉ object_list s RT_Object_Class_Thread /\
  timer_ref (thread_timer idle) ∉ object_list s RT_Object_Class_Timer.

(** With room for requests of [N] bytes on the heap. *)
Record unstarted `{!HeapOps, !HeapSpec, !HeapRoom} (N : Z) (D : gmap Z (Z * option ref)) (s : kstate) : Prop := {
  us_dyn : dyn_ok D s;
  us_room : heap_room N s;
  us_current : current_thread s = None;
  us_lock : scheduler_lock_nest s = 0;
  us_nest : interrupt_nest s = 0;
  us_group : ready_priority_group s = 0;
  us_threads : threads s = ∅;
  us_queue h : queue s h = [];
  us_timers : timer_list s = [];
  us_idle : idle_unused s }.

Lemma kok_no_threads s :
  threads s = ∅ -> (forall h, queue s h = []) -> ready_priority_group s = 0 -> current_thread s = None ->
  timer_list s = [] -> kok s.
Proof.
  intros HT HQ HG HC HL. split.
  - unfold kinv, kinv_ex. rewrite HT, HG, HC. assert (HQ' : forall h, queues s !!! h = []) by exact HQ. split; try done.
    + intros p Hp. rewrite HQ', Z.bits_0. by rewrite bool_decide_eq_false_2 by tauto.
    + intros p t. rewrite HQ'. by intros ?%elem_of_nil.
    + intros h t _. rewrite HQ'. by intros ?%elem_of_nil.
    + intros t. rewrite HQ'. by intros ?%elem_of_nil.
    + intros h. rewrite HQ'. constructor.
    + intros h h' t. rewrite HQ'. by intros ?%elem_of_nil.
  - intros t th. by rewrite HT.
  - intros tm. rewrite HL. by intros ?%elem_of_nil.
Qed.

Section Start.
Context `{!SignalOps, !HeapOps, !HeapSpec, !HeapRoom}.

Lemma unstarted_less N N' D s : N' <= N -> unstarted N D s -> unstarted N' D s.
Proof. intros Hle []. split; try done. by eapply room_less. Qed.
Lemma unstarted_kok N D s : unstarted N D s -> kok s.
Proof. intros []. by apply kok_no_threads. Qed.
Lemma unstarted_calm N D s : unstarted N D s -> calm s.
Proof. intros []. by apply calm_boot. Qed.

(** What keeps the kernel unstarted. *)
Lemma unstarted_step N N' D D' s s' :
  unstarted N D s -> same_kernel s s' ->
  (forall c, c = RT_Object_Class_Thread \/ c = RT_Object_Class_Timer -> object_list s' c = object_list s c) ->
  dyn_ok D' s' -> heap_room N' s' -> unstarted N' D' s'.
Proof.
  intros [_ _ U1 U2 U3 U4 U5 U6 U7 [U9 U10]] [E1 E2 E3 E4 E5 E6 E7 E8 E9] EL HD HR. split.
  1-2: done. 1-5: congruence. 2: congruence.
  - intros h. by rewrite E2.
  - split; rewrite EL; auto.
Qed.

(** ** Blocks of the heap *)
Lemma dyn_ok_write D s a n o m :
  dyn_ok D s -> D !! a = Some (n, o) -> bytes m ->
  (forall x, in_range a n x = false -> m x = heap_mem s x) -> dyn_ok D (s <| heap_mem := m |>).
Proof.
  intros [HO HC] Ha Hb Hm. split; [|exact HC]. eapply owns_write; [exact HO|by rewrite lookup_fmap, Ha|done|done].
Qed.

(** A block becomes an object. *)
Lemma dyn_ok_claim D s a n x :
  dyn_ok D s -> D !! a = Some (n, None) -> dyn_ok (<[a := (n, Some x)]> D) s.
Proof.
  intros [HO HC] Ha. split.
  - rewrite fmap_insert. cbn. rewrite insert_id; [done|]. by rewrite lookup_fmap, Ha.
  - intros r Hr. destruct (HC r Hr) as [?|(j & Ej)]; [by left|right]. exists j. rewrite lookup_insert_ne; [done|congruence].
Qed.

(** ** The simulated devices *)

(** [rt_device_find] changes nothing. *)
Lemma object_find_calm s name c :
  calm s -> interrupt_nest s = 0 -> rt_object_get_information c = Some c ->
  exists r, rt_object_find (Some name) c s = Done r s.
Proof.
  intros HC HN Hi. destruct (critical_calm s HC) as (s1 & E1 & E2 & _). unfold rt_object_find. rewrite Hi.
  eexists. erewrite bind_done by exact (not_in_interrupt_eq s HN). erewrite bind_done by exact E1.
  erewrite bind_done by reflexivity. erewrite bind_done by exact E2. reflexivity.
Qed.

(** The record and the object of a device are made and changed. *)
Lemma device_step N D s s' d n :
  unstarted N D s -> D !! Z.pos d = Some (n, Some (device_ref d)) ->
  s' = s <| objs := objs s' |> <| containers := containers s' |> <| devices := devices s' |> <| rvc := rvc s' |> ->
  (forall r, r <> device_ref d -> objs s' !! r = objs s !! r) ->
  (forall c, object_list s' c = object_list s c \/
     c = RT_Object_Class_Device /\ object_list s' c = device_ref d :: object_list s c) ->
  unstarted N D s'.
Proof.
  intros HU HB E EO EL. pose proof (us_dyn _ _ _ HU) as HD.
  assert (HS : same_kernel s s') by (split; [..]; rewrite E; done).
  assert (EL' : forall c, c <> RT_Object_Class_Device -> object_list s' c = object_list s c).
  { intros c Hc. by destruct (EL c) as [?|[? _]]. }
  assert (HH : heap_same heap_private s s').
  { split; try (by rewrite E); [|by rewrite EL']. intros r Hr. apply EO. intros ->. by destruct (private_kind _ Hr). }
  apply (unstarted_step N N D D s s' HU HS); [by intros c [-> | ->]; apply EL'| |by eapply room_same, us_room].
  apply (dyn_ok_step D s s' HD); [exact HH|].
  intros r _ [Hl Hu]. destruct (decide (r = device_ref d)) as [->|Hne]; [right; by exists n|left]. split.
  - intros c. destruct (EL c) as [->|[-> ->]]; [apply Hl|]. intros [->|Hin]%elem_of_cons; [done|]. by apply (Hl RT_Object_Class_Device).
  - revert Hu. unfold unused, queue. by rewrite E.
Qed.

(** Clearing a block. *)
Lemma dyn_ok_memset D s a k o n :
  dyn_ok D s -> D !! a = Some (k, o) -> 0 <= n <= k -> dyn_ok D (s <| heap_mem ::= rt_memset a 0 n |>).
Proof.
  intros HD Ha Hn. pose proof (owns_bytes _ _ (dy_heap _ _ HD)) as Hb. apply (dyn_ok_write D s a k o _ HD Ha).
  - intros y. rewrite rt_memset_correct by lia. case_match; [done|apply Hb].
  - intros y Hy. rewrite rt_memset_correct by lia. by rewrite (in_range_narrow a k) by (done || lia).
Qed.

Lemma unstarted_heap N N' D D' s s' :
  unstarted N D s -> heap_step s s' -> dyn_ok D' s' -> heap_room N' s' -> unstarted N' D' s'.
Proof.
  intros HU HS HD HR. pose proof (heap_step_data _ _ HS) as Hd. unfold heap_step in HS.
  apply (unstarted_step N N' D D' s s' HU Hd); [|done..]. intros c _. unfold object_list. by rewrite HS.
Qed.

Lemma unstarted_memset N D s a k o n :
  unstarted N D s -> D !! a = Some (k, o) -> 0 <= n <= k -> unstarted N D (s <| heap_mem ::= rt_memset a 0 n |>).
Proof.
  intros HU Ha Hn. apply (unstarted_heap N N D D s); [done|by destruct s|eapply dyn_ok_memset; [apply HU|done|done]|].
  eapply dyn_room_memset; [apply HU|done|done|apply HU].
Qed.

Lemma unstarted_claim N D s a n x :
  unstarted N D s -> D !! a = Some (n, None) -> unstarted N (<[a := (n, Some x)]> D) s.
Proof.
  intros HU Ha. apply (unstarted_step N N D _ s s HU); [done..| |apply HU]. apply dyn_ok_claim; [apply HU|done].
Qed.

Lemma device_create_ok N D s type size :
  unstarted N D s -> 0 <= RT_ALIGN size RT_ALIGN_SIZE <= 2 ^ 20 ->
  let cost := block_cost (60 + RT_ALIGN size RT_ALIGN_SIZE) in cost <= N ->
  exists d s' k, rt_device_create type size s = Done (Some d) s' /\
    let D' := <[Z.pos d := (k, Some (device_ref d))]> D in
    unstarted (N - cost) D' s' /\ unlisted (device_ref d) s' /\ is_Some (devices s' !! d) /\ D !! Z.pos d = None.
Proof.
  intros HU Hsz cost HN. unfold rt_device_create. cbv zeta.
  assert (E60 : RT_ALIGN (object_size RT_Object_Class_Device) RT_ALIGN_SIZE = 60) by (by vm_compute). rewrite E60.
  rewrite u32_small by lia. pose proof (us_dyn _ _ _ HU) as HD.
  destruct (dyn_malloc_ok D s (60 + RT_ALIGN size RT_ALIGN_SIZE) HD) as (q & s1 & E1 & HR); [lia|]. erewrite bind_done by exact E1.
  destruct (dyn_room_malloc D N s (60 + RT_ALIGN size RT_ALIGN_SIZE) q s1 HD (us_room _ _ _ HU) ltac:(lia) HN E1) as [[a ->] HR1].
  destruct HR as (Ha & Hreg & HS1 & k & Hk & HD1). pose proof (region_pos _ Hreg) as Hpos.
  pose proof (unstarted_heap N _ D _ s s1 HU HS1 HD1 HR1) as HU1. set (d := Z.to_pos a).
  assert (Ea : a = Z.pos d) by (symmetry; by apply Z2Pos.id). rewrite Ea in HU1, Ha, Hreg.
  assert (Hl1 : unlisted (device_ref d) s1).
  { destruct (dyn_ok_fresh D s (Z.pos d) (device_ref d) HD Hreg Ha eq_refl) as [Hl _]. intros c. unfold heap_step in HS1.
    unfold object_list. rewrite HS1. apply Hl. }
  set (sz := object_size RT_Object_Class_Device). assert (Esz : sz = 60) by (by vm_compute). clearbody sz.
  set (D1 := <[Z.pos d := (k, None)]> D) in *.
  set (s2 := s1 <| heap_mem ::= rt_memset a 0 sz |>).
  assert (HU2 : unstarted (N - cost) (<[Z.pos d := (k, Some (device_ref d))]> D1) s2).
  { unfold s2. rewrite Ea. apply unstarted_claim; [|apply lookup_insert_eq]. eapply unstarted_memset; [exact HU1|apply lookup_insert_eq|lia]. }
  unfold D1 in HU2. rewrite insert_insert_eq in HU2. eexists d, _, k. split; [reflexivity|]. cbv zeta.
  split; [|split; [exact Hl1|split; [|exact Ha]]].
  - eapply (device_step _ _ s2 _ d k HU2); [apply lookup_insert_eq|by destruct s1|..].
    + intros r Hr. cbn. by apply lookup_insert_ne.
    + intros c. by left.
  - eexists. cbn. apply lookup_insert_eq.
Qed.

Context `{!Environment}.

Lemma device_register_ok N D s d name flags k :
  unstarted N D s -> D !! Z.pos d = Some (k, Some (device_ref d)) -> unlisted (device_ref d) s -> is_Some (devices s !! d) ->
  exists e s', rt_device_register (Some d) name flags s = Done e s' /\ unstarted N D s'.
Proof.
  intros HU HB Hl [x Hx]. unfold rt_device_register, rt_device_find. pose proof (unstarted_calm _ _ _ HU) as HC.
  destruct (object_find_calm s name RT_Object_Class_Device HC (us_nest _ _ _ HU) eq_refl) as (r & E).
  erewrite (bind_done _ _ s _ s) by (by erewrite bind_done by exact E). case_bool_decide; [by exists (- RT_ERROR), s|].
  destruct (object_init_calm s (device_ref d) RT_Object_Class_Device name HC eq_refl (Hl _)) as (o & _ & Eo).
  erewrite bind_done by exact Eo. set (s1 := s <| objs ::= _ |> <| containers ::= _ |>).
  eexists _, _. split.
  { erewrite bind_done; [reflexivity|]. unfold mod_device, get_device. erewrite bind_done; [reflexivity|].
    erewrite bind_done by reflexivity. change (devices s1) with (devices s). rewrite Hx. reflexivity. }
  apply (device_step N D s _ d k HU HB).
  - by destruct s.
  - intros r' Hr. cbn. by apply lookup_insert_ne.
  - intros c. destruct (decide (c = RT_Object_Class_Device)) as [->|Hc]; [right|left].
    + split; [done|]. unfold object_list. cbn. apply lookup_total_insert_eq.
    + unfold object_list. cbn. by apply lookup_total_insert_ne.
Qed.

(** What a simulated device takes of the heap. *)
Definition mock_cost : Z := block_cost (60 + RT_ALIGN SIZE RT_ALIGN_SIZE).

Lemma mock_device_ok N D s put ops name :
  unstarted N D s -> mock_cost <= N ->
  exists D' s', mock_device_init put ops name s = Done tt s' /\ unstarted (N - mock_cost) D' s'.
Proof.
  intros HU HN. unfold mock_device_init.
  destruct (device_create_ok N D s RT_Device_Class_Mock SIZE HU) as (d & s1 & k & E1 & HU1 & Hl & [x Hx] & Hn); [by vm_compute|done|].
  fold mock_cost in HU1. set (D' := <[_ := _]> D) in *.
  assert (HB : D' !! Z.pos d = Some (k, Some (device_ref d))) by apply lookup_insert_eq.
  set (s2 := s1 <| rvc ::= put (Some d) |> <| devices ::= <[d := x <| dv_ops := Some ops |>]> |>).
  assert (HU2 : unstarted (N - mock_cost) D' s2).
  { eapply (device_step _ D' s1 s2 d k HU1 HB); [by destruct s1|done|by left]. }
  destruct (device_register_ok _ D' s2 d (bytes_of name) RT_DEVICE_FLAG_RDWR k HU2 HB Hl) as (e & s3 & E3 & HU3).
  { eexists. apply lookup_insert_eq. }
  exists D', s3. split; [|done]. erewrite bind_done by exact E1. erewrite bind_done by reflexivity.
  erewrite bind_done by reflexivity.
  erewrite (bind_done (mod_device _ _) _ _ tt s2).
  2:{ unfold mod_device, get_device. erewrite bind_done; [reflexivity|]. erewrite bind_done by reflexivity.
      change (devices (s1 <| rvc ::= put (Some d) |>)) with (devices s1). rewrite Hx. reflexivity. }
  by erewrite bind_done by exact E3.
Qed.

(** A part of start-up that leaves the kernel unstarted, with room for [N] bytes. *)
Definition still_unstarted (N : Z) {A} (o : outcome kstate A) : Prop :=
  exists a D s, o = Done a s /\ unstarted N D s.

Lemma still_bind {A B} (m : K A) (f : A -> K B) s N (Q : outcome kstate B -> Prop) :
  still_unstarted N (m s) -> (forall a D s', unstarted N D s' -> Q (f a s')) -> Q ((m ≫= f) s).
Proof. intros (a & D & s' & E & HU) Hf. unfold mbind, prog_bind. rewrite E. cbn. by eapply Hf. Qed.

Lemma mock_devices_ok N D s :
  unstarted N D s -> 4 * mock_cost <= N -> still_unstarted (N - 4 * mock_cost) (rt_mock_devices_init s).
Proof.
  assert (HM : forall N D s put ops name, unstarted N D s -> mock_cost <= N -> still_unstarted (N - mock_cost) (mock_device_init put ops name s)).
  { clear N D s. intros N D s put ops name HU HN. destruct (mock_device_ok N D s put ops name HU HN) as (D' & s' & ? & ?).
    by exists tt, D', s'. }
  intros HU HN. assert (Hc : 0 < mock_cost) by (by vm_compute).
  unfold rt_mock_devices_init. replace (N - 4 * mock_cost) with (N - mock_cost - mock_cost - mock_cost - mock_cost) by lia.
  do 3 (eapply still_bind; [eapply HM; [exact HU|lia]|clear D s HU; intros _ D s HU]). eapply HM; [exact HU|lia].
Qed.

Lemma unstarted_quiet N D s s' :
  unstarted N D s ->
  s' = s <| queues := queues s' |> <| mem := mem s' |> <| mempools := mempools s' |> <| siginfo_pool := siginfo_pool s' |>
         <| out := out s' |> -> (forall h, queue s' h = queue s h) -> unstarted N D s'.
Proof.
  intros HU E HQ. assert (HH : heap_same heap_private s s') by (split; try (by rewrite E); by intros).
  apply (unstarted_step N N D D s s' HU).
  - split; try (by rewrite E); exact HQ.
  - intros c _. unfold object_list. by rewrite E.
  - apply (dyn_ok_step D s s'); [apply HU|exact HH|].
    intros r _ [Hl Hu]. left. split; [intros c; unfold object_list; rewrite E; apply Hl|].
    revert Hu. unfold unused. rewrite !HQ. by rewrite E.
  - eapply room_same; [exact HH|apply HU].
Qed.

Lemma unstarted_clear_queue N D s q : unstarted N D s -> unstarted N D (s <| queues ::= <[q := []]> |>).
Proof.
  intros HU. apply (unstarted_quiet N D s); [done|by destruct s|]. intros h. apply queue_init. apply HU.
Qed.

Lemma link_blocks_eq n off st sd s : exists m, link_blocks n off st sd s = Done tt (s <| mem := m |>).
Proof.
  revert off s. induction n as [|n IH]; intros off s; cbn [link_blocks].
  - exists (mem s). by destruct s.
  - set (s1 := s <| mem ::= <[st + off * sd := PAddr (st + (off + 1) * sd)]> |>). destruct (IH (off + 1) s1) as (m & E).
    exists m. erewrite bind_done by reflexivity. etrans; [exact E|]. by destruct s.
Qed.

Lemma created_unstarted N N' D D' c x s s' :
  unstarted N D s -> created c x s s' -> c <> RT_Object_Class_Thread -> c <> RT_Object_Class_Timer ->
  dyn_ok D' s' -> heap_room N' s' -> unstarted N' D' s'.
Proof.
  intros HU [C1 C2 C3] Hc1 Hc2 HD HR. apply (unstarted_step N N' D D' s s' HU C1); [|done..].
  intros c' [-> | ->]; rewrite C3; by rewrite decide_False by done.
Qed.

Lemma mp_create_start N D s name count size :
  unstarted N D s -> 0 < count < 2 ^ 16 -> 0 < size < 2 ^ 16 -> (RT_ALIGN size RT_ALIGN_SIZE + SIZEOF_PTR) * count < 2 ^ 20 ->
  0 <= RT_ALIGN size RT_ALIGN_SIZE ->
  let c1 := block_cost (object_size RT_Object_Class_MemPool) in
  let c2 := block_cost ((RT_ALIGN size RT_ALIGN_SIZE + SIZEOF_PTR) * count) in c1 + c2 <= N ->
  exists mp s' D', rt_mp_create name count size s = Done (Some mp) s' /\ unstarted (N - c1 - c2) D' s'.
Proof.
  intros HU Hc Hz Hb Ha0 c1 c2 HN. pose proof (unstarted_kok _ _ _ HU) as HK. pose proof (us_dyn _ _ _ HU) as HD.
  unfold rt_mp_create. erewrite bind_done by exact (not_in_interrupt_eq s (us_nest _ _ _ HU)).
  erewrite bind_done by (unfold rt_assert; rewrite (proj2 (andb_true_iff _ _)) by lia; reflexivity).
  set (stride := RT_ALIGN size RT_ALIGN_SIZE + SIZEOF_PTR) in *.
  assert (Hst : 0 <= stride * count) by (unfold stride, SIZEOF_PTR in *; nia).
  destruct (object_create_ok D s RT_Object_Class_MemPool name HD HK (us_nest _ _ _ HU) ltac:(set_solver) ltac:(done))
    as (q & s1 & E1 & HR); erewrite bind_done by exact E1.
  destruct (room_allocate D N s RT_Object_Class_MemPool name q s1 HD (us_nest _ _ _ HU) ltac:(set_solver) ltac:(done) (us_room _ _ _ HU)
    ltac:(fold c1; unfold c2, block_cost in *; lia) E1) as [[a ->] HR1]. fold c1 in HR1.
  destruct HR as (k & Ha & Hpos & Hk & Hx & Hh & Hcl & Hu & HCr & HK1 & Ho & Es1 & HD1). cbv zeta.
  set (x := Z.to_pos a) in *. change (object_at RT_Object_Class_MemPool a) with (mp_ref x) in *.
  assert (HU1 : unstarted (N - c1) (<[a := (k, Some (mp_ref x))]> D) s1).
  { eapply created_unstarted; [exact HU|exact HCr|done|done|exact HD1|exact HR1]. }
  rewrite u32_small by lia.
  destruct (dyn_malloc_ok _ s1 (stride * count) HD1 ltac:(lia)) as (q & s2 & E2 & HR2); erewrite bind_done by exact E2.
  destruct (dyn_room_malloc _ _ s1 _ q s2 HD1 HR1 Hst ltac:(fold c2; lia) E2) as [[st ->] HRm]. fold c2 in HRm.
  destruct HR2 as (_ & _ & HS2 & n & Hn & HD2). pose proof (unstarted_heap _ _ _ _ _ _ HU1 HS2 HD2 HRm) as HU2.
  set (s3 := s2 <| queues ::= <[QSuspend (mp_ref x) := []]> |>).
  pose proof (unstarted_clear_queue _ _ _ (QSuspend (mp_ref x)) HU2 : unstarted _ _ s3) as HU3.
  destruct (link_blocks_eq (Z.to_nat count) 0 st stride s3) as (m & E4).
  eexists x, _, _. split.
  { erewrite bind_done by reflexivity. erewrite bind_done by exact E4. erewrite bind_done by reflexivity.
    erewrite bind_done by reflexivity. reflexivity. }
  apply (unstarted_quiet _ _ s3 _ HU3); [by destruct s3|done].
Qed.

(** What the pool of the queued signals takes. *)
Definition signal_cost : Z :=
  block_cost (object_size RT_Object_Class_MemPool) +
  block_cost ((RT_ALIGN SIZEOF_SIGINFO_NODE RT_ALIGN_SIZE + SIZEOF_PTR) * RT_SIG_INFO_MAX).

Lemma signal_init_ok N D s :
  unstarted N D s -> signal_cost <= N -> still_unstarted (N - signal_cost) (rt_system_signal_init s).
Proof.
  intros HU HN. unfold rt_system_signal_init.
  destruct (mp_create_start N D s (bytes_of "signal") RT_SIG_INFO_MAX SIZEOF_SIGINFO_NODE HU)
    as (mp & s1 & D' & E & HU'); [by vm_compute..|exact HN|].
  eexists _, D', _. split; [erewrite bind_done by exact E; reflexivity|]. unfold signal_cost. rewrite Z.sub_add_distr.
  apply (unstarted_quiet _ _ s1 _ HU'); [by destruct s1|done].
Qed.

Lemma prints_quiet N D s format args : unstarted N D s -> still_unstarted N (rt_kprintf format args s).
Proof.
  intros HU. exists tt, D, (s <| out ::= cons (OPrint format args) |>). split; [done|].
  apply (unstarted_quiet N D s); [done|by destruct s|done].
Qed.

Lemma version_ok N D s : unstarted N D s -> still_unstarted N (rt_show_version s).
Proof.
  intros HU. unfold rt_show_version. do 3 (eapply still_bind; [by eapply prints_quiet|clear D s HU; intros _ D s HU]).
  by eapply prints_quiet.
Qed.

Lemma timer_init_ok N D s : unstarted N D s -> still_unstarted N (rt_system_timer_init s).
Proof.
  intros HU. exists tt, D, s. split; [|done]. unfold rt_system_timer_init, modify. f_equal.
  pose proof (us_timers _ _ _ HU) as E. destruct s. cbn in E. by subst.
Qed.

Lemma scheduler_init_ok N D s : unstarted N D s -> still_unstarted N (rt_system_scheduler_init s).
Proof.
  intros HU. eexists tt, D, _. split; [reflexivity|]. set (s' := s <| scheduler_lock_nest := 0 |> <| queues ::= _ |> <| ready_priority_group := 0 |>).
  assert (HQ : forall h, queue s' h = queue s h).
  { assert (HF : forall (l : list Z) (q : gmap qhead (list tid)) h, q !!! h = [] ->
      foldr (fun p q => <[QReady p := []]> q) q l !!! h = []).
    { clear. induction l as [|p l IH]; intros q h Hq; cbn; [done|]. destruct (decide (QReady p = h)) as [->|Hne].
      - apply lookup_total_insert_eq.
      - rewrite lookup_total_insert_ne by done. by apply IH. }
    intros h. rewrite (us_queue _ _ _ HU). apply HF. apply HU. }
  assert (HH : heap_same heap_private s s') by (by split).
  apply (unstarted_step N N D D s s' HU).
  - split; try done; [by rewrite (us_group _ _ _ HU)|by rewrite (us_lock _ _ _ HU)].
  - done.
  - apply (dyn_ok_step D s s'); [apply HU|exact HH|].
    intros r _ [Hl Hu]. left. split; [exact Hl|]. revert Hu. unfold unused. by rewrite !HQ.
  - eapply room_same; [exact HH|apply HU].
Qed.

(** A driver makes devices and other objects, takes at most [n] bytes of the heap,
    starts no thread and adds no second heap, as [SDRAM_Init] of drv_sdram.c
    does on a board with SDRAM. *)
Definition driver_ok (n : Z) (d : K unit) : Prop :=
  forall N D s, unstarted N D s -> n <= N -> exists D' s', d s = Done tt s' /\ unstarted (N - n) D' s'.

Lemma driver_still n d N D s : driver_ok n d -> unstarted N D s -> n <= N -> still_unstarted (N - n) (d s).
Proof. intros Hd HU HN. destruct (Hd N D s HU HN) as (D' & s' & ? & ?). by exists tt, D', s'. Qed.

(** ** The first threads *)

(** No thread runs yet: there are the threads [T], in the lists [Q]. *)
Record prepared (D : gmap Z (Z * option ref)) (T : gmap tid rt_thread) (Q : qhead -> list tid) (s : kstate) : Prop := {
  pr_kok : kok s;
  pr_dyn : dyn_ok D s;
  pr_current : current_thread s = None;
  pr_lock : scheduler_lock_nest s = 0;
  pr_nest : interrupt_nest s = 0;
  pr_threads : threads s = T;
  pr_queue h : queue s h = Q h }.

Lemma prepared_calm D T Q s : prepared D T Q s -> calm s.
Proof. intros []. by apply calm_boot. Qed.

Definition flagged (th : rt_thread) : rt_thread := th <| end_flag := 1 |>.
(** A thread after [rt_thread_startup] and [set_end_flag]. *)
Definition launched (th : rt_thread) : rt_thread := flagged (put_stat RT_THREAD_READY (started th)).
Definition enlisted (p : Z) (t : tid) (Q : qhead -> list tid) (h : qhead) : list tid :=
  if decide (QReady p = h) then Q h ++ [t] else Q h.

Lemma thread_launch_ok D T Q s t th :
  prepared D T Q s -> covered D t -> T !! t = Some th -> stat_of th = RT_THREAD_INIT ->
  0 <= init_priority th < RT_THREAD_PRIORITY_MAX ->
  exists s', (rt_thread_startup t;; set_end_flag t) s = Done tt s' /\
    prepared D (<[t := launched th]> T) (enlisted (init_priority th) t Q) s' /\
    (forall c, object_list s' c = object_list s c) /\ (forall tm, tm ∈ timer_list s' -> tm ∈ timer_list s).
Proof.
  intros [HK HD HC HL HN HT HQ] Hcov Hth Hst Hp. rewrite <- HT in Hth.
  destruct (thread_startup_ok s t th HK Hth Hst Hp) as (s1 & HK1 & F & HC1 & HT1 & HQ1 & _ & HTl & E); [by rewrite HC|].
  rewrite HC in E. pose proof (dyn_ok_startup D s s1 t _ _ HD Hcov F HT1 HQ1 HTl) as HD1.
  assert (Hth1 : threads s1 !! t = Some (put_stat RT_THREAD_READY (started th))) by (rewrite HT1; apply lookup_insert_eq).
  destruct (kok_set_thread s1 t _ (launched th) HK1 Hth1) as [HK2 F2]; [done..|].
  set (s2 := s1 <| threads ::= <[t := launched th]> |>) in *. exists s2. split; [|split; [|split]].
  - erewrite bind_done by exact E. unfold set_end_flag. rewrite (mod_thread_eq _ _ _ _ Hth1). done.
  - split.
    + done.
    + apply (dyn_ok_step D s1 s2 HD1); [done|]. intros r Hr [Hl (U1 & U2 & U3)].
      destruct (decide (owner_of r = thread_ref t)) as [Er|Er].
      { right. unfold covered, home in *. rewrite Er in Hr |- *. by apply Hcov. }
      left. split; [done|]. split; [done|]. split; [done|]. destruct r as [[] u]; try done.
      intros uh. cbn. rewrite lookup_insert_ne by (by intros ->). apply U3.
    + by rewrite <- HC, <- HC1.
    + by rewrite <- HL, <- (kf_lock _ _ F).
    + by rewrite <- HN, <- (kf_nest _ _ F).
    + change (threads s2) with (<[t := launched th]> (threads s1)). by rewrite HT1, insert_insert_eq, HT.
    + intros h. change (queue s2 h) with (queues s1 !!! h). rewrite HQ1, q_push_back_lookup. unfold enlisted.
      fold (queue s h). rewrite <- HQ. case_decide as Eh; [|done]. by subst h.
  - intros c. change (object_list s2 c) with (object_list s1 c). unfold object_list. by rewrite (kf_eq _ _ F).
  - exact HTl.
Qed.

(** The main thread. *)
(** What the object and the stack of a thread take. *)
Definition thread_cost (size : Z) : Z := block_cost (object_size RT_Object_Class_Thread) + block_cost size.

Lemma thread_create_room N D s name size prio tick r s' :
  dyn_ok D s -> kok s -> interrupt_nest s = 0 -> heap_room N s -> 0 <= size <= 2 ^ 32 - 4 -> thread_cost size <= N ->
  rt_thread_create name size prio tick s = Done r s' -> is_Some r.
Proof.
  unfold thread_cost. intros HD HK HN HR Hs HC E.
  destruct (object_create_ok D s RT_Object_Class_Thread name HD HK HN ltac:(set_solver) ltac:(done)) as (q & s1 & E1 & HQ).
  destruct (room_allocate D N s RT_Object_Class_Thread name q s1 HD HN ltac:(set_solver) ltac:(done) HR
    ltac:(unfold block_cost in *; lia) E1) as [[a ->] HR1].
  destruct HQ as (k & _ & _ & _ & _ & _ & _ & _ & _ & _ & _ & _ & HD1).
  destruct (dyn_malloc_ok _ s1 size HD1 ltac:(lia)) as (q & s2 & E2 & _).
  destruct (dyn_room_malloc _ _ s1 size q s2 HD1 HR1 ltac:(lia) ltac:(lia) E2) as [[st ->] _].
  unfold rt_thread_create in E. erewrite bind_done in E by exact E1. cbv beta iota zeta in E. erewrite bind_done in E by exact E2.
  unfold mbind, prog_bind in E. destruct (thread_init _ _ _ _ _ s2); [|done..]. cbn in E. by injection E as <- _.
Qed.

Lemma application_init_ok N D s :
  unstarted N D s -> thread_cost RT_MAIN_THREAD_STACK_SIZE <= N -> ~ heap_region (home (thread_ref idle)) ->
  exists D' t st s', rt_application_init s = Done tt s' /\
    let th := launched (new_thread st RT_MAIN_THREAD_STACK_SIZE RT_MAIN_THREAD_PRIORITY 20) in
    prepared D' {[t := th]} (enlisted RT_MAIN_THREAD_PRIORITY t (fun _ => [])) s' /\ t <> idle /\ idle_unused s' /\
    timer_list s' = [] /\
    exists n k, RT_MAIN_THREAD_STACK_SIZE <= n /\ Z.pos t <> st /\ D' = <[st := (n, None)]> (<[Z.pos t := (k, Some (thread_ref t))]> D).
Proof.
  intros HU HN Hid. pose proof (unstarted_kok _ _ _ HU) as HK. pose proof (us_dyn _ _ _ HU) as HD.
  unfold rt_application_init.
  destruct (thread_create_ok D s (bytes_of "main") RT_MAIN_THREAD_STACK_SIZE RT_MAIN_THREAD_PRIORITY 20 HD HK
    (unstarted_calm _ _ _ HU) (us_nest _ _ _ HU)) as (q & s1 & E1 & HK1 & HR); [by vm_compute|by vm_compute|].
  destruct (thread_create_room N D s (bytes_of "main") RT_MAIN_THREAD_STACK_SIZE RT_MAIN_THREAD_PRIORITY 20 q s1 HD HK (us_nest _ _ _ HU) (us_room _ _ _ HU) ltac:(by vm_compute) HN E1) as [t ->].
  destruct HR as (D' & HM). pose proof (tm_threads _ _ _ _ _ _ _ _ HM) as (st & k & n & HT1 & Hn & N1 & N2 & Hne & ED).
  pose proof (tm_same _ _ _ _ _ _ _ _ HM) as HS. set (th := new_thread _ _ _ _) in *.
  rewrite (us_threads _ _ _ HU) in HT1.
  assert (HP : prepared D' {[t := th]} (fun _ => []) s1).
  { split; [done|apply HM|..].
    - etrans; [apply (sd_current _ _ HS)|apply HU].
    - etrans; [apply (sd_lock _ _ HS)|apply HU].
    - etrans; [apply (sd_nest _ _ HS)|apply HU].
    - done.
    - intros h. etrans; [apply (sd_queue _ _ HS)|apply HU]. }
  assert (HB : D' !! home (thread_ref t) = Some (k, Some (thread_ref t))).
  { rewrite ED, lookup_insert_ne by done. apply lookup_insert_eq. }
  destruct (thread_launch_ok D' _ _ s1 t th HP (covered_object D' t k HB)) as (s2 & E2 & HP2 & HL2 & Htl);
    [apply lookup_singleton_eq|done|by vm_compute|].
  assert (Hti : t <> idle).
  { intros ->. apply Hid. eapply owns_region; [apply HM|]. by rewrite lookup_fmap, HB. }
  exists D', t, st, s2. split; [|split; [|split; [exact Hti|split; [|split]]]].
  - erewrite bind_done by exact E1. by erewrite bind_done by reflexivity.
  - rewrite insert_singleton_eq in HP2. exact HP2.
  - destruct (us_idle _ _ _ HU) as [I1 I2]. split; rewrite HL2, (tm_list _ _ _ _ _ _ _ _ HM).
    + rewrite decide_True by done. intros [E|?]%elem_of_cons; [|done]. apply Hti. by injection E as <-.
    + rewrite decide_False, decide_True by done. intros [E|?]%elem_of_cons; [|done]. apply Hti. by injection E as <-.
  - assert (El : timer_list s1 = []) by (etrans; [apply (sd_timer_list _ _ HS)|apply HU]).
    destruct (timer_list s2) as [|tm l]; [done|]. specialize (Htl tm ltac:(by left)). rewrite El in Htl. by apply elem_of_nil in Htl.
  - exists n, k. split; [done|]. by split; [intros E; apply Hne|].
Qed.

(** A thread that is not on the heap. *)
Lemma static_thread_ok D T Q s t name st size prio tick :
  prepared D T Q s -> ~ heap_region (home (thread_ref t)) -> T !! t = None -> Q (QSuspend (thread_ref t)) = [] ->
  Q (QSender (thread_ref t)) = [] -> (forall h, t ∉ Q h) -> thread_timer t ∉ timer_list s ->
  thread_ref t ∉ object_list s RT_Object_Class_Thread ->
  timer_ref (thread_timer t) ∉ object_list s RT_Object_Class_Timer ->
  st <> 0 -> 76 <= size -> 0 <= prio < RT_THREAD_PRIORITY_MAX ->
  exists s', rt_thread_init t name st size prio tick s = Done RT_EOK s' /\
    prepared D (<[t := new_thread st size prio tick]> T) Q s' /\ timer_list s' = timer_list s.
Proof.
  intros HP Hreg HTt HQ1 HQ2 Hun Htm Hl1 Hl2 Hst Hsz Hpr. pose proof (prepared_calm _ _ _ _ HP) as HC.
  destruct HP as [HK HD Hcur HL HN HT HQ].
  destruct (object_init_calm s (thread_ref t) RT_Object_Class_Thread name HC eq_refl Hl1) as (o & Ho & E1).
  set (s1 := s <| objs ::= _ |> <| containers ::= _ |>) in E1.
  assert (HK1 : kok s1).
  { apply (kok_object s s1 (thread_ref t) HK); [by split|done|..].
    - split; [by rewrite HQ|]. split; [by rewrite HQ|]. intros th. by rewrite HT, HTt.
    - intros r Hr. by apply lookup_insert_ne. }
  assert (HL1 : forall c, object_list s1 c = if decide (c = RT_Object_Class_Thread) then thread_ref t :: object_list s c else object_list s c).
  { intros c. unfold object_list. cbn. case_decide as Ec; [subst c; apply lookup_total_insert_eq|by apply lookup_total_insert_ne]. }
  assert (HD1 : dyn_ok D s1).
  { apply (dyn_ok_step D s s1 HD).
    - split; try done. intros r Hr. cbn. apply lookup_insert_ne.
      intros <-. by destruct (private_kind _ Hr).
    - intros r Hr [Hl Hu]. left. split; [|exact Hu]. intros c. rewrite HL1. case_decide; [|apply Hl].
      intros [->|Hin]%elem_of_cons; [by apply Hreg|by apply (Hl RT_Object_Class_Thread); subst]. }
  destruct (thread_init_ok s1 t st size prio tick HK1) as (s2 & E2 & HK2 & HIn); [by apply calm_boot| | |done|done|].
  - split.
    + intros th. cbn. by rewrite HT, HTt.
    + intros h. change (queues s1 !!! h) with (queue s h). rewrite HQ. apply Hun.
    + done.
    + by rewrite HL1, decide_False by done.
  - exists o. split; [apply lookup_insert_eq|]. by rewrite Ho.
  - pose proof (in_eq _ _ _ _ HIn) as E12. exists s2. split; [|split].
    + unfold rt_thread_init. erewrite bind_done by (unfold rt_assert; by rewrite (proj2 (Z.eqb_neq _ _)) by done).
      by erewrite bind_done by exact E1.
    + split; try (by rewrite E12).
      * done.
      * eapply (dyn_ok_inited D s1); [exact HD1| |exact HIn]. by intros ?.
      * rewrite E12. cbn. by rewrite HT.
    + by rewrite E12.
Qed.

(** ** The scheduler starts *)
Lemma scheduler_start_ok D T Q s t p th :
  prepared D T Q s -> 0 <= p < RT_THREAD_PRIORITY_MAX -> head (Q (QReady p)) = Some t ->
  (forall q, 0 <= q < p -> Q (QReady q) = []) -> T !! t = Some th -> stat th = RT_THREAD_READY -> timer_list s = [] ->
  exists s' k, rt_system_scheduler_start s = Switch s' k /\ kok s' /\ dyn_ok D s' /\ current_thread s' = Some t /\
    interrupt_nest s' = 0 /\ scheduler_lock_nest s' = 0 /\
    threads s' = <[t := th <| stat := RT_THREAD_RUNNING |>]> T /\
    (forall h, queue s' h = filter (fun u => u <> t) (Q h)).
Proof.
  intros [HK HD Hcur HL HN HT HQ] Hp Hhd Hlow Hth Hst Htl. pose proof (ko_kinv _ HK) as HI.
  assert (Hin : t ∈ queue s (QReady p)).
  { rewrite HQ. destruct (Q (QReady p)); [done|]. injection Hhd as ->. by left. }
  assert (Hg : ready_priority_group s <> 0).
  { intros E. pose proof (ci_bits _ _ _ _ _ HI p Hp) as Hb. rewrite E, Z.bits_0 in Hb. symmetry in Hb.
    apply bool_decide_eq_false in Hb. apply Hb. intros E'. unfold queue in Hin. rewrite E' in Hin. by apply elem_of_nil in Hin. }
  destruct (highest_eq ∅ s HI Hg) as (t' & p' & Eh & Hp' & Hhd' & Hlow').
  assert (p' = p) as ->.
  { destruct (Z.lt_trichotomy p' p) as [Hlt|[?|Hlt]]; [|done|].
    - rewrite HQ, Hlow in Hhd' by lia. done.
    - rewrite Hlow' in Hin by lia. by apply elem_of_nil in Hin. }
  rewrite HQ, Hhd in Hhd'. injection Hhd' as <-. rewrite <- HT in Hth.
  set (s1 := s <| current_thread := Some t |>).
  assert (HI1 : kinv_ex {[t]} s1).
  { unfold kinv, kinv_ex in HI. rewrite Hcur in HI. eapply core_inv_weaken; [|apply (core_inv_cur _ _ _ _ _ t HI); by exists th].
    clear. set_solver. }
  assert (Hst' : stat_of th <> RT_THREAD_INIT) by (unfold stat_of; by rewrite Hst).
  destruct (kinv_remove {[t]} t th s1 HI1 Hth Hst') as (s2 & E2 & HI2 & Hun2 & HQ2 & HT2 & HC2 & HF2).
  assert (Hth2 : threads s2 !! t = Some th) by (by rewrite HT2).
  destruct (kinv_set_running _ s2 t th HI2 Hth2 Hst' Hun2) as (s3 & E3 & _ & HI3 & HC3 & HF3 & HQ3 & HT3); [by rewrite HC2|].
  assert (Eput : put_stat RT_THREAD_RUNNING th = th <| stat := RT_THREAD_RUNNING |>).
  { unfold put_stat. rewrite Hst. by destruct th. }
  assert (HF : kframe s1 s3) by (etrans; by apply sched_kframe).
  assert (HF0 : kframe s s3) by (etrans; [|exact HF]; apply kframe_sched_data; by destruct s).
  assert (HT3' : threads s3 = <[t := th <| stat := RT_THREAD_RUNNING |>]> (threads s)) by (rewrite HT3, HT2, Eput; done).
  assert (HQ3' : forall h, queue s3 h = filter (fun u => u <> t) (queue s h)).
  { intros h. unfold queue. by rewrite HQ3, HQ2, q_remove_lookup. }
  exists s3, (fun _ => Fault). split_and!.
  - unfold rt_system_scheduler_start. erewrite bind_done by exact Eh. cbv beta iota.
    erewrite bind_done by reflexivity. erewrite bind_done by exact E2.
    erewrite (bind_done _ _ s2 tt s3); [done|]. rewrite (mod_thread_eq _ _ _ _ Hth2). rewrite <- Eput.
    rewrite (mod_thread_eq _ _ _ _ Hth2) in E3. exact E3.
  - apply (kok_frame s s3 HK).
    + eapply kinv_ex_empty; [|exact HI3]. clear. set_solver.
    + exact HF0.
    + intros u uh. rewrite HT3'. destruct (decide (u = t)) as [->|Hne].
      * intros _. exists th. split; [done|]. intros _. unfold stat_of. by rewrite Hst.
      * rewrite lookup_insert_ne by done. eauto.
    + intros u. unfold thread_timer_ok. destruct HF2 as [EF2 _], HF3 as [EF3 _]. by rewrite EF3, EF2.
    + destruct HF2 as [EF2 _], HF3 as [EF3 _]. rewrite EF3, EF2. cbn. rewrite Htl. by intros tm ?%elem_of_nil.
  - apply (dyn_ok_step D s s3 HD).
    + split; try (by rewrite (kf_eq _ _ HF0)).
      * intros r Hr. apply (kf_objs _ _ HF0). by destruct (private_kind r Hr) as [-> | ->].
      * intros x Hx. by rewrite HQ3', (owns_idle _ _ _ (dy_heap _ _ HD) Hx).
    + intros r _ [Hl (U1 & U2 & U3)]. left. split; [|split; [|split]].
      * intros c. unfold object_list. rewrite (kf_eq _ _ HF0). apply Hl.
      * by rewrite HQ3', U1.
      * by rewrite HQ3', U2.
      * destruct r as [[] u]; try done.
        -- assert (Hne : u <> t).
           { intros ->. destruct (U3 th Hth) as [Hc _]. unfold stat_of in Hc. by rewrite Hst in Hc. }
           intros uh. rewrite HT3', lookup_insert_ne by done. intros Hu. destruct (U3 uh Hu) as [? Hq]. split; [done|].
           rewrite HQ3', list_elem_of_filter. tauto.
        -- destruct HF2 as [EF2 _], HF3 as [EF3 _]. rewrite EF3, EF2. cbn. rewrite Htl. apply not_elem_of_nil.
  - done.
  - by rewrite (kf_nest _ _ HF0).
  - by rewrite (kf_lock _ _ HF0).
  - by rewrite HT3', HT.
  - intros h. by rewrite HQ3', HQ.
Qed.
End Start.

(** ** From reset *)

(** The main thread runs, the idle thread is ready, and the invariants of the
    kernel and of the heap hold. *)
Record booted `{!HeapOps, !HeapSpec, !Layout} (D : gmap Z (Z * option ref)) (s : kstate) (t : tid) : Prop := {
  bt_kok : kok s;
  bt_dyn : dyn_ok D s;
  bt_current : current_thread s = Some t;
  bt_nest : interrupt_nest s = 0;
  bt_lock : scheduler_lock_nest s = 0;
  bt_main : exists st n k,
    threads s !! t = Some (launched (new_thread st RT_MAIN_THREAD_STACK_SIZE RT_MAIN_THREAD_PRIORITY 20) <| stat := RT_THREAD_RUNNING |>) /\
    D !! st = Some (n, None) /\ RT_MAIN_THREAD_STACK_SIZE <= n /\ D !! Z.pos t = Some (k, Some (thread_ref t));
  bt_idle : threads s !! idle =
    Some (launched (new_thread (addr_stack idle) IDLE_THREAD_STACK_SIZE (RT_THREAD_PRIORITY_MAX - 1) 32));
  bt_threads u : is_Some (threads s !! u) -> u = t \/ u = idle;
  bt_queue h : queue s h = if decide (QReady (RT_THREAD_PRIORITY_MAX - 1) = h) then [idle] else [] }.

(** Memory is not defined, and nothing has been initialised. *)
Record at_reset (s : kstate) : Prop := {
  ar_bytes : bytes (heap_mem s);
  ar_containers : containers s = ∅;
  ar_threads0 : threads s = ∅;
  ar_queue0 h : queue s h = [];
  ar_timers0 : timer_list s = [];
  ar_current0 : current_thread s = None;
  ar_lock0 : scheduler_lock_nest s = 0;
  ar_nest0 : interrupt_nest s = 0;
  ar_group0 : ready_priority_group s = 0 }.

Section Boot.
Context `{!SignalOps, !SystemHeap, !Board, !Layout, !Environment} (P : Z).
#[local] Abbreviation a0 := HEAP_BEGIN.

(** The memory from [HEAP_BEGIN] to [HEAP_END] is the heap's, the structure
    [_heap], the static objects and the stack of the idle thread are elsewhere. *)
Context (HP : P = RT_ALIGN_DOWN (u32 (HEAP_END - HEAP_BEGIN)) RT_ALIGN_SIZE) (HP60 : 60 <= P) (Ha4 : a0 mod 4 = 0).
Context (Hbefore : a0 < HEAP_END) (Hpl : placed addr_heap a0 P [(P - 48, false)]).
Context (Hh : 0 < addr_heap) (Ha0 : 0 < a0) (Hapart : addr_heap + 100 <= a0 \/ a0 + P <= addr_heap).
Context (Hidle : Z.pos idle < a0) (Hstack : addr_stack idle <> 0).
#[local] Instance boot_spec : HeapSpec := memheap_spec a0 P Hh Ha0 Hapart.
#[local] Instance boot_room : HeapRoom := memheap_has_room a0 P Hh Ha0 Hapart.

Lemma heap_init_ok s :
  at_reset s -> exists s', rt_system_heap_init HEAP_BEGIN HEAP_END s = Done tt s' /\ unstarted (P - 48) ∅ s'.
Proof.
  intros [R1 R2 R3 R4 R5 R6 R7 R8 R9]. assert (HL0 : forall c, object_list s c = []) by (intros c; unfold object_list; by rewrite R2).
  destruct (memheap_init_ok addr_heap a0 P s (bytes_of "heap") (u32 (HEAP_END - HEAP_BEGIN)) R6 R7 R1) as (s' & E & HA & HM);
    [rewrite HL0; apply not_elem_of_nil|rewrite HL0; apply not_elem_of_nil|done..|].
  destruct HM as [EM _ _ MQ ML]. pose proof (ha_lock _ _ _ _ _ _ HA) as (_ & _ & LQ). cbn in LQ.
  assert (HQ : forall h, queue s' h = []).
  { intros h. destruct (decide (h = QSuspend (sem_ref (heap_lock addr_heap)))) as [->|Hne]; [exact LQ|]. by rewrite MQ. }
  assert (HT : threads s' = ∅) by (by rewrite EM).
  exists s'. split.
  { unfold rt_system_heap_init. erewrite bind_done by (unfold rt_assert; by rewrite (proj2 (Z.ltb_lt _ _)) by done).
    by erewrite bind_done by exact E. }
  assert (Hlist : forall c r, r ∈ object_list s' c -> memheap_private r).
  { intros c r. rewrite ML, HL0. repeat case_decide; [intros ->%list_elem_of_singleton; by right| |by intros ?%elem_of_nil].
    intros ->%list_elem_of_singleton. by left. }
  split; try (by rewrite EM).
  - split.
    + split; [by rewrite ML, HL0|]. exists [(P - 48, false)], [a0]. split; [exact HA|]. by rewrite fmap_empty.
    + intros r Hr. left. split.
      * intros c Hin%Hlist. pose proof (memheap_private_region a0 P Hh Hapart r Hin) as Hn. apply Hn.
        destruct Hin as [-> | ->]; exact Hr.
      * split; [apply HQ|]. split; [apply HQ|]. destruct r as [[] u]; try done.
        -- by rewrite HT.
        -- rewrite EM. cbn. rewrite R5. apply not_elem_of_nil.
  - right. exists [(P - 48, false)], [a0], (P - 48). split; [exact HA|]. split; [by left|lia].
  - split; intros [[=]|[=]]%Hlist.
Qed.

(** The board sets up its clock without the kernel, and its drivers start no
    thread and leave enough of the heap. *)
Definition start_cost : Z := 4 * mock_cost + signal_cost + thread_cost RT_MAIN_THREAD_STACK_SIZE.
Context (Hclock : forall s, at_reset s -> exists s', board_clock s = Done tt s' /\ at_reset s').
Context (npin nusart nconsole ncomponents : Z).
Context (Hpin : driver_ok npin rt_hw_pin_init) (Husart : driver_ok nusart rt_hw_usart_init).
Context (Hconsole : driver_ok nconsole (rt_console_set_device RT_CONSOLE_DEVICE_NAME)).
Context (Hcomponents : driver_ok ncomponents rt_components_board_init).
Context (Hpos : 0 <= npin /\ 0 <= nusart /\ 0 <= nconsole /\ 0 <= ncomponents).
Context (Hroom : npin + nusart + nconsole + ncomponents + start_cost <= P - 48).

Lemma hooks_prepared D T Q s l : prepared D T Q s -> prepared D T Q (s <| idle_hook_list := l |>).
Proof.
  intros [HK HD HC HL HN HT HQ]. set (s' := s <| idle_hook_list := l |>). split; try done.
  - eapply kok_ext; [exact HK|done..].
  - apply (dyn_ok_step D s s' HD); [done|]. intros r _ Hc. by left.
Qed.

Lemma cpu_usage_init_ok D T Q s :
  prepared D T Q s -> exists s', cpu_usage_init s = Done tt s' /\ prepared D T Q s' /\ containers s' = containers s /\
    timer_list s' = timer_list s.
Proof.
  intros HP'. unfold cpu_usage_init, rt_thread_idle_sethook.
  destruct (replace_hook None (Some F_cpu_usage_idle_hook) (idle_hook_list s)) as [l|] eqn:El.
  - exists (s <| idle_hook_list := l |>). split; [|by split; [apply hooks_prepared|]].
    erewrite bind_done; [reflexivity|]. rewrite bind_gets, El. by erewrite bind_done by reflexivity.
  - exists s. split; [|done]. erewrite bind_done; [reflexivity|]. rewrite bind_gets, El. done.
Qed.

Lemma idle_not_region : ~ heap_region (home (thread_ref idle)).
Proof. intros [Hr _]. cbn in Hr. change RT_MEMHEAP_SIZE with 24 in Hr. lia. Qed.

(** From the creation of the main thread on. *)
Lemma threads_start_ok N D s :
  unstarted N D s -> thread_cost RT_MAIN_THREAD_STACK_SIZE <= N ->
  exists s' k D' t, (rt_application_init;; rt_system_timer_thread_init;; cpu_usage_init;; rt_thread_idle_init;;
    rt_system_scheduler_start) s = Switch s' k /\ booted D' s' t.
Proof.
  intros HU HN. destruct (application_init_ok N D s HU HN idle_not_region)
    as (D1 & t & st & s1 & E1 & HP1 & Hti & [I1 I2] & Htl & n & k & Hn & Hne & ED).
  erewrite bind_done by exact E1. erewrite bind_done by reflexivity.
  set (th := launched _) in *. set (Q1 := enlisted RT_MAIN_THREAD_PRIORITY t (fun _ => [])) in *.
  destruct (cpu_usage_init_ok D1 {[t := th]} Q1 s1 HP1) as (s2 & E2 & HP2 & Hc2 & Ht2). erewrite bind_done by exact E2.
  assert (HQ1 : forall h u, u ∈ Q1 h -> u = t).
  { intros h u. unfold Q1, enlisted. case_decide; cbn; [by intros ->%list_elem_of_singleton|by intros ?%elem_of_nil]. }
  assert (Hprio : 0 <= RT_THREAD_PRIORITY_MAX - 1 < RT_THREAD_PRIORITY_MAX) by (by vm_compute).
  destruct (static_thread_ok D1 {[t := th]} Q1 s2 idle (bytes_of "tidle0") (addr_stack idle) IDLE_THREAD_STACK_SIZE
    (RT_THREAD_PRIORITY_MAX - 1) 32 HP2 idle_not_region) as (s3 & E3 & HP3 & Ht3); try done.
  { by rewrite lookup_singleton_ne. } { intros h Hin%HQ1. by apply Hti. } { rewrite Ht2, Htl. apply not_elem_of_nil. }
  { unfold object_list. by rewrite Hc2. } { unfold object_list. by rewrite Hc2. }
  set (ih := new_thread (addr_stack idle) _ _ _) in *.
  destruct (thread_launch_ok D1 _ Q1 s3 idle ih HP3) as (s4 & E4 & HP4 & _ & Htl4);
    [by intros ?%idle_not_region|apply lookup_insert_eq|done|exact Hprio|].
  rewrite insert_insert_eq in HP4. change (init_priority ih) with (RT_THREAD_PRIORITY_MAX - 1) in HP4.
  assert (Ht4 : timer_list s4 = []).
  { destruct (timer_list s4) as [|tm l]; [done|]. specialize (Htl4 tm ltac:(by left)). rewrite Ht3, Ht2, Htl in Htl4. by apply elem_of_nil in Htl4. }
  destruct (scheduler_start_ok D1 _ _ s4 t RT_MAIN_THREAD_PRIORITY th HP4) as (s5 & k5 & E5 & HK5 & HD5 & HC5 & HN5 & HL5 & HT5 & HQ5).
  { by vm_compute. } { unfold enlisted at 1. rewrite decide_False by done. unfold Q1, enlisted. by rewrite decide_True. }
  { intros q Hq. unfold enlisted, Q1, enlisted. rewrite !decide_False; [done|intros [= ?]; lia|].
    change RT_MAIN_THREAD_PRIORITY with 10 in Hq. intros [= ?]. change (RT_THREAD_PRIORITY_MAX - 1) with 31 in *. lia. }
  { rewrite lookup_insert_ne by done. apply lookup_singleton_eq. } { done. } { exact Ht4. }
  exists s5, k5, D1, t. split.
  { erewrite (bind_done rt_thread_idle_init _ s2 tt s4); [exact E5|]. unfold rt_thread_idle_init. by erewrite bind_done by exact E3. }
  split; try done.
  - exists st, n, k. split; [rewrite HT5; apply lookup_insert_eq|]. rewrite ED. split; [apply lookup_insert_eq|]. split; [done|].
    rewrite lookup_insert_ne by done. apply lookup_insert_eq.
  - rewrite HT5, lookup_insert_ne by done. apply lookup_insert_eq.
  - intros u. rewrite HT5. destruct (decide (u = t)) as [->|Hu]; [by left|]. rewrite lookup_insert_ne by done.
    destruct (decide (u = idle)) as [->|Hi]; [by right|]. rewrite lookup_insert_ne, lookup_singleton_ne by done.
    intros [? [=]].
  - intros h. rewrite HQ5. unfold enlisted, Q1, enlisted.
    destruct (decide (QReady (RT_THREAD_PRIORITY_MAX - 1) = h)) as [<-|Hh1].
    + rewrite (decide_False (P := QReady RT_MAIN_THREAD_PRIORITY = _)) by done. cbn [app].
      rewrite filter_cons_True; [by rewrite filter_nil|by intros E; apply Hti].
    + case_decide; [|done]. cbn [app]. rewrite filter_cons_False; [by rewrite filter_nil|by intros E; apply E].
Qed.

(** The set-up of the board. *)
Lemma board_init_ok s : at_reset s -> still_unstarted start_cost (rt_hw_board_init s).
Proof.
  intros HR. destruct (Hclock s HR) as (s1 & E1 & HR1). destruct (heap_init_ok s1 HR1) as (s2 & E2 & HU2).
  assert (Hs : 0 <= start_cost) by (by vm_compute). pose proof Hpos as (? & ? & ? & ?). pose proof Hroom.
  unfold rt_hw_board_init. erewrite bind_done by exact E1. erewrite bind_done by exact E2.
  eapply still_bind; [eapply driver_still; [exact Hpin|exact HU2|lia]|intros _ D3 s3 HU3].
  eapply still_bind; [eapply driver_still; [exact Husart|exact HU3|lia]|intros _ D4 s4 HU4].
  eapply still_bind; [eapply driver_still; [exact Hconsole|exact HU4|lia]|intros _ D5 s5 HU5].
  destruct (Hcomponents _ _ _ HU5) as (D6 & s6 & E6 & HU6); [lia|]. exists tt, D6, s6. split; [exact E6|].
  eapply unstarted_less; [|exact HU6]. lia.
Qed.

End Boot.

(** ** A board *)
(** 176 KiB of heap above the static data. The serial ports are a device on the
    heap, and setting up the pins writes to the output. *)
#[local] Existing Instance no_signals.
#[local] Instance reset_heap : SystemHeap := {| addr_heap := 0x20000100 |}.
#[local] Instance reset_environment : Environment := {| rand_after_srand x := x; pin_level _ _ := 0 |}.
#[local] Instance reset_board : Board :=
  {| board_clock := mret tt; rt_hw_pin_init := rt_kprintf "pins" [];
     rt_hw_usart_init := mock_device_init (fun _ r => r) Mspeaker "uart1";
     rt_console_set_device _ := mret tt; rt_components_board_init := mret tt; rt_components_init := mret tt;
     HEAP_BEGIN := 0x20004000 |}.
#[local] Instance reset_layout : Layout :=
  {| addr_current_priority _ := 0; addr_stack _ := 0x20001000; addr_original_priority _ := 0; addr_string _ := 0;
     addr_mb_pool _ := 0 |}.
Definition reset_size : Z := HEAP_END - HEAP_BEGIN.

(** The static data is zero. *)
Definition kstate_reset : kstate :=
  KState ∅ ∅ ∅ ∅ ∅ [] [] 0 0 0 None 0 0 0 0 ∅ ∅ ∅ ∅ ∅ ∅ ∅ 1%positive ∅ (fun _ => 0) ∅ (replicate 4 None) rvc1 [].

Lemma reset_placed : placed addr_heap HEAP_BEGIN reset_size [(reset_size - 48, false)].
Proof. split; [split; by vm_compute|split; by vm_compute|left; by vm_compute|by repeat constructor|done]. Qed.

Lemma reset_apart : addr_heap + 100 <= HEAP_BEGIN \/ HEAP_BEGIN + reset_size <= addr_heap.
Proof. left. by vm_compute. Qed.

Lemma reset_heap_above : 0 < addr_heap.
Proof. by vm_compute. Qed.

Lemma reset_begin_above : 0 < HEAP_BEGIN.
Proof. by vm_compute. Qed.

Lemma driver_ok_skip `{!HeapSpec, !HeapRoom} : driver_ok 0 (mret tt).
Proof. intros N D s HU _. exists D, s. split; [done|]. by rewrite Z.sub_0_r. Qed.

Lemma driver_ok_print `{!HeapSpec, !HeapRoom} format args : driver_ok 0 (rt_kprintf format args).
Proof.
  intros N D s HU _. destruct (prints_quiet N D s format args HU) as ([] & D' & s' & E & HU'). exists D', s'. by rewrite Z.sub_0_r.
Qed.

Lemma driver_ok_mock `{!HeapSpec, !HeapRoom} put ops name : driver_ok mock_cost (mock_device_init put ops name).
Proof. intros N D s. apply mock_device_ok. Qed.

