(* ===== verification/AppThm.v ===== *)
(** What the tasks of the application do with the services of the kernel. *)
From S2P Require Export App MutexThm EventThm SignalThm.
Local Open Scope Z_scope.

(** ** The battery

    The system thread, [me], finds a time whose milliseconds are a multiple of
    900, the battery's mutex free and the system on. *)
Record battery_time (s : kstate) (me : tid) (th : rt_thread) : Prop := {
  bt_context : thread_context s me th;
  bt_mutex : mutex_is s battMutex MFree;
  bt_on : turnOffFlag (rvc s) <> 1;
  bt_started : startingTime (rvc s) <> 0;
  bt_time : Z.rem (s32 (u32 (rt_tick s * (1000 / RT_TICK_PER_SECOND)))) 900 = 0 }.

(** [n] rounds of the loop of the system thread with no tick in between. *)
Fixpoint Tsystem_rounds `{!SignalOps, !HeapOps, !Layout, !Environment} (n fuel : nat) : K bool :=
  match n with
  | O => mret false
  | S n => stop ← Tsystem_round fuel; if (stop : bool) then mret true else Tsystem_rounds n fuel
  end.

Definition set_rvc (r : rvc_state) (s : kstate) : kstate := s <| rvc := r |>.

Section Battery.
Context `{!SignalOps, !HeapOps, !Layout, !Environment}.

Lemma Tsystem_round_battery fuel s me th :
  battery_time s me th ->
  exists s', Tsystem_round fuel s = Done false s' /\ battery_time s' me (th <| error := RT_EOK |>) /\
    rvc s' = battery_decrement (rvc s) /\ rt_tick s' = rt_tick s.
Proof.
  intros [HC [Ht [[p Hm] Hq]] Hon Hst Htime].
  assert (Hm' : exists q, mutexes s !! battMutex = Some (RtMutex 1 q 0 None)) by (by exists p).
  set (th0 := th <| error := RT_EOK |>). destruct (no_error_context s me th HC) as [HC0 F0].
  set (s1 := mutex_set battMutex (RtMutex 0 (current_priority th) 1 (Some me)) (no_error me th s)).
  set (s2 := set_rvc (battery_decrement (rvc s)) s1).
  set (s3 := mutex_set battMutex (RtMutex 1 0xff 0 None) s2).
  assert (HC2 : thread_context s2 me th0).
  { destruct HC0 as [HK0 Hc0 Hth0 Hn0]. split; try done.
    eapply kok_ext; [exact HK0|done..]. }
  assert (Hh : mutex_is s2 battMutex (MHeld me 1 (current_priority th0) [])).
  { split; [done|]. split; [apply lookup_insert_eq|]. by split. }
  exists s3. split; [|split; [|done]].
  - unfold Tsystem_round. rewrite bind_gets. rewrite (proj2 (Z.eqb_neq _ 1)) by done.
    erewrite (bind_done rt_tick_get_millisecond) by done. rewrite Htime.
    rewrite (proj2 (Z.eqb_neq (startingTime _) 0)) by done. cbn [Z.eqb andb negb].
    erewrite bind_done by exact (mutex_take_free fuel s battMutex p me th RT_WAITING_FOREVER HC Ht Hm).
    fold s1. erewrite (bind_done (mod_rvc _) _ s1 tt s2) by done.
    by erewrite bind_done by exact (mutex_release_alone s2 battMutex me th0 HC2 Hh).
  - split; [| | | |].
    + destruct HC2 as [HK2 Hc2 Hth2 Hn2]. split; try done. by apply mutex_set_ok.
    + split; [done|]. split; [exists 0xff; apply lookup_insert_eq|done].
    + done.
    + done.
    + done.
Qed.

(** C37. The system thread takes [DEC_VALUE] from the battery on every round of
    its loop, not once per 900 ms: as long as no tick passes, [n] rounds take
    [n] times as much, and each leaves the conditions for the next. The status
    is unsigned: below zero it wraps around, above a full battery, so that the
    test for an empty battery does not see it. *)
Theorem battery_drains n fuel s me th :
  battery_time s me th -> 0 <= batteryStatus (rvc s) < 2 ^ 32 ->
  exists s', Tsystem_rounds n fuel s = Done false s' /\ rt_tick s' = rt_tick s /\
    batteryStatus (rvc s') = u32 (batteryStatus (rvc s) - DEC_VALUE * Z.of_nat n) /\
    (exists th', battery_time s' me th') /\
    (batteryStatus (rvc s) < DEC_VALUE * Z.of_nat n <= batteryStatus (rvc s) + 2 ^ 31 ->
     CHARGE < batteryStatus (rvc s')).
Proof.
  intros HB Hr.
  enough (Hmain : exists s', Tsystem_rounds n fuel s = Done false s' /\ rt_tick s' = rt_tick s /\
    batteryStatus (rvc s') = u32 (batteryStatus (rvc s) - DEC_VALUE * Z.of_nat n) /\
    (exists th', battery_time s' me th')).
  { destruct Hmain as (s' & E & Et & Eb & Hth). exists s'. split_and!; try done.
    intros Hn. rewrite Eb. unfold u32, wrap, CHARGE.
    rewrite <- (Z.mod_add _ 1), Z.mod_small by lia. lia. }
  revert s th HB Hr. induction n as [|n IH]; intros s th HB Hr.
  - exists s. split; [done|]. split; [done|]. split; [|by exists th]. unfold u32, wrap.
    rewrite Z.mul_0_r, Z.sub_0_r. by rewrite Z.mod_small.
  - destruct (Tsystem_round_battery fuel s me th HB) as (s1 & E1 & HB1 & Er & Et1).
    assert (Eb1 : batteryStatus (rvc s1) = u32 (batteryStatus (rvc s) - DEC_VALUE)) by (by rewrite Er).
    destruct (IH s1 _ HB1) as (s2 & E2 & Et2 & Eb2 & Hth).
    { rewrite Eb1. apply Z.mod_pos_bound. lia. }
    exists s2. split; [cbn [Tsystem_rounds]; by erewrite bind_done by exact E1|]. split; [congruence|].
    split; [|done]. rewrite Eb2, Eb1. unfold u32, wrap. rewrite Zminus_mod_idemp_l. f_equal. lia.
Qed.
End Battery.

(** ** The two alarms *)
Section Alarms.
Context `{!SignalOps, !HeapOps, !Layout, !Environment}.

Lemma set_task_started_eq s t th n :
  threads s !! t = Some th ->
  set_task_started t n s =
    Done (s32 (rt_tick s)) (s <| threads ::= <[t := th <| tick_count := u16 n |> <| end_flag := 0 |>]> |>).
Proof.
  intros Hth. unfold set_task_started, set_tick_count, reset_end_flag.
  erewrite (bind_done rt_tick_get) by done.
  erewrite bind_done by exact (mod_thread_eq _ _ _ _ Hth).
  erewrite bind_done by (apply mod_thread_eq, lookup_insert_eq).
  unfold mret, prog_ret. f_equal. destruct s. unfold upd, F_threads. simpl. by rewrite insert_insert_eq.
Qed.

(** C38. When both resources run out before task 4 gets the processor, no alarm
    sounds: the task takes both events at once, finds that what it received is
    neither of the two values it knows, and starts waiting for the end of its
    time with both events gone and nothing said. *)
Theorem both_alarms_lost fuel s th e :
  thread_context s acoustic_signals th -> typed s (event_ref event_resources) RT_Object_Class_Event ->
  events s !! event_resources = Some (RtEvent (Z.lor EVENT_FLAG1 EVENT_FLAG2)) ->
  exists s1 k, acoustic_signals_round (S fuel) e s = Switch s1 k /\ out s1 = out s /\
    events s1 !! event_resources = Some (RtEvent 0).
Proof.
  intros HC Ht He.
  pose proof (event_recv_now s acoustic_signals th event_resources _ (Z.lor EVENT_FLAG1 EVENT_FLAG2)
    (Z.lor RT_EVENT_FLAG_OR RT_EVENT_FLAG_CLEAR) RT_WAITING_FOREVER HC Ht He) as E.
  specialize (E ltac:(done) ltac:(done) ltac:(done)).
  set (th1 := asks _ _ _) in E. set (s1 := event_set_to _ _ _) in E.
  unfold acoustic_signals_round. erewrite bind_done by exact E. cbv beta iota.
  change (default e (Some (Z.land (Z.lor EVENT_FLAG1 EVENT_FLAG2) (Z.lor EVENT_FLAG1 EVENT_FLAG2)))) with 6.
  cbn [Z.eqb negb RT_EOK].
  assert (Hth1 : threads s1 !! acoustic_signals = Some th1) by apply lookup_insert_eq.
  erewrite bind_done by exact (set_task_started_eq s1 _ th1 TICK_DELAY_T4 Hth1).
  set (th2 := th1 <| tick_count := u16 TICK_DELAY_T4 |> <| end_flag := 0 |>).
  set (s2 := s1 <| threads ::= <[acoustic_signals := th2]> |>).
  assert (Ea : acoustic_signal 6 s2 = Done tt s2) by done.
  erewrite bind_done by exact Ea.
  assert (Hth2 : threads s2 !! acoustic_signals = Some th2) by apply lookup_insert_eq.
  unfold end_round. cbn [busy_wait].
  exists s2. eexists. split; [|split; [done|apply lookup_insert_eq]].
  unfold mbind, prog_bind, get_tick_count at 1. cbn [outcome_bind].
  unfold mbind, prog_bind. rewrite (get_thread_eq _ _ _ Hth2). reflexivity.
Qed.
End Alarms.

(** ** Signals

    Both handlers of the application are sound for the loop of
    [rt_thread_handle_sig]: the obstacle handler, once per queue, when the robot
    is on the map, and [turnOffSystem] in the system thread. *)
Definition app_handler (me : tid) (th : rt_thread) (k : nat) (f : fn) : Prop :=
  f = F_signal_default_handler \/
  f = F_movement_control_obstacle_handler /\ Z.of_nat k = SIGUSR1 \/
  f = F_turnOffSystem /\ me = Tsystem /\ stat_of th <> RT_THREAD_READY.

Record app_signals (me : tid) (l : list (Z * Z)) (s : kstate) : Prop := {
  as_current : current_thread s = Some me;
  as_type : typed s (thread_ref Tsystem) RT_Object_Class_Thread;
  as_map : Robot.map_wf (rv_map (rvc s));
  as_once : NoDup l.*2;
  as_robot : SIGUSR1 ∈ l.*2 -> on_map (position0 (rvc s)) (position1 (rvc s));
  as_handlers th a v k f : threads s !! me = Some th -> sig_vectors th = Some (a, v) ->
    v !! k = Some (Some f) -> app_handler me th k f }.

Section Signals.
Context `{!SignalOps, !HeapOps}.

Lemma app_signals_step me l s s' : app_signals me l s -> loop_step me s s' -> app_signals me l s'.
Proof.
  intros [H1' H2' H3 H4 H5 H6] (E & th & th' & Hth & HT & Et). split; try done; try (by rewrite E).
  - intros th2 a v k f. rewrite HT, lookup_insert_eq. intros [= <-] Hv Hk.
    assert (Ev : sig_vectors th = Some (a, v)) by (by rewrite Et in Hv).
    specialize (H6 th a v k f Hth Ev Hk). unfold app_handler in *. by rewrite Et.
Qed.

Lemma app_signals_tail me n l s : app_signals me (n :: l) s -> app_signals me l s.
Proof.
  intros [H1' H2' H3 H4 H5 H6]. apply NoDup_cons in H4 as [_ H4]. split; try done.
  intros Hin. apply H5. cbn. by right.
Qed.

(** Printing the map writes to the output only. *)
Definition prints (s s' : kstate) : Prop := s' = s <| out := out s' |>.

Lemma print_row_ok r i cols s :
  (forall j, j ∈ cols -> is_Some (map_read r i j)) -> exists s', print_row r i cols s = Done tt s' /\ prints s s'.
Proof.
  revert s. induction cols as [|j cols IH]; intros s Hc; cbn [print_row].
  { exists s. split; [done|]. by destruct s. }
  destruct (Hc j) as [v Hv]; [by left|]. rewrite Hv. erewrite bind_done by done. erewrite bind_done by done.
  edestruct IH as (s' & E & HP); [intros k Hk; apply Hc; by right|]. exists s'. split; [exact E|]. by rewrite HP.
Qed.

Lemma print_rows_ok r rows s :
  Robot.map_wf (rv_map r) -> (forall i, i ∈ rows -> 0 <= i < MAP_SIDE) ->
  exists s', print_rows r rows s = Done tt s' /\ prints s s'.
Proof.
  intros Hm. revert s. induction rows as [|i rows IH]; intros s Hc; cbn [print_rows].
  { exists s. split; [done|]. by destruct s. }
  destruct (print_row_ok r i (seqZ 0 MAP_SIDE) s) as (s1 & E1 & HP1).
  { intros j Hj%elem_of_seqZ. apply Hm. split; [apply Hc; by left|]. lia. }
  erewrite bind_done by exact E1. destruct (IH s1) as (s' & E & HP); [intros k Hk; apply Hc; by right|].
  exists s'. split; [exact E|]. by rewrite HP, HP1.
Qed.

Lemma map_mark_wf m i j v : Robot.map_wf m -> on_map i j -> Robot.map_wf (<[(i, j) := v]> m).
Proof.
  intros Hm Hij x y. rewrite lookup_insert_is_Some', (Hm x y). split; [|by right]. by intros [[= <- <-]|].
Qed.

(** The obstacle handler changes the robot and the output. *)
Lemma obstacle_handler_ok s :
  Robot.map_wf (rv_map (rvc s)) -> on_map (position0 (rvc s)) (position1 (rvc s)) ->
  exists s', movement_control_obstacle_handler s = Done tt s' /\
    s' = s <| rvc := rvc s' |> <| out := out s' |> /\ Robot.map_wf (rv_map (rvc s')).
Proof.
  intros Hm Hp. destruct (proj2 (Hm _ _) Hp) as [v Hv]. unfold movement_control_obstacle_handler.
  assert (HR : exists r', obstacle_reaction (rvc s) = Some r' /\ Robot.map_wf (rv_map r')).
  { unfold obstacle_reaction, map_write. rewrite Hv. eexists. split; [reflexivity|].
    set (r1 := rvc s <| rv_map ::= _ |>). assert (Hm1 : Robot.map_wf (rv_map r1)) by exact (map_mark_wf _ _ _ 1 Hm Hp).
    clearbody r1. by destruct (direction r1). }
  destruct HR as (r' & ER & Hm'). erewrite (bind_done (on_rvc_ _) _ s tt (s <| rvc := r' |>)).
  2:{ unfold on_rvc_, on_rvc. rewrite bind_gets, ER. reflexivity. }
  unfold print_map. rewrite bind_gets. change (rvc (s <| rvc := r' |>)) with r'.
  destruct (print_rows_ok r' (seqZ 0 MAP_SIDE) (s <| rvc := r' |>) Hm') as (s' & E & HP).
  { intros i Hi%elem_of_seqZ. lia. }
  exists s'. split; [exact E|]. rewrite HP. split; [by destruct s|done].
Qed.

Lemma rt_signal_mask_eq s me th signo :
  current_thread s = Some me -> threads s !! me = Some th -> sig_valid signo = true ->
  rt_signal_mask signo s =
    Done tt (s <| threads ::= <[me := th <| sig_mask ::= (fun x => clear_bits x (2 ^ signo)) |>]> |>).
Proof.
  intros Hc Hth Hs. unfold rt_signal_mask. erewrite bind_done by (by apply self_eq).
  unfold sig_mask_of. rewrite Hs. erewrite bind_done by done. by apply mod_thread_eq.
Qed.

Lemma set_threads_twice s t th th' :
  s <| threads ::= <[t := th]> |> <| threads ::= <[t := th']> |> = s <| threads ::= <[t := th']> |>.
Proof. destruct s. unfold upd, F_threads. cbn. by rewrite insert_insert_eq. Qed.

Lemma set_task_as_not_preemptable_eq s t th :
  threads s !! t = Some th -> stat_of th <> RT_THREAD_READY -> typed s (thread_ref t) RT_Object_Class_Thread ->
  set_task_as_not_preemptable t s = Done tt
    (s <| threads ::= <[t := th <| current_priority := 0 |> <| number_mask := 1 |> <| preemptableFlag := 1 |>]> |>).
Proof.
  intros Hth Hs Ht. unfold set_task_as_not_preemptable, rt_thread_control.
  pose proof (change_priority_eq s t th 0 Hth Hs) as E. change (in_priority_table (u8 0)) with true in E. cbv iota in E.
  change (u8 0) with 0 in E. change (2 ^ 0) with 1 in E. rewrite set_threads_twice in E.
  erewrite bind_done.
  2:{ erewrite bind_done by (by apply assert_type_eq). change (RT_THREAD_CTRL_CHANGE_PRIORITY =? RT_THREAD_CTRL_CHANGE_PRIORITY) with true.
      cbv iota. erewrite bind_done by exact E. done. }
  erewrite mod_thread_eq by exact (lookup_insert_eq _ _ _). by rewrite set_threads_twice.
Qed.

(** [turnOffSystem] in the system thread. *)
Lemma turnOffSystem_ok s th :
  current_thread s = Some Tsystem -> threads s !! Tsystem = Some th -> stat_of th <> RT_THREAD_READY ->
  typed s (thread_ref Tsystem) RT_Object_Class_Thread ->
  turnOffSystem s = Done tt (s <| rvc ::= (fun r => r <| turnOffFlag := 1 |>) |>
    <| threads ::= <[Tsystem := th <| sig_mask := clear_bits (clear_bits (sig_mask th) (2 ^ SIGUSR1)) (2 ^ SIGUSR2) |>
       <| current_priority := 0 |> <| number_mask := 1 |> <| preemptableFlag := 1 |>]> |>).
Proof.
  intros Hc Hth Hs Ht. unfold turnOffSystem.
  erewrite bind_done by (by apply rt_signal_mask_eq).
  erewrite bind_done by (apply rt_signal_mask_eq; [done|apply lookup_insert_eq|done]).
  rewrite set_threads_twice.
  set (th2 := th <| sig_mask ::= _ |> <| sig_mask ::= _ |>).
  set (s2 := s <| threads ::= <[Tsystem := th2]> |>).
  erewrite bind_done by exact (set_task_as_not_preemptable_eq s2 Tsystem th2 (lookup_insert_eq _ _ _) Hs Ht).
  unfold s2.
  rewrite set_threads_twice. unfold mod_rvc, modify. by f_equal.
Qed.

Lemma app_handlers_sound mp me : @handlers_sound _ app_handlers mp me (app_signals me).
Proof.
  split; [apply app_signals_step|apply app_signals_tail|].
  intros node signo l s th a v f HA Hth Hv Hlen Hk Hsg. pose proof (app_signals_tail _ _ _ _ HA) as HA'.
  pose proof HA as [H1' H2' H3 H4 H5 H6]. unfold call_handler, app_handlers.
  assert (HS : forall s' th', threads s' !! me = Some th' -> si_list th' = si_list th -> sig_pending th' = sig_pending th ->
    sig_vectors th' = sig_vectors th -> mempools s' = mempools s -> mem s' = mem s -> queues s' = queues s ->
    handler_keeps mp me s s').
  { intros s' th' E1 E2 E3 E4 E5 E6 E7. split; [|by rewrite E5|done|unfold queue; by rewrite E7].
    intros th0 Hth0. simplify_eq. exists th', a, v. by rewrite E4. }
  destruct (H6 th a v _ f Hth Hv Hk) as [->|[[-> Es]|(-> & -> & Hr)]].
  - rewrite decide_True by done. exists s. split; [done|]. split; [by eapply HS|done].
  - rewrite decide_False by done. rewrite decide_True by done.
    assert (Esg : signo = SIGUSR1) by (unfold sig_valid in Hsg; lia). subst signo.
    destruct (obstacle_handler_ok s H3) as (s' & E & HF & Hm'); [apply H5; cbn; by left|].
    exists s'. split; [exact E|]. split; [by eapply HS; rewrite HF|].
    destruct HA' as [A1 A2 A3 A4 A5 A6]. cbn in H4. apply NoDup_cons in H4 as [H4 _].
    split; [by rewrite HF|unfold typed; by rewrite HF|done|done|by intros Hin|by rewrite HF].
  - rewrite !decide_False by done. rewrite decide_True by done.
    eexists. split; [by apply turnOffSystem_ok|]. split; [by eapply HS; first apply lookup_insert_eq|].
    destruct HA' as [A1 A2 A3 A4 A5 A6]. split; try done.
    intros th0 a0 v0 k f. cbn. rewrite lookup_insert_eq. intros [= <-] Hv0 Hk0. exact (A6 th a0 v0 k f Hth Hv0 Hk0).
Qed.
End Signals.


(** ** Examples *)
#[local] Existing Instance no_signals.
#[local] Instance app_heap : HeapOps := {| heap_malloc := fun _ => mret None; heap_free := fun _ => mret tt |}.
#[local] Instance app_layout : Layout := {|
  addr_current_priority := fun _ => 0; addr_stack := fun _ => 0;
  addr_original_priority := fun _ => 0; addr_string := fun _ => 0; addr_mb_pool := fun _ => 0 |}.
#[local] Instance app_environment : Environment := {|
  rand_after_srand := fun _ => 0; pin_level := fun _ _ => 0 |}.

(** A full battery is gone after 51 rounds. *)
Lemma battery_drains_witness :
  let s := set_rvc (rvc1 <| startingTime := 10 |>) (mutex_set 1 (RtMutex 1 0xff 0 None) kstate_idle) in
  exists s', Tsystem_rounds 51 0 s = Done false s' /\ batteryStatus (rvc s') = 2 ^ 32 - 2.
Proof.
  intros s. destruct (battery_drains 51 0 s 1 (thread0 RT_THREAD_RUNNING 10)) as (s' & E & _ & Eb & _).
  - split; try done.
    + split; try done. eapply kok_ext; [apply kstate_idle_kok|done..].
    + split; [by eexists|]. split; [by eexists|done].
  - done.
  - exists s'. split; [exact E|]. by rewrite Eb.
Defined.

(** Task 4 runs, with both events pending. *)
Definition task4_state : kstate :=
  kstate0 <| threads := {[acoustic_signals := thread0 RT_THREAD_RUNNING 6]} |>
    <| current_thread := Some acoustic_signals |>
    <| objs := {[thread_ref acoustic_signals := header RT_Object_Class_Thread 0;
                 timer_ref (thread_timer acoustic_signals) := header RT_Object_Class_Timer 0;
                 event_ref event_resources := header RT_Object_Class_Event RT_IPC_FLAG_FIFO]} |>
    <| timers := {[thread_timer acoustic_signals := idle_timer acoustic_signals]} |>
    <| events := {[event_resources := RtEvent 6]} |>.

Lemma task4_context : thread_context task4_state acoustic_signals (thread0 RT_THREAD_RUNNING 6).
Proof.
  split; try done. split.
  - apply kinv_no_queues; [done|done| |].
    + intros t th Ht. change (({[acoustic_signals := thread0 RT_THREAD_RUNNING 6]} : gmap tid rt_thread) !! t = Some th) in Ht.
      apply lookup_singleton_Some in Ht as [<- <-]. split; [by apply thread0_ok|done].
    + intros t [= <-]. by eexists.
  - intros t th Ht _. change (({[acoustic_signals := thread0 RT_THREAD_RUNNING 6]} : gmap tid rt_thread) !! t = Some th) in Ht.
    apply lookup_singleton_Some in Ht as [<- <-]. split; [by eexists|]. split; by eexists.
  - intros tm Hin. by apply elem_of_nil in Hin.
Qed.

Lemma both_alarms_lost_witness :
  exists s1 k, acoustic_signals_round 1 0 task4_state = Switch s1 k /\ out s1 = [] /\
    events s1 !! event_resources = Some (RtEvent 0).
Proof.
  destruct (both_alarms_lost 0 task4_state (thread0 RT_THREAD_RUNNING 6) 0) as (s1 & k & E & Eo & Ee).
  - apply task4_context.
  - by eexists.
  - done.
  - exists s1, k. by rewrite Eo.
Defined.

(** [SIGUSR2] is queued before [SIGUSR1] in the system thread: [turnOffSystem]
    runs and masks both, so that [SIGUSR1] stays in the queue. *)
Definition Tsystem_vectors : list (option fn) := <[31%nat := Some F_turnOffSystem]> (replicate 32 (Some F_signal_default_handler)).
Definition Tsystem_signals : rt_thread :=
  thread0 RT_THREAD_RUNNING 10 <| sig_mask := 2 ^ SIGUSR1 + 2 ^ SIGUSR2 |> <| sig_pending := 2 ^ SIGUSR1 + 2 ^ SIGUSR2 |>
    <| si_list := [(4100, SIGUSR2); (4112, SIGUSR1)] |>
    <| sig_vectors := Some (0, Tsystem_vectors) |>.
Definition state_signals : kstate :=
  pool_set 1 (RtMempool 4096 24 8 PNull 2 0) 4096 (PPool 1)
    (set_rvc rvc0 kstate0 <| threads ::= <[Tsystem := Tsystem_signals]> |> <| mem := {[4108 := PPool 1]} |>
       <| objs ::= <[thread_ref Tsystem := header RT_Object_Class_Thread 0]> |>).

Lemma state_signals_app : app_signals Tsystem (si_list Tsystem_signals) state_signals.
Proof.
  split; try done.
  - by eexists.
  - apply movement_init_wf.
  - repeat constructor; set_solver.
  - intros th a v k f. change (threads state_signals !! Tsystem) with (Some Tsystem_signals). intros [= <-] [= <- <-].
    destruct (decide (k = 31%nat)) as [->|Hk].
    + intros [= <-]. by right; right.
    + unfold Tsystem_vectors. rewrite list_lookup_insert_ne by done. intros [[= ->] _]%lookup_replicate. by left.
Qed.

Lemma handle_sig_loop_correct_witness :
  exists s' th', handle_sig_loop 2 Tsystem state_signals = Done tt s' /\ threads s' !! Tsystem = Some th' /\
    si_list th' = [(4112, SIGUSR1)] /\ turnOffFlag (rvc s') = 1.
Proof.
  destruct (handle_sig_loop_correct 1 Tsystem (app_signals Tsystem) (app_handlers_sound 1 Tsystem) 2 state_signals
    Tsystem_signals 0 _ [] [] state_signals_app eq_refl eq_refl) as (dn & rest & s' & th' & free' & _ & E & _ & _ & Hth & Hl & _);
    [done|repeat constructor| |done|simpl; lia|].
  - exists (RtMempool 4096 24 8 PNull 2 0). split; try done.
    + repeat constructor; set_solver.
    + intros b. cbn. rewrite !elem_of_cons, elem_of_nil. by intros [->|[->|[]]].
    + intros b. cbn. rewrite !elem_of_cons, elem_of_nil. by intros [->|[->|[]]].
  - exists s', th'. split; [exact E|]. split; [exact Hth|].
    assert (EC : match handle_sig_loop 2 Tsystem state_signals with
      | Done _ s => (si_list <$> threads s !! Tsystem, turnOffFlag (rvc s)) | _ => (None, 0) end = (Some [(4112, SIGUSR1)], 1))
      by (by vm_compute).
    rewrite E, Hth in EC. by injection EC.
Defined.
